(* ===== verification/_CoqProject ===== *)
-Q . S2P
Prelude.v
OvsLib.v
Blocks.v
PluginExtensions.v
Vrf.v
VrfFacts.v
VrfWitness.v
Neighbor.v
NeighborFacts.v
NeighborPoll.v
Bufmon.v
BufmonFacts.v
Subsystem.v
SubsystemFacts.v
SubsystemReconf.v
Vlan.v
Mirror.v
MirrorFacts.v
PortConfig.v
BridgePorts.v
BridgePortsFacts.v
BridgePortsReconf.v
MacLearning.v
MacLearningFacts.v
Sflow.v
SflowCli.v
SflowFacts.v
Lifecycle.v
Remotes.v
RemotesFacts.v
Reconfigure.v
ReconfigureFacts.v
ReconfigureOrder.v
DatapathId.v
Status.v
StatusFacts.v
Stats.v
StatsFacts.v
SystemStats.v
SystemStatsFacts.v
VrfConfigure.v
VrfConfigureFacts.v
VrfHistory.v
PluginsYaml.v
Plugins.v
PluginsFacts.v
BridgeConfigure.v
BridgeConfigureFacts.v
MainLoop.v
MainLoopFacts.v
World.v
WorldFacts.v
WorldHistory.v
Daemon.v
DaemonFacts.v
Unixctl.v
Init.v
