(* ===== verification/Prelude.v ===== *)
(** * ops-switchd: a verification development

    [ops-switchd] is the daemon of OpenSwitch that follows the configuration in
    the OVSDB database and programs the switch: src/src/ovs-vswitchd.c runs, in
    one loop, [bridge_run] (bridges, VRFs, ports, VLANs, mirrors, routes and
    neighbors), [subsystem_run] (physical interfaces), [bufmon_run] (buffer
    monitoring) and the callbacks of plugins.  Each component keeps structures
    of its own beside the rows of the database.  On every change of the
    database it deletes the structures without a row, creates those that are
    new, updates the modified ones and calls a provider (the ASIC plugin behind
    ofproto, netdev or bufmon) for every difference.

    ** How the code is modelled

    A C function is a function in the monad [M S] of this file: explicit state
    passing over a record of the globals it touches, with [Fault] for the ways
    the process can die (a failed [ovs_assert], a null dereference, an access
    outside an array, a use after free).  Pointers to structures of a hash map
    are the elements of a list, the iteration order of the map; a write through
    such a pointer replaces the element with the same key.  The database is an
    argument: the rows the IDL shows, with their change flags.  Calls to
    providers are appended to a log in the state, and their results are fields
    of a type class, functions of the log so far.  Strings are [string],
    machine integers are [Z] with [to_signed] and [to_unsigned] where the code
    converts.  Loops over maps, arrays and rows go over finite lists and need no
    fuel.  Three loops wait for something else and take fuel: the path
    comparison of [Remotes] (one iteration more than both paths have characters
    is enough), the token loop of [PluginsYaml] and the wait for the
    configuration in [Daemon]; for the last two a theorem says exactly when some
    fuel is enough.  The statistics threads of buffer monitoring and of the
    system, which never end, are step relations.

    ** Files

    - [Prelude]: outcomes, the monad, Hoare rules, tactics, shared lemmas.
    - [OvsLib]: the Open vSwitch library as the class [OvsLib] (hash map and
      string hash orders, smap parsing), libc address parsing and schema
      constants; [ref_lib] and others are instances for the examples.
    - [Blocks]: src/plugins/reconfigure-blocks.c, run-blocks.c and
      stats-blocks.c, one generic table of callback lists instantiated three
      times (modules [ReconfigureBlocks], [RunBlocks], [StatsBlocks]).
    - [PluginExtensions]: src/plugins/plugin-extensions.c.
    - [Vrf]: src/src/vrf.c, the routes, nexthops and ECMP settings of a VRF;
      [VrfFacts] their theorems, [VrfWitness] concrete instances.
    - [Neighbor]: the neighbor functions of src/src/bridge.c, on top of [Vrf]
      (a neighbor resolves the nexthops of routes); [NeighborFacts] and
      [NeighborPoll] their theorems and instances.
    - [Bufmon]: src/src/bufmon.c and bufmon-provider.c, both threads;
      [BufmonFacts] their theorems and instances.
    - [Subsystem]: src/src/subsystem.c; [SubsystemFacts] creation of
      interfaces, [SubsystemReconf] reconfiguration, status, statistics and
      instances.
    - [Vlan]: the VLAN functions of src/src/bridge.c with their theorem.
    - [Mirror]: port mirroring of src/src/bridge.c; [MirrorFacts] its theorems.
    - [PortConfig]: [port_configure] and the functions below it (members, bonds,
      VLAN settings) and the IP addresses of VRF ports.
    - [BridgePorts]: ports and interfaces of bridges and VRFs, from the rows to
      the devices; [BridgePortsFacts] each operation, [BridgePortsReconf] one
      whole reconfiguration of the ports of a bridge.
    - [MacLearning]: src/mac-learning-plugin, the MAC table and the flushes;
      [MacLearningFacts] its theorems and instances.
    - [Sflow]: sFlow settings of bridges and VRFs (src/src/bridge.c);
      [SflowCli]: the commands of src/src/cli/sflow_vty.c on the same rows;
      [SflowFacts] the theorems on both and on their agreement.
    - [Lifecycle]: creation and destruction of bridges, VRFs and their switches.
    - [Remotes]: managers, controllers, the local interface, flow tables and the
      MAC table size; [RemotesFacts] its theorems.
    - [Reconfigure]: the steps of [bridge_reconfigure] over all bridges and
      VRFs, composed of [Lifecycle] and [BridgePorts]; class [Member] is what a
      bridge and a VRF have in common.  [ReconfigureFacts] the state it leaves,
      [ReconfigureOrder] the order of its calls, and instances.
    - [DatapathId]: the Ethernet address and the datapath identifier of a bridge.
    - [Status]: [run_status_update], the status columns of interfaces and the
      transaction that writes them; [StatusFacts] the daemon among changing
      devices and failing transactions, and instances.
    - [Stats]: [run_stats_update], the statistics of interfaces, mirrors and
      controllers and the plugin blocks around them; [StatsFacts] their theorems.
    - [SystemStats]: src/src/system-stats.c, what a snapshot contains and the
      collector thread (module [Collector]); [SystemStatsFacts] their theorems.
    - [VrfConfigure], [BridgeConfigure]: "Complete the configuration", the last
      part of [bridge_reconfigure], for one VRF and for one bridge and then over
      all of them, which share the tables of the database, the sFlow number and,
      among VRFs, the ECMP settings of the process ([l3_globals]: a change of them
      is told to the switch of the first VRF only); [VrfConfigureFacts],
      [BridgeConfigureFacts] their theorems.
      [VrfHistory]: what the change flags say about successive tables, and a VRF
      in histories of the database.
    - [PluginsYaml], [Plugins]: src/plugins/plugins_yaml.c and plugins.c, the
      order of initialisation and the loading and calling of plugins;
      [PluginsFacts] their theorems.
    - [MainLoop]: [bridge_run], [bridge_wait] and [bridge_exit]; the components
      the loop calls besides the reconfiguration are the class [Components].
      [MainLoopFacts] the histories of the daemon.
    - [World]: the instance of [Components] made of [SystemStats] with its thread,
      [Stats], [Status] and the blocks of callbacks, all on the interfaces of the
      structures of [Reconfigure].  [WorldFacts]: they keep the promises of
      [Contract].  [WorldHistory]: what reaches the database, and instances.
    - [Daemon]: src/src/ovs-vswitchd.c and [wait_for_config_complete];
      [DaemonFacts] their theorems, and instances of those of [MainLoopFacts] with
      the components of [World].
    - [Init]: [bridge_init], [bufmon_init] and [init] of the MAC learning plugin,
      as the calls they make, and which columns the daemon is woken for.
    - [Unixctl]: the commands of ovs-appctl in bridge.c.

    ** What the theorems show

    - Convergence.  One run of the reconfiguration of routes, neighbors,
      subsystems, VLANs and mirrors returns (no fault) and leaves structures,
      and where the component owns it the switch, in the state the
      configuration describes, from any well-formed state.  The hypotheses are
      what the database and the IDL guarantee (distinct keys, change flags that
      tell the truth) and, where it is needed, that the provider accepts.
    - The daemon.  In every history of database contents and of the lock each
      trip through the main loop returns with well-formed structures; after a
      trip with the lock they follow the database; without the lock nothing is
      left or nothing happens; the start takes place once and in order; [main]
      ends after an exit command.  The other components are known by the
      interface [Components] and its promises [Contract]: each returns and keeps
      the invariant [world_ok], which relates its state to the structures, in
      the trips that are [trip_fine].  [WorldFacts] shows these promises of the
      collector of system statistics, the statistics, the status and the blocks
      of callbacks together.
    - End to end: the statistics and the status of every interface that the
      database wants, and whose switch and device work, are in its row after a
      trip whose transaction succeeds, whatever devices, configurations, locks
      and transactions did before.  A transaction of the status may take several
      trips and then writes what the devices had when it was started; a
      reconfiguration while one is open is left out, since there the code loses
      columns.
    - A VRF follows the tables of neighbors, routes and nexthops, which it shares
      with other VRFs, from its creation on through histories of updates: that its
      caches fit the change flags of the next update is part of what is proved,
      not assumed.  Left out are the updates on which the code does not follow: a
      route that is deleted and inserted again with other nexthops at once, a
      modified nexthop of a route with the same protocol and prefix in another
      VRF, and neighbors of several VRFs with one address; and rows that change
      their key.  Neighbors of other VRFs without a port or a MAC address stay in
      the cache.
    - Composition.  The reconfiguration of bridges, VRFs, ports and switches
      keeps the structures consistent with each other and with the switches,
      sends all removals before all additions and leaves an interface alone
      that still fits; the MAC learning plugin flushes exactly the ports that are
      not wanted any more, and of those that the bridge code then destroys only
      wanted ones all of whose interfaces were replaced are not flushed; what the
      sFlow command line shows, collectors and agent included, is what every
      bridge and VRF is configured with.
    - Behaviour of each operation: which provider calls are made, in which
      order, with which arguments, on every branch; which errors are reported
      where; what an error leaves behind.
    - Ordering: callbacks run by priority and registration order, plugins are
      initialised in the order of plugins.yaml and then the rest, split parents
      are opened before their children, routes are re-programmed before a host
      entry is withdrawn.
    - Reference definitions: path comparison against squeezed paths, the choice
      of a bridge address against the minimum, the MAC table against a map from
      address and VLAN to port that the reports of the switch change one after
      the other.
    - Concurrency: the trigger rate limit of buffer monitoring (at most twice the
      limit in a minute of the clock, 100 ms between two) and the handshake of the system statistics in every interleaving of their thread with the
      main loop.  In [World] the thread takes its turns of a trip when the main
      loop reaches the system statistics.
    - Where the code does not do what it means to, a theorem says what it does
      instead: removal of an interface, disabled counters, neighbors and
      nexthops of other VRFs, failed withdrawals, mirror errors and missing
      mirror ports, bridges with a slash in their name, unparsed flow table
      groups, flush requests that are lost, sFlow collectors given twice, a
      reconfiguration in the middle of a status transaction, plugins of the same
      name, a plugins.yaml that does not parse, ports of a bridge that is created
      again, VRFs when the daemon ends, routes that are deleted and inserted again in
      one update.

    ** What is not modelled

    Code that this build leaves out (preprocessor symbols OPS and OPS_TEMP: STP,
    RSTP, NetFlow, IPFIX, queues, VLAN splinters); usage and log messages; the
    registration of the sFlow commands with the shell; the header files that only
    declare what an ASIC plugin implements.  [Reconfigure] and
    [BridgeConfigure] have states of their own: the first knows the structures
    of bridges and ports, the second their VLANs, mirrors, routes and settings.
    The main loop of [World] therefore calls the completion of the configuration
    and the polling of neighbors through the class [RestOps], of which the
    theorems ask that they return.  What the transaction of a reconfiguration
    returns is a field of [env]. *)

From stdpp Require Export base tactics gmap strings list fin_maps sorting.
From Stdlib Require Export ZArith Lia.

(** ** Notations *)

Declare Scope switchd_scope.
Delimit Scope switchd_scope with switchd.

(** Two C strings compare equal: [strcmp(a, b) == 0]. *)
Notation "a =s b" := (bool_decide (a%string = b%string))
  (at level 70, no associativity) : switchd_scope.

(** ** errno values used by the sources *)

Definition EPERM : Z := 1.
Definition ENXIO : Z := 6.
Definition ENOMEM : Z := 12.
Definition EFAULT : Z := 14.
Definition EINVAL : Z := 22.

(** ** Machine integers *)

Definition UINT_MAX : Z := (2 ^ 32 - 1)%Z.
Definition UINT64_MAX : Z := (2 ^ 64 - 1)%Z.
Definition INT_MAX : Z := (2 ^ 31 - 1)%Z.
Definition LLONG_MIN : Z := (- 2 ^ 63)%Z.

(** Conversion to a [w]-bit unsigned integer and to a [w]-bit two's complement
    integer. *)
Definition to_unsigned (w z : Z) : Z := (z mod 2 ^ w)%Z.
Definition to_signed (w z : Z) : Z :=
  let u := (z mod 2 ^ w)%Z in if (u <? 2 ^ (w - 1))%Z then u else (u - 2 ^ w)%Z.

(** ** Outcomes of C code

    A C function either returns, or the process dies: an [ovs_assert] fails,
    a null pointer is dereferenced, memory outside an object is accessed, or an
    object is used before it is initialised. *)

Inductive fault : Type :=
| AssertionFailure
| NullDereference
| UseAfterFree
| BufferOverflow
| IntegerOverflow
| Uninitialised.

#[export] Instance fault_eq_dec : EqDecision fault.
Proof. solve_decision. Defined.

Inductive outcome (A : Type) : Type :=
| Ok (a : A)
| Fault (f : fault).
Arguments Ok {A} a.
Arguments Fault {A} f.

(** Stateful code that may die: the state is threaded explicitly. *)
Definition M (S A : Type) : Type := S → outcome (A * S).

#[export] Instance M_ret {S} : MRet (M S) := λ A a s, Ok (a, s).
#[export] Instance M_bind {S} : MBind (M S) := λ A B f c s,
  match c s with
  | Ok (a, s') => f a s'
  | Fault e => Fault e
  end.

Definition get {S} : M S S := λ s, Ok (s, s).
Definition gets {S A} (f : S → A) : M S A := λ s, Ok (f s, s).
Definition modify {S} (f : S → S) : M S unit := λ s, Ok (tt, f s).
Definition die {S A} (e : fault) : M S A := λ _, Fault e.
Definition ovs_assert {S} (b : bool) : M S unit :=
  if b then mret tt else die AssertionFailure.
(** Dereference of a pointer that may be null. *)
Definition deref {S A} (p : option A) : M S A :=
  match p with Some a => mret a | None => die NullDereference end.

(** A [for] loop over the elements of a list. *)
Fixpoint mfor {S A} (l : list A) (f : A → M S unit) : M S unit :=
  match l with
  | [] => mret tt
  | x :: l' => f x ;; mfor l' f
  end.

(** A loop that carries a value from one iteration to the next. *)
Fixpoint mfold {S A B} (f : B → A → M S B) (l : list A) (b : B) : M S B :=
  match l with
  | [] => mret b
  | x :: l' => b' ← f b x; mfold f l' b'
  end.

Definition mwhen {S} (b : bool) (c : M S unit) : M S unit :=
  if b then c else mret tt.

Lemma mfold_ext {S A B} (f g : B → A → M S B) (l : list A) (b : B) s :
  (∀ b x, f b x = g b x) → mfold f l b s = mfold g l b s.
Proof.
  intros Hfg. revert b s. induction l as [|x l IH]; intros b s; simpl; [done|].
  unfold mbind, M_bind. rewrite Hfg. by destruct (g b x s) as [[b' s']|].
Qed.

Lemma mfor_ext {S A} (f g : A → M S unit) (l : list A) s :
  (∀ x s, f x s = g x s) → mfor l f s = mfor l g s.
Proof.
  intros Hfg. revert s. induction l as [|x l IH]; intros s; simpl; [done|].
  unfold mbind, M_bind. rewrite Hfg. by destruct (g x s) as [[b' s']|].
Qed.

(** ** Hoare triples for [M]

    [hoare P c Q] is total correctness: from a state in [P] the code returns
    (no fault) and the result and final state are in [Q].  [hoarep] is the
    partial version, for code whose environment may make it die. *)

Definition hoare {S A} (P : S → Prop) (c : M S A) (Q : A → S → Prop) : Prop :=
  ∀ s, P s → ∃ a s', c s = Ok (a, s') ∧ Q a s'.

Definition hoarep {S A} (P : S → Prop) (c : M S A) (Q : A → S → Prop) : Prop :=
  ∀ s a s', P s → c s = Ok (a, s') → Q a s'.

Section hoare_rules.
Context {S : Type}.
Implicit Types P : S → Prop.

Lemma bind_Ok {A B} (c : M S A) (f : A → M S B) s b s'' :
    (c ≫= f) s = Ok (b, s'') ↔ ∃ a s', c s = Ok (a, s') ∧ f a s' = Ok (b, s'').
Proof.
    unfold mbind, M_bind. split.
    - destruct (c s) as [[a s']|e]; [|done]. eauto.
    - intros (a & s' & -> & E). exact E.
Qed.

  (** One step of a sequence. *)
Lemma bind_run {A B} (c : M S A) (f : A → M S B) s a s' :
    c s = Ok (a, s') → (c ≫= f) s = f a s'.
Proof. unfold mbind, M_bind. by intros ->. Qed.

Lemma bind_fault {A B} (c : M S A) (f : A → M S B) s e : c s = Fault e → (c ≫= f) s = Fault e.
Proof. unfold mbind, M_bind. by intros ->. Qed.

Lemma hoare_ret {A} P (a : A) : hoare P (mret a) (λ r s, r = a ∧ P s).
Proof. intros s Hs. by exists a, s. Qed.

Lemma hoare_bind {A B} P (c : M S A) (f : A → M S B) Q R :
    hoare P c Q → (∀ a, hoare (Q a) (f a) R) → hoare P (c ≫= f) R.
Proof.
    intros Hc Hf s Hs. destruct (Hc s Hs) as (a & s' & E & HQ).
    destruct (Hf a s' HQ) as (b & s'' & E' & HR).
    exists b, s''. split; [|done]. apply bind_Ok. eauto.
Qed.

Lemma hoare_conseq {A} P P' (c : M S A) Q Q' :
    hoare P' c Q' → (∀ s, P s → P' s) → (∀ a s, Q' a s → Q a s) → hoare P c Q.
Proof. intros H HP HQ s Hs. destruct (H s) as (a & s' & ? & ?); eauto 10. Qed.

Lemma hoare_modify P (f : S → S) Q :
    (∀ s, P s → Q tt (f s)) → hoare P (modify f) Q.
Proof. intros H s Hs. exists tt, (f s). eauto. Qed.

Lemma hoare_get P (Q : S → S → Prop) : (∀ s, P s → Q s s) → hoare P get Q.
Proof. intros H s Hs. exists s, s. eauto. Qed.

Lemma hoare_gets {A} P (g : S → A) (Q : A → S → Prop) :
    (∀ s, P s → Q (g s) s) → hoare P (gets g) Q.
Proof. intros H s Hs. exists (g s), s. eauto. Qed.

  (** The loop rule: [I done] holds when the elements of [done] have been
      handled. *)
Lemma hoare_for {A} (l : list A) (f : A → M S unit) (I : list A → S → Prop) :
    (∀ d x r, l = d ++ x :: r → hoare (I d) (f x) (λ _, I (d ++ [x]))) →
    hoare (I []) (mfor l f) (λ _, I l).
Proof.
    intros Hf.
    assert (∀ r d, l = d ++ r → hoare (I d) (mfor r f) (λ _, I l)) as H; [|by apply (H l)].
    induction r as [|x r IH]; intros d Hl; simpl.
    - rewrite app_nil_r in Hl. subst d. intros s Hs. by exists tt, s.
    - eapply hoare_bind; [by eapply Hf|]. intros ?.
      apply IH. by rewrite <-app_assoc.
Qed.

Lemma hoare_for_inv {A} (l : list A) (f : A → M S unit) (I : S → Prop) :
    (∀ x, x ∈ l → hoare I (f x) (λ _, I)) → hoare I (mfor l f) (λ _, I).
Proof.
    intros Hf. apply (hoare_for l f (λ _, I)). intros d x r ->. apply Hf. set_solver.
Qed.

Lemma hoare_fold {A B} (l : list A) (f : B → A → M S B) b0 (I : list A → B → S → Prop) :
    (∀ d x r b, l = d ++ x :: r → hoare (I d b) (f b x) (I (d ++ [x]))) →
    hoare (I [] b0) (mfold f l b0) (I l).
Proof.
    intros Hf.
    assert (∀ r d b, l = d ++ r → hoare (I d b) (mfold f r b) (I l)) as H; [|by apply (H l)].
    induction r as [|x r IH]; intros d b Hl; simpl.
    - rewrite app_nil_r in Hl. subst d. intros s Hs. by exists b, s.
    - eapply hoare_bind; [by eapply Hf|]. intros b'. apply IH. by rewrite <-app_assoc.
Qed.

Lemma hoarep_bind {A B} P (c : M S A) (f : A → M S B) Q R :
    hoarep P c Q → (∀ a, hoarep (Q a) (f a) R) → hoarep P (c ≫= f) R.
Proof. intros Hc Hf s b s'' Hs (a & s' & ? & ?)%bind_Ok. eapply Hf; eauto. Qed.

Lemma hoarep_ret {A} P (a : A) : hoarep P (mret a) (λ _, P).
Proof. by intros s b s' Hs [= <- <-]. Qed.

Lemma hoarep_gets {A} P (g : S → A) : hoarep P (gets g) (λ _, P).
Proof. by intros s b s' Hs [= <- <-]. Qed.

Lemma hoarep_modify P (f : S → S) : (∀ s, P s → P (f s)) → hoarep P (modify f) (λ _, P).
Proof. intros Hf s [] s' Hs [= <-]. by apply Hf. Qed.

Lemma hoarep_when P b (c : M S unit) : hoarep P c (λ _, P) → hoarep P (mwhen b c) (λ _, P).
Proof. intros Hc. destruct b; [done|apply hoarep_ret]. Qed.

(** An invariant of the body is one of the loop. *)
Lemma hoarep_for {A} P (l : list A) (f : A → M S unit) :
  (∀ x, hoarep P (f x) (λ _, P)) → hoarep P (mfor l f) (λ _, P).
Proof.
  intros Hf. induction l as [|x l IH]; [apply hoarep_ret|].
  eapply hoarep_bind; [apply Hf|]. intros ?. apply IH.
Qed.

Lemma hoare_hoarep {A} P (c : M S A) Q : hoare P c Q → hoarep P c Q.
Proof. intros H s a s' Hs E. destruct (H s Hs) as (?&?&?&?). congruence. Qed.
End hoare_rules.

(** ** What a command leaves alone

    [keeps R c]: whatever [c] does, the final state is related to the initial one. *)

Definition keeps {S A} (R : S → S → Prop) (c : M S A) : Prop :=
  ∀ s a s', c s = Ok (a, s') → R s s'.

Section keeps_rules.
Context {S : Type} (R : S → S → Prop) `{!PreOrder R}.

Lemma keeps_ret {A} (a : A) : keeps R (mret a).
Proof. by intros s b s' [= _ <-]. Qed.

Lemma keeps_gets {A} (g : S → A) : keeps R (gets g).
Proof. by intros s b s' [= _ <-]. Qed.

Lemma keeps_die {A} e : keeps R (die e : M S A).
Proof. by intros s b s'. Qed.

Lemma keeps_modify f : (∀ s, R s (f s)) → keeps R (modify f).
Proof. intros Hf s b s' [= _ <-]. apply Hf. Qed.

Lemma keeps_bind {A B} (c : M S A) (f : A → M S B) :
  keeps R c → (∀ a, keeps R (f a)) → keeps R (c ≫= f).
Proof. intros Hc Hf s b s'' (a & s' & ? & ?)%bind_Ok. etrans; [by eapply Hc|by eapply Hf]. Qed.

Lemma keeps_deref {A} (p : option A) : keeps R (deref p : M S A).
Proof. destruct p; [apply keeps_ret|apply keeps_die]. Qed.

Lemma keeps_assert b : keeps R (ovs_assert b : M S unit).
Proof. destruct b; [apply keeps_ret|apply keeps_die]. Qed.

Lemma keeps_when b (c : M S unit) : keeps R c → keeps R (mwhen b c).
Proof. intros Hc. destruct b; [done|apply keeps_ret]. Qed.

Lemma keeps_for {A} (l : list A) (f : A → M S unit) : (∀ x, keeps R (f x)) → keeps R (mfor l f).
Proof. intros Hf. induction l as [|x l IH]; [apply keeps_ret|]. by apply keeps_bind. Qed.

Lemma keeps_fold {A B} (f : B → A → M S B) (l : list A) b : (∀ b x, keeps R (f b x)) → keeps R (mfold f l b).
Proof. intros Hf. revert b. induction l as [|x l IH]; intros b; [apply keeps_ret|]. by apply keeps_bind. Qed.
End keeps_rules.

Create HintDb keeps.
#[export] Hint Resolve keeps_ret keeps_gets keeps_die keeps_deref keeps_assert : keeps.

(** Follow the code; what is left are the states that [modify] changes. *)
Ltac keeps_step :=
  match goal with
  | |- ∀ _, _ => intro
  | |- keeps _ (_ ≫= _) => apply keeps_bind; [apply _| |]
  | |- keeps _ (mfor _ _) => apply keeps_for; [apply _|]
  | |- keeps _ (mfold _ _ _) => apply keeps_fold; [apply _|]
  | |- keeps _ (mwhen _ _) => apply keeps_when; [apply _|]
  | |- keeps _ (modify _) => apply keeps_modify
  | |- keeps _ (match ?x with _ => _ end) => destruct x
  | |- keeps _ _ => solve [auto with keeps typeclass_instances]
  end.
Ltac keeps_auto := repeat keeps_step; try done.

(** [step E] runs the first command of a sequence by [E : c s = Ok (a, s')];
    [step] alone runs a command whose result is computed. *)
Tactic Notation "step" uconstr(E) := 
  erewrite bind_run by (first [solve [apply E] | eapply E; solve [reflexivity | eassumption]]); cbv beta.
Tactic Notation "step" := erewrite bind_run by reflexivity; cbv beta.

Create HintDb switchd.
Create Rewrite HintDb switchd.
#[export] Hint Resolve hoare_ret hoare_get hoare_hoarep hoarep_ret hoarep_gets hoarep_modify
  hoarep_when hoarep_for : switchd.

(** Decide a closed decidable goal by evaluation. *)
Ltac by_compute := apply (bool_decide_unpack _); vm_compute; exact I.

(** One case per element of an explicit list. *)
Ltac cases_elem H :=
  repeat (apply elem_of_cons in H as [->|H]; [|]); [..|by apply not_elem_of_nil in H].

(** ** Strings and lists *)

Lemma string_length_app (s1 s2 : string) :
  String.length (s1 +:+ s2) = (String.length s1 + String.length s2)%nat.
Proof. induction s1; simpl; [done|]. by f_equal. Qed.

Lemma string_cons_app c (a b : string) : (String c a +:+ b = String c (a +:+ b))%string.
Proof. done. Qed.

Lemma string_app_assoc (a b c : string) : ((a +:+ b) +:+ c = a +:+ b +:+ c)%string.
Proof. induction a as [|x a IH]; [done|]. by rewrite !string_cons_app, IH. Qed.

Lemma string_app_nil (a : string) : (a +:+ "" = a)%string.
Proof. induction a as [|x a IH]; [done|]. by rewrite string_cons_app, IH. Qed.

Lemma substring_all (s : string) n : (String.length s ≤ n)%nat → String.substring 0 n s = s.
Proof.
  revert n. induction s as [|c s IH]; intros [|n] Hn; simpl in *; try done; [lia|].
  f_equal. apply IH. lia.
Qed.

Lemma omap_length_le {A B} (f : A → option B) l : (length (omap f l) ≤ length l)%nat.
Proof. induction l as [|x l IH]; csimpl; [done|]. destruct (f x); simpl; lia. Qed.

Section list_filter.
Context {A : Type} (P Q : A → Prop) `{∀ x, Decision (P x), ∀ x, Decision (Q x)}.
Implicit Types l : list A.

Lemma filter_all l : (∀ x, x ∈ l → P x) → filter P l = l.
Proof.
    induction l as [|a l IH]; intros HP; [done|].
    rewrite filter_cons_True by (apply HP; set_solver). f_equal. apply IH. set_solver.
Qed.

Lemma filter_none l : (∀ x, x ∈ l → ¬ P x) → filter P l = [].
Proof.
    induction l as [|a l IH]; intros HP; [done|].
    rewrite filter_cons_False by (apply HP; set_solver). apply IH. set_solver.
Qed.

  (** A filter whose property implies another's is not changed by it. *)
Lemma filter_filter_sub l : (∀ x, P x → Q x) → filter P (filter Q l) = filter P l.
Proof.
    intros HPQ. rewrite list_filter_filter. apply list_filter_iff. intros x. specialize (HPQ x). tauto.
Qed.

Lemma StronglySorted_filter (R : relation A) l :
    StronglySorted R l → StronglySorted R (filter P l).
Proof.
    induction 1 as [|a l Hs IH Ha]; [constructor|].
    rewrite filter_cons. case_decide; [|done]. constructor; [done|].
    rewrite Forall_forall in Ha |- *. intros x [_ Hx]%list_elem_of_filter. eauto.
Qed.

Lemma NoDup_fmap_filter {B} (f : A → B) l : NoDup (f <$> l) → NoDup (f <$> filter P l).
Proof.
    intros Hl. eapply sublist_NoDup; [exact Hl|].
    apply (fmap_sublist f), sublist_filter.
Qed.

Lemma Forall_filter_sub (R : A → Prop) l : Forall R l → Forall R (filter P l).
Proof. rewrite !Forall_forall. intros HR x [_ Hx]%list_elem_of_filter. eauto. Qed.
End list_filter.

Lemma list_omap_ext_in {A B} (f g : A → option B) (l : list A) :
  (∀ x, x ∈ l → f x = g x) → omap f l = omap g l.
Proof.
  intros Hl. apply list_omap_ext, Forall_Forall2_diag, Forall_forall. exact Hl.
Qed.

Lemma omap_length {A B} (f : A → option B) (l : list A) : length (omap f l) ≤ length l.
Proof. induction l as [|x l IH]; csimpl; [lia|]. destruct (f x); simpl; lia. Qed.

Lemma NoDup_omap_elem {A B} (f : A → option B) (l : list A) x y b :
  NoDup (omap f l) → x ∈ l → y ∈ l → f x = Some b → f y = Some b → x = y.
Proof.
  induction l as [|z l IH]; csimpl; intros Hnd Hx Hy Ex Ey; [set_solver|].
  assert (∀ w, w ∈ l → f w = Some b → f z ≠ Some b) as Hz.
  { intros w Hw Ew Ez. rewrite Ez in Hnd. apply NoDup_cons in Hnd as [Hn _]. apply Hn.
    apply list_elem_of_omap. eauto. }
  assert (NoDup (omap f l)) as Hnd' by (destruct (f z); [by apply NoDup_cons in Hnd as [_ ?]|done]).
  apply elem_of_cons in Hx as [->|Hx], Hy as [->|Hy]; [done|naive_solver..|by apply IH].
Qed.

Lemma Forall2_elem_l {A B} (R : A → B → Prop) (l : list A) (k : list B) x :
  Forall2 R l k → x ∈ l → ∃ y, y ∈ k ∧ R x y.
Proof.
  intros HR [i Hi]%list_elem_of_lookup. destruct (Forall2_lookup_l _ _ _ _ _ HR Hi) as (y & Hy & ?).
  exists y. split; [by eapply list_elem_of_lookup_2|done].
Qed.

Lemma Forall2_elem_r {A B} (R : A → B → Prop) (l : list A) (k : list B) y :
  Forall2 R l k → y ∈ k → ∃ x, x ∈ l ∧ R x y.
Proof. intros HR%Forall2_flip Hy. by apply (Forall2_elem_l (flip R) k). Qed.

Lemma NoDup_fmap_elem {A B} (f : A → B) (l : list A) x y :
  NoDup (f <$> l) → x ∈ l → y ∈ l → f x = f y → x = y.
Proof.
  intros Hnd [i Hi]%list_elem_of_lookup [j Hj]%list_elem_of_lookup E.
  assert (i = j) as ->; [|congruence].
  eapply NoDup_lookup; [exact Hnd|..]; rewrite list_lookup_fmap; [rewrite Hi|rewrite Hj]; simpl;
    [done|by f_equal].
Qed.

Lemma list_filter_iff_strong {A} (P Q : A → Prop) `{∀ x, Decision (P x), ∀ x, Decision (Q x)}
  (l : list A) : (∀ x, x ∈ l → P x ↔ Q x) → filter P l = filter Q l.
Proof.
  induction l as [|x l IH]; intros HPQ; [done|]. rewrite !filter_cons.
  assert (P x ↔ Q x) as Hx by (apply HPQ; set_solver).
  rewrite IH by (intros; apply HPQ; set_solver).
  destruct (decide (P x)), (decide (Q x)); tauto.
Qed.

(** Replacing or removing the only element with a name. *)
Lemma replace_by_name {A} `{EqDecision K} (name : A → K) (d r : list A) x y :
  NoDup (name <$> d ++ x :: r) →
  (λ z, if bool_decide (name z = name x) then y else z) <$> (d ++ x :: r) = d ++ y :: r.
Proof.
  intros Hnd. rewrite fmap_app, fmap_cons, bool_decide_true by done.
  rewrite fmap_app, fmap_cons in Hnd. apply NoDup_app in Hnd as (_ & Hd & Hr).
  apply NoDup_cons in Hr as [Hx _].
  assert (∀ l : list A, name x ∉ (name <$> l) → (λ z, if bool_decide (name z = name x) then y else z) <$> l = l) as Hl.
  { intros l Hn. rewrite <-(list_fmap_id l) at 2. apply list_fmap_ext.
    intros j z Hz%list_elem_of_lookup_2. rewrite bool_decide_false; [done|].
    intros E. apply Hn. rewrite <-E. by apply list_elem_of_fmap_2. }
  rewrite !Hl; [done|done|]. intros Hn. apply (Hd _ Hn). left.
Qed.

Lemma filter_by_name {A} (name : A → string) (d r : list A) x y :
  name y = name x → NoDup (name <$> d ++ x :: r) →
  filter (λ z, name z ≠ name x) (d ++ y :: r) = d ++ r.
Proof.
  intros E Hnd. rewrite fmap_app, fmap_cons in Hnd. apply NoDup_app in Hnd as (_ & Hd & Hr).
  apply NoDup_cons in Hr as [Hx _]. rewrite filter_app, filter_cons_False by naive_solver.
  rewrite !filter_all; [done|..]; intros z Hz Ez.
  - apply Hx. rewrite <-Ez. by apply list_elem_of_fmap_2.
  - apply (Hd (name z)); [by apply list_elem_of_fmap_2|]. rewrite Ez. left.
Qed.

(** ** Loops over elements with distinct keys

    Each iteration changes the state only at the key of its element; then the
    loop changes each key by the iteration of that key, and no other key. *)
Lemma mfor_keyed {S A K V} (view : S → K → V) (key : A → K) (I : S → Prop)
  (Post : A → V → V → Prop) (f : A → M S unit) (l : list A) (s : S) :
  NoDup (key <$> l) → I s →
  (∀ x s, x ∈ l → I s → ∃ s', f x s = Ok (tt, s') ∧ I s' ∧
     Post x (view s (key x)) (view s' (key x)) ∧ ∀ u, u ≠ key x → view s' u = view s u) →
  ∃ s', mfor l f s = Ok (tt, s') ∧ I s' ∧
    (∀ x, x ∈ l → Post x (view s (key x)) (view s' (key x))) ∧
    (∀ u, u ∉ (key <$> l) → view s' u = view s u).
Proof.
  intros Hnd HI Hf. revert s HI. induction l as [|x l IH]; intros s HI.
  { exists s. set_solver. }
  rewrite fmap_cons, NoDup_cons in Hnd. destruct Hnd as [Hx Hnd].
  destruct (Hf x s) as (s1 & E1 & HI1 & HP1 & Hv1); [left|done|].
  destruct (IH Hnd) with (s := s1) as (s' & E & HI' & HP & Hv); [|done|].
  { intros y s2 Hy. apply Hf. by right. }
  exists s'. cbn [mfor]. erewrite bind_run by exact E1. split; [done|]. split; [done|]. split.
  - intros y [->|Hy]%elem_of_cons.
    + by rewrite (Hv (key x)).
    + rewrite <-(Hv1 (key y)); [by apply HP|]. intros Ek. apply Hx. rewrite <-Ek. by apply list_elem_of_fmap_2.
  - intros u Hu. rewrite fmap_cons in Hu. apply not_elem_of_cons in Hu as [Hne Hu].
    rewrite Hv, Hv1; done.
Qed.
