(* ===== verification/OvsLib.v ===== *)
(** * What the sources use of the Open vSwitch library

    [hmap], [shash], [smap] and the IDL come from the Open vSwitch tree, which
    is not part of this repository.  The containers are modelled by their
    documented contents: an [hmap] is the list of its nodes in iteration order,
    an [shash] and an [smap] are finite maps keyed by strings.  What the
    library leaves open (the position of a new node in the iteration order,
    the order in which [SHASH_FOR_EACH] visits the nodes, the interpretation
    of a value string as a boolean or an integer, the hash function) is a
    parameter, the fields of the class [OvsLib], with the documented behaviour
    as its laws.  [ref_lib] is one implementation, used by the witnesses. *)

From Stdlib Require Import Ascii.
From S2P Require Import Prelude.

Abbreviation smap := (gmap string string).
Abbreviation shash := (gmap string).

Class OvsLib := {
  (** [hmap_insert] of a node with a hash: the iteration order afterwards. *)
  hmap_insert : ∀ {A : Type}, Z → A → list A → list A;
  hmap_insert_perm : ∀ {A : Type} (h : Z) (a : A) (l : list A), hmap_insert h a l ≡ₚ a :: l;
  (** [SHASH_FOR_EACH]: the order of the nodes. *)
  shash_nodes : ∀ {A : Type}, gmap string A → list (string * A);
  shash_nodes_perm : ∀ {A : Type} (m : gmap string A), shash_nodes m ≡ₚ map_to_list m;
  (** [hash_string(s, 0)]. *)
  hash_string : string → Z;
  (** [smap_get_bool], [smap_get_int]: a missing key yields the default. *)
  smap_get_bool : smap → string → bool → bool;
  smap_get_bool_default : ∀ m k d, m !! k = None → smap_get_bool m k d = d;
  smap_get_bool_true : ∀ m k d, m !! k = Some "true" → smap_get_bool m k d = true;
  smap_get_bool_false : ∀ m k d, m !! k = Some "false" → smap_get_bool m k d = false;
  smap_get_int : smap → string → Z → Z;
  smap_get_int_default : ∀ m k d, m !! k = None → smap_get_int m k d = d;
}.

(** The address parsers of libc: does [inet_pton(AF_INET6, s, _)] return 1, does
    [ether_aton(s)] return an address? *)
Class Posix := {
  inet_pton6 : string → bool;
  ether_aton : string → bool;
}.

(** String constants of the OVSDB schema headers (openswitch-idl.h and the
    generated vswitch-idl.h), which are not part of this repository. *)
Class Schema := {
  OVSDB_NEXTHOP_STATUS_ERROR : string;
  OVSDB_NEIGHBOR_STATUS_DP_HIT : string;
  OVSREC_NEIGHBOR_ADDRESS_FAMILY_IPV6 : string;
  SYSTEM_ECMP_CONFIG_STATUS : string;
  SYSTEM_ECMP_CONFIG_HASH_SRC_IP : string;
  SYSTEM_ECMP_CONFIG_HASH_DST_IP : string;
  SYSTEM_ECMP_CONFIG_HASH_SRC_PORT : string;
  SYSTEM_ECMP_CONFIG_HASH_DST_PORT : string;
  SYSTEM_ECMP_CONFIG_ENABLE_DEFAULT : bool;
}.

(** ** Lookups in an [hmap]

    [HMAP_FOR_EACH_WITH_HASH] visits the nodes whose stored hash is [h]; the
    loops of the sources return the first one that matches. *)

Definition hmap_first_with_hash {A} (hash_of : A → Z) (h : Z) (p : A → bool)
  (l : list A) : option A :=
  List.find (λ a, (hash_of a =? h)%Z && p a) l.

Lemma find_Some_iff_unique {A} (p : A → bool) (l : list A) a :
  (∀ x y, x ∈ l → y ∈ l → p x = true → p y = true → x = y) →
  List.find p l = Some a ↔ a ∈ l ∧ p a = true.
Proof.
  intros Hu. split.
  - intros [Hin Hp]%List.find_some. by apply list_elem_of_In in Hin.
  - intros [Hin Hp]. destruct (List.find p l) as [b|] eqn:E.
    + apply List.find_some in E as [Hb Hpb]. apply list_elem_of_In in Hb.
      f_equal. by apply Hu.
    + apply list_elem_of_In in Hin. eapply List.find_none in E; [|done]. congruence.
Qed.

Lemma find_None_iff {A} (p : A → bool) (l : list A) :
  List.find p l = None ↔ ∀ a, a ∈ l → p a = false.
Proof.
  split.
  - intros E a Ha%list_elem_of_In. by eapply List.find_none.
  - intros H. destruct (List.find p l) as [b|] eqn:E; [|done].
    apply List.find_some in E as [Hb Hp]. apply list_elem_of_In in Hb.
    by rewrite (H b Hb) in Hp.
Qed.

(** ** Database transactions *)

(** The result of [ovsdb_idl_txn_commit]; the database has the writes after
    [TXN_SUCCESS] and [TXN_UNCHANGED]. *)
Inductive txn_status :=
| TXN_UNCOMMITTED | TXN_UNCHANGED | TXN_INCOMPLETE | TXN_ABORTED
| TXN_SUCCESS | TXN_TRY_AGAIN | TXN_NOT_LOCKED | TXN_ERROR.

#[export] Instance txn_status_eq_dec : EqDecision txn_status.
Proof. solve_decision. Defined.

Definition txn_succeeded (status : txn_status) : bool :=
  bool_decide (status = TXN_SUCCESS) || bool_decide (status = TXN_UNCHANGED).

(** ** [shash] *)

(** [shash_add_once]: false and no change when the name is already there. *)
Definition shash_add_once {A} (m : gmap string A) (k : string) (v : A) : bool * gmap string A :=
  match m !! k with
  | Some _ => (false, m)
  | None => (true, <[k := v]> m)
  end.

(** The loop the reconfiguration code uses everywhere to collect the database
    rows by name, keeping the first of two rows with one name. *)
Definition shash_collect {R} (name : R → string) (rows : list R) : gmap string R :=
  fold_left (λ m r, (shash_add_once m (name r) r).2) rows ∅.

Section shash_collect.
Context {R : Type} (name : R → string).
Implicit Types rows : list R.

Local Lemma collect_from rows (m : gmap string R) k :
    fold_left (λ m r, (shash_add_once m (name r) r).2) rows m !! k =
    match m !! k with
    | Some v => Some v
    | None => List.find (λ r, bool_decide (name r = k)) rows
    end.
Proof.
    revert m. induction rows as [|r rows IH]; intros m; simpl.
    - by destruct (m !! k).
    - rewrite IH. unfold shash_add_once.
      destruct (m !! name r) as [v|] eqn:E; simpl.
      + case_bool_decide as Hk; [subst k; by rewrite E | done].
      + rewrite lookup_insert. case_decide as Hk.
        * subst k. rewrite E, bool_decide_true by done. done.
        * by rewrite bool_decide_false.
Qed.

  (** The entry of a name is the first row with that name. *)
Lemma shash_collect_lookup rows k :
    shash_collect name rows !! k = List.find (λ r, bool_decide (name r = k)) rows.
Proof. unfold shash_collect. by rewrite collect_from, lookup_empty. Qed.

Lemma shash_collect_first d r rest :
    (∀ x, x ∈ d → name x ≠ name r) → shash_collect name (d ++ r :: rest) !! name r = Some r.
Proof.
    intros Hd. rewrite shash_collect_lookup. induction d as [|x d IH]; simpl.
    - by rewrite bool_decide_true.
    - rewrite bool_decide_false by (apply Hd; left). apply IH. intros y Hy. apply Hd. by right.
Qed.

Lemma shash_collect_None rows k :
    shash_collect name rows !! k = None ↔ ∀ r, r ∈ rows → name r ≠ k.
Proof.
    rewrite shash_collect_lookup, find_None_iff.
    split; intros H r Hr; specialize (H r Hr); by apply bool_decide_eq_false in H || apply bool_decide_eq_false.
Qed.

Lemma shash_collect_Some rows k r :
    shash_collect name rows !! k = Some r → r ∈ rows ∧ name r = k.
Proof.
    rewrite shash_collect_lookup. intros [Hin Hk]%List.find_some.
    apply bool_decide_eq_true in Hk. by apply list_elem_of_In in Hin.
Qed.

Lemma shash_collect_is_Some rows k :
    is_Some (shash_collect name rows !! k) ↔ k ∈ (name <$> rows).
Proof.
    rewrite list_elem_of_fmap. split.
    - intros [r Hr]. apply shash_collect_Some in Hr as [? <-]. eauto.
    - intros (r & -> & Hr). destruct (shash_collect name rows !! name r) eqn:E; [eauto|].
      rewrite shash_collect_None in E. naive_solver.
Qed.
End shash_collect.

Section shash_nodes.
Context `{OvsLib}.

Lemma elem_of_shash_nodes {A} (m : gmap string A) k v :
    (k, v) ∈ shash_nodes m ↔ m !! k = Some v.
Proof. by rewrite shash_nodes_perm, elem_of_map_to_list. Qed.

Lemma NoDup_shash_nodes {A} (m : gmap string A) : NoDup (shash_nodes m).*1.
Proof. rewrite shash_nodes_perm. apply NoDup_fst_map_to_list. Qed.

Lemma elem_of_hmap_insert {A} h (a b : A) l : b ∈ hmap_insert h a l ↔ b = a ∨ b ∈ l.
Proof. by rewrite hmap_insert_perm, elem_of_cons. Qed.
End shash_nodes.

(** Collecting rows with distinct names loses none of them. *)
Lemma shash_collect_values `{OvsLib} {R} (name : R → string) (rows : list R) :
  NoDup (name <$> rows) → (shash_nodes (shash_collect name rows)).*2 ≡ₚ rows.
Proof.
  intros Hnd. apply NoDup_Permutation.
  - apply (NoDup_fmap_1 name). rewrite <-list_fmap_compose.
    rewrite (list_fmap_ext _ fst); [apply NoDup_shash_nodes|].
    intros i [k r] Hi%list_elem_of_lookup_2. rewrite elem_of_shash_nodes in Hi.
    by apply shash_collect_Some in Hi as [_ <-].
  - by apply NoDup_fmap_1 in Hnd.
  - intros r. rewrite list_elem_of_fmap. split.
    + intros ([k r'] & -> & Hr%elem_of_shash_nodes). by apply shash_collect_Some in Hr as [? _].
    + intros Hr. exists (name r, r). split; [done|]. rewrite elem_of_shash_nodes.
      destruct (shash_collect name rows !! name r) as [r'|] eqn:E.
      2:{ rewrite shash_collect_None in E. naive_solver. }
      apply shash_collect_Some in E as [Hr' En]. f_equal.
      by apply (NoDup_fmap_elem name rows).
Qed.

#[export] Hint Rewrite @elem_of_shash_nodes @elem_of_hmap_insert : switchd.

(** ** A reference implementation *)

(** [atoi] on a decimal numeral with an optional sign: the longest prefix of
    digits. *)
Definition digit_of (c : Ascii.ascii) : option Z :=
  let n := Z.of_nat (Ascii.nat_of_ascii c) in
  if (48 <=? n)%Z && (n <=? 57)%Z then Some (n - 48)%Z else None.

Fixpoint atoi_digits (acc : Z) (s : string) : Z :=
  match s with
  | EmptyString => acc
  | String c s' => match digit_of c with
                   | Some d => atoi_digits (10 * acc + d)%Z s'
                   | None => acc
                   end
  end.

Definition atoi (s : string) : Z :=
  match s with
  | String "-"%char s' => (- atoi_digits 0 s')%Z
  | String "+"%char s' => atoi_digits 0 s'
  | _ => atoi_digits 0 s
  end.

Definition ref_get_bool (m : smap) (k : string) (d : bool) : bool :=
  match m !! k with
  | Some v => if d then negb (bool_decide (v = "false")) else bool_decide (v = "true")
  | None => d
  end.

Definition ref_get_int (m : smap) (k : string) (d : Z) : Z :=
  match m !! k with Some v => atoi v | None => d end.

Program Definition ref_lib : OvsLib := {|
  hmap_insert A h a l := a :: l;
  shash_nodes A m := map_to_list m;
  hash_string s := Z.of_nat (String.length s);
  smap_get_bool := ref_get_bool;
  smap_get_int := ref_get_int;
|}.
Next Obligation. done. Qed.
Next Obligation. done. Qed.
Next Obligation. intros m k d E. unfold ref_get_bool. by rewrite E. Qed.
Next Obligation. intros m k [] E; unfold ref_get_bool; by rewrite E. Qed.
Next Obligation. intros m k [] E; unfold ref_get_bool; by rewrite E. Qed.
Next Obligation. intros m k d E. unfold ref_get_int. by rewrite E. Qed.

(** Enough of the parsers for the examples. *)
Definition ref_posix : Posix := {|
  inet_pton6 := λ s, bool_decide (s = "::1");
  ether_aton := λ s, (String.length s =? 17)%nat;
|}.

Definition ref_schema : Schema := {|
  OVSDB_NEXTHOP_STATUS_ERROR := "error";
  OVSDB_NEIGHBOR_STATUS_DP_HIT := "dp_hit";
  OVSREC_NEIGHBOR_ADDRESS_FAMILY_IPV6 := "ipv6";
  SYSTEM_ECMP_CONFIG_STATUS := "enabled";
  SYSTEM_ECMP_CONFIG_HASH_SRC_IP := "hash_srcip_enabled";
  SYSTEM_ECMP_CONFIG_HASH_DST_IP := "hash_dstip_enabled";
  SYSTEM_ECMP_CONFIG_HASH_SRC_PORT := "hash_srcport_enabled";
  SYSTEM_ECMP_CONFIG_HASH_DST_PORT := "hash_dstport_enabled";
  SYSTEM_ECMP_CONFIG_ENABLE_DEFAULT := true;
|}.
