(* ===== verification/Blocks.v ===== *)
(** * Callback blocks: reconfigure-blocks.c, run-blocks.c, stats-blocks.c

    The three files under src/plugins/ keep, for each entry point of the main
    loop, a list of plugin callbacks ordered by priority.  Their code is the
    same up to the number of blocks, the type of a callback and the check of
    the parameter block, so the section [Registry] models the shared functions
    and one module per source file instantiates them. *)

From S2P Require Import Prelude.

(** A null pointer. *)
Definition is_null {A} (p : option A) : bool :=
  match p with None => true | Some _ => false end.

Section Registry.
  (** [CB] is a non-null function pointer. *)
Context {CB : Type}.

  (** [struct blk_list_node] *)
Record blk_list_node := BlkNode {
    callback_handler : option CB;
    priority : Z;
  }.

  (** The file-scope variables [blocks_init] and [blk_list]; [blk_list] is
      null until the blocks are initialised. *)
Record blocks := Blocks {
    blocks_init : bool;
    blk_list : option (list (list blk_list_node));
  }.

Definition blocks_start : blocks := Blocks false None.

  (** The loop [LIST_FOR_EACH] of [insert_node_on_blk]: the new node goes in
      front of the first node of a larger priority value. *)
Fixpoint walk_insert (new_node : blk_list_node) (func_list : list blk_list_node)
    : option (list blk_list_node) :=
    match func_list with
    | [] => None
    | blk_node :: rest =>
        if (priority blk_node >? priority new_node)%Z
        then Some (new_node :: blk_node :: rest)
        else cons blk_node <$> walk_insert new_node rest
    end.

  (** The return code and the list afterwards. *)
Definition insert_node_on_blk (new_node : blk_list_node)
    (func_list : option (list blk_list_node)) : Z * option (list blk_list_node) :=
    match func_list with
    | None => (EINVAL, None)
    | Some l =>
        match last l with
        | None => (0%Z, Some (l ++ [new_node]))
        | Some blk_node =>
            if (priority new_node >=? priority blk_node)%Z
            then (0%Z, Some (l ++ [new_node]))
            else match walk_insert new_node l with
                 | Some l' => (0%Z, Some l')
                 | None => (EINVAL, Some l)
                 end
        end
    end.

  (** [MAX_BLOCKS_NUM] empty lists. *)
Definition init_blocks (max : nat) (b : blocks) : Z * blocks :=
    (0%Z, Blocks true (Some (replicate max []))).

Definition ensure_init (max : nat) (b : blocks) : Z * blocks :=
    if blocks_init b then (0%Z, b) else init_blocks max b.

Definition valid_blk_id (max : nat) (blk_id : Z) : bool :=
    negb ((blk_id <? 0)%Z || (blk_id >=? Z.of_nat max)%Z).

  (** [blk_list[blk_id]] *)
Definition blk_at (b : blocks) (blk_id : Z) : option (list blk_list_node) :=
    blk_list b ≫= λ l, l !! Z.to_nat blk_id.

Definition set_blk (b : blocks) (blk_id : Z) (l : list blk_list_node) : blocks :=
    Blocks (blocks_init b) ((λ bl, <[Z.to_nat blk_id := l]> bl) <$> blk_list b).

Definition register_callback (max : nat) (cb : option CB) (blk_id prio : Z)
    (b : blocks) : Z * blocks :=
    let '(rc, b) := ensure_init max b in
    if negb (rc =? 0)%Z then (EINVAL, b) else
    match cb with
    | None => (EINVAL, b)
    | Some _ =>
        if negb (valid_blk_id max blk_id) then (EINVAL, b) else
        match insert_node_on_blk (BlkNode cb prio) (blk_at b blk_id) with
        | (0%Z, Some l) => (0%Z, set_blk b blk_id l)
        | _ => (EINVAL, b)
        end
    end.

Section Execute.
    (** A callback gets the pointer to the parameter block, whose contents it
        may change, and changes the rest of the process state [W].  Callbacks
        do not register callbacks in the block that is being executed. *)
Context {P W : Type} (call : CB → P → W → P * W).

    (** The loop of [execute_*_block]; it stops at a null handler. *)
Fixpoint run_nodes (l : list blk_list_node) (params : P) (w : W) : Z * P * W :=
      match l with
      | [] => (0%Z, params, w)
      | actual_node :: rest =>
          match callback_handler actual_node with
          | None => (EINVAL, params, w)
          | Some cb => let '(params, w) := call cb params w in run_nodes rest params w
          end
      end.

    (** [bad_params] is the check of the pointer [params] ([is_null] below in
        the files that have one). *)
Definition execute_block (max : nat) (bad_params : P → bool)
      (params : P) (blk_id : Z) (b : blocks) (w : W) : Z * blocks * P * W :=
      let '(rc, b) := ensure_init max b in
      if negb (rc =? 0)%Z then (EINVAL, b, params, w) else
      if bad_params params then (EINVAL, b, params, w) else
      if negb (valid_blk_id max blk_id) then (EINVAL, b, params, w) else
      match blk_at b blk_id with
      | None => (EINVAL, b, params, w)
      | Some l => let '(rc, params, w) := run_nodes l params w in (rc, b, params, w)
      end.
End Execute.

  (** ** Specification: ascending priorities, ties in registration order *)

Definition prio_le (a b : blk_list_node) : Prop := (priority a ≤ priority b)%Z.

  (** One call of the registration function: handler, block, priority. *)
Definition reg : Type := option CB * Z * Z.

Definition run_regs (max : nat) (ops : list reg) (b : blocks) : blocks :=
    fold_left (λ b '(cb, id, prio), (register_callback max cb id prio b).2) ops b.

  (** The nodes that a history of calls should leave in block [id], oldest
      first. *)
Definition accepted (id : Z) (ops : list reg) : list blk_list_node :=
    omap (λ '(cb, i, prio),
            match cb with
            | Some _ => if (i =? id)%Z then Some (BlkNode cb prio) else None
            | None => None
            end) ops.

  (** [l] is [nodes] sorted by priority, nodes of one priority keeping their
      order: there is exactly one such list. *)
Definition ordered_by_priority (nodes l : list blk_list_node) : Prop :=
    StronglySorted prio_le l ∧
    ∀ p, filter (λ n, priority n = p) l = filter (λ n, priority n = p) nodes.

  (** ** Lemmas *)

Lemma walk_insert_split new l :
    StronglySorted prio_le l →
    Exists (λ n, priority new < priority n)%Z l →
    walk_insert new l =
      Some (filter (λ n, priority n ≤ priority new)%Z l ++ new ::
            filter (λ n, priority new < priority n)%Z l).
Proof.
    induction 1 as [|a l Hs IH Ha]; intros He; [by inversion He|]. simpl.
    rewrite Forall_forall in Ha. unfold prio_le in Ha.
    destruct (Z.gtb_spec (priority a) (priority new)) as [Hlt|Hge].
    - rewrite filter_cons_False by lia. rewrite filter_cons_True by lia.
      rewrite (filter_none _ l), (filter_all _ l); [done|..];
        intros x Hx; specialize (Ha x Hx); lia.
    - rewrite filter_cons_True by lia. rewrite filter_cons_False by lia.
      rewrite IH; [done|]. inversion He; subst; [lia|done].
Qed.

  (** On a sorted list the insertion never fails: the new node goes after all
      the nodes of the same or a smaller priority value. *)
Lemma insert_node_sorted new l :
    StronglySorted prio_le l →
    insert_node_on_blk new (Some l) =
      (0%Z, Some (filter (λ n, priority n ≤ priority new)%Z l ++ new ::
                  filter (λ n, priority new < priority n)%Z l)).
Proof.
    intros Hs. unfold insert_node_on_blk.
    destruct l as [|b l _] using rev_ind; [done|]. rewrite last_snoc.
    destruct (Z.geb_spec (priority new) (priority b)) as [Hge|Hlt].
    - assert (∀ x, x ∈ l ++ [b] → priority x ≤ priority new)%Z as Hall.
      { intros x [Hx| ->%list_elem_of_singleton]%elem_of_app; [|lia].
        eapply StronglySorted_app_1_elem_of in Hs; [|done|by apply list_elem_of_singleton].
        unfold prio_le in Hs. lia. }
      rewrite (filter_all _ (l ++ [b])) by done.
      rewrite (filter_none _ (l ++ [b])); [done|].
      intros x Hx. specialize (Hall x Hx). lia.
    - rewrite walk_insert_split; [done|done|].
      apply Exists_app. right. by left.
Qed.

Lemma ordered_insert nodes l new :
    ordered_by_priority nodes l →
    ordered_by_priority (nodes ++ [new])
      (filter (λ n, priority n ≤ priority new)%Z l ++ new ::
       filter (λ n, priority new < priority n)%Z l).
Proof.
    intros [Hs Hst]. split.
    - apply StronglySorted_app. split_and!.
      + intros x y [Hx _]%list_elem_of_filter. unfold prio_le.
        intros [->|[Hy _]%list_elem_of_filter]%elem_of_cons; lia.
      + by apply StronglySorted_filter.
      + constructor; [by apply StronglySorted_filter|].
        apply Forall_forall. intros x [Hx _]%list_elem_of_filter. unfold prio_le. lia.
    - intros p. rewrite !filter_app, <-Hst, !filter_cons, filter_nil.
      destruct (decide (p ≤ priority new)%Z) as [Hp|Hp].
      + rewrite (filter_filter_sub _ (λ n, priority n ≤ priority new)%Z) by lia.
        rewrite (filter_none _ (filter _ _)); [by case_decide|].
        intros x [? _]%list_elem_of_filter. lia.
      + case_decide; [lia|].
        rewrite (filter_filter_sub _ (λ n, priority new < priority n)%Z) by lia.
        rewrite (filter_none _ (filter _ _)), app_nil_r; [done|].
        intros x [? _]%list_elem_of_filter. lia.
Qed.

  (** The state of an initialised registry after the calls [ops]. *)
Definition reg_inv (max : nat) (ops : list reg) (b : blocks) : Prop :=
    blocks_init b = true ∧
    ∃ bl, blk_list b = Some bl ∧ length bl = max ∧
    ∀ i l, bl !! i = Some l → ordered_by_priority (accepted (Z.of_nat i) ops) l.

Lemma valid_blk_id_spec max id : valid_blk_id max id = true ↔ (0 ≤ id < Z.of_nat max)%Z.
Proof. unfold valid_blk_id. destruct (Z.ltb_spec id 0), (Z.geb_spec id (Z.of_nat max)); simpl; lia. Qed.

Lemma init_reg_inv max b : reg_inv max [] (init_blocks max b).2.
Proof.
    split; [done|]. eexists. split_and!; [done|apply length_replicate|].
    intros i l [-> _]%lookup_replicate. split; [constructor|done].
Qed.

Lemma ensure_init_inv max ops b :
    reg_inv max ops b → ensure_init max b = (0%Z, b).
Proof. intros [Hi _]. unfold ensure_init. by rewrite Hi. Qed.

Lemma accepted_app id ops1 ops2 :
    accepted id (ops1 ++ ops2) = accepted id ops1 ++ accepted id ops2.
Proof. apply omap_app. Qed.

Lemma register_callback_inv max ops cb id prio b :
    reg_inv max ops b →
    reg_inv max (ops ++ [(cb, id, prio)]) (register_callback max cb id prio b).2.
Proof.
    intros Hb. unfold register_callback. rewrite (ensure_init_inv _ _ _ Hb). simpl.
    destruct Hb as (Hi & bl & Hbl & Hlen & Hord).
    assert (∀ i l, bl !! i = Some l → accepted (Z.of_nat i) [(cb, id, prio)] = [] →
      ordered_by_priority (accepted (Z.of_nat i) (ops ++ [(cb, id, prio)])) l) as Hsame.
    { intros i l Hl He. rewrite accepted_app, He, app_nil_r. by apply Hord. }
    destruct cb as [f|]; simpl.
    2:{ split; [done|]. exists bl. split_and!; [done..|]. intros i l Hl. by apply Hsame. }
    destruct (valid_blk_id max id) eqn:Hv; simpl.
    2:{ split; [done|]. exists bl. split_and!; [done..|]. intros i l Hl. apply Hsame; [done|].
        simpl. destruct (Z.eqb_spec id (Z.of_nat i)) as [->|]; [|done].
        apply lookup_lt_Some in Hl. assert (valid_blk_id max (Z.of_nat i) = true); [|congruence].
        apply valid_blk_id_spec. lia. }
    apply valid_blk_id_spec in Hv. unfold blk_at, set_blk. rewrite Hbl. simpl.
    destruct (bl !! Z.to_nat id) as [l|] eqn:Hl.
    2:{ apply lookup_ge_None in Hl. lia. }
    rewrite insert_node_sorted by apply (Hord _ _ Hl). simpl.
    split; [done|]. eexists. split_and!; [done|by rewrite length_insert|].
    intros i l' Hl'. apply list_lookup_insert_Some in Hl' as [(<- & <- & _)|(Hne & Hl')].
    - rewrite accepted_app. simpl. rewrite Z2Nat.id, Z.eqb_refl by lia.
      apply ordered_insert. pose proof (Hord _ _ Hl) as Ho. by rewrite Z2Nat.id in Ho by lia.
    - apply Hsame; [done|]. simpl. destruct (Z.eqb_spec id (Z.of_nat i)); [lia|done].
Qed.

Lemma run_regs_inv max ops ops' b :
    reg_inv max ops b → reg_inv max (ops ++ ops') (run_regs max ops' b).
Proof.
    revert ops b. induction ops' as [|[[cb id] prio] ops' IH]; intros ops b Hb.
    - by rewrite app_nil_r.
    - rewrite cons_middle, app_assoc. apply IH. by apply register_callback_inv.
Qed.

Lemma run_nodes_total {P W} (call : CB → P → W → P * W) l params w :
    Forall (λ n, is_Some (callback_handler n)) l →
    run_nodes call l params w =
    let '(p, w) := fold_left (λ '(p, w) cb, call cb p w) (omap callback_handler l) (params, w) in
    (0%Z, p, w).
Proof.
    intros Hl. revert params w. induction Hl as [|n l [cb Hcb] Hl IH]; intros params w; [done|].
    simpl. rewrite Hcb. simpl. destruct (call cb params w) as [p' w']. apply IH.
Qed.

Lemma accepted_handlers id ops : Forall (λ n, is_Some (callback_handler n)) (accepted id ops).
Proof.
    apply Forall_forall. intros n ([[cb i] prio] & _ & Hn)%list_elem_of_omap.
    destruct cb; [|done]. destruct (i =? id)%Z; [|done]. by injection Hn as <-.
Qed.

Lemma ordered_elem_of nodes l n : ordered_by_priority nodes l → n ∈ l ↔ n ∈ nodes.
Proof.
    intros [_ Ho]. specialize (Ho (priority n)).
    assert (∀ k : list blk_list_node, n ∈ k ↔ n ∈ filter (λ m, priority m = priority n) k) as Hf.
    { intros k. rewrite list_elem_of_filter. naive_solver. }
    by rewrite (Hf l), (Hf nodes), Ho.
Qed.

Lemma run_regs_start max ops :
    reg_inv max ops (ensure_init max (run_regs max ops blocks_start)).2.
Proof.
    destruct ops as [|[[cb id] prio] ops]; [apply init_reg_inv|].
    assert (register_callback max cb id prio blocks_start =
            register_callback max cb id prio (init_blocks max blocks_start).2) as E by done.
    assert (reg_inv max ((cb, id, prio) :: ops) (run_regs max ((cb, id, prio) :: ops) blocks_start)) as H.
    { simpl. rewrite E. apply (run_regs_inv max [(cb, id, prio)]).
      apply (register_callback_inv max []), init_reg_inv. }
    pose proof (ensure_init_inv _ _ _ H) as Ei. change (run_regs max _ blocks_start)
      with (run_regs max ((cb, id, prio) :: ops) blocks_start). by rewrite Ei.
Qed.

Section Execute_facts.
Context {P W : Type} (call : CB → P → W → P * W) (bad : P → bool).

Lemma execute_block_ok max ops id params w :
      (0 ≤ id < Z.of_nat max)%Z → bad params = false →
      ∃ l, ordered_by_priority (accepted id ops) l ∧
        execute_block call max bad params id (run_regs max ops blocks_start) w =
        let '(p, w') := fold_left (λ '(p, w) cb, call cb p w) (omap callback_handler l) (params, w) in
        (0%Z, (ensure_init max (run_regs max ops blocks_start)).2, p, w').
Proof.
      intros Hid Hbad. pose proof (run_regs_start max ops) as Hinv.
      set (b := run_regs max ops blocks_start) in *.
      unfold execute_block. destruct (ensure_init max b) as [rc b'] eqn:Ei. simpl in *.
      assert (rc = 0%Z) as -> by (unfold ensure_init in Ei; destruct (blocks_init b); by injection Ei).
      simpl. rewrite Hbad, (proj2 (valid_blk_id_spec max id) Hid). simpl.
      destruct Hinv as (Hi & bl & Hbl & Hlen & Hord). unfold blk_at. rewrite Hbl. simpl.
      destruct (bl !! Z.to_nat id) as [l|] eqn:Hl; [|apply lookup_ge_None in Hl; lia].
      apply Hord in Hl. rewrite Z2Nat.id in Hl by lia. exists l. split; [done|].
      rewrite run_nodes_total.
      2:{ apply Forall_forall. intros n Hn. apply (ordered_elem_of _ _ _ Hl) in Hn.
          pose proof (accepted_handlers id ops) as Ha. rewrite Forall_forall in Ha. eauto. }
      by destruct (fold_left _ _ _).
Qed.

    (** A refused call runs no callback. *)
Lemma execute_block_refused max b id params w :
      bad params = true ∨ ¬ (0 ≤ id < Z.of_nat max)%Z →
      execute_block call max bad params id b w = (EINVAL, (ensure_init max b).2, params, w).
Proof.
      intros Hbad. unfold execute_block. destruct (ensure_init max b) as [rc b'] eqn:Ei. simpl.
      destruct (rc =? 0)%Z; simpl; [|done].
      destruct (bad params) eqn:Eb; [done|]. destruct Hbad as [|Hbad]; [done|].
      destruct (valid_blk_id max id) eqn:Ev; [|done].
      apply valid_blk_id_spec in Ev. lia.
Qed.
End Execute_facts.

  (** A refused registration leaves the lists alone. *)
Lemma register_callback_refused max cb id prio b :
    cb = None ∨ ¬ (0 ≤ id < Z.of_nat max)%Z →
    register_callback max cb id prio b = (EINVAL, (ensure_init max b).2).
Proof.
    intros Hbad. unfold register_callback. destruct (ensure_init max b) as [rc b'] eqn:Ei. simpl.
    destruct (rc =? 0)%Z; simpl; [|done].
    destruct cb as [f|]; [|done]. destruct Hbad as [|Hbad]; [done|].
    destruct (valid_blk_id max id) eqn:Ev; [|done]. apply valid_blk_id_spec in Ev. lia.
Qed.

  (** [ordered_by_priority nodes] determines the list. *)
Lemma ordered_unique nodes l1 l2 :
    ordered_by_priority nodes l1 → ordered_by_priority nodes l2 → l1 = l2.
Proof.
    intros [Hs1 Ho1] [Hs2 Ho2].
    assert (∀ p, filter (λ n, priority n = p) l1 = filter (λ n, priority n = p) l2) as Hf
      by (intros p; by rewrite Ho1, Ho2).
    clear nodes Ho1 Ho2. revert l2 Hs2 Hf.
    induction Hs1 as [|a l1 Hs1 IH Ha]; intros l2 Hs2 Hf.
    { destruct l2 as [|b l2]; [done|]. specialize (Hf (priority b)).
      by rewrite filter_nil, filter_cons_True in Hf. }
    destruct l2 as [|b l2].
    { specialize (Hf (priority a)). by rewrite filter_nil, filter_cons_True in Hf. }
    apply StronglySorted_inv in Hs2 as [Hs2 Hb]. rewrite Forall_forall in Ha, Hb. unfold prio_le in *.
    assert (priority a = priority b) as Hab.
    { apply Z.le_antisymm.
      - assert (b ∈ filter (λ n, priority n = priority b) (a :: l1)) as Hin
          by (rewrite Hf, filter_cons_True by done; set_solver).
        apply list_elem_of_filter in Hin as [_ [->|Hin]%elem_of_cons]; [lia|by apply Ha].
      - assert (a ∈ filter (λ n, priority n = priority a) (b :: l2)) as Hin
          by (rewrite <-Hf, filter_cons_True by done; set_solver).
        apply list_elem_of_filter in Hin as [_ [->|Hin]%elem_of_cons]; [lia|by apply Hb]. }
    pose proof (Hf (priority a)) as Hh.
    rewrite !filter_cons_True in Hh by done. injection Hh as -> Hh. f_equal. apply IH; [done|].
    intros p. destruct (decide (priority b = p)) as [<-|Hp]; [done|].
    specialize (Hf p). by rewrite !filter_cons_False in Hf.
Qed.
End Registry.
Arguments blk_list_node : clear implicits.
Arguments blocks : clear implicits.
Arguments reg : clear implicits.

(** ** reconfigure-blocks.c *)

Module ReconfigureBlocks.

(** [enum block_id] of reconfigure-blocks.h *)
Inductive block_id : Type :=
| BLK_BRIDGE_INIT
| BLK_INIT_RECONFIGURE
| BLK_BR_DELETE_PORTS
| BLK_VRF_DELETE_PORTS
| BLK_BR_RECONFIGURE_PORTS
| BLK_VRF_RECONFIGURE_PORTS
| BLK_BR_ADD_PORTS
| BLK_VRF_ADD_PORTS
| BLK_BR_PORT_UPDATE
| BLK_BR_FEATURE_RECONFIG
| BLK_VRF_PORT_UPDATE
| BLK_VRF_ADD_NEIGHBORS
| BLK_RECONFIGURE_NEIGHBORS.

#[export] Instance block_id_eq_dec : EqDecision block_id.
Proof. solve_decision. Defined.

Definition MAX_BLOCKS_NUM : nat := 13.

Definition block_id_int (id : block_id) : Z :=
  match id with
  | BLK_BRIDGE_INIT => 0
  | BLK_INIT_RECONFIGURE => 1
  | BLK_BR_DELETE_PORTS => 2
  | BLK_VRF_DELETE_PORTS => 3
  | BLK_BR_RECONFIGURE_PORTS => 4
  | BLK_VRF_RECONFIGURE_PORTS => 5
  | BLK_BR_ADD_PORTS => 6
  | BLK_VRF_ADD_PORTS => 7
  | BLK_BR_PORT_UPDATE => 8
  | BLK_BR_FEATURE_RECONFIG => 9
  | BLK_VRF_PORT_UPDATE => 10
  | BLK_VRF_ADD_NEIGHBORS => 11
  | BLK_RECONFIGURE_NEIGHBORS => 12
  end%Z.

Section S.
Context {CB P W : Type}.

Definition init_reconfigure_blocks (b : blocks CB) : Z * blocks CB := init_blocks MAX_BLOCKS_NUM b.

Definition register_reconfigure_callback (cb : option CB) (blk_id prio : Z) (b : blocks CB)
    : Z * blocks CB := register_callback MAX_BLOCKS_NUM cb blk_id prio b.

  (** [params] is a pointer: [None] is null. *)
Definition execute_reconfigure_block (call : CB → option P → W → option P * W)
    (params : option P) (blk_id : Z) (b : blocks CB) (w : W) : Z * blocks CB * option P * W :=
    execute_block call MAX_BLOCKS_NUM is_null params blk_id b w.
End S.

(** C31: for every history of registrations since start-up and every block, one
    execution of the block returns 0 and calls exactly the handlers that were
    registered for it, in ascending priority and, within one priority, in the
    order of their registration. *)
Theorem execute_reconfigure_block_order {CB P W} (call : CB → option P → W → option P * W)
  (ops : list (reg CB)) (id : block_id) (params : P) (w : W) :
  let b := run_regs MAX_BLOCKS_NUM ops blocks_start in
  ∃ l, ordered_by_priority (accepted (block_id_int id) ops) l ∧
    (∀ l', ordered_by_priority (accepted (block_id_int id) ops) l' → l' = l) ∧
    execute_reconfigure_block call (Some params) (block_id_int id) b w =
    let '(p, w') := fold_left (λ '(p, w) cb, call cb p w) (omap callback_handler l)
                      (Some params, w) in
    (0%Z, (ensure_init MAX_BLOCKS_NUM b).2, p, w').
Proof.
  intros b. destruct (execute_block_ok call is_null MAX_BLOCKS_NUM ops (block_id_int id) (Some params) w)
    as (l & Hl & E); [by destruct id|done|].
  exists l. split_and!; [done| |exact E]. intros l' Hl'. by eapply ordered_unique.
Qed.

(** Registration and execution refuse what they should: a null handler, a
    null parameter block or a block number outside the enumeration gives
    EINVAL, registers nothing and runs no handler. *)
Theorem reconfigure_block_errors {CB P W} (call : CB → option P → W → option P * W)
  (cb : option CB) (params : option P) (id prio : Z) (b : blocks CB) (w : W) :
  (cb = None ∨ ¬ (0 ≤ id < 13)%Z →
     register_reconfigure_callback cb id prio b = (EINVAL, (ensure_init MAX_BLOCKS_NUM b).2)) ∧
  (params = None ∨ ¬ (0 ≤ id < 13)%Z →
     execute_reconfigure_block call params id b w =
       (EINVAL, (ensure_init MAX_BLOCKS_NUM b).2, params, w)).
Proof.
  split; intros H.
  - apply register_callback_refused. exact H.
  - apply execute_block_refused. destruct H as [->|H]; [by left|by right].
Qed.
End ReconfigureBlocks.

(** ** run-blocks.c *)

Module RunBlocks.

(** [enum run_block_id] of run-blocks.h *)
Inductive run_block_id : Type :=
| BLK_INIT_RUN
| BLK_RUN_COMPLETE
| BLK_WAIT_COMPLETE.

Definition MAX_RUN_BLOCKS_NUM : nat := 3.

Definition run_block_id_int (id : run_block_id) : Z :=
  match id with BLK_INIT_RUN => 0 | BLK_RUN_COMPLETE => 1 | BLK_WAIT_COMPLETE => 2 end%Z.

Section S.
Context {CB P W : Type}.

Definition init_r_blocks (b : blocks CB) : Z * blocks CB := init_blocks MAX_RUN_BLOCKS_NUM b.

Definition register_run_callback (cb : option CB) (blk_id prio : Z) (b : blocks CB)
    : Z * blocks CB := register_callback MAX_RUN_BLOCKS_NUM cb blk_id prio b.

Definition execute_run_block (call : CB → option P → W → option P * W)
    (params : option P) (blk_id : Z) (b : blocks CB) (w : W) : Z * blocks CB * option P * W :=
    execute_block call MAX_RUN_BLOCKS_NUM is_null params blk_id b w.
End S.

(** The same ordering guarantee for the run blocks. *)
Theorem execute_run_block_order {CB P W} (call : CB → option P → W → option P * W)
  (ops : list (reg CB)) (id : run_block_id) (params : P) (w : W) :
  let b := run_regs MAX_RUN_BLOCKS_NUM ops blocks_start in
  ∃ l, ordered_by_priority (accepted (run_block_id_int id) ops) l ∧
    execute_run_block call (Some params) (run_block_id_int id) b w =
    let '(p, w') := fold_left (λ '(p, w) cb, call cb p w) (omap callback_handler l)
                      (Some params, w) in
    (0%Z, (ensure_init MAX_RUN_BLOCKS_NUM b).2, p, w').
Proof. intros b. by apply (execute_block_ok call is_null); [destruct id|]. Qed.
End RunBlocks.

(** ** stats-blocks.c *)

Module StatsBlocks.

(** [enum stats_block_id] of stats-blocks.h *)
Inductive stats_block_id : Type :=
| STATS_BRIDGE_CREATE_NETDEV
| STATS_BEGIN
| STATS_PER_BRIDGE
| STATS_PER_BRIDGE_PORT
| STATS_PER_BRIDGE_NETDEV
| STATS_PER_VRF
| STATS_PER_VRF_PORT
| STATS_PER_VRF_NETDEV
| STATS_END
| STATS_SUBSYSTEM_CREATE_NETDEV
| STATS_SUBSYSTEM_BEGIN
| STATS_PER_SUBSYSTEM
| STATS_PER_SUBSYSTEM_NETDEV
| STATS_SUBSYSTEM_END.

#[export] Instance stats_block_id_eq_dec : EqDecision stats_block_id.
Proof. solve_decision. Defined.

Definition MAX_STATS_BLOCKS_NUM : nat := 14.

Definition stats_block_id_int (id : stats_block_id) : Z :=
  match id with
  | STATS_BRIDGE_CREATE_NETDEV => 0
  | STATS_BEGIN => 1
  | STATS_PER_BRIDGE => 2
  | STATS_PER_BRIDGE_PORT => 3
  | STATS_PER_BRIDGE_NETDEV => 4
  | STATS_PER_VRF => 5
  | STATS_PER_VRF_PORT => 6
  | STATS_PER_VRF_NETDEV => 7
  | STATS_END => 8
  | STATS_SUBSYSTEM_CREATE_NETDEV => 9
  | STATS_SUBSYSTEM_BEGIN => 10
  | STATS_PER_SUBSYSTEM => 11
  | STATS_PER_SUBSYSTEM_NETDEV => 12
  | STATS_SUBSYSTEM_END => 13
  end%Z.

Section S.
Context {CB P W : Type}.

Definition init_s_blocks (b : blocks CB) : Z * blocks CB := init_blocks MAX_STATS_BLOCKS_NUM b.

Definition register_stats_callback (cb : option CB) (blk_id prio : Z) (b : blocks CB)
    : Z * blocks CB := register_callback MAX_STATS_BLOCKS_NUM cb blk_id prio b.

  (** Here the parameter block is not checked, and the handlers also get the
      block number. *)
Definition execute_stats_block (call : CB → option P → Z → W → option P * W)
    (sblk : option P) (blk_id : Z) (b : blocks CB) (w : W) : Z * blocks CB * option P * W :=
    execute_block (λ cb p w, call cb p blk_id w) MAX_STATS_BLOCKS_NUM (λ _, false) sblk blk_id b w.
End S.

(** The ordering guarantee for the statistics blocks, where a null
    parameter block is passed on to the handlers. *)
Theorem execute_stats_block_order {CB P W} (call : CB → option P → Z → W → option P * W)
  (ops : list (reg CB)) (id : stats_block_id) (sblk : option P) (w : W) :
  let b := run_regs MAX_STATS_BLOCKS_NUM ops blocks_start in
  ∃ l, ordered_by_priority (accepted (stats_block_id_int id) ops) l ∧
    execute_stats_block call sblk (stats_block_id_int id) b w =
    let '(p, w') := fold_left (λ '(p, w) cb, call cb p (stats_block_id_int id) w)
                      (omap callback_handler l) (sblk, w) in
    (0%Z, (ensure_init MAX_STATS_BLOCKS_NUM b).2, p, w').
Proof. intros b. by apply (execute_block_ok _ (λ _, false)); [destruct id|]. Qed.
End StatsBlocks.
