(* ===== verification/PluginExtensions.v ===== *)
(** * The registry of plugin interfaces: plugin-extensions.c

    Plugins publish an interface under a name with a version; other plugins
    and the daemon look it up by name and required version. *)

From S2P Require Import Prelude OvsLib.

(** [struct plugin_extension_interface]; [I] is the type of the pointed-to
    interface. *)
Record plugin_extension_interface (I : Type) := Extension {
  plugin_name : string;
  major : Z;
  minor : Z;
  plugin_interface : I;
}.
Arguments Extension {I} _ _ _ _.
Arguments plugin_name {I} _.
Arguments major {I} _.
Arguments minor {I} _.
Arguments plugin_interface {I} _.

(** The file-scope variables [init_done] and [sh_extensions]. *)
Record registry (I : Type) := Registry {
  init_done : bool;
  sh_extensions : gmap string (plugin_extension_interface I);
}.
Arguments Registry {I} _ _.
Arguments init_done {I} _.
Arguments sh_extensions {I} _.

Definition registry_start {I} : registry I := Registry false ∅.

Section Registry.
Context {I : Type}.
  (** The field [sh_extensions.map.one] right after [shash_init], which the
      code takes as a sign of failure when it is not 0. *)
Context (map_one : Z).

Definition plugin_extensions_init (r : registry I) : Z * registry I :=
    if init_done r then (0%Z, r) else
    if negb (map_one =? 0)%Z then (EPERM, Registry (init_done r) ∅)
    else (0%Z, Registry true ∅).

  (** [new_extension] is a pointer: [None] is null. *)
Definition register_plugin_extension (new_extension : option (plugin_extension_interface I))
    (r : registry I) : Z * registry I :=
    let '(rc, r) := plugin_extensions_init r in
    if negb (rc =? 0)%Z then (EINVAL, r) else
    match new_extension with
    | None => (EINVAL, r)
    | Some n =>
        match sh_extensions r !! plugin_name n with
        | None =>
            let extension := Extension (plugin_name n) (major n) (minor n) (plugin_interface n) in
            let '(added, sh) := shash_add_once (sh_extensions r) (plugin_name n) extension in
            if added then (0%Z, Registry (init_done r) sh) else (EINVAL, r)
        | Some _ => (EINVAL, r)
        end
    end.

Definition unregister_plugin_extension (name : string) (r : registry I) : Z * registry I :=
    let '(rc, r) := plugin_extensions_init r in
    if negb (rc =? 0)%Z then (EINVAL, r) else
    match sh_extensions r !! name with
    | Some _ => (0%Z, Registry (init_done r) (delete name (sh_extensions r)))
    | None => (EINVAL, r)
    end.

  (** The return code, the value left in [*plugin_interface] and the registry. *)
Definition find_plugin_extension (name : string) (maj min : Z) (r : registry I)
    : Z * option (plugin_extension_interface I) * registry I :=
    let '(rc, r) := plugin_extensions_init r in
    if negb (rc =? 0)%Z then (EINVAL, None, r) else
    match sh_extensions r !! name with
    | Some extension =>
        if negb (maj =? major extension)%Z then (EINVAL, None, r) else
        if (min >? minor extension)%Z then (EINVAL, None, r)
        else (0%Z, Some extension, r)
    | None => (EINVAL, None, r)
    end.

  (** ** Behaviour as a finite map

      [contents r] is what a client can see: before the first call the table
      is empty whatever the variable holds. *)
Definition contents (r : registry I) : gmap string (plugin_extension_interface I) :=
    if init_done r then sh_extensions r else ∅.

  (** A version is served by an extension of the same major version and at
      least the requested minor version. *)
Definition serves (e : plugin_extension_interface I) (maj min : Z) : Prop :=
    major e = maj ∧ (min ≤ minor e)%Z.

Lemma contents_ready m : contents (Registry true m) = m.
Proof using Type. done. Qed.

Context (Hone : map_one = 0%Z).

Lemma plugin_extensions_init_ok r :
    plugin_extensions_init r = (0%Z, Registry true (contents r)).
Proof using Hone.
    unfold plugin_extensions_init, contents. rewrite Hone. destruct r as [[] sh]; done.
Qed.

Lemma register_spec e r :
    register_plugin_extension (Some e) r =
    match contents r !! plugin_name e with
    | None => (0%Z, Registry true (<[plugin_name e := e]> (contents r)))
    | Some _ => (EINVAL, Registry true (contents r))
    end.
Proof using Hone.
    unfold register_plugin_extension. rewrite plugin_extensions_init_ok. simpl.
    destruct (contents r !! plugin_name e) eqn:E; [done|].
    unfold shash_add_once. rewrite E. by destruct e.
Qed.

Lemma find_spec name maj min r :
    find_plugin_extension name maj min r =
    match contents r !! name with
    | Some e => if bool_decide (major e = maj) && (min <=? minor e)%Z
                then (0%Z, Some e, Registry true (contents r))
                else (EINVAL, None, Registry true (contents r))
    | None => (EINVAL, None, Registry true (contents r))
    end.
Proof using Hone.
    unfold find_plugin_extension. rewrite plugin_extensions_init_ok. simpl.
    destruct (contents r !! name) as [e|]; [|done].
    case_bool_decide as Hm; destruct (Z.eqb_spec maj (major e)); simpl; try lia; [|done].
    destruct (Z.gtb_spec min (minor e)), (Z.leb_spec min (minor e)); done || lia.
Qed.
End Registry.

(** a name that is free can be registered; the entry is then returned
    exactly to the callers that ask for its major version and at most its
    minor version (everyone else gets EINVAL and a null pointer), and the
    lookups of the other names are as before. *)
Theorem register_find_roundtrip {I} (map_one : Z) (e : plugin_extension_interface I) (r : registry I) :
  map_one = 0%Z → contents r !! plugin_name e = None →
  let '(rc, r1) := register_plugin_extension map_one (Some e) r in
  rc = 0%Z ∧
  (∀ maj min,
     (serves e maj min → (find_plugin_extension map_one (plugin_name e) maj min r1).1 = (0%Z, Some e)) ∧
     (¬ serves e maj min → (find_plugin_extension map_one (plugin_name e) maj min r1).1 = (EINVAL, None))) ∧
  (∀ name maj min, name ≠ plugin_name e →
     (find_plugin_extension map_one name maj min r1).1 = (find_plugin_extension map_one name maj min r).1).
Proof.
  intros H1 Hfree. rewrite register_spec, Hfree by done. split_and!; [done|..].
  - intros maj min. rewrite find_spec, contents_ready by done. rewrite lookup_insert_eq.
    unfold serves. case_bool_decide; simpl; destruct (Z.leb_spec min (minor e)); naive_solver lia.
  - intros name maj min Hn. rewrite !find_spec, contents_ready by done.
    rewrite lookup_insert_ne by done. destruct (contents r !! name); [|done].
    by destruct (_ && _).
Qed.

Lemma register_find_roundtrip_witness :
  ∃ r1 : registry Z,
    register_plugin_extension 0 (Some (Extension "ASIC" 1 2 77%Z)) registry_start = (0%Z, r1) ∧
    (find_plugin_extension 0 "ASIC" 1 1 r1).1 = (0%Z, Some (Extension "ASIC" 1 2 77%Z)).
Proof.
  pose proof (register_find_roundtrip 0 (Extension "ASIC" 1 2 77%Z) registry_start eq_refl eq_refl) as H.
  destruct (register_plugin_extension 0 (Some (Extension "ASIC" 1 2 77%Z)) registry_start) as [rc r1].
  destruct H as (-> & H & _). exists r1. split; [reflexivity|].
  destruct (H 1%Z 1%Z) as [Hs _]. apply Hs. split; simpl; lia.
Defined.

(** Registering a name twice is refused and the first entry stays;
    unregistering removes exactly the entry of that name, after which the name
    can be registered again; unregistering an unknown name changes nothing. *)
Theorem unregister_and_duplicates {I} (map_one : Z) (e : plugin_extension_interface I)
  (name : string) (r : registry I) :
  map_one = 0%Z →
  (is_Some (contents r !! plugin_name e) →
     (register_plugin_extension map_one (Some e) r).1 = EINVAL ∧
     contents (register_plugin_extension map_one (Some e) r).2 = contents r) ∧
  contents (unregister_plugin_extension map_one name r).2 = delete name (contents r) ∧
  ((unregister_plugin_extension map_one name r).1 = 0%Z ↔ is_Some (contents r !! name)) ∧
  (plugin_name e = name →
     (register_plugin_extension map_one (Some e) (unregister_plugin_extension map_one name r).2).1 = 0%Z).
Proof.
  intros H1.
  assert (unregister_plugin_extension map_one name r =
    (if contents r !! name is Some _ then 0%Z else EINVAL, Registry true (delete name (contents r)))) as Hun.
  { unfold unregister_plugin_extension. rewrite plugin_extensions_init_ok by done. simpl.
    destruct (contents r !! name) eqn:E; [done|]. by rewrite delete_id. }
  split_and!.
  - intros [x Hx]. rewrite register_spec by done. by rewrite Hx.
  - by rewrite Hun.
  - rewrite Hun. simpl. destruct (contents r !! name); [naive_solver|].
    split; [done|intros [? [=]]].
  - intros <-. rewrite Hun, register_spec by done. simpl. by rewrite contents_ready, lookup_delete_eq.
Qed.

Lemma unregister_and_duplicates_witness :
  (unregister_plugin_extension 0 "ASIC" (Registry true {["ASIC" := Extension "ASIC" 1 0 5%Z]})).1 = 0%Z.
Proof.
  apply (unregister_and_duplicates 0 (Extension "ASIC" 1 0 5%Z) "ASIC"
    (Registry true {["ASIC" := Extension "ASIC" 1 0 5%Z]}) eq_refl).
  exists (Extension "ASIC" 1 0 5%Z). vm_compute. reflexivity.
Defined.
