(* ===== verification/Vrf.v ===== *)
(** * Routes and nexthops of a VRF: vrf.c

    The cache of routes a VRF keeps, its two hash maps of nexthops, and the
    calls it makes to program the routes in hardware. *)

From S2P Require Import Prelude OvsLib.
Local Open Scope Z_scope.

(** ** Database rows

    Rows are read-only snapshots of the IDL.  [*_modified] and [*_inserted] are
    the values of [OVSREC_IDL_IS_ROW_MODIFIED] and [OVSREC_IDL_IS_ROW_INSERTED]
    for the row at the sequence number being processed. *)

Record ovsrec_nexthop := NexthopRow {
  nhr_uuid : Z;
  nhr_ip_address : option string;
  nhr_ports : list (option string);   (* names of the port rows, None: null *)
  nhr_selected : option bool;
  nhr_modified : bool;
  nhr_inserted : bool;
}.

Record ovsrec_route := RouteRow {
  rr_uuid : Z;
  rr_from : string;
  rr_prefix : string;
  rr_address_family : option string;
  rr_vrf : string;                    (* vrf->name *)
  rr_selected : option bool;
  rr_nexthops : list ovsrec_nexthop;
  rr_modified : bool;
  rr_inserted : bool;
}.

Record ovsrec_neighbor := NeighborRow {
  ngr_uuid : Z;
  ngr_ip_address : string;
  ngr_mac : option string;
  ngr_port : option string;           (* port->name, None: null *)
  ngr_address_family : option string;
  ngr_vrf : string;                   (* vrf->name *)
  ngr_modified : bool;
  ngr_inserted : bool;
}.

#[export] Instance ovsrec_neighbor_eq_dec : EqDecision ovsrec_neighbor.
Proof. solve_decision. Defined.
#[export] Instance ovsrec_nexthop_eq_dec : EqDecision ovsrec_nexthop.
Proof. solve_decision. Defined.
#[export] Instance ovsrec_route_eq_dec : EqDecision ovsrec_route.
Proof. solve_decision. Defined.

(** The tables the routing code reads, with the table-level change flags
    [OVSREC_IDL_ANY_TABLE_ROWS_*]. *)
Record idl_routes := IdlRoutes {
  db_routes : list ovsrec_route;
  routes_any_modified : bool;
  routes_any_deleted : bool;
  routes_any_inserted : bool;
  db_nexthops : list ovsrec_nexthop;
  nexthops_any_modified : bool;
  db_system : option smap;            (* the ecmp_config column *)
  ecmp_config_modified : bool;
}.

(** ** Structures of vrf.h *)

Record neighbor := Neighbor {
  n_ip_address : string;
  n_mac : option string;
  n_cfg : option ovsrec_neighbor;     (* row of the Neighbor table, None: null *)
  n_is_ipv6_addr : bool;
  n_hit_bit : bool;
  n_port_name : option string;
  n_l3_egress_id : Z;
}.

Record nexthop := Nexthop {
  nh_id : Z;                          (* address of the structure *)
  nh_ip_addr : option string;
  nh_port_name : option string;
  nh_route : Z;                       (* address of the route *)
  nh_idl_row_uuid : Z;
}.

Record route := Route {
  r_id : Z;                           (* address of the structure *)
  r_prefix : string;
  r_from : string;
  r_is_ipv6 : bool;
  r_nexthops : list nexthop;
  r_idl_row_uuid : Z;
}.

Record ecmp := Ecmp {
  enabled : bool;
  src_port_enabled : bool;
  dst_port_enabled : bool;
  src_ip_enabled : bool;
  dst_ip_enabled : bool;
  resilient_hash_enabled : bool;
}.

Definition ecmp_default : ecmp := Ecmp true true true true true true.

Definition VRF_ROUTE_HASH_MAXSIZE : nat := 64.

(** ** The ofproto interface *)

Inductive ofproto_route_action := OFPROTO_ROUTE_ADD | OFPROTO_ROUTE_DELETE | OFPROTO_ROUTE_DELETE_NH.
Inductive ofproto_route_family := OFPROTO_ROUTE_IPV4 | OFPROTO_ROUTE_IPV6.
Inductive ofproto_nexthop_state := OFPROTO_NH_UNRESOLVED | OFPROTO_NH_RESOLVED.
Inductive ofproto_nexthop_type := OFPROTO_NH_IPADDR | OFPROTO_NH_PORT.
Inductive ofproto_ecmp_hash :=
| OFPROTO_ECMP_HASH_SRCIP | OFPROTO_ECMP_HASH_DSTIP
| OFPROTO_ECMP_HASH_SRCPORT | OFPROTO_ECMP_HASH_DSTPORT | OFPROTO_ECMP_HASH_RESILIENT.

#[export] Instance ofproto_ecmp_hash_eq_dec : EqDecision ofproto_ecmp_hash.
Proof. solve_decision. Defined.

(** [l3_egress_id] is [None] where the code leaves the field as it was. *)
Record ofproto_route_nexthop := OfpNexthop {
  onh_state : ofproto_nexthop_state;
  onh_type : ofproto_nexthop_type;
  onh_id : string;
  onh_l3_egress_id : option Z;
}.

Record ofproto_route := OfpRoute {
  or_family : ofproto_route_family;
  or_prefix : string;
  or_nexthops : list ofproto_route_nexthop;
}.

(** The calls made to the provider, with their result. *)
Inductive l3_event : Type :=
| RouteAction (a : ofproto_route_action) (r : ofproto_route) (rc : Z)
| EcmpSet (enable : bool)
| EcmpHashSet (h : ofproto_ecmp_hash) (enable : bool)
| AddHost (port ip mac : string) (is_v6 : bool) (rc egress : Z)
| DeleteHost (port ip : string) (is_v6 : bool) (rc egress : Z)
| GetHostHit (port ip : string) (is_v6 : bool) (rc : Z) (hit : bool).

(** A provider answers a call as a function of the calls made so far.  A route
    action also sets, for the [i]-th nexthop, a return code and an error
    string; [OFPROTO_MAX_NH_PER_ROUTE] is the size of the nexthop array of
    [struct ofproto_route]. *)
Class L3Provider := {
  OFPROTO_MAX_NH_PER_ROUTE : nat;
  has_l3_route_action : bool;
  ofproto_l3_route_action :
    list l3_event → ofproto_route_action → ofproto_route → Z * (nat → Z * string);
  ofproto_add_l3_host_entry :
    list l3_event → string → bool → string → string → Z * Z;
  ofproto_delete_l3_host_entry :
    list l3_event → string → bool → string → Z → Z * Z;
  ofproto_get_l3_host_hit :
    list l3_event → string → bool → string → Z * bool;
}.

(** ** State: one VRF, the status column of the Nexthop rows (by uuid), the
    process-wide ECMP configuration and the log of provider calls. *)

Record st := St {
  vrf_name : string;
  vrf_ports : list string;            (* names in vrf->up->ports *)
  all_neighbors : list neighbor;
  all_routes : list route;
  all_nexthops : list nexthop;
  nh_status : gmap Z smap;
  ecmp_config : ecmp;
  next_id : Z;                        (* fresh addresses *)
  log : list l3_event;
}.

Definition set_routes (l : list route) (s : st) : st :=
  St (vrf_name s) (vrf_ports s) (all_neighbors s) l (all_nexthops s) (nh_status s)
     (ecmp_config s) (next_id s) (log s).
Definition set_nexthops (l : list nexthop) (s : st) : st :=
  St (vrf_name s) (vrf_ports s) (all_neighbors s) (all_routes s) l (nh_status s)
     (ecmp_config s) (next_id s) (log s).
Definition set_neighbors (l : list neighbor) (s : st) : st :=
  St (vrf_name s) (vrf_ports s) l (all_routes s) (all_nexthops s) (nh_status s)
     (ecmp_config s) (next_id s) (log s).
Definition set_nh_status (m : gmap Z smap) (s : st) : st :=
  St (vrf_name s) (vrf_ports s) (all_neighbors s) (all_routes s) (all_nexthops s) m
     (ecmp_config s) (next_id s) (log s).
Definition set_ecmp (e : ecmp) (s : st) : st :=
  St (vrf_name s) (vrf_ports s) (all_neighbors s) (all_routes s) (all_nexthops s) (nh_status s)
     e (next_id s) (log s).
Definition set_next_id (n : Z) (s : st) : st :=
  St (vrf_name s) (vrf_ports s) (all_neighbors s) (all_routes s) (all_nexthops s) (nh_status s)
     (ecmp_config s) n (log s).
Definition set_log (l : list l3_event) (s : st) : st :=
  St (vrf_name s) (vrf_ports s) (all_neighbors s) (all_routes s) (all_nexthops s) (nh_status s)
     (ecmp_config s) (next_id s) l.

Definition emit (e : l3_event) : M st unit := modify (λ s, set_log (log s ++ [e]) s).
(** [xzalloc]: a fresh address. *)
Definition alloc : M st Z :=
  n ← gets next_id; modify (set_next_id (n + 1)) ;; mret n.

Section Vrf.
Context `{OvsLib, Schema, L3Provider}.

(** ** Helpers *)

Definition vrf_is_nh_row_selected (nh_row : ovsrec_nexthop) : bool :=
  match nhr_selected nh_row with
  | None => true
  | Some b => b
  end.

Definition vrf_is_route_row_selected (route_row : ovsrec_route) : bool :=
  match rr_selected route_row with
  | Some true => true
  | _ => false
  end.

(** [snprintf] keeps the first [hashlen - 1] characters. *)
Definition vrf_route_hash (from prefix : string) : string :=
  String.substring 0 (VRF_ROUTE_HASH_MAXSIZE - 1) (from +:+ ":" +:+ prefix).

Definition vrf_nh_hash (ip_address port_name : option string) : option string :=
  match ip_address with
  | Some ip => Some ip
  | None => port_name
  end.

(** [nh_row->ports[0]] when it exists and is not null. *)
Definition nhr_port0 (nh_row : ovsrec_nexthop) : option string :=
  match nhr_ports nh_row with
  | Some p :: _ => Some p
  | _ => None
  end.

(** [nh_row->n_ports > 0 ? nh_row->ports[0]->name : NULL] *)
Definition nhr_port0_name (nh_row : ovsrec_nexthop) : M st (option string) :=
  match nhr_ports nh_row with
  | [] => mret None
  | p :: _ => name ← deref p; mret (Some name)
  end.

(** The guard every loop over the nexthop rows uses: selected, with a valid IP
    or a valid port. *)
Definition nh_row_valid (nh_row : ovsrec_nexthop) : bool :=
  vrf_is_nh_row_selected nh_row &&
  (bool_decide (is_Some (nhr_ip_address nh_row)) || bool_decide (is_Some (nhr_port0 nh_row))).

(** The hash a nexthop node was inserted with. *)
Definition nh_hash_of (nh : nexthop) : Z :=
  hash_string (default "" (vrf_nh_hash (nh_ip_addr nh) (nh_port_name nh))).

(** [p && strcmp(p, q) == 0]: [q] is dereferenced when [p] is not null. *)
Definition strcmp_eq (p q : option string) : M st bool :=
  match p with
  | None => mret false
  | Some a => b ← deref q; mret (bool_decide (a = b))
  end.

Fixpoint nexthop_scan (h : Z) (ip_address port_name : option string) (l : list nexthop)
  : M st (option nexthop) :=
  match l with
  | [] => mret None
  | nh :: l' =>
    if nh_hash_of nh =? h then
      ip_match ← strcmp_eq (nh_ip_addr nh) ip_address;
      matched ← (if ip_match : bool then mret true else strcmp_eq (nh_port_name nh) port_name);
      if matched : bool then mret (Some nh) else nexthop_scan h ip_address port_name l'
    else nexthop_scan h ip_address port_name l'
  end.

Definition vrf_route_nexthop_lookup (route : route) (ip_address port_name : option string)
  : M st (option nexthop) :=
  hashstr ← deref (vrf_nh_hash ip_address port_name);
  nexthop_scan (hash_string hashstr) ip_address port_name (r_nexthops route).

Definition neighbor_hash_lookup (ip_address : string) (s : st) : option neighbor :=
  hmap_first_with_hash (λ n, hash_string (n_ip_address n)) (hash_string ip_address)
    (λ n, bool_decide (n_ip_address n = ip_address)) (all_neighbors s).

(** ** Calls to ofproto *)

Definition vrf_l3_route_action (action : ofproto_route_action) (r : ofproto_route)
  : M st (nat → Z * string) :=
  l ← gets log;
  let '(rc, results) := ofproto_l3_route_action l action r in
  emit (RouteAction action r rc) ;;
  mret results.

(** A write to the next free slot of [ofp_route.nexthops]. *)
Definition ofp_slot (nhs : list ofproto_route_nexthop) : M st unit :=
  if decide (length nhs < OFPROTO_MAX_NH_PER_ROUTE)%nat then mret tt else die BufferOverflow.

Definition ofp_push (nhs : list ofproto_route_nexthop) (nh : ofproto_route_nexthop)
  : M st (list ofproto_route_nexthop) :=
  ofp_slot nhs ;; mret (nhs ++ [nh]).

Definition route_family (r : route) : ofproto_route_family :=
  if r_is_ipv6 r then OFPROTO_ROUTE_IPV6 else OFPROTO_ROUTE_IPV4.

(** [nh_status] has an entry for every row of the Nexthop table:
    [ovsrec_nexthop_get_for_uuid] is the lookup. *)
Definition nexthop_set_error (uuid rc : Z) (err_str : string) : M st unit :=
  rows ← gets nh_status;
  match rows !! uuid with
  | Some status =>
    if negb (rc =? 0) then
      modify (set_nh_status (<[uuid := {[ OVSDB_NEXTHOP_STATUS_ERROR := err_str ]}]> rows))
    else
      match status !! OVSDB_NEXTHOP_STATUS_ERROR with
      | Some _ => modify (set_nh_status (<[uuid := ∅]> rows))
      | None => mret tt
      end
  | None => mret tt
  end.

Definition route_add_result (route : route) (results : nat → Z * string)
  (p : nat * ofproto_route_nexthop) : M st unit :=
  nh ← (match onh_type p.2 with
        | OFPROTO_NH_IPADDR => vrf_route_nexthop_lookup route (Some (onh_id p.2)) None
        | OFPROTO_NH_PORT => vrf_route_nexthop_lookup route None (Some (onh_id p.2))
        end);
  match nh with
  | Some nh => nexthop_set_error (nh_idl_row_uuid nh) (results p.1).1 (results p.1).2
  | None => mret tt
  end.

Definition vrf_ofproto_route_add (nhs : list ofproto_route_nexthop) (route : route) : M st unit :=
  results ← vrf_l3_route_action OFPROTO_ROUTE_ADD
              (OfpRoute (route_family route) (r_prefix route) nhs);
  mfor (imap pair nhs) (route_add_result route results).

Definition vrf_ofproto_route_delete (nhs : list ofproto_route_nexthop) (route : route)
  (del_route : bool) : M st unit :=
  vrf_l3_route_action (if del_route then OFPROTO_ROUTE_DELETE else OFPROTO_ROUTE_DELETE_NH)
    (OfpRoute (route_family route) (r_prefix route) nhs) ;;
  mret tt.

(** [neighbor && neighbor->l3_egress_id > 0] *)
Definition neighbor_resolved (n : option neighbor) : option Z :=
  match n with
  | Some n => if 0 <? n_l3_egress_id n then Some (n_l3_egress_id n) else None
  | None => None
  end.

(** The contents of the slot written by [vrf_ofproto_set_nh]. *)
Definition vrf_ofproto_set_nh (nh : nexthop) : M st ofproto_route_nexthop :=
  match nh_port_name nh with
  | Some p => mret (OfpNexthop OFPROTO_NH_UNRESOLVED OFPROTO_NH_PORT p None)
  | None =>
    ip ← deref (nh_ip_addr nh);
    neighbor ← gets (neighbor_hash_lookup ip);
    match neighbor_resolved neighbor with
    | Some egress => mret (OfpNexthop OFPROTO_NH_RESOLVED OFPROTO_NH_IPADDR ip (Some egress))
    | None => mret (OfpNexthop OFPROTO_NH_UNRESOLVED OFPROTO_NH_IPADDR ip None)
    end
  end.

Definition vrf_ofproto_update_resolved_nh (nhs : list ofproto_route_nexthop) (nh : nexthop)
  : M st (list ofproto_route_nexthop) :=
  ofp_slot nhs ;;
  match nh_port_name nh with
  | Some p => mret (nhs ++ [OfpNexthop OFPROTO_NH_UNRESOLVED OFPROTO_NH_PORT p None])
  | None =>
    ip ← deref (nh_ip_addr nh);
    neighbor ← gets (neighbor_hash_lookup ip);
    match neighbor_resolved neighbor with
    | Some egress =>
      mret (nhs ++ [OfpNexthop OFPROTO_NH_RESOLVED OFPROTO_NH_IPADDR ip (Some egress)])
    | None => mret nhs
    end
  end.

(** [nh->route]: the structure at that address, if it is still allocated. *)
Definition route_at (id : Z) (s : st) : option route :=
  List.find (λ r, r_id r =? id) (all_routes s).

Definition update_route_of_nexthop (ip_address : string) (egress : Z) (resolved : bool)
  (nh : nexthop) : M st unit :=
  if (nh_hash_of nh =? hash_string ip_address) && bool_decide (nh_ip_addr nh = Some ip_address)
  then
    r ← gets (route_at (nh_route nh));
    match r with
    | None => die UseAfterFree
    | Some r =>
      vrf_ofproto_route_add
        [OfpNexthop (if resolved then OFPROTO_NH_RESOLVED else OFPROTO_NH_UNRESOLVED)
           OFPROTO_NH_IPADDR ip_address (if resolved then Some egress else None)] r
    end
  else mret tt.

Definition vrf_ofproto_update_route_with_neighbor (neighbor : neighbor) (resolved : bool)
  : M st unit :=
  nhs ← gets all_nexthops;
  mfor nhs (update_route_of_nexthop (n_ip_address neighbor) (n_l3_egress_id neighbor) resolved).

(** ** Nexthops of a route *)

Definition set_r_nexthops (l : list nexthop) (r : route) : route :=
  Route (r_id r) (r_prefix r) (r_from r) (r_is_ipv6 r) l (r_idl_row_uuid r).

(** The route is returned with its hash map of nexthops updated; the result is
    the return code. *)
Definition vrf_nexthop_delete (route : route) (nh : nexthop) : M st (Z * Vrf.route) :=
  (match nh_ip_addr nh with
   | Some _ => modify (λ s, set_nexthops (filter (λ x, nh_id x ≠ nh_id nh) (all_nexthops s)) s)
   | None => mret tt
   end) ;;
  mret (0, set_r_nexthops (filter (λ x, nh_id x ≠ nh_id nh) (r_nexthops route)) route).

Definition vrf_nexthop_add (route : route) (nh_row : ovsrec_nexthop)
  : M st (option nexthop * Vrf.route) :=
  id ← alloc;
  let add hashstr ip port :=
    let nh := Nexthop id ip port (r_id route) (nhr_uuid nh_row) in
    (match ip with
     | Some _ =>
       modify (λ s, set_nexthops (hmap_insert (hash_string hashstr) nh (all_nexthops s)) s)
     | None => mret tt
     end) ;;
    mret (Some nh,
          set_r_nexthops (hmap_insert (hash_string hashstr) nh (r_nexthops route)) route) in
  match nhr_ip_address nh_row with
  | Some ip => add ip (Some ip) None
  | None =>
    match nhr_port0 nh_row with
    | Some p => add p None (Some p)
    | None => mret (None, route)
    end
  end.

(** ** Programming the nexthops of an ECMP route *)

(** First loop: every selected row becomes a nexthop of the route. *)
Definition add_selected_nhs (rows : list ovsrec_nexthop) (route : route) : M st Vrf.route :=
  mfold (λ route nh_row,
    if nh_row_valid nh_row then r ← vrf_nexthop_add route nh_row; mret r.2 else mret route)
    rows route.

(** Second loop: ports and resolved IP nexthops. *)
Definition collect_resolved_nh (route : route) (nhs : list ofproto_route_nexthop)
  (nh_row : ovsrec_nexthop) : M st (list ofproto_route_nexthop) :=
  if nh_row_valid nh_row then
    port ← nhr_port0_name nh_row;
    entry ← vrf_route_nexthop_lookup route (nhr_ip_address nh_row) port;
    match entry with
    | None => mret nhs
    | Some nh =>
      match nh_port_name nh with
      | Some p => ofp_push nhs (OfpNexthop OFPROTO_NH_UNRESOLVED OFPROTO_NH_PORT p None)
      | None =>
        ip ← deref (nh_ip_addr nh);
        neighbor ← gets (neighbor_hash_lookup ip);
        match neighbor_resolved neighbor with
        | Some egress =>
          ofp_push nhs (OfpNexthop OFPROTO_NH_RESOLVED OFPROTO_NH_IPADDR ip (Some egress))
        | None => mret nhs
        end
      end
    end
  else mret nhs.

(** Third loop: the first selected IP nexthop, unresolved. *)
Fixpoint fill_unresolved_nh (route : route) (rows : list ovsrec_nexthop)
  : M st (list ofproto_route_nexthop) :=
  match rows with
  | [] => mret []
  | nh_row :: rows' =>
    match nhr_ip_address nh_row with
    | Some ip =>
      if vrf_is_nh_row_selected nh_row then
        entry ← vrf_route_nexthop_lookup route (Some ip) None;
        match entry with
        | None => fill_unresolved_nh route rows'
        | Some nh =>
          id ← deref (nh_ip_addr nh);
          ofp_push [] (OfpNexthop OFPROTO_NH_UNRESOLVED OFPROTO_NH_IPADDR id None)
        end
      else fill_unresolved_nh route rows'
    | None => fill_unresolved_nh route rows'
    end
  end.

Definition vrf_ofproto_add_resolved_nh (route_row : ovsrec_route) (route_entry : route)
  : M st (list ofproto_route_nexthop * route) :=
  route ← add_selected_nhs (rr_nexthops route_row) route_entry;
  nhs ← mfold (collect_resolved_nh route) (rr_nexthops route_row) [];
  nhs ← (if decide (length nhs = 0%nat) then fill_unresolved_nh route (rr_nexthops route_row)
         else mret nhs);
  mret (nhs, route).

(** ** Routes *)

Definition r_hash_of (r : route) : Z := hash_string (vrf_route_hash (r_from r) (r_prefix r)).

Definition vrf_route_hash_lookup (route_row : ovsrec_route) (s : st) : option route :=
  hmap_first_with_hash r_hash_of
    (hash_string (vrf_route_hash (rr_from route_row) (rr_prefix route_row)))
    (λ r, bool_decide (r_prefix r = rr_prefix route_row) && bool_decide (r_from r = rr_from route_row))
    (all_routes s).

(** The loops of [vrf_route_delete] and [vrf_route_modify] that delete nexthops:
    the slot is filled, the nexthop deleted, the count incremented. *)
Definition delete_nh_step (acc : list ofproto_route_nexthop * route) (nh : nexthop)
  : M st (list ofproto_route_nexthop * route) :=
  let '(nhs, route) := acc in
  ofp_slot nhs ;;
  slot ← vrf_ofproto_set_nh nh;
  res ← vrf_nexthop_delete route nh;
  mret (if res.1 =? 0 then nhs ++ [slot] else nhs, res.2).

Definition vrf_route_delete (route : route) : M st unit :=
  modify (λ s, set_routes (filter (λ r, r_id r ≠ r_id route) (all_routes s)) s) ;;
  res ← mfold delete_nh_step (r_nexthops route) ([], route);
  let '(nhs, route) := res in
  mwhen (0 <? length nhs)%nat (vrf_ofproto_route_delete nhs route true).

(** The loop of a route with at most one nexthop row. *)
Definition single_nh_step (acc : list ofproto_route_nexthop * route) (nh_row : ovsrec_nexthop)
  : M st (list ofproto_route_nexthop * route) :=
  let '(nhs, route) := acc in
  if nh_row_valid nh_row then
    r ← vrf_nexthop_add route nh_row;
    match r.1 with
    | Some nh =>
      ofp_slot nhs ;;
      slot ← vrf_ofproto_set_nh nh;
      mret (nhs ++ [slot], r.2)
    | None => mret (nhs, r.2)
    end
  else mret (nhs, route).

Definition route_add_nhs (route_row : ovsrec_route) (route : route)
  : M st (list ofproto_route_nexthop * Vrf.route) :=
  if (1 <? length (rr_nexthops route_row))%nat
  then vrf_ofproto_add_resolved_nh route_row route
  else mfold single_nh_step (rr_nexthops route_row) ([], route).

Definition vrf_route_add (route_row : ovsrec_route) : M st unit :=
  id ← alloc;
  let is_ipv6 := bool_decide (rr_address_family route_row = Some OVSREC_NEIGHBOR_ADDRESS_FAMILY_IPV6) in
  res ← route_add_nhs route_row (Route id (rr_prefix route_row) (rr_from route_row) is_ipv6 [] 0);
  let '(nhs, route) := res in
  mwhen (0 <? length nhs)%nat (vrf_ofproto_route_add nhs route) ;;
  let route := Route (r_id route) (r_prefix route) (r_from route) (r_is_ipv6 route)
                 (r_nexthops route) (rr_uuid route_row) in
  modify (λ s, set_routes (hmap_insert (hash_string (vrf_route_hash (rr_from route_row)
                             (rr_prefix route_row))) route (all_routes s)) s).

(** The key under which a nexthop row is collected. *)
Definition nh_row_key (nh_row : ovsrec_nexthop) : string :=
  default "" (vrf_nh_hash (nhr_ip_address nh_row) (nhr_port0 nh_row)).

Definition nh_key (nh : nexthop) : string :=
  default "" (vrf_nh_hash (nh_ip_addr nh) (nh_port_name nh)).

(** [current_idl_nhs] *)
Definition current_idl_nhs (route_row : ovsrec_route) : gmap string ovsrec_nexthop :=
  shash_collect nh_row_key (filter (λ n, nh_row_valid n = true) (rr_nexthops route_row)).

Definition modify_add_step (n_nexthops : nat) (acc : list ofproto_route_nexthop * route)
  (nh_row : ovsrec_nexthop) : M st (list ofproto_route_nexthop * route) :=
  let '(nhs, route) := acc in
  port ← nhr_port0_name nh_row;
  entry ← vrf_route_nexthop_lookup route (nhr_ip_address nh_row) port;
  match entry with
  | Some _ => mret (nhs, route)
  | None =>
    r ← vrf_nexthop_add route nh_row;
    match r.1 with
    | None => mret (nhs, r.2)
    | Some nh =>
      if (1 <? n_nexthops)%nat then
        nhs ← vrf_ofproto_update_resolved_nh nhs nh;
        mret (nhs, r.2)
      else
        ofp_slot nhs ;;
        slot ← vrf_ofproto_set_nh nh;
        mret (nhs ++ [slot], r.2)
    end
  end.

(** The route is updated in place: its new value is stored at its address. *)
Definition store_route (route : route) (s : st) : st :=
  set_routes ((λ r, if r_id r =? r_id route then route else r) <$> all_routes s) s.

(** First half: "delete nexthops that got deleted from db". *)
Definition modify_delete_nhs (route : route) (route_row : ovsrec_route) : M st Vrf.route :=
  res ← mfold (λ acc nh, match current_idl_nhs route_row !! nh_key nh with
                         | Some _ => mret acc
                         | None => delete_nh_step acc nh
                         end) (r_nexthops route) ([], route);
  let '(nhs, route) := res in
  mwhen (0 <? length nhs)%nat (vrf_ofproto_route_delete nhs route false) ;;
  mret route.

(** Second half: "add new nexthops that got added in db". *)
Definition modify_add_nhs (route : route) (route_row : ovsrec_route) : M st Vrf.route :=
  res ← mfold (modify_add_step (length (rr_nexthops route_row)))
          (shash_nodes (current_idl_nhs route_row)).*2 ([], route);
  let '(nhs, route) := res in
  mwhen (0 <? length nhs)%nat (vrf_ofproto_route_add nhs route) ;;
  mret route.

Definition vrf_route_modify (route : route) (route_row : ovsrec_route) : M st unit :=
  route ← modify_delete_nhs route route_row;
  route ← modify_add_nhs route route_row;
  modify (store_route route).

(** ** ECMP configuration *)

Definition vrf_l3_ecmp_set (enable : bool) : M st unit := emit (EcmpSet enable).
Definition vrf_l3_ecmp_hash_set (hash : ofproto_ecmp_hash) (enable : bool) : M st unit :=
  emit (EcmpHashSet hash enable).

Definition set_ecmp_field (h : option ofproto_ecmp_hash) (val : bool) (e : ecmp) : ecmp :=
  match h with
  | None => Ecmp val (src_port_enabled e) (dst_port_enabled e) (src_ip_enabled e)
              (dst_ip_enabled e) (resilient_hash_enabled e)
  | Some OFPROTO_ECMP_HASH_SRCPORT =>
    Ecmp (enabled e) val (dst_port_enabled e) (src_ip_enabled e) (dst_ip_enabled e)
      (resilient_hash_enabled e)
  | Some OFPROTO_ECMP_HASH_DSTPORT =>
    Ecmp (enabled e) (src_port_enabled e) val (src_ip_enabled e) (dst_ip_enabled e)
      (resilient_hash_enabled e)
  | Some OFPROTO_ECMP_HASH_SRCIP =>
    Ecmp (enabled e) (src_port_enabled e) (dst_port_enabled e) val (dst_ip_enabled e)
      (resilient_hash_enabled e)
  | Some OFPROTO_ECMP_HASH_DSTIP =>
    Ecmp (enabled e) (src_port_enabled e) (dst_port_enabled e) (src_ip_enabled e) val
      (resilient_hash_enabled e)
  | Some OFPROTO_ECMP_HASH_RESILIENT =>
    Ecmp (enabled e) (src_port_enabled e) (dst_port_enabled e) (src_ip_enabled e)
      (dst_ip_enabled e) val
  end.

Definition ecmp_field (h : option ofproto_ecmp_hash) (e : ecmp) : bool :=
  match h with
  | None => enabled e
  | Some OFPROTO_ECMP_HASH_SRCPORT => src_port_enabled e
  | Some OFPROTO_ECMP_HASH_DSTPORT => dst_port_enabled e
  | Some OFPROTO_ECMP_HASH_SRCIP => src_ip_enabled e
  | Some OFPROTO_ECMP_HASH_DSTIP => dst_ip_enabled e
  | Some OFPROTO_ECMP_HASH_RESILIENT => resilient_hash_enabled e
  end.

(** One of the six blocks of the function: read the key, and when the value
    differs from the cached one, call the provider and cache it. *)
Definition reconfigure_ecmp_field (cfg : smap) (key : string) (h : option ofproto_ecmp_hash)
  : M st unit :=
  let val := smap_get_bool cfg key SYSTEM_ECMP_CONFIG_ENABLE_DEFAULT in
  e ← gets ecmp_config;
  mwhen (negb (Bool.eqb val (ecmp_field h e)))
    ((match h with
      | None => vrf_l3_ecmp_set val
      | Some h => vrf_l3_ecmp_hash_set h val
      end) ;;
     modify (set_ecmp (set_ecmp_field h val e))).

Definition ecmp_key (h : option ofproto_ecmp_hash) : string :=
  match h with
  | None => SYSTEM_ECMP_CONFIG_STATUS
  | Some OFPROTO_ECMP_HASH_SRCIP => SYSTEM_ECMP_CONFIG_HASH_SRC_IP
  | Some OFPROTO_ECMP_HASH_DSTIP => SYSTEM_ECMP_CONFIG_HASH_DST_IP
  | Some OFPROTO_ECMP_HASH_SRCPORT => SYSTEM_ECMP_CONFIG_HASH_SRC_PORT
  | Some OFPROTO_ECMP_HASH_DSTPORT => SYSTEM_ECMP_CONFIG_HASH_DST_PORT
  | Some OFPROTO_ECMP_HASH_RESILIENT => "resilient_hash_enabled"
  end.

Definition ecmp_settings : list (option ofproto_ecmp_hash) :=
  [None; Some OFPROTO_ECMP_HASH_SRCIP; Some OFPROTO_ECMP_HASH_DSTIP;
   Some OFPROTO_ECMP_HASH_SRCPORT; Some OFPROTO_ECMP_HASH_DSTPORT;
   Some OFPROTO_ECMP_HASH_RESILIENT].

Definition vrf_reconfigure_ecmp (db : idl_routes) : M st unit :=
  match db_system db with
  | None => mret tt
  | Some cfg =>
    mwhen (ecmp_config_modified db)
      (mfor ecmp_settings (λ h, reconfigure_ecmp_field cfg (ecmp_key h) h))
  end.

(** ** Reconfiguration *)

Definition is_route_nh_rows_modified (r : ovsrec_route) : bool :=
  List.existsb (λ n, nhr_modified n && negb (nhr_inserted n)) (rr_nexthops r).

Definition row_hash_str (row : ovsrec_route) : string :=
  vrf_route_hash (rr_from row) (rr_prefix row).

(** [current_idl_routes] *)
Definition current_idl_routes (name : string) (rows : list ovsrec_route)
  : gmap string ovsrec_route :=
  shash_collect row_hash_str
    (filter (λ row, vrf_is_route_row_selected row = true ∧ name = rr_vrf row) rows).

Definition delete_stale_route (idl_routes : gmap string ovsrec_route) (route : route) : M st unit :=
  match idl_routes !! vrf_route_hash (r_from route) (r_prefix route) with
  | None => vrf_route_delete route
  | Some _ => mret tt
  end.

Definition add_new_route (row : ovsrec_route) : M st unit :=
  route ← gets (vrf_route_hash_lookup row);
  match route with
  | None => vrf_route_add row
  | Some _ => mret tt
  end.

Definition modify_changed_route (row : ovsrec_route) : M st unit :=
  name ← gets vrf_name;
  mwhen (bool_decide (name = rr_vrf row) && rr_modified row && negb (rr_inserted row))
    (route ← gets (vrf_route_hash_lookup row);
     if vrf_is_route_row_selected row then
       match route with
       | Some route => vrf_route_modify route row
       | None => vrf_route_add row
       end
     else
       match route with
       | Some route => vrf_route_delete route
       | None => mret tt
       end).

Definition vrf_reconfigure_routes (db : idl_routes) : M st unit :=
  vrf_reconfigure_ecmp db ;;
  if negb has_l3_route_action then mret tt else
  match db_routes db with
  | [] => routes ← gets all_routes; mfor routes vrf_route_delete
  | _ =>
    if negb (routes_any_modified db) && negb (routes_any_deleted db) && negb (routes_any_inserted db)
    then mret tt else
    name ← gets vrf_name;
    let idl_routes := current_idl_routes name (db_routes db) in
    mwhen (routes_any_deleted db)
      (routes ← gets all_routes; mfor routes (delete_stale_route idl_routes)) ;;
    mwhen (routes_any_inserted db) (mfor (shash_nodes idl_routes).*2 add_new_route) ;;
    mwhen (routes_any_modified db) (mfor (db_routes db) modify_changed_route)
  end.

Definition modify_route_of_nexthops (row : ovsrec_route) : M st unit :=
  mwhen ((0 <? length (rr_nexthops row))%nat && is_route_nh_rows_modified row)
    (route ← gets (vrf_route_hash_lookup row);
     match route with
     | Some route => vrf_route_modify route row
     | None => mret tt
     end).

Definition vrf_reconfigure_nexthops (db : idl_routes) : M st unit :=
  match db_nexthops db with
  | [] => mret tt
  | _ => mwhen (nexthops_any_modified db) (mfor (db_routes db) modify_route_of_nexthops)
  end.

(** ** Specification

    What the hardware should be given for the nexthop rows of a route, as
    functions of the rows and of the neighbor cache. *)

Definition selected_rows (row : ovsrec_route) : list ovsrec_nexthop :=
  filter (λ n, nh_row_valid n = true) (rr_nexthops row).

Definition ip_slot (s : st) (ip : string) : ofproto_route_nexthop :=
  match neighbor_resolved (neighbor_hash_lookup ip s) with
  | Some egress => OfpNexthop OFPROTO_NH_RESOLVED OFPROTO_NH_IPADDR ip (Some egress)
  | None => OfpNexthop OFPROTO_NH_UNRESOLVED OFPROTO_NH_IPADDR ip None
  end.

Definition port_slot (p : string) : ofproto_route_nexthop :=
  OfpNexthop OFPROTO_NH_UNRESOLVED OFPROTO_NH_PORT p None.

(** A nexthop as a non-ECMP route, or a deletion, presents it. *)
Definition slot (s : st) (ip : option string) (key : string) : ofproto_route_nexthop :=
  match ip with
  | Some ip => ip_slot s ip
  | None => port_slot key
  end.

(** A nexthop as an ECMP route presents it: not at all while it is unresolved. *)
Definition resolved_slot (s : st) (ip : option string) (key : string)
  : option ofproto_route_nexthop :=
  match ip with
  | Some ip =>
    match neighbor_resolved (neighbor_hash_lookup ip s) with
    | Some egress => Some (OfpNexthop OFPROTO_NH_RESOLVED OFPROTO_NH_IPADDR ip (Some egress))
    | None => None
    end
  | None => Some (port_slot key)
  end.

Definition unresolved_slot (n : ovsrec_nexthop) : option ofproto_route_nexthop :=
  ip ← nhr_ip_address n; Some (OfpNexthop OFPROTO_NH_UNRESOLVED OFPROTO_NH_IPADDR ip None).

(** The nexthops a new route is programmed with. *)
Definition programmed_nexthops (s : st) (row : ovsrec_route) : list ofproto_route_nexthop :=
  if decide (1 < length (rr_nexthops row))%nat then
    match omap (λ n, resolved_slot s (nhr_ip_address n) (nh_row_key n)) (selected_rows row) with
    | [] => take 1 (omap unresolved_slot (selected_rows row))
    | l => l
    end
  else (λ n, slot s (nhr_ip_address n) (nh_row_key n)) <$> selected_rows row.

(** A cached route mirrors its row: same protocol and prefix, and the keys of
    its nexthops are those of the selected rows. *)
Definition route_matches (row : ovsrec_route) (r : route) : Prop :=
  r_from r = rr_from row ∧ r_prefix r = rr_prefix row ∧
  nh_key <$> r_nexthops r ≡ₚ nh_row_key <$> selected_rows row.

(** ** Invariant

    [ips] and [ports] are the IP addresses and port names in use; no address
    hashes like a port name (otherwise [vrf_route_nexthop_lookup] compares a
    string with a null pointer). *)

Section Invariant.
Context (ips ports : gset string).

Definition hashes_apart : Prop := ∀ i p, i ∈ ips → p ∈ ports → hash_string i ≠ hash_string p.

Definition nh_ok (rid : Z) (nh : nexthop) : Prop :=
  nh_route nh = rid ∧
  ((∃ i, nh_ip_addr nh = Some i ∧ nh_port_name nh = None ∧ i ∈ ips) ∨
   (∃ p, nh_ip_addr nh = None ∧ nh_port_name nh = Some p ∧ p ∈ ports)).

Definition route_ok (r : route) : Prop :=
  Forall (nh_ok (r_id r)) (r_nexthops r) ∧
  NoDup (nh_key <$> r_nexthops r) ∧
  (length (r_nexthops r) ≤ OFPROTO_MAX_NH_PER_ROUTE)%nat.

Definition has_ip (nh : nexthop) : Prop := is_Some (nh_ip_addr nh).
#[global] Instance has_ip_dec nh : Decision (has_ip nh).
Proof. unfold has_ip. apply _. Defined.

(** Addresses are fresh and distinct, [all_nexthops] is exactly the IP nexthops
    of the routes, back pointers lead to the owner. *)
Record wf_core (next : Z) (rs : list route) (anh : list nexthop) : Prop := {
  wf_route_ids : NoDup (r_id <$> rs);
  wf_route_fresh : Forall (λ r, r_id r < next) rs;
  wf_nh_ids : NoDup (nh_id <$> (rs ≫= r_nexthops));
  wf_nh_fresh : Forall (λ nh, nh_id nh < next) (rs ≫= r_nexthops);
  wf_all_nexthops : anh ≡ₚ filter has_ip (rs ≫= r_nexthops);
  wf_routes : Forall route_ok rs;
}.

Definition wf (s : st) : Prop := wf_core (next_id s) (all_routes s) (all_nexthops s).

(** What the database promises about a route row: port references are not
    null, the addresses and ports are known, no nexthop is listed twice and
    there are no more than the hardware array holds. *)
Definition nh_row_ok (n : ovsrec_nexthop) : Prop :=
  head (nhr_ports n) ≠ Some None ∧
  (∀ i, nhr_ip_address n = Some i → i ∈ ips) ∧
  (∀ p, nhr_ip_address n = None → nhr_port0 n = Some p → p ∈ ports).

Definition row_ok (row : ovsrec_route) : Prop :=
  Forall nh_row_ok (rr_nexthops row) ∧
  NoDup (nh_row_key <$> selected_rows row) ∧
  (length (rr_nexthops row) ≤ OFPROTO_MAX_NH_PER_ROUTE)%nat.
End Invariant.
End Vrf.

(** A provider that accepts everything, for concrete runs: host entries get
    egress id 7, and a nexthop array holds 32 entries. *)
Definition ref_l3 : L3Provider := {|
  OFPROTO_MAX_NH_PER_ROUTE := 32;
  has_l3_route_action := true;
  ofproto_l3_route_action := λ _ _ _, (0, λ _, (0, ""%string));
  ofproto_add_l3_host_entry := λ _ _ _ _ _, (0, 7);
  ofproto_delete_l3_host_entry := λ _ _ _ _ _, (0, -1);
  ofproto_get_l3_host_hit := λ _ _ _ _, (0, true);
|}.
