(* ===== verification/VrfFacts.v ===== *)
(** * Routes and nexthops of a VRF: proofs

    The invariant of the route cache, the functional behaviour of every
    operation of vrf.c on it, and what one reconfiguration achieves. *)

From Stdlib Require Import Ascii.
From S2P Require Import Prelude OvsLib Vrf.
Local Open Scope Z_scope.

(** ** ECMP *)

Section Ecmp.
Context `{HL : OvsLib, HS : Schema, HP : L3Provider}.

Definition ecmp_wanted (cfg : smap) (h : option ofproto_ecmp_hash) : bool :=
  smap_get_bool cfg (ecmp_key h) SYSTEM_ECMP_CONFIG_ENABLE_DEFAULT.

Definition ecmp_event (cfg : smap) (h : option ofproto_ecmp_hash) : l3_event :=
  match h with
  | None => EcmpSet (ecmp_wanted cfg h)
  | Some h' => EcmpHashSet h' (ecmp_wanted cfg h)
  end.

Definition ecmp_differs (cfg : smap) (e : ecmp) (h : option ofproto_ecmp_hash) : Prop :=
  ecmp_wanted cfg h ≠ ecmp_field h e.

#[local] Instance ecmp_differs_dec cfg e h : Decision (ecmp_differs cfg e h).
Proof. unfold ecmp_differs. apply _. Defined.

Lemma ecmp_field_set h h' v e :
  ecmp_field h' (set_ecmp_field h v e) = if decide (h' = h) then v else ecmp_field h' e.
Proof. by destruct h as [[]|], h' as [[]|]. Qed.

Lemma reconfigure_ecmp_field_spec cfg h s :
  ∃ e', reconfigure_ecmp_field cfg (ecmp_key h) h s =
      Ok (tt, set_log (log s ++ (if decide (ecmp_differs cfg (ecmp_config s) h)
                                 then [ecmp_event cfg h] else [])) (set_ecmp e' s)) ∧
    (∀ h', ecmp_field h' e' = if decide (h' = h) then ecmp_wanted cfg h else ecmp_field h' (ecmp_config s)).
Proof.
  unfold reconfigure_ecmp_field, ecmp_differs. fold (ecmp_wanted cfg h).
  unfold mbind, M_bind, gets. destruct (Bool.eqb_spec (ecmp_wanted cfg h) (ecmp_field h (ecmp_config s))) as [E|E].
  - exists (ecmp_config s). rewrite decide_False by (intros Hn; by apply Hn).
    split; [simpl; rewrite app_nil_r; by destruct s|].
    intros h'. case_decide; [by subst|done].
  - exists (set_ecmp_field h (ecmp_wanted cfg h) (ecmp_config s)). rewrite decide_True by done.
    split; [by destruct h|]. intros h'. apply ecmp_field_set.
Qed.

Lemma ecmp_loop_spec cfg hs s :
  NoDup hs →
  ∃ e', mfor hs (λ h, reconfigure_ecmp_field cfg (ecmp_key h) h) s =
      Ok (tt, set_log (log s ++ (ecmp_event cfg <$> filter (ecmp_differs cfg (ecmp_config s)) hs))
                (set_ecmp e' s)) ∧
    (∀ h, ecmp_field h e' = if decide (h ∈ hs) then ecmp_wanted cfg h else ecmp_field h (ecmp_config s)).
Proof.
  intros Hnd. revert s. induction Hnd as [|h hs Hh Hnd IH]; intros s.
  { exists (ecmp_config s). split; [simpl; rewrite app_nil_r; by destruct s|].
    intros h. by rewrite decide_False by apply not_elem_of_nil. }
  destruct (reconfigure_ecmp_field_spec cfg h s) as (e1 & E1 & He1).
  set (s1 := set_log _ _) in E1. destruct (IH s1) as (e2 & E2 & He2).
  exists e2. split.
  - cbn [mfor]. unfold mbind, M_bind. rewrite E1, E2. do 2 f_equal. unfold s1, set_log. simpl. f_equal.
    rewrite <-app_assoc. f_equal. rewrite filter_cons.
    assert (filter (ecmp_differs cfg e1) hs = filter (ecmp_differs cfg (ecmp_config s)) hs) as ->.
    { apply list_filter_iff_strong. intros x Hx. unfold ecmp_differs. rewrite He1.
      rewrite decide_False; [done|]. by intros ->. }
    by case_decide.
  - intros h'. rewrite He2. simpl. rewrite He1.
    destruct (decide (h' ∈ hs)).
    + by rewrite decide_True by set_solver.
    + destruct (decide (h' = h)) as [->|]; [by rewrite decide_True by set_solver|].
      by rewrite decide_False by set_solver.
Qed.

Lemma reconfigure_ecmp_frame db s :
  ∃ e' evs, vrf_reconfigure_ecmp db s = Ok (tt, set_log (log s ++ evs) (set_ecmp e' s)).
Proof.
  assert (∃ e' evs, @Ok (unit * st) (tt, s) = Ok (tt, set_log (log s ++ evs) (set_ecmp e' s))) as Hid.
  { exists (ecmp_config s), []. rewrite app_nil_r. by destruct s. }
  unfold vrf_reconfigure_ecmp. destruct (db_system db) as [cfg|]; [|done].
  destruct (ecmp_config_modified db); [|done].
  destruct (ecmp_loop_spec cfg ecmp_settings s) as (e' & E & _); [by apply (bool_decide_unpack _)|].
  eauto.
Qed.

(** ECMP settings.  When the system row exists and its ecmp_config column
    changed, the cached configuration afterwards equals the database (with the
    schema default for missing keys), and the provider got one call per setting
    that differed, in the order of the code, and none for the others. *)
Theorem vrf_reconfigure_ecmp_syncs db cfg s :
  db_system db = Some cfg → ecmp_config_modified db = true →
  ∃ s', vrf_reconfigure_ecmp db s = Ok (tt, s') ∧
    (∀ h, ecmp_field h (ecmp_config s') = ecmp_wanted cfg h) ∧
    log s' = log s ++ (ecmp_event cfg <$> filter (ecmp_differs cfg (ecmp_config s)) ecmp_settings) ∧
    all_routes s' = all_routes s ∧ all_nexthops s' = all_nexthops s.
Proof.
  intros Hsys Hmod. unfold vrf_reconfigure_ecmp. rewrite Hsys, Hmod. simpl mwhen.
  destruct (ecmp_loop_spec cfg ecmp_settings s) as (e' & E & He); [by apply (bool_decide_unpack _)|].
  eexists. split; [exact E|]. split_and!; try done. intros h. simpl. rewrite He.
  rewrite decide_True; [done|]. destruct h as [[]|]; by apply (bool_decide_unpack _).
Qed.

End Ecmp.

Section Facts.
Context `{HL : OvsLib, HS : Schema, HP : L3Provider} (ips ports : gset string).
Context (Hsep : hashes_apart ips ports).

Local Abbreviation nh_ok := (nh_ok ips ports).
Local Abbreviation route_ok := (route_ok ips ports).
Local Abbreviation wf_core := (wf_core ips ports).
Local Abbreviation wf := (wf ips ports).
Local Abbreviation row_ok := (row_ok ips ports).
Local Abbreviation nh_row_ok := (nh_row_ok ips ports).

(** ** The invariant under the elementary changes of the cache *)

#[export] Instance wf_core_proper : Proper ((=) ==> (≡ₚ) ==> (≡ₚ) ==> iff) wf_core.
Proof.
  assert (∀ n rs rs' anh anh', rs ≡ₚ rs' → anh ≡ₚ anh' → wf_core n rs anh → wf_core n rs' anh') as W.
  { intros n rs rs' anh anh' Hr Ha [H1 H2 H3 H4 H5 H6].
    split; [by rewrite <-Hr|by rewrite <-Hr|by rewrite <-Hr|by rewrite <-Hr| |by rewrite <-Hr].
    by rewrite <-Ha, <-Hr. }
  intros n ? <- rs rs' Hr anh anh' Ha. split; by apply W.
Qed.

Lemma nh_key_ip nh i : nh_ip_addr nh = Some i → nh_key nh = i.
Proof. unfold nh_key, vrf_nh_hash. by intros ->. Qed.

Lemma nh_key_port nh p : nh_ip_addr nh = None → nh_port_name nh = Some p → nh_key nh = p.
Proof. unfold nh_key, vrf_nh_hash. by intros -> ->. Qed.

Lemma wf_new_route n rs anh r :
  wf_core n rs anh → r_id r = n → r_nexthops r = [] → wf_core (n + 1) (r :: rs) anh.
Proof.
  intros [H1 H2 H3 H4 H5 H6] Hid Hn. split; csimpl.
  - apply NoDup_cons. split; [|done]. rewrite list_elem_of_fmap. intros (r' & E & Hr').
    rewrite Forall_forall in H2. apply H2 in Hr'. simpl in *. lia.
  - constructor; [lia|]. eapply Forall_impl; [exact H2|]. simpl. lia.
  - by rewrite Hn.
  - rewrite Hn. eapply Forall_impl; [exact H4|]. simpl. lia.
  - by rewrite Hn.
  - constructor; [|done]. split_and!; rewrite Hn; [constructor|constructor|simpl; lia].
Qed.

Lemma wf_drop_route n rs anh r :
  wf_core n (r :: rs) anh → r_nexthops r = [] → wf_core n rs anh.
Proof.
  intros [H1 H2 H3 H4 H5 H6] Hn. csimpl in *. rewrite Hn in *.
  by apply NoDup_cons in H1 as [_ H1]; inversion H2; inversion H6; split.
Qed.

(** The fields of a route other than its nexthops matter only through [r_id]. *)
Lemma wf_same_route n rs anh r r' :
  r_id r' = r_id r → r_nexthops r' = r_nexthops r → wf_core n (r :: rs) anh → wf_core n (r' :: rs) anh.
Proof.
  intros Hi Hn [H1 H2 H3 H4 H5 H6]. split; csimpl in *; rewrite ?Hi, ?Hn; try done.
  - inversion H2; subst. constructor; [lia|done].
  - inversion H6 as [|?? Hr ?]; subst. constructor; [|done].
    unfold Vrf.route_ok in *. by rewrite Hi, Hn.
Qed.

Lemma wf_add_nh n rs anh r nh l' :
  wf_core n (r :: rs) anh → nh_ok (r_id r) nh → nh_id nh = n →
  nh_key nh ∉ nh_key <$> r_nexthops r →
  (length (r_nexthops r) < OFPROTO_MAX_NH_PER_ROUTE)%nat →
  l' ≡ₚ nh :: r_nexthops r →
  wf_core (n + 1) (set_r_nexthops l' r :: rs) (if decide (has_ip nh) then nh :: anh else anh).
Proof.
  intros [H1 H2 H3 H4 H5 H6] Hok Hid Hk Hlen Hl'. csimpl in *.
  inversion H6 as [|?? (Hr1 & Hr2 & Hr3) H6']; subst.
  assert (∀ nh', nh' ∈ r_nexthops r ++ (rs ≫= r_nexthops) → nh_id nh' < nh_id nh) as Hfr
    by (by apply Forall_forall).
  split; csimpl.
  - done.
  - apply Forall_cons in H2 as [? H2]. constructor; [simpl; lia|].
    eapply Forall_impl; [exact H2|]. simpl. lia.
  - rewrite Hl'. csimpl. apply NoDup_cons. split; [|done].
    rewrite list_elem_of_fmap. intros (y & E & Hy). apply Hfr in Hy. simpl in *. lia.
  - rewrite Hl'. constructor; [lia|]. eapply Forall_impl; [exact H4|]. simpl. lia.
  - rewrite Hl'. simpl. rewrite filter_cons. case_decide; by rewrite H5.
  - constructor; [|done]. split_and!; simpl; rewrite Hl'.
    + by constructor.
    + csimpl. by apply NoDup_cons.
    + simpl. lia.
Qed.

Lemma wf_del_nh n rs anh r nh :
  wf_core n (r :: rs) anh → nh ∈ r_nexthops r →
  wf_core n (set_r_nexthops (filter (λ x, nh_id x ≠ nh_id nh) (r_nexthops r)) r :: rs)
    (filter (λ x, nh_id x ≠ nh_id nh) anh).
Proof.
  intros [H1 H2 H3 H4 H5 H6] Hnh. csimpl in *.
  inversion H6 as [|?? (Hr1 & Hr2 & Hr3) H6']; subst.
  rewrite fmap_app in H3. apply NoDup_app in H3 as (H3a & H3b & H3c).
  assert (filter (λ x, nh_id x ≠ nh_id nh) (rs ≫= r_nexthops) = rs ≫= r_nexthops) as Efl.
  { apply filter_all. intros x Hx E. apply (H3b (nh_id x)); apply list_elem_of_fmap; eauto. }
  assert (filter (λ x, nh_id x ≠ nh_id nh) (r_nexthops r ++ (rs ≫= r_nexthops)) =
          filter (λ x, nh_id x ≠ nh_id nh) (r_nexthops r) ++ (rs ≫= r_nexthops)) as Hf
    by (by rewrite filter_app, Efl).
  split; csimpl.
  - done.
  - by apply Forall_cons in H2 as [? H2]; constructor.
  - rewrite <-Hf. apply NoDup_fmap_filter. rewrite fmap_app. by apply NoDup_app.
  - rewrite <-Hf. by apply Forall_filter_sub.
  - rewrite H5, <-Hf, !list_filter_filter. apply reflexive_eq, list_filter_iff. tauto.
  - constructor; [|done]. split_and!; simpl.
    + by apply Forall_filter_sub.
    + by apply NoDup_fmap_filter.
    + pose proof (length_filter (λ x, nh_id x ≠ nh_id nh) (r_nexthops r)). lia.
Qed.

(** ** Lookup of a nexthop in its route *)

Definition key_ok (ip port : option string) (k : string) : Prop :=
  (ip = Some k ∧ k ∈ ips) ∨ (ip = None ∧ port = Some k ∧ k ∈ ports).

Definition nh_at (k : string) (l : list nexthop) : option nexthop :=
  List.find (λ nh, bool_decide (nh_key nh = k)) l.

Lemma scan_step rid nh ip port k l s :
  nh_ok rid nh → key_ok ip port k →
  nexthop_scan (hash_string k) ip port (nh :: l) s =
  if decide (nh_key nh = k) then Ok (Some nh, s) else nexthop_scan (hash_string k) ip port l s.
Proof.
  intros [_ Hn] Hk. simpl. unfold nh_hash_of, strcmp_eq.
  destruct Hn as [(i & Hi & Hp & Hin)|(p & Hi & Hp & Hin)]; rewrite Hi, Hp; simpl.
  - rewrite (nh_key_ip _ _ Hi).
    destruct Hk as [[-> Hk]|(-> & -> & Hk)].
    + destruct (decide (i = k)) as [<-|Hne].
      * rewrite Z.eqb_refl. unfold mbind, M_bind; simpl. by rewrite bool_decide_true.
      * destruct (_ =? _); [|done]. unfold mbind, M_bind; simpl. by rewrite bool_decide_false.
    + assert (i ≠ k) by (intros ->; by apply (Hsep k k)).
      rewrite (proj2 (Z.eqb_neq _ _)); [by rewrite decide_False|]. by apply Hsep.
  - rewrite (nh_key_port _ _ Hi Hp).
    destruct Hk as [[-> Hk]|(-> & -> & Hk)].
    + assert (p ≠ k) by (intros ->; by apply (Hsep k k)).
      rewrite (proj2 (Z.eqb_neq _ _)); [by rewrite decide_False|].
      intros E. by apply (Hsep k p).
    + destruct (decide (p = k)) as [<-|Hne].
      * rewrite Z.eqb_refl. unfold mbind, M_bind; simpl. by rewrite bool_decide_true.
      * destruct (_ =? _); [|done]. unfold mbind, M_bind; simpl. by rewrite bool_decide_false.
Qed.

Lemma lookup_spec r ip port k s :
  Forall (nh_ok (r_id r)) (r_nexthops r) → key_ok ip port k →
  vrf_route_nexthop_lookup r ip port s = Ok (nh_at k (r_nexthops r), s).
Proof.
  intros Hr Hk. unfold vrf_route_nexthop_lookup.
  assert (vrf_nh_hash ip port = Some k) as -> by (by destruct Hk as [[-> _]|(-> & -> & _)]).
  change (nexthop_scan (hash_string k) ip port (r_nexthops r) s =
          Ok (nh_at k (r_nexthops r), s)).
  induction Hr as [|nh l Hnh Hl IH]; [done|].
  rewrite (scan_step (r_id r) _ _ _ k) by done. unfold nh_at. simpl.
  case_decide as E; [by rewrite bool_decide_true|]. by rewrite bool_decide_false.
Qed.

Lemma nh_at_Some k l nh : nh_at k l = Some nh → nh ∈ l ∧ nh_key nh = k.
Proof.
  intros [Hin Hk]%List.find_some. apply bool_decide_eq_true in Hk.
  by apply list_elem_of_In in Hin.
Qed.

Lemma nh_at_is_Some k l : k ∈ nh_key <$> l → is_Some (nh_at k l).
Proof.
  rewrite list_elem_of_fmap. intros (nh & -> & Hnh). unfold nh_at.
  destruct (List.find _ l) eqn:E; [eauto|]. rewrite find_None_iff in E.
  apply E in Hnh. by apply bool_decide_eq_false in Hnh.
Qed.

Lemma nh_at_None k l : nh_at k l = None → k ∉ nh_key <$> l.
Proof. intros E Hk%nh_at_is_Some. rewrite E in Hk. by destruct Hk. Qed.

(** ** Rows *)

Lemma row_valid_key n :
  nh_row_ok n → nh_row_valid n = true → key_ok (nhr_ip_address n) (nhr_port0 n) (nh_row_key n).
Proof.
  intros (_ & Hi & Hp) Hv. unfold nh_row_valid in Hv. apply andb_true_iff in Hv as [_ Hv].
  unfold key_ok, nh_row_key, vrf_nh_hash. destruct (nhr_ip_address n) as [i|]; [naive_solver|].
  destruct (nhr_port0 n) as [p|]; [naive_solver|]. done.
Qed.

Lemma port0_name_spec n s :
  nh_row_ok n → nhr_port0_name n s = Ok (nhr_port0 n, s).
Proof.
  intros (Hh & _). unfold nhr_port0_name, nhr_port0.
  by destruct (nhr_ports n) as [|[p|] l].
Qed.

(** The nexthop made from a row. *)
Definition nh_of_row (rid : Z) (n : ovsrec_nexthop) (nh : nexthop) : Prop :=
  nh_ip_addr nh = nhr_ip_address n ∧
  nh_port_name nh = match nhr_ip_address n with Some _ => None | None => nhr_port0 n end ∧
  nh_route nh = rid ∧ nh_idl_row_uuid nh = nhr_uuid n.

Lemma nh_of_row_key rid n nh : nh_of_row rid n nh → nh_key nh = nh_row_key n.
Proof.
  intros (Hi & Hp & _). unfold nh_key, nh_row_key, vrf_nh_hash. rewrite Hi, Hp.
  by destruct (nhr_ip_address n).
Qed.

Lemma nh_of_row_ok rid n nh :
  nh_row_ok n → nh_row_valid n = true → nh_of_row rid n nh → nh_ok rid nh.
Proof.
  intros Hok Hv (Hi & Hp & Hr & _). split; [done|]. rewrite Hi, Hp.
  destruct (row_valid_key n Hok Hv) as [[E Hin]|(E & Ep & Hin)]; rewrite E; [left|right]; eauto.
Qed.

(** ** Adding and deleting a nexthop *)

(** The fields that the operations on the route cache leave alone. *)
Definition same_env (s s' : st) : Prop :=
  vrf_name s' = vrf_name s ∧ vrf_ports s' = vrf_ports s ∧
  all_neighbors s' = all_neighbors s ∧ ecmp_config s' = ecmp_config s.

#[export] Instance same_env_preorder : PreOrder same_env.
Proof. split; [done|]. unfold same_env. intros ???. naive_solver congruence. Qed.

Lemma neighbor_lookup_env s s' ip :
  same_env s s' → neighbor_hash_lookup ip s' = neighbor_hash_lookup ip s.
Proof. intros (_ & _ & E & _). unfold neighbor_hash_lookup. by rewrite E. Qed.

Lemma slot_env s s' ip k : same_env s s' → slot s' ip k = slot s ip k.
Proof.
  intros E. unfold slot, ip_slot. destruct ip; [|done]. by rewrite (neighbor_lookup_env s s').
Qed.

Lemma resolved_slot_env s s' ip k : same_env s s' → resolved_slot s' ip k = resolved_slot s ip k.
Proof.
  intros E. unfold resolved_slot. destruct ip; [|done]. by rewrite (neighbor_lookup_env s s').
Qed.

(** A change of the nexthop maps only. *)
Definition only_nhs (s s' : st) : Prop :=
  same_env s s' ∧ all_routes s' = all_routes s ∧ nh_status s' = nh_status s ∧ log s' = log s.

#[export] Instance only_nhs_preorder : PreOrder only_nhs.
Proof.
  split; [done|]. unfold only_nhs. intros ??? (E1 & ?) (E2 & ?).
  split; [by etrans|]. naive_solver congruence.
Qed.

Lemma nexthop_add_spec r n s others :
  wf_core (next_id s) (r :: others) (all_nexthops s) →
  nh_row_ok n → nh_row_valid n = true →
  nh_row_key n ∉ nh_key <$> r_nexthops r →
  (length (r_nexthops r) < OFPROTO_MAX_NH_PER_ROUTE)%nat →
  ∃ nh l' s', vrf_nexthop_add r n s = Ok ((Some nh, set_r_nexthops l' r), s') ∧
    nh_of_row (r_id r) n nh ∧ l' ≡ₚ nh :: r_nexthops r ∧ only_nhs s s' ∧
    wf_core (next_id s') (set_r_nexthops l' r :: others) (all_nexthops s').
Proof.
  intros Hwf Hok Hv Hk Hlen. unfold vrf_nexthop_add, alloc. cbn.
  destruct (row_valid_key n Hok Hv) as [[E Hin]|(E & Ep & Hin)]; rewrite E; rewrite ?Ep; cbn;
    (eexists _, _, _; split_and!; [reflexivity| |apply hmap_insert_perm|done|]); cbn.
  1, 3: by unfold nh_of_row; rewrite E; rewrite ?Ep.
  - set (nh := Nexthop _ _ _ _ _).
    pose proof (λ l, wf_add_nh _ _ _ _ nh l Hwf) as W.
    eapply wf_core_proper; [done|done|apply hmap_insert_perm|].
    assert (has_ip nh) as Hip by (by exists (nh_row_key n)).
    rewrite decide_True in W by done. apply W; try done.
    + apply (nh_of_row_ok _ n); [done..|]. by unfold nh_of_row; rewrite E.
    + apply hmap_insert_perm.
  - set (nh := Nexthop _ _ _ _ _).
    pose proof (λ l, wf_add_nh _ _ _ _ nh l Hwf) as W.
    assert (¬ has_ip nh) as Hip by (by intros [? ?]).
    rewrite decide_False in W by done. apply W; try done.
    + apply (nh_of_row_ok _ n); [done..|]. by unfold nh_of_row; rewrite E, Ep.
    + apply hmap_insert_perm.
Qed.

Local Abbreviation valid_rows := (filter (λ n, nh_row_valid n = true)).

Lemma set_r_nexthops_twice l l' r : set_r_nexthops l (set_r_nexthops l' r) = set_r_nexthops l r.
Proof. done. Qed.

Lemma set_r_nexthops_id r : set_r_nexthops (r_nexthops r) r = r.
Proof. by destruct r. Qed.

(** What is left to do of a list of rows when one of them is handled. *)
Lemma rows_cons_todo n (rows : list ovsrec_nexthop) (r : route) nh l' (m : nat) :
  NoDup (nh_row_key <$> n :: rows) →
  (∀ k, k ∈ nh_row_key <$> n :: rows → k ∉ nh_key <$> r_nexthops r) →
  (length (r_nexthops r) + length (n :: rows) ≤ m)%nat →
  nh_key nh = nh_row_key n → l' ≡ₚ nh :: r_nexthops r →
  NoDup (nh_row_key <$> rows) ∧
  (∀ k, k ∈ nh_row_key <$> rows → k ∉ nh_key <$> l') ∧
  (length l' + length rows ≤ m)%nat.
Proof.
  intros Hnd Hk Hlen Ek Hl'. rewrite fmap_cons in *. apply NoDup_cons in Hnd as [Hn Hnd].
  simpl in Hlen. split_and!; [done| |rewrite Hl'; simpl; lia].
  intros k Hin. rewrite Hl', fmap_cons, Ek. rewrite not_elem_of_cons. split; [set_solver|].
  apply Hk. set_solver.
Qed.

Lemma add_selected_spec rows r s others :
  wf_core (next_id s) (r :: others) (all_nexthops s) →
  Forall nh_row_ok rows →
  NoDup (nh_row_key <$> valid_rows rows) →
  (∀ k, k ∈ nh_row_key <$> valid_rows rows → k ∉ nh_key <$> r_nexthops r) →
  (length (r_nexthops r) + length (valid_rows rows) ≤ OFPROTO_MAX_NH_PER_ROUTE)%nat →
  ∃ new l' s', add_selected_nhs rows r s = Ok (set_r_nexthops l' r, s') ∧
    Forall2 (nh_of_row (r_id r)) (valid_rows rows) new ∧ l' ≡ₚ new ++ r_nexthops r ∧
    only_nhs s s' ∧ wf_core (next_id s') (set_r_nexthops l' r :: others) (all_nexthops s').
Proof.
  intros Hwf Hok. revert r s Hwf.
  induction Hok as [|n rows Hn Hrows IH]; intros r s Hwf Hnd Hk Hlen.
  { exists [], (r_nexthops r), s. rewrite set_r_nexthops_id. split_and!; done || constructor. }
  unfold add_selected_nhs. cbn [mfold]. rewrite filter_cons in *.
  case_decide as Hv; rewrite ?Hv.
  2:{ apply not_true_is_false in Hv. rewrite Hv. apply IH; done. }
  destruct (nexthop_add_spec r n s others) as (nh & l1 & s1 & E1 & Hnh & Hl1 & Ho1 & Hwf1); try done.
  { apply Hk. rewrite fmap_cons. set_solver. }
  { simpl in Hlen. lia. }
  destruct (rows_cons_todo n (valid_rows rows) r nh l1 OFPROTO_MAX_NH_PER_ROUTE) as (Hnd' & Hk' & Hlen');
    try done. { by eapply nh_of_row_key. }
  destruct (IH (set_r_nexthops l1 r) s1) as (new & l2 & s2 & E2 & Hnew & Hl2 & Ho2 & Hwf2); try done.
  exists (nh :: new), l2, s2. split_and!.
  - apply bind_Ok. exists (set_r_nexthops l1 r), s1. split; [|exact E2].
    apply bind_Ok. eexists _, _. split; [exact E1|done].
  - by constructor.
  - rewrite Hl2. simpl. rewrite Hl1. by rewrite Permutation_middle.
  - by etrans.
  - done.
Qed.

(** ** Filling the array of nexthops *)

Lemma ofp_slot_ok (l : list ofproto_route_nexthop) (s : st) :
  (length l < OFPROTO_MAX_NH_PER_ROUTE)%nat → ofp_slot l s = Ok (tt, s).
Proof. intros Hl. unfold ofp_slot. by rewrite decide_True. Qed.

Lemma ofp_push_ok l x (s : st) :
  (length l < OFPROTO_MAX_NH_PER_ROUTE)%nat → ofp_push l x s = Ok (l ++ [x], s).
Proof. intros Hl. unfold ofp_push, mbind, M_bind. by rewrite ofp_slot_ok. Qed.

Lemma set_nh_spec rid nh s :
  nh_ok rid nh → vrf_ofproto_set_nh nh s = Ok (slot s (nh_ip_addr nh) (nh_key nh), s).
Proof.
  intros [_ [(i & Hi & Hp & _)|(p & Hi & Hp & _)]]; unfold vrf_ofproto_set_nh; rewrite Hp, Hi; simpl.
  - unfold mbind, M_bind, slot, ip_slot; simpl. by destruct (neighbor_resolved _).
  - by rewrite (nh_key_port _ _ Hi Hp).
Qed.

Lemma update_resolved_spec rid nh l s :
  nh_ok rid nh → (length l < OFPROTO_MAX_NH_PER_ROUTE)%nat →
  vrf_ofproto_update_resolved_nh l nh s =
  Ok (l ++ option_list (resolved_slot s (nh_ip_addr nh) (nh_key nh)), s).
Proof.
  intros [_ Hn] Hl. unfold vrf_ofproto_update_resolved_nh, mbind, M_bind.
  rewrite ofp_slot_ok by done.
  destruct Hn as [(i & Hi & Hp & _)|(p & Hi & Hp & _)]; rewrite Hp, Hi; simpl.
  - destruct (neighbor_resolved _); simpl; by rewrite ?app_nil_r.
  - by rewrite (nh_key_port _ _ Hi Hp).
Qed.

(** [nh] stands for [n] in the route: same key, same kind. *)
Lemma nh_same_ip rid n nh :
  nh_ok rid nh → nh_row_ok n → nh_row_valid n = true → nh_key nh = nh_row_key n →
  nh_ip_addr nh = nhr_ip_address n ∧
  nh_port_name nh = match nhr_ip_address n with Some _ => None | None => nhr_port0 n end.
Proof.
  intros [_ Hnh] Hn Hv Ek.
  destruct (row_valid_key n Hn Hv) as [[E Hin]|(E & Ep & Hin)]; rewrite E;
    destruct Hnh as [(i & Hi & Hp & Hin')|(p & Hi & Hp & Hin')];
    first [rewrite (nh_key_ip _ _ Hi) in Ek|rewrite (nh_key_port _ _ Hi Hp) in Ek]; subst.
  - done.
  - by destruct (Hsep _ _ Hin Hin').
  - by destruct (Hsep _ _ Hin' Hin).
  - by rewrite Hi, Hp, Ep.
Qed.

Section With_route.
Context (r : route) (Hr : Forall (nh_ok (r_id r)) (r_nexthops r)).

Lemma collect_resolved_step l n s :
  nh_row_ok n → (nh_row_valid n = true → nh_row_key n ∈ nh_key <$> r_nexthops r) →
  (length l < OFPROTO_MAX_NH_PER_ROUTE)%nat →
  collect_resolved_nh r l n s =
  Ok (l ++ (if nh_row_valid n
            then option_list (resolved_slot s (nhr_ip_address n) (nh_row_key n)) else []), s).
Proof.
  intros Hn Hin Hl. unfold collect_resolved_nh.
  destruct (nh_row_valid n) eqn:Hv; [|by rewrite app_nil_r].
  unfold mbind, M_bind at 1. rewrite port0_name_spec by done. unfold M_bind.
  rewrite (lookup_spec r _ _ (nh_row_key n)) by (done || by apply row_valid_key).
  destruct (nh_at_is_Some (nh_row_key n) (r_nexthops r)) as [nh E]; [by apply Hin|]. rewrite E.
  apply nh_at_Some in E as [Hnh Ek].
  assert (nh_ok (r_id r) nh) as Hok by (by eapply Forall_forall in Hnh).
  destruct (nh_same_ip (r_id r) n nh) as [Ei Ep]; try done. rewrite Ei, Ep.
  destruct (row_valid_key n Hn Hv) as [[Ei' _]|(Ei' & Ep' & _)]; rewrite Ei'; rewrite ?Ep'; simpl.
  - destruct (neighbor_resolved _); simpl; [by rewrite ofp_push_ok|by rewrite app_nil_r].
  - by rewrite ofp_push_ok.
Qed.

Lemma collect_resolved_spec rows l s :
  Forall nh_row_ok rows →
  (∀ n, n ∈ rows → nh_row_valid n = true → nh_row_key n ∈ nh_key <$> r_nexthops r) →
  (length l + length rows ≤ OFPROTO_MAX_NH_PER_ROUTE)%nat →
  mfold (collect_resolved_nh r) rows l s =
  Ok (l ++ omap (λ n, resolved_slot s (nhr_ip_address n) (nh_row_key n)) (valid_rows rows), s).
Proof.
  intros Hrows. revert l. induction Hrows as [|n rows Hn Hrows IH]; intros l Hin Hlen.
  { by rewrite app_nil_r. }
  cbn [mfold]. unfold mbind, M_bind. simpl in Hlen.
  rewrite collect_resolved_step; [|done|apply Hin, list_elem_of_here|lia].
  rewrite filter_cons. destruct (nh_row_valid n) eqn:Hv.
  - rewrite decide_True by done. rewrite IH.
    + simpl. destruct (resolved_slot _ _ _); simpl; by rewrite <-app_assoc.
    + set_solver.
    + rewrite length_app. destruct (resolved_slot _ _ _); simpl; lia.
  - rewrite decide_False by done. rewrite app_nil_r. apply IH; [set_solver|lia].
Qed.

Lemma fill_unresolved_spec rows s :
  (0 < OFPROTO_MAX_NH_PER_ROUTE)%nat →
  Forall nh_row_ok rows →
  (∀ n, n ∈ rows → nh_row_valid n = true → nh_row_key n ∈ nh_key <$> r_nexthops r) →
  fill_unresolved_nh r rows s = Ok (take 1 (omap unresolved_slot (valid_rows rows)), s).
Proof.
  intros Hmax Hrows. induction Hrows as [|n rows Hn Hrows IH]; intros Hin; [done|].
  cbn [fill_unresolved_nh]. rewrite filter_cons.
  destruct (nhr_ip_address n) as [ip|] eqn:Ei.
  - assert (nh_row_valid n = vrf_is_nh_row_selected n) as Ev.
    { unfold nh_row_valid. rewrite Ei. simpl. by rewrite andb_true_r. }
    rewrite <-Ev. destruct (nh_row_valid n) eqn:Hv.
    2:{ rewrite decide_False by done. apply IH. set_solver. }
    rewrite decide_True by done. simpl. unfold unresolved_slot at 1. rewrite Ei. simpl.
    assert (nh_row_key n = ip) as Ekr by (unfold nh_row_key; by rewrite Ei).
    unfold mbind, M_bind. rewrite (lookup_spec r _ _ ip); [|done|left; split; [done|]; by apply Hn].
    destruct (nh_at_is_Some (nh_row_key n) (r_nexthops r)) as [nh E]; [apply Hin; set_solver|].
    rewrite Ekr in E. rewrite E. apply nh_at_Some in E as [Hnh Ek].
    assert (nh_ok (r_id r) nh) as Hok by (by eapply Forall_forall in Hnh).
    destruct (nh_same_ip (r_id r) n nh) as [Ei' _]; [done..|congruence|].
    rewrite Ei', Ei. simpl. by rewrite ofp_push_ok.
  - case_decide; [|apply IH; set_solver].
    simpl. unfold unresolved_slot at 1. rewrite Ei. simpl. apply IH. set_solver.
Qed.
End With_route.

(** ** Programming a route and reporting its errors *)

Definition slot_ok (o : ofproto_route_nexthop) : Prop :=
  match onh_type o with
  | OFPROTO_NH_IPADDR => onh_id o ∈ ips
  | OFPROTO_NH_PORT => onh_id o ∈ ports
  end.

(** The status column of a nexthop after a result. *)
Definition reported (res : Z * string) (status : smap) : smap :=
  if res.1 =? 0 then
    match status !! OVSDB_NEXTHOP_STATUS_ERROR with Some _ => ∅ | None => status end
  else {[ OVSDB_NEXTHOP_STATUS_ERROR := res.2 ]}.

Lemma nexthop_set_error_spec uuid rc err s :
  nexthop_set_error uuid rc err s =
  Ok (tt, set_nh_status (alter (reported (rc, err)) uuid (nh_status s)) s).
Proof.
  unfold nexthop_set_error, mbind, M_bind, gets, reported. simpl.
  destruct (nh_status s !! uuid) as [status|] eqn:E.
  2:{ rewrite alter_id; [by destruct s|]. by rewrite E. }
  destruct (rc =? 0) eqn:Erc; simpl; [|unfold modify; do 3 f_equal].
  - destruct (status !! OVSDB_NEXTHOP_STATUS_ERROR) eqn:Es; unfold modify, mret, M_ret; do 2 f_equal.
    + f_equal. apply map_eq. intros u. destruct (decide (u = uuid)) as [->|].
      * by rewrite lookup_insert_eq, lookup_alter_eq, E; simpl; rewrite Es.
      * by rewrite lookup_insert_ne, lookup_alter_ne.
    + rewrite alter_id; [by destruct s|]. rewrite E. intros ? [= <-]. by rewrite Es.
  - apply map_eq. intros u. destruct (decide (u = uuid)) as [->|].
    + by rewrite lookup_insert_eq, lookup_alter_eq, E.
    + by rewrite lookup_insert_ne, lookup_alter_ne.
Qed.

Lemma route_add_result_spec r results p s :
  Forall (nh_ok (r_id r)) (r_nexthops r) → slot_ok p.2 →
  route_add_result r results p s =
  Ok (tt, match nh_at (onh_id p.2) (r_nexthops r) with
          | Some nh =>
            set_nh_status (alter (reported (results p.1)) (nh_idl_row_uuid nh) (nh_status s)) s
          | None => s
          end).
Proof.
  intros Hr Hp. unfold route_add_result, mbind, M_bind. destruct p as [i o]. simpl in *.
  assert (match onh_type o with
          | OFPROTO_NH_IPADDR => vrf_route_nexthop_lookup r (Some (onh_id o)) None
          | OFPROTO_NH_PORT => vrf_route_nexthop_lookup r None (Some (onh_id o))
          end s = Ok (nh_at (onh_id o) (r_nexthops r), s)) as ->.
  { unfold slot_ok in Hp. destruct (onh_type o); apply lookup_spec; unfold key_ok; auto. }
  destruct (nh_at _ _); [|done]. rewrite nexthop_set_error_spec. by destruct (results i).
Qed.

(** The status rows after the results of a list of nexthops. *)
Definition report_all (r : route) (results : nat → Z * string) (m : gmap Z smap)
  (l : list (nat * ofproto_route_nexthop)) : gmap Z smap :=
  fold_left (λ m p, match nh_at (onh_id p.2) (r_nexthops r) with
                    | Some nh => alter (reported (results p.1)) (nh_idl_row_uuid nh) m
                    | None => m
                    end) l m.

Lemma report_loop_spec r results l s :
  Forall (nh_ok (r_id r)) (r_nexthops r) → Forall (λ p, slot_ok p.2) l →
  mfor l (route_add_result r results) s =
  Ok (tt, set_nh_status (report_all r results (nh_status s) l) s).
Proof.
  intros Hr Hl. revert s. induction Hl as [|p l Hp Hl IH]; intros s; [by destruct s|].
  cbn [mfor]. unfold mbind, M_bind. rewrite route_add_result_spec, IH by done.
  unfold report_all. simpl. by destruct (nh_at _ _).
Qed.

Lemma Forall_imap_pair {A} (P : A → Prop) (l : list A) :
  Forall P l → Forall (λ p, P p.2) (imap pair l).
Proof.
  rewrite !Forall_forall. intros Hl [i x] (j & y & [= -> ->] & Hy)%elem_of_lookup_imap_1.
  apply Hl. by eapply list_elem_of_lookup_2.
Qed.

Definition route_action (s : st) (a : ofproto_route_action) (r : route)
  (nhs : list ofproto_route_nexthop) : Z * (nat → Z * string) :=
  ofproto_l3_route_action (log s) a (OfpRoute (route_family r) (r_prefix r) nhs).

Definition action_event (s : st) (a : ofproto_route_action) (r : route)
  (nhs : list ofproto_route_nexthop) : l3_event :=
  RouteAction a (OfpRoute (route_family r) (r_prefix r) nhs) (route_action s a r nhs).1.

Lemma ofproto_route_add_spec r nhs s :
  Forall (nh_ok (r_id r)) (r_nexthops r) → Forall slot_ok nhs →
  vrf_ofproto_route_add nhs r s =
  Ok (tt, set_nh_status
            (report_all r (route_action s OFPROTO_ROUTE_ADD r nhs).2 (nh_status s) (imap pair nhs))
            (set_log (log s ++ [action_event s OFPROTO_ROUTE_ADD r nhs]) s)).
Proof.
  intros Hr Hn. unfold vrf_ofproto_route_add, vrf_l3_route_action, action_event, route_action.
  unfold mbind, M_bind, gets. simpl. destruct (ofproto_l3_route_action _ _ _) as [rc results]. simpl.
  rewrite report_loop_spec; [done|done|by apply Forall_imap_pair].
Qed.

Lemma ofproto_route_delete_spec r nhs del s :
  vrf_ofproto_route_delete nhs r del s =
  Ok (tt, set_log (log s ++ [action_event s (if del then OFPROTO_ROUTE_DELETE
                                              else OFPROTO_ROUTE_DELETE_NH) r nhs]) s).
Proof.
  unfold vrf_ofproto_route_delete, vrf_l3_route_action, action_event, route_action.
  unfold mbind, M_bind, gets. simpl. by destruct (ofproto_l3_route_action _ _ _).
Qed.

Lemma slot_is_ok s n :
  nh_row_ok n → nh_row_valid n = true → slot_ok (slot s (nhr_ip_address n) (nh_row_key n)).
Proof.
  intros Hn Hv. destruct (row_valid_key n Hn Hv) as [[-> Hin]|(-> & Ep & Hin)]; simpl; [|done].
  unfold ip_slot. by destruct (neighbor_resolved _).
Qed.

Lemma slot_nh_ok s rid nh : nh_ok rid nh → slot_ok (slot s (nh_ip_addr nh) (nh_key nh)).
Proof.
  intros [_ [(i & Hi & Hp & Hin)|(p & Hi & Hp & Hin)]]; rewrite Hi; simpl.
  - unfold ip_slot. by destruct (neighbor_resolved _).
  - by rewrite (nh_key_port _ _ Hi Hp).
Qed.

Lemma resolved_slot_is_ok s rid nh o :
  nh_ok rid nh → resolved_slot s (nh_ip_addr nh) (nh_key nh) = Some o → slot_ok o.
Proof.
  intros [_ [(i & Hi & Hp & Hin)|(p & Hi & Hp & Hin)]]; rewrite Hi; simpl.
  - destruct (neighbor_resolved _); [|done]. by intros [= <-].
  - rewrite (nh_key_port _ _ Hi Hp). by intros [= <-].
Qed.

(** ** Adding a route *)

Lemma keys_of_rows rid rows new :
  Forall2 (nh_of_row rid) rows new → nh_key <$> new = nh_row_key <$> rows.
Proof. induction 1; csimpl; f_equal; [by eapply nh_of_row_key|done]. Qed.

Lemma add_resolved_spec row r s others :
  wf_core (next_id s) (r :: others) (all_nexthops s) → r_nexthops r = [] → row_ok row →
  (1 < length (rr_nexthops row))%nat →
  ∃ l' s', vrf_ofproto_add_resolved_nh row r s =
      Ok ((programmed_nexthops s row, set_r_nexthops l' r), s') ∧
    only_nhs s s' ∧ wf_core (next_id s') (set_r_nexthops l' r :: others) (all_nexthops s') ∧
    nh_key <$> l' ≡ₚ nh_row_key <$> selected_rows row.
Proof.
  intros Hwf Hr (Hok & Hnd & Hlen) H1.
  destruct (add_selected_spec (rr_nexthops row) r s others) as (new & l' & s' & E & Hnew & Hl' & Ho & Hwf');
    try done.
  { intros k _. rewrite Hr. set_solver. }
  { rewrite Hr. simpl. etrans; [apply length_filter|done]. }
  rewrite Hr, app_nil_r in Hl'.
  assert (nh_key <$> l' ≡ₚ nh_row_key <$> selected_rows row) as Hkeys
    by (by rewrite Hl', (keys_of_rows _ _ _ Hnew)).
  exists l', s'. split_and!; [|done..].
  assert (Forall (nh_ok (r_id r)) l') as Hl.
  { pose proof (wf_routes _ _ _ _ _ Hwf') as Hrs. by apply Forall_cons in Hrs as [(? & _) _]. }
  assert (∀ n, n ∈ rr_nexthops row → nh_row_valid n = true → nh_row_key n ∈ nh_key <$> l') as Hin.
  { intros n Hn Hv. rewrite Hkeys. apply list_elem_of_fmap_2, list_elem_of_filter. done. }
  unfold vrf_ofproto_add_resolved_nh, mbind, M_bind. rewrite E.
  rewrite (collect_resolved_spec (set_r_nexthops l' r)) by done. simpl.
  unfold programmed_nexthops. rewrite (decide_True (P := (1 < _)%nat)) by done.
  rewrite (list_omap_ext_in _ (λ n, resolved_slot s (nhr_ip_address n) (nh_row_key n)))
    by (intros; apply resolved_slot_env, Ho).
  change (valid_rows (rr_nexthops row)) with (selected_rows row).
  destruct (omap _ (selected_rows row)) as [|o l]; simpl; [|done].
  by rewrite (fill_unresolved_spec (set_r_nexthops l' r)) by (done || lia).
Qed.

Lemma single_nh_spec row r s others :
  wf_core (next_id s) (r :: others) (all_nexthops s) → r_nexthops r = [] → row_ok row →
  ¬ (1 < length (rr_nexthops row))%nat →
  ∃ l' s', mfold single_nh_step (rr_nexthops row) ([], r) s =
      Ok ((programmed_nexthops s row, set_r_nexthops l' r), s') ∧
    only_nhs s s' ∧ wf_core (next_id s') (set_r_nexthops l' r :: others) (all_nexthops s') ∧
    nh_key <$> l' ≡ₚ nh_row_key <$> selected_rows row.
Proof.
  intros Hwf Hr (Hok & Hnd & Hlen) H1. unfold programmed_nexthops, selected_rows.
  rewrite decide_False by done.
  destruct (rr_nexthops row) as [|n [|n' rows]]; [| |simpl in H1; lia].
  { exists (r_nexthops r), s. rewrite set_r_nexthops_id, Hr. by split_and!. }
  apply Forall_cons in Hok as [Hn _]. cbn [mfold]. unfold single_nh_step.
  rewrite filter_cons, filter_nil. destruct (nh_row_valid n) eqn:Hv.
  2:{ exists (r_nexthops r), s. rewrite set_r_nexthops_id, Hr. by split_and!. }
  rewrite decide_True by done. simpl in Hlen.
  destruct (nexthop_add_spec r n s others) as (nh & l' & s' & E & Hnh & Hl' & Ho & Hwf'); try done.
  { rewrite Hr. set_solver. } { rewrite Hr. simpl. lia. }
  exists l', s'. split_and!; [|done|done|].
  - unfold mbind, M_bind. rewrite E. simpl. rewrite ofp_slot_ok by (simpl; lia).
    rewrite (set_nh_spec (r_id r)) by (by eapply nh_of_row_ok). simpl.
    rewrite (nh_of_row_key _ _ _ Hnh), (slot_env s s') by apply Ho.
    by destruct Hnh as (-> & _).
  - rewrite Hl', Hr. csimpl. by rewrite (nh_of_row_key _ _ _ Hnh).
Qed.

Lemma programmed_ok s row : row_ok row → Forall slot_ok (programmed_nexthops s row).
Proof.
  intros (Hok & _). unfold programmed_nexthops.
  assert (∀ n, n ∈ selected_rows row → nh_row_ok n ∧ nh_row_valid n = true) as Hsel.
  { intros n [Hv Hn]%list_elem_of_filter. split; [by eapply Forall_forall in Hn|done]. }
  case_decide.
  - assert (Forall slot_ok (omap (λ n, resolved_slot s (nhr_ip_address n) (nh_row_key n))
                              (selected_rows row))) as Hres.
    { apply Forall_forall. intros o (n & Hn & E)%list_elem_of_omap. apply Hsel in Hn as [Hn Hv].
      pose proof (slot_is_ok s n Hn Hv) as Hslot. unfold slot, ip_slot, resolved_slot in *.
      destruct (nhr_ip_address n); [|by injection E as <-].
      destruct (neighbor_resolved _); [|done]. by injection E as <-. }
    destruct (omap _ _); [|done]. apply Forall_take, Forall_forall.
    intros o (n & Hn & E)%list_elem_of_omap. apply Hsel in Hn as [(_ & Hi & _) Hv].
    unfold unresolved_slot in E. destruct (nhr_ip_address n); [|done]. simpl in E.
    injection E as <-. by apply Hi.
  - apply Forall_fmap, Forall_forall. intros n Hn. apply Hsel in Hn as [??]. by apply slot_is_ok.
Qed.

Lemma action_event_log s s' a r nhs :
  log s' = log s → action_event s' a r nhs = action_event s a r nhs.
Proof. intros E. unfold action_event, route_action. by rewrite E. Qed.

(** The event of an action that is skipped when there is nothing to do. *)
Definition event_unless_empty (s : st) (a : ofproto_route_action) (r : route)
  (nhs : list ofproto_route_nexthop) : list l3_event :=
  match nhs with
  | [] => []
  | _ => [action_event s a r nhs]
  end.

Lemma event_unless_empty_log s s' a r nhs :
  log s' = log s → event_unless_empty s' a r nhs = event_unless_empty s a r nhs.
Proof. intros E. unfold event_unless_empty. destruct nhs; [done|]. by rewrite (action_event_log s s'). Qed.

(** A change of the log and of the status rows only. *)
Definition only_log (evs : list l3_event) (s s' : st) : Prop :=
  same_env s s' ∧ all_routes s' = all_routes s ∧ all_nexthops s' = all_nexthops s ∧
  next_id s' = next_id s ∧ log s' = log s ++ evs.

Lemma when_route_add_spec r nhs s :
  Forall (nh_ok (r_id r)) (r_nexthops r) → Forall slot_ok nhs →
  ∃ s', mwhen (0 <? length nhs)%nat (vrf_ofproto_route_add nhs r) s = Ok (tt, s') ∧
    only_log (event_unless_empty s OFPROTO_ROUTE_ADD r nhs) s s'.
Proof.
  intros Hr Hn. destruct nhs as [|o nhs]; simpl.
  { exists s. split; [done|]. unfold only_log. by rewrite app_nil_r. }
  rewrite ofproto_route_add_spec by done. eexists. split; [reflexivity|]. done.
Qed.

Lemma when_route_delete_spec r nhs del s :
  ∃ s', mwhen (0 <? length nhs)%nat (vrf_ofproto_route_delete nhs r del) s = Ok (tt, s') ∧
    only_log (event_unless_empty s (if del then OFPROTO_ROUTE_DELETE else OFPROTO_ROUTE_DELETE_NH)
                r nhs) s s'.
Proof.
  destruct nhs as [|o nhs]; simpl.
  { exists s. split; [done|]. unfold only_log. by rewrite app_nil_r. }
  rewrite ofproto_route_delete_spec. eexists. split; [reflexivity|]. done.
Qed.

Lemma route_add_spec row s :
  wf s → row_ok row →
  ∃ r' s', vrf_route_add row s = Ok (tt, s') ∧ wf s' ∧ same_env s s' ∧
    all_routes s' ≡ₚ r' :: all_routes s ∧ route_matches row r' ∧ r_id r' = next_id s ∧
    r_is_ipv6 r' = bool_decide (rr_address_family row = Some OVSREC_NEIGHBOR_ADDRESS_FAMILY_IPV6) ∧
    log s' = log s ++ event_unless_empty s OFPROTO_ROUTE_ADD r' (programmed_nexthops s row).
Proof.
  intros Hwf Hrow. unfold vrf_route_add, alloc.
  set (r0 := Route (next_id s) (rr_prefix row) (rr_from row)
               (bool_decide (rr_address_family row = Some OVSREC_NEIGHBOR_ADDRESS_FAMILY_IPV6)) [] 0).
  set (s0 := set_next_id (next_id s + 1) s).
  assert (wf_core (next_id s0) (r0 :: all_routes s0) (all_nexthops s0)) as Hwf0
    by (by apply wf_new_route).
  assert (∃ l' s1, route_add_nhs row r0 s0 =
      Ok ((programmed_nexthops s row, set_r_nexthops l' r0), s1) ∧ only_nhs s0 s1 ∧
      wf_core (next_id s1) (set_r_nexthops l' r0 :: all_routes s0) (all_nexthops s1) ∧
      nh_key <$> l' ≡ₚ nh_row_key <$> selected_rows row) as (l' & s1 & E1 & Ho1 & Hwf1 & Hk).
  { change (programmed_nexthops s row) with (programmed_nexthops s0 row).
    unfold route_add_nhs. destruct (1 <? length (rr_nexthops row))%nat eqn:El.
    - apply Nat.ltb_lt in El. by apply add_resolved_spec.
    - apply Nat.ltb_ge in El. apply single_nh_spec; try done. lia. }
  assert (Forall (nh_ok (r_id r0)) l') as Hl.
  { pose proof (wf_routes _ _ _ _ _ Hwf1) as Hrs. by apply Forall_cons in Hrs as [(? & _) _]. }
  destruct (when_route_add_spec (set_r_nexthops l' r0) (programmed_nexthops s row) s1)
    as (s2 & E2 & (Ev2 & Er2 & En2 & Ei2 & El2)); [done|by apply programmed_ok|].
  destruct Ho1 as (Ev1 & Er1 & _ & El1).
  eexists _, _. split.
  { unfold mbind, M_bind at 1, gets. simpl. unfold M_bind at 1, modify at 1. simpl.
    unfold M_bind. fold r0 s0. rewrite E1. cbn [fst snd]. rewrite E2. reflexivity. }
  set (r' := Route _ _ _ _ _ _).
  assert (wf_core (next_id s2) (r' :: all_routes s) (all_nexthops s2)) as Hwf2.
  { rewrite Ei2, En2. by eapply (wf_same_route _ _ _ (set_r_nexthops l' r0)). }
  split_and!.
  - unfold Vrf.wf. simpl. rewrite hmap_insert_perm, Er2, Er1. done.
  - change (same_env s s2). etrans; [|exact Ev2]. exact Ev1.
  - simpl. by rewrite hmap_insert_perm, Er2, Er1.
  - done.
  - done.
  - done.
  - simpl. rewrite El2, (event_unless_empty_log s s1), El1 by exact El1. done.
Qed.

(** ** Deleting nexthops and routes *)

Lemma delete_step_spec acc r nh s others :
  wf_core (next_id s) (r :: others) (all_nexthops s) → nh ∈ r_nexthops r →
  (length acc < OFPROTO_MAX_NH_PER_ROUTE)%nat →
  ∃ s', delete_nh_step (acc, r) nh s =
      Ok ((acc ++ [slot s (nh_ip_addr nh) (nh_key nh)],
           set_r_nexthops (filter (λ x, nh_id x ≠ nh_id nh) (r_nexthops r)) r), s') ∧
    only_nhs s s' ∧
    wf_core (next_id s') (set_r_nexthops (filter (λ x, nh_id x ≠ nh_id nh) (r_nexthops r)) r :: others)
      (all_nexthops s').
Proof.
  intros Hwf Hnh Hlen.
  assert (nh_ok (r_id r) nh) as Hok.
  { pose proof (wf_routes _ _ _ _ _ Hwf) as Hrs. apply Forall_cons in Hrs as [(Hr & _) _].
    by eapply Forall_forall in Hnh. }
  pose proof (wf_del_nh _ _ _ _ _ Hwf Hnh) as Hwf'.
  unfold delete_nh_step, mbind, M_bind. rewrite ofp_slot_ok by done.
  rewrite (set_nh_spec (r_id r)) by done. unfold vrf_nexthop_delete, mbind, M_bind.
  destruct Hok as [_ [(i & Hi & Hp & _)|(p & Hi & Hp & _)]]; rewrite Hi; simpl.
  - eexists. split_and!; [reflexivity|done|done].
  - eexists. split_and!; [reflexivity|done|].
    rewrite <-(filter_all (λ x, nh_id x ≠ nh_id nh) (all_nexthops s)); [done|].
    intros x Hx E. rewrite (wf_all_nexthops _ _ _ _ _ Hwf) in Hx.
    apply list_elem_of_filter in Hx as [[j Hj] Hx].
    assert (x = nh) as ->; [|congruence].
    apply (NoDup_fmap_elem nh_id ((r :: others) ≫= r_nexthops)); [by eapply wf_nh_ids|done| |done].
    csimpl. apply elem_of_app. by left.
Qed.

Lemma delete_fold_spec del acc r s others :
  wf_core (next_id s) (r :: others) (all_nexthops s) →
  Forall (λ nh, nh ∈ r_nexthops r) del → NoDup (nh_id <$> del) →
  (length acc + length del ≤ OFPROTO_MAX_NH_PER_ROUTE)%nat →
  let l' := filter (λ x, nh_id x ∉ nh_id <$> del) (r_nexthops r) in
  ∃ s', mfold delete_nh_step del (acc, r) s =
      Ok ((acc ++ ((λ nh, slot s (nh_ip_addr nh) (nh_key nh)) <$> del), set_r_nexthops l' r), s') ∧
    only_nhs s s' ∧ wf_core (next_id s') (set_r_nexthops l' r :: others) (all_nexthops s').
Proof.
  intros Hwf Hdel. revert acc r s Hwf Hdel.
  induction del as [|nh del IH]; intros acc r s Hwf Hdel Hnd Hlen l'; subst l'.
  { exists s. rewrite filter_all by (intros; apply not_elem_of_nil).
    rewrite app_nil_r, set_r_nexthops_id. by split_and!. }
  apply Forall_cons in Hdel as [Hnh Hdel]. rewrite fmap_cons in Hnd. apply NoDup_cons in Hnd as [Hn Hnd].
  simpl in Hlen. cbn [mfold].
  destruct (delete_step_spec acc r nh s others) as (s1 & E1 & Ho1 & Hwf1); [done|done|lia|].
  set (r1 := set_r_nexthops _ r) in *.
  destruct (IH (acc ++ [slot s (nh_ip_addr nh) (nh_key nh)]) r1 s1) as (s2 & E2 & Ho2 & Hwf2).
  { done. }
  { rewrite Forall_forall in Hdel |- *. intros x Hx. simpl. apply list_elem_of_filter.
    split; [|by apply Hdel]. intros E. apply Hn. rewrite <-E. by apply list_elem_of_fmap_2. }
  { done. } { rewrite length_app. simpl. lia. }
  assert (filter (λ x, nh_id x ∉ nh_id <$> nh :: del) (r_nexthops r) =
          filter (λ x, nh_id x ∉ nh_id <$> del) (r_nexthops r1)) as El.
  { change (r_nexthops r1) with (filter (λ x, nh_id x ≠ nh_id nh) (r_nexthops r)).
    rewrite list_filter_filter. apply list_filter_iff. intros x.
    rewrite fmap_cons, not_elem_of_cons. tauto. }
  rewrite El. exists s2. split_and!; [|by etrans|done].
  unfold mbind, M_bind. rewrite E1, E2. rewrite <-app_assoc. simpl.
  do 4 f_equal. f_equal. apply list_fmap_ext. intros ???. apply slot_env, Ho1.
Qed.

Lemma route_ids_filter n rs anh r :
  wf_core n rs anh → r ∈ rs → rs ≡ₚ r :: filter (λ x, r_id x ≠ r_id r) rs.
Proof.
  intros Hwf Hr. pose proof (wf_route_ids _ _ _ _ _ Hwf) as Hnd. clear Hwf.
  induction rs as [|x rs IH]; [by apply elem_of_nil in Hr|].
  rewrite fmap_cons in Hnd. apply NoDup_cons in Hnd as [Hx Hnd].
  apply elem_of_cons in Hr as [->|Hr].
  - rewrite filter_cons_False by auto. rewrite filter_all; [done|].
    intros y Hy E. apply Hx. rewrite <-E. by apply list_elem_of_fmap_2.
  - rewrite filter_cons_True by (intros E; apply Hx; rewrite E; by apply list_elem_of_fmap_2).
    rewrite IH at 1 by done. apply Permutation_swap.
Qed.

Lemma route_delete_spec r s :
  wf s → r ∈ all_routes s →
  ∃ s', vrf_route_delete r s = Ok (tt, s') ∧ wf s' ∧ same_env s s' ∧
    all_routes s' = filter (λ x, r_id x ≠ r_id r) (all_routes s) ∧
    log s' = log s ++ event_unless_empty s OFPROTO_ROUTE_DELETE r
               ((λ nh, slot s (nh_ip_addr nh) (nh_key nh)) <$> r_nexthops r).
Proof.
  intros Hwf Hr. unfold vrf_route_delete.
  set (rs' := filter (λ x, r_id x ≠ r_id r) (all_routes s)). set (s0 := set_routes rs' s).
  assert (wf_core (next_id s0) (r :: rs') (all_nexthops s0)) as Hwf0.
  { eapply wf_core_proper; [done|symmetry; by eapply route_ids_filter|done|done]. }
  pose proof (wf_routes _ _ _ _ _ Hwf0) as Hrs. apply Forall_cons in Hrs as [(_ & _ & Hmax) _].
  destruct (delete_fold_spec (r_nexthops r) [] r s0 rs') as (s1 & E1 & Ho1 & Hwf1).
  { done. } { by apply Forall_forall. }
  { pose proof (wf_nh_ids _ _ _ _ _ Hwf0) as Hnd. csimpl in Hnd. rewrite fmap_app in Hnd.
    by apply NoDup_app in Hnd as [? _]. }
  { done. }
  rewrite filter_none in E1, Hwf1 by (intros x Hx Hn; apply Hn; by apply list_elem_of_fmap_2).
  destruct (when_route_delete_spec (set_r_nexthops [] r)
    ((λ nh, slot s0 (nh_ip_addr nh) (nh_key nh)) <$> r_nexthops r) true s1)
    as (s2 & E2 & (Ev2 & Er2 & En2 & Ei2 & El2)).
  destruct Ho1 as (Ev1 & Er1 & _ & El1).
  exists s2. split_and!.
  - unfold mbind, M_bind, modify. fold rs' s0. rewrite E1. exact E2.
  - unfold Vrf.wf. rewrite Ei2, En2, Er2, Er1. eapply wf_drop_route; [exact Hwf1|done].
  - etrans; [|exact Ev2]. exact Ev1.
  - by rewrite Er2, Er1.
  - rewrite El2, (event_unless_empty_log s0 s1), El1 by exact El1. done.
Qed.

(** ** Modifying a route *)

(** What is programmed for the nexthop rows that are new in a route. *)
Definition added_slots (s : st) (n_nexthops : nat) (rows : list ovsrec_nexthop)
  : list ofproto_route_nexthop :=
  if decide (1 < n_nexthops)%nat
  then omap (λ n, resolved_slot s (nhr_ip_address n) (nh_row_key n)) rows
  else (λ n, slot s (nhr_ip_address n) (nh_row_key n)) <$> rows.

Definition new_rows (r : route) (rows : list ovsrec_nexthop) : list ovsrec_nexthop :=
  filter (λ n, nh_row_key n ∉ nh_key <$> r_nexthops r) rows.

Lemma added_slots_env s s' k rows : same_env s s' → added_slots s' k rows = added_slots s k rows.
Proof.
  intros E. unfold added_slots. case_decide.
  - apply list_omap_ext_in. intros. by apply resolved_slot_env.
  - apply list_fmap_ext. intros. by apply slot_env.
Qed.

Lemma added_slots_cons s k n rows :
  added_slots s k (n :: rows) = added_slots s k [n] ++ added_slots s k rows.
Proof. unfold added_slots. case_decide; [|done]. simpl. by destruct (resolved_slot _ _ _). Qed.

Lemma added_slots_length s k rows : (length (added_slots s k rows) ≤ length rows)%nat.
Proof.
  induction rows as [|n rows IH]; [unfold added_slots; by case_decide|].
  rewrite added_slots_cons, length_app. simpl.
  assert (length (added_slots s k [n]) ≤ 1)%nat; [|lia].
  unfold added_slots. case_decide; simpl; [|done]. destruct (resolved_slot _ _ _); simpl; lia.
Qed.

Lemma added_slots_ok s k rows :
  Forall (λ n, nh_row_ok n ∧ nh_row_valid n = true) rows → Forall slot_ok (added_slots s k rows).
Proof.
  intros Hrows. unfold added_slots. case_decide.
  - apply Forall_forall. intros o (n & Hn & E)%list_elem_of_omap.
    rewrite Forall_forall in Hrows. apply Hrows in Hn as [Hn Hv].
    pose proof (slot_is_ok s n Hn Hv) as Hslot. unfold slot, ip_slot, resolved_slot in *.
    destruct (nhr_ip_address n); [|by injection E as <-].
    destruct (neighbor_resolved _); [|done]. by injection E as <-.
  - apply Forall_fmap. eapply Forall_impl; [done|]. intros n [??]. by apply slot_is_ok.
Qed.

Lemma modify_step_known k acc r n s :
  Forall (nh_ok (r_id r)) (r_nexthops r) → nh_row_ok n → nh_row_valid n = true →
  nh_row_key n ∈ nh_key <$> r_nexthops r →
  modify_add_step k (acc, r) n s = Ok ((acc, r), s).
Proof.
  intros Hr Hn Hv Hin. unfold modify_add_step, mbind, M_bind.
  rewrite port0_name_spec by done.
  rewrite (lookup_spec r _ _ (nh_row_key n)) by (done || by apply row_valid_key).
  by destruct (nh_at_is_Some _ _ Hin) as [nh ->].
Qed.

Lemma modify_step_new k acc r n s others :
  wf_core (next_id s) (r :: others) (all_nexthops s) → nh_row_ok n → nh_row_valid n = true →
  nh_row_key n ∉ nh_key <$> r_nexthops r →
  (length (r_nexthops r) < OFPROTO_MAX_NH_PER_ROUTE)%nat →
  (length acc < OFPROTO_MAX_NH_PER_ROUTE)%nat →
  ∃ nh l' s', modify_add_step k (acc, r) n s =
      Ok ((acc ++ added_slots s k [n], set_r_nexthops l' r), s') ∧
    nh_key nh = nh_row_key n ∧ l' ≡ₚ nh :: r_nexthops r ∧ only_nhs s s' ∧
    wf_core (next_id s') (set_r_nexthops l' r :: others) (all_nexthops s').
Proof.
  intros Hwf Hn Hv Hnin Hlen Hacc.
  pose proof (wf_routes _ _ _ _ _ Hwf) as Hrs. apply Forall_cons in Hrs as [(Hr & _) _].
  destruct (nexthop_add_spec r n s others) as (nh & l' & s' & E & Hnh & Hl' & Ho & Hwf'); try done.
  exists nh, l', s'. split_and!; [|by eapply nh_of_row_key|done..].
  assert (nh_ok (r_id r) nh) as Hok by (by eapply nh_of_row_ok).
  unfold modify_add_step, mbind, M_bind. rewrite port0_name_spec by done.
  rewrite (lookup_spec r _ _ (nh_row_key n)) by (done || by apply row_valid_key).
  destruct (nh_at _ _) as [x|] eqn:Ex.
  { apply nh_at_Some in Ex as [Hx Ek]. destruct Hnin. rewrite <-Ek. by apply list_elem_of_fmap_2. }
  rewrite E. simpl. rewrite <-(added_slots_env s s' k [n]) by apply Ho. unfold added_slots.
  destruct (Nat.ltb_spec 1 k).
  - rewrite decide_True by done. rewrite (update_resolved_spec (r_id r)) by done.
    rewrite (nh_of_row_key _ _ _ Hnh). destruct Hnh as (-> & _).
    simpl. by destruct (resolved_slot _ _ _).
  - rewrite decide_False by lia. rewrite ofp_slot_ok by done.
    rewrite (set_nh_spec (r_id r)) by done. rewrite (nh_of_row_key _ _ _ Hnh).
    by destruct Hnh as (-> & _).
Qed.

Lemma modify_add_fold_spec k rows acc r s others :
  wf_core (next_id s) (r :: others) (all_nexthops s) →
  Forall (λ n, nh_row_ok n ∧ nh_row_valid n = true) rows → NoDup (nh_row_key <$> rows) →
  (length (r_nexthops r) + length (new_rows r rows) ≤ OFPROTO_MAX_NH_PER_ROUTE)%nat →
  (length acc + length (new_rows r rows) ≤ OFPROTO_MAX_NH_PER_ROUTE)%nat →
  ∃ l' s', mfold (modify_add_step k) rows (acc, r) s =
      Ok ((acc ++ added_slots s k (new_rows r rows), set_r_nexthops l' r), s') ∧
    nh_key <$> l' ≡ₚ (nh_row_key <$> new_rows r rows) ++ (nh_key <$> r_nexthops r) ∧
    only_nhs s s' ∧ wf_core (next_id s') (set_r_nexthops l' r :: others) (all_nexthops s').
Proof.
  intros Hwf Hrows. revert acc r s Hwf.
  induction Hrows as [|n rows [Hn Hv] Hrows IH]; intros acc r s Hwf Hnd Hlen Hacc.
  { exists (r_nexthops r), s. rewrite set_r_nexthops_id. unfold new_rows, added_slots; simpl.
    case_decide; simpl; rewrite app_nil_r; by split_and!. }
  rewrite fmap_cons in Hnd. apply NoDup_cons in Hnd as [Hnin Hnd].
  pose proof (wf_routes _ _ _ _ _ Hwf) as Hrs. apply Forall_cons in Hrs as [(Hr & _) _].
  cbn [mfold]. unfold mbind, M_bind.
  destruct (decide (nh_row_key n ∈ nh_key <$> r_nexthops r)) as [Hin|Hnew].
  { rewrite modify_step_known by done. unfold new_rows in *.
    rewrite filter_cons_False in * by auto. by apply IH. }
  assert (new_rows r (n :: rows) = n :: new_rows r rows) as En
    by (unfold new_rows; by rewrite filter_cons_True).
  rewrite En in *. simpl in Hlen, Hacc.
  destruct (modify_step_new k acc r n s others) as (nh & l1 & s1 & E1 & Ek & Hl1 & Ho1 & Hwf1);
    [done..|lia|lia|].
  assert (new_rows (set_r_nexthops l1 r) rows = new_rows r rows) as En'.
  { apply list_filter_iff_strong. intros x Hx. simpl. rewrite Hl1, fmap_cons, not_elem_of_cons, Ek.
    split; [tauto|]. split; [|done]. intros E. apply Hnin. rewrite <-E. by apply list_elem_of_fmap_2. }
  destruct (IH (acc ++ added_slots s k [n]) (set_r_nexthops l1 r) s1)
    as (l2 & s2 & E2 & Hk2 & Ho2 & Hwf2); [done|done| | |].
  { rewrite En'. simpl. rewrite Hl1. simpl. lia. }
  { rewrite En', length_app. pose proof (added_slots_length s k [n]) as HA. simpl in HA. lia. }
  rewrite En' in *. exists l2, s2. split_and!; [| |by etrans|done].
  - rewrite E1, E2. rewrite (added_slots_env s s1) by apply Ho1.
    by rewrite (added_slots_cons s k n (new_rows r rows)), <-app_assoc.
  - rewrite Hk2. simpl. rewrite Hl1. csimpl. rewrite Ek. by rewrite <-Permutation_middle.
Qed.

Definition removed_nhs (r : route) (row : ovsrec_route) : list nexthop :=
  filter (λ nh, nh_key nh ∉ nh_row_key <$> selected_rows row) (r_nexthops r).

Definition kept_nhs (r : route) (row : ovsrec_route) : list nexthop :=
  filter (λ nh, nh_key nh ∈ nh_row_key <$> selected_rows row) (r_nexthops r).

Lemma modify_delete_fold row l acc s :
  mfold (λ acc nh, match current_idl_nhs row !! nh_key nh with
                   | Some _ => mret acc
                   | None => delete_nh_step acc nh
                   end) l acc s =
  mfold delete_nh_step (filter (λ nh, nh_key nh ∉ nh_row_key <$> selected_rows row) l) acc s.
Proof.
  revert acc s. induction l as [|nh l IH]; intros acc s; [done|].
  cbn [mfold]. rewrite filter_cons. unfold mbind, M_bind.
  pose proof (shash_collect_is_Some nh_row_key (selected_rows row) (nh_key nh)) as Hc.
  change (shash_collect nh_row_key (selected_rows row)) with (current_idl_nhs row) in Hc.
  destruct (current_idl_nhs row !! nh_key nh) eqn:E.
  - rewrite decide_False by (intros Hn; apply Hn, Hc; eauto). apply IH.
  - rewrite decide_True by (intros Hn; apply Hc in Hn; by destruct Hn).
    cbn [mfold]. unfold mbind, M_bind. destruct (delete_nh_step acc nh s) as [[a s']|]; [apply IH|done].
Qed.

Lemma kept_and_new r row rows :
  NoDup (nh_key <$> r_nexthops r) → NoDup (nh_row_key <$> selected_rows row) →
  rows ≡ₚ selected_rows row →
  (nh_row_key <$> new_rows r rows) ++ (nh_key <$> kept_nhs r row) ≡ₚ nh_row_key <$> selected_rows row.
Proof.
  intros Hr Hrow Hp. apply NoDup_Permutation; [|done|].
  - apply NoDup_app. split_and!.
    + apply NoDup_fmap_filter. by rewrite Hp.
    + intros k (n & -> & [Hn _]%list_elem_of_filter)%list_elem_of_fmap (nh & E & Hnh)%list_elem_of_fmap.
      apply list_elem_of_filter in Hnh as [_ Hnh]. apply Hn. rewrite E. by apply list_elem_of_fmap_2.
    + by apply NoDup_fmap_filter.
  - intros k. rewrite elem_of_app. split.
    + intros [(n & -> & [_ Hn]%list_elem_of_filter)%list_elem_of_fmap
             |(nh & -> & [Hn _]%list_elem_of_filter)%list_elem_of_fmap]; [|done].
      rewrite Hp in Hn. by apply list_elem_of_fmap_2.
    + intros Hk. destruct (decide (k ∈ nh_key <$> r_nexthops r)) as [Hin|Hnin].
      * right. apply list_elem_of_fmap in Hin as (nh & -> & Hnh).
        apply list_elem_of_fmap_2, list_elem_of_filter. done.
      * left. apply list_elem_of_fmap in Hk as (n & -> & Hn).
        apply list_elem_of_fmap_2, list_elem_of_filter. split; [done|by rewrite Hp].
Qed.

Lemma removed_complement r row :
  NoDup (nh_id <$> r_nexthops r) →
  filter (λ x, nh_id x ∉ nh_id <$> removed_nhs r row) (r_nexthops r) = kept_nhs r row.
Proof.
  intros Hids. apply list_filter_iff_strong. intros x Hx. rewrite list_elem_of_fmap. split.
  - intros Hn. destruct (decide (nh_key x ∈ nh_row_key <$> selected_rows row)) as [|Hk]; [done|].
    destruct Hn. exists x. split; [done|]. by apply list_elem_of_filter.
  - intros Hk (y & E & [Hy1 Hy2]%list_elem_of_filter). apply Hy1.
    by rewrite <-(NoDup_fmap_elem nh_id (r_nexthops r) x y).
Qed.

Lemma new_rows_kept r row rows :
  rows ≡ₚ selected_rows row →
  new_rows (set_r_nexthops (kept_nhs r row) r) rows = new_rows r rows.
Proof.
  intros Hrows. apply list_filter_iff_strong. intros n Hn. simpl. rewrite Hrows in Hn.
  split; intros Hk (nh & E & Hnh)%list_elem_of_fmap; apply Hk.
  - rewrite E. apply list_elem_of_fmap_2, list_elem_of_filter. split; [|done].
    rewrite <-E. by apply list_elem_of_fmap_2.
  - apply list_elem_of_filter in Hnh as [_ Hnh]. rewrite E. by apply list_elem_of_fmap_2.
Qed.

Lemma store_route_perm s r r' :
  wf s → r ∈ all_routes s → r_id r' = r_id r →
  all_routes (store_route r' s) ≡ₚ r' :: filter (λ x, r_id x ≠ r_id r) (all_routes s).
Proof.
  intros Hwf Hr Hid. unfold store_route. simpl.
  rewrite (route_ids_filter _ _ _ _ Hwf Hr) at 1. rewrite fmap_cons, Hid, Z.eqb_refl.
  constructor. rewrite <-(list_fmap_id (filter _ _)) at 2. apply reflexive_eq, list_fmap_ext.
  intros i x Hx%list_elem_of_lookup_2%list_elem_of_filter.
  destruct (Z.eqb_spec (r_id x) (r_id r)); [naive_solver|done].
Qed.

Lemma added_slots_perm s k rows rows' : rows ≡ₚ rows' → added_slots s k rows ≡ₚ added_slots s k rows'.
Proof. intros Hp. unfold added_slots. case_decide; by rewrite Hp. Qed.

(** What the first half tells the provider. *)
Definition delete_events (s : st) (r : route) (row : ovsrec_route) : list l3_event :=
  event_unless_empty s OFPROTO_ROUTE_DELETE_NH r
    ((λ nh, slot s (nh_ip_addr nh) (nh_key nh)) <$> removed_nhs r row).

Lemma modify_delete_nhs_spec r row s others :
  wf_core (next_id s) (r :: others) (all_nexthops s) →
  let r1 := set_r_nexthops (kept_nhs r row) r in
  ∃ s', modify_delete_nhs r row s = Ok (r1, s') ∧ same_env s s' ∧
    all_routes s' = all_routes s ∧ log s' = log s ++ delete_events s r row ∧
    wf_core (next_id s') (r1 :: others) (all_nexthops s').
Proof.
  intros Hwf r1.
  pose proof (wf_routes _ _ _ _ _ Hwf) as Hrs. apply Forall_cons in Hrs as [(_ & _ & Hr3) _].
  assert (NoDup (nh_id <$> r_nexthops r)) as Hids.
  { pose proof (wf_nh_ids _ _ _ _ _ Hwf) as Hids. csimpl in Hids.
    rewrite fmap_app in Hids. by apply NoDup_app in Hids as [? _]. }
  destruct (delete_fold_spec (removed_nhs r row) [] r s others) as (s1 & E1 & Ho1 & Hwf1).
  { done. }
  { apply Forall_forall. intros x [_ Hx]%list_elem_of_filter. done. }
  { by apply NoDup_fmap_filter. }
  { etrans; [|exact Hr3]. apply length_filter. }
  rewrite (removed_complement r row) in E1, Hwf1 by done. fold r1 in E1, Hwf1.
  set (slots := (λ nh, slot s (nh_ip_addr nh) (nh_key nh)) <$> removed_nhs r row) in *.
  destruct (when_route_delete_spec r1 slots false s1) as (s2 & E2 & (Ev2 & Er2 & En2 & Ei2 & El2)).
  destruct Ho1 as (Ev1 & Er1 & _ & El1).
  exists s2. split_and!.
  - unfold modify_delete_nhs, mbind, M_bind. rewrite modify_delete_fold.
    change (filter _ (r_nexthops r)) with (removed_nhs r row). rewrite E1.
    rewrite app_nil_l. fold slots. by rewrite E2.
  - by etrans.
  - congruence.
  - rewrite El2, (event_unless_empty_log s s1), El1 by exact El1. done.
  - by rewrite Ei2, En2.
Qed.

Lemma modify_add_nhs_spec r row s others :
  let r1 := set_r_nexthops (kept_nhs r row) r in
  wf_core (next_id s) (r1 :: others) (all_nexthops s) →
  NoDup (nh_key <$> r_nexthops r) → row_ok row →
  ∃ l' s' nhs, modify_add_nhs r1 row s = Ok (set_r_nexthops l' r, s') ∧ same_env s s' ∧
    all_routes s' = all_routes s ∧
    log s' = log s ++ event_unless_empty s OFPROTO_ROUTE_ADD r nhs ∧
    nhs ≡ₚ added_slots s (length (rr_nexthops row)) (new_rows r (selected_rows row)) ∧
    nh_key <$> l' ≡ₚ nh_row_key <$> selected_rows row ∧
    wf_core (next_id s') (set_r_nexthops l' r :: others) (all_nexthops s').
Proof.
  intros r1 Hwf Hr2 (Hok & Hnd & Hlen).
  set (rows := (shash_nodes (current_idl_nhs row)).*2).
  assert (rows ≡ₚ selected_rows row) as Hrows by (by apply shash_collect_values).
  assert (∀ n, n ∈ selected_rows row → nh_row_ok n ∧ nh_row_valid n = true) as Hsel.
  { intros n [Hv Hn]%list_elem_of_filter. split; [by eapply Forall_forall in Hn|done]. }
  pose proof (kept_and_new r row rows Hr2 Hnd Hrows) as Hkn.
  assert (new_rows r1 rows = new_rows r rows) as En1 by (by apply new_rows_kept).
  assert (length (new_rows r rows) + length (kept_nhs r row) ≤ OFPROTO_MAX_NH_PER_ROUTE)%nat as Hsz.
  { apply Permutation_length in Hkn. rewrite length_app, !length_fmap in Hkn. rewrite Hkn.
    etrans; [apply length_filter|done]. }
  destruct (modify_add_fold_spec (length (rr_nexthops row)) rows [] r1 s others)
    as (l3 & s3 & E3 & Hk3 & Ho3 & Hwf3); [done| | | | |].
  { rewrite Hrows. by apply Forall_forall. }
  { by rewrite Hrows. }
  { rewrite En1. simpl. lia. }
  { rewrite En1. simpl. lia. }
  rewrite En1 in E3, Hk3. set (nhs := added_slots s _ _) in *.
  destruct Ho3 as (Ev3 & Er3 & _ & El3).
  destruct (when_route_add_spec (set_r_nexthops l3 r1) nhs s3) as (s4 & E4 & (Ev4 & Er4 & En4 & Ei4 & El4)).
  { pose proof (wf_routes _ _ _ _ _ Hwf3) as Hrs. by apply Forall_cons in Hrs as [(? & _) _]. }
  { apply added_slots_ok, Forall_forall. intros n [_ Hn]%list_elem_of_filter.
    rewrite Hrows in Hn. by apply Hsel. }
  exists l3, s4, nhs. split_and!.
  - unfold modify_add_nhs, mbind, M_bind. fold rows. rewrite E3.
    rewrite app_nil_l. fold nhs. rewrite E4. done.
  - by etrans.
  - congruence.
  - rewrite El4, (event_unless_empty_log s s3), El3 by exact El3. done.
  - unfold nhs. apply added_slots_perm. unfold new_rows. by rewrite Hrows.
  - by rewrite Hk3.
  - by rewrite Ei4, En4.
Qed.

Lemma route_modify_spec r row s :
  wf s → r ∈ all_routes s → row_ok row →
  r_from r = rr_from row → r_prefix r = rr_prefix row →
  ∃ r' s' nhs, vrf_route_modify r row s = Ok (tt, s') ∧ wf s' ∧ same_env s s' ∧
    all_routes s' ≡ₚ r' :: filter (λ x, r_id x ≠ r_id r) (all_routes s) ∧
    route_matches row r' ∧ r_id r' = r_id r ∧ r_is_ipv6 r' = r_is_ipv6 r ∧
    nhs ≡ₚ added_slots s (length (rr_nexthops row)) (new_rows r (selected_rows row)) ∧
    log s' = log s ++ delete_events s r row ++
      event_unless_empty (set_log (log s ++ delete_events s r row) s) OFPROTO_ROUTE_ADD r nhs.
Proof.
  intros Hwf Hr Hrow Hf Hp.
  set (others := filter (λ x, r_id x ≠ r_id r) (all_routes s)).
  assert (wf_core (next_id s) (r :: others) (all_nexthops s)) as Hwf0.
  { eapply wf_core_proper; [done|symmetry; by eapply route_ids_filter|done|done]. }
  pose proof (wf_routes _ _ _ _ _ Hwf0) as Hrs. apply Forall_cons in Hrs as [(_ & Hr2 & _) _].
  destruct (modify_delete_nhs_spec r row s others) as (s2 & E2 & Ev2 & Er2 & El2 & Hwf2); [done|].
  destruct (modify_add_nhs_spec r row s2 others)
    as (l' & s4 & nhs & E4 & Ev4 & Er4 & El4 & Hnhs & Hk & Hwf4); [done..|].
  assert (all_routes s4 = all_routes s) as Er by congruence.
  assert (all_routes (store_route (set_r_nexthops l' r) s4) ≡ₚ set_r_nexthops l' r :: others) as Hfin.
  { unfold store_route. rewrite Er. by apply (store_route_perm s r (set_r_nexthops l' r)). }
  exists (set_r_nexthops l' r), (store_route (set_r_nexthops l' r) s4), nhs. split_and!; try done.
  - unfold vrf_route_modify, mbind, M_bind. rewrite E2, E4. done.
  - unfold Vrf.wf. by rewrite Hfin.
  - change (same_env s s4). by etrans.
  - rewrite Hnhs. by rewrite (added_slots_env s s2).
  - simpl. rewrite El4, El2, <-app_assoc. do 2 f_equal.
    apply event_unless_empty_log. exact El2.
Qed.

(** ** Reconfiguration of the routes *)

Definition rkey (r : route) : string * string := (r_from r, r_prefix r).
Definition row_key (row : ovsrec_route) : string * string := (rr_from row, rr_prefix row).

Lemma route_lookup_Some row s r :
  vrf_route_hash_lookup row s = Some r → r ∈ all_routes s ∧ rkey r = row_key row.
Proof.
  intros [Hin Hp]%List.find_some. apply list_elem_of_In in Hin. split; [done|].
  rewrite !andb_true_iff, !bool_decide_eq_true in Hp. unfold rkey, row_key. by destruct Hp as (_ & -> & ->).
Qed.

Lemma route_lookup_None row s :
  vrf_route_hash_lookup row s = None → row_key row ∉ rkey <$> all_routes s.
Proof.
  unfold vrf_route_hash_lookup, hmap_first_with_hash. rewrite find_None_iff.
  intros Hn (r & E & Hr)%list_elem_of_fmap. apply Hn in Hr. unfold row_key, rkey in E.
  injection E as Ef Ep. unfold r_hash_of in Hr. rewrite Ef, Ep, Z.eqb_refl in Hr.
  by rewrite !bool_decide_true in Hr.
Qed.

#[local] Instance route_matches_dec row r : Decision (route_matches row r).
Proof. unfold route_matches. apply _. Defined.

Section Convergence.
Context (name : string) (rows : list ovsrec_route).

(** The rows of this VRF, and the selected ones. *)
Definition vrf_rows : list ovsrec_route := filter (λ row, name = rr_vrf row) rows.
Definition sel_rows : list ovsrec_route :=
  filter (λ row, vrf_is_route_row_selected row = true ∧ name = rr_vrf row) rows.

Lemma elem_of_sel_rows row : row ∈ sel_rows ↔ row ∈ vrf_rows ∧ vrf_is_route_row_selected row = true.
Proof. unfold sel_rows, vrf_rows. rewrite !list_elem_of_filter. tauto. Qed.

Context (Hok : ∀ row, row ∈ vrf_rows → row_ok row).
Context (Hnd : NoDup (row_hash_str <$> vrf_rows)).

Lemma row_key_inj row row' :
  row ∈ vrf_rows → row' ∈ vrf_rows → row_key row = row_key row' → row = row'.
Proof.
  intros Hr Hr' E. apply (NoDup_fmap_elem row_hash_str vrf_rows); try done.
  unfold row_hash_str, row_key in *. by injection E as -> ->.
Qed.

(** The cache between two steps: well formed, one route per key. *)
Definition cache_ok (s : st) : Prop :=
  wf s ∧ NoDup (rkey <$> all_routes s) ∧ vrf_name s = name.

(** The rows the third loop handles. *)
Definition changed (row : ovsrec_route) : Prop :=
  name = rr_vrf row ∧ rr_modified row = true ∧ rr_inserted row = false.
#[export] Instance changed_dec row : Decision (changed row).
Proof. unfold changed. apply _. Defined.

(** Every cached route mirrors a selected row or belongs to a row still to be
    handled, and every selected row is mirrored or still to be handled; one that
    the third loop does not handle has a cached route. *)
Definition converging (todo : list ovsrec_route) (s : st) : Prop :=
  cache_ok s ∧
  (∀ r, r ∈ all_routes s → ∃ row, row ∈ vrf_rows ∧ row_key row = rkey r ∧
     (row ∈ todo ∨ (row ∈ sel_rows ∧ route_matches row r))) ∧
  (∀ row, row ∈ sel_rows →
     (row ∈ todo ∧ (changed row ∨ row_key row ∈ rkey <$> all_routes s)) ∨
     ∃ r, r ∈ all_routes s ∧ route_matches row r).

Lemma matches_key row r : route_matches row r → rkey r = row_key row.
Proof. intros (Hf & Hp & _). unfold rkey, row_key. by rewrite Hf, Hp. Qed.

Lemma add_cache_ok row s :
  cache_ok s → row ∈ vrf_rows → row_key row ∉ rkey <$> all_routes s →
  ∃ r' s', vrf_route_add row s = Ok (tt, s') ∧ cache_ok s' ∧
    all_routes s' ≡ₚ r' :: all_routes s ∧ route_matches row r'.
Proof.
  intros (Hwf & Hk & Hn) Hrow Hnew.
  destruct (route_add_spec row s Hwf (Hok row Hrow))
    as (r' & s' & E & Hwf' & Hev & Hrs & Hm & _).
  exists r', s'. split_and!; try done.
  split_and!; [done| |].
  - rewrite Hrs, fmap_cons, (matches_key _ _ Hm). by apply NoDup_cons.
  - destruct Hev as [-> _]. done.
Qed.

Lemma delete_cache_ok r s :
  cache_ok s → r ∈ all_routes s →
  ∃ s', vrf_route_delete r s = Ok (tt, s') ∧ cache_ok s' ∧
    all_routes s' = filter (λ x, r_id x ≠ r_id r) (all_routes s).
Proof.
  intros (Hwf & Hk & Hn) Hr.
  destruct (route_delete_spec r s Hwf Hr) as (s' & E & Hwf' & Hev & Hrs & _).
  exists s'. split_and!; try done. split_and!; [done| |].
  - rewrite Hrs. by apply NoDup_fmap_filter.
  - destruct Hev as [-> _]. done.
Qed.

(** "May be all routes got deleted, cleanup if any in this vrf hash". *)
Lemma delete_all_spec s :
  cache_ok s →
  ∃ s', (routes ← gets all_routes; mfor routes vrf_route_delete) s = Ok (tt, s') ∧
    cache_ok s' ∧ all_routes s' = [].
Proof.
  intros Hc. unfold mbind, M_bind, gets.
  assert (∀ l s, cache_ok s → all_routes s = l → ∃ s', mfor l vrf_route_delete s = Ok (tt, s') ∧
            cache_ok s' ∧ all_routes s' = []) as Hl; [|by apply Hl].
  clear s Hc. induction l as [|r l IH]; intros s Hc El; [by exists s|].
  assert (NoDup (r_id <$> all_routes s)) as Hids by (destruct Hc as [Hwf _]; by eapply wf_route_ids).
  destruct (delete_cache_ok r s Hc) as (s1 & E1 & Hc1 & Hrs); [rewrite El; apply list_elem_of_here|].
  cbn [mfor]. unfold mbind, M_bind. rewrite E1. apply IH; [done|]. rewrite Hrs, El.
  rewrite El, fmap_cons in Hids. apply NoDup_cons in Hids as [Hr Hids].
  rewrite filter_cons_False by auto. apply filter_all. intros x Hx E. apply Hr. rewrite <-E.
  by apply list_elem_of_fmap_2.
Qed.

(** In a good cache a route is identified by its address or by its key. *)
Lemma other_route s r x :
  cache_ok s → r ∈ all_routes s → x ∈ all_routes s → r_id x ≠ r_id r ↔ rkey x ≠ rkey r.
Proof.
  intros (Hwf & Hk & _) Hr Hx. split; intros Hne E; apply Hne.
  - by rewrite (NoDup_fmap_elem rkey (all_routes s) x r).
  - rewrite (NoDup_fmap_elem r_id (all_routes s) x r); try done. by eapply wf_route_ids.
Qed.

Lemma modify_cache_ok r row s :
  cache_ok s → r ∈ all_routes s → row ∈ vrf_rows → rkey r = row_key row →
  ∃ r' s', vrf_route_modify r row s = Ok (tt, s') ∧ cache_ok s' ∧
    all_routes s' ≡ₚ r' :: filter (λ x, r_id x ≠ r_id r) (all_routes s) ∧ route_matches row r'.
Proof.
  intros Hc Hr Hrow E. pose proof Hc as (Hwf & Hk & Hn). pose proof E as [= Ef Ep].
  destruct (route_modify_spec r row s Hwf Hr (Hok row Hrow) Ef Ep)
    as (r' & s' & nhs & E' & Hwf' & Hev & Hrs & Hm & _).
  exists r', s'. split_and!; try done. split_and!; [done| |].
  - rewrite Hrs, fmap_cons, (matches_key _ _ Hm), <-E. apply NoDup_cons. split.
    + intros (x & Ex & [Hx Hin]%list_elem_of_filter)%list_elem_of_fmap.
      by apply (other_route s r x) in Hx.
    + by apply NoDup_fmap_filter.
  - destruct Hev as [-> _]. done.
Qed.

(** Handling row [x] changes the routes with its key only. *)
Lemma converging_step x todo s s' (new : option route) :
  converging (x :: todo) s → x ∈ vrf_rows → cache_ok s' →
  (∀ r, r ∈ all_routes s' ↔ new = Some r ∨ (r ∈ all_routes s ∧ rkey r ≠ row_key x)) →
  (if vrf_is_route_row_selected x then ∃ r, new = Some r ∧ route_matches x r else new = None) →
  converging todo s'.
Proof.
  intros (Hc & HA & HB) Hx Hc' Hrs Hnew. split_and!; [done| |].
  - intros r [->|[Hr Hk]]%Hrs.
    + destruct (vrf_is_route_row_selected x) eqn:Es; [|done]. destruct Hnew as (? & [= <-] & Hm).
      exists x. split_and!; [done|by rewrite (matches_key _ _ Hm)|]. right. by rewrite elem_of_sel_rows.
    + destruct (HA r Hr) as (row & Hrow & Ek & [Hin|Hgood]); [|by eauto 10].
      apply elem_of_cons in Hin as [->|Hin]; [congruence|eauto 10].
  - intros row Hrow. destruct (decide (row = x)) as [->|Hne].
    + apply elem_of_sel_rows in Hrow as [_ Es]. rewrite Es in Hnew. destruct Hnew as (r & -> & Hm).
      right. exists r. split; [|done]. apply Hrs. by left.
    + assert (row_key row ≠ row_key x) as Hkey.
      { intros E. apply Hne. apply elem_of_sel_rows in Hrow as [Hrow _]. by apply row_key_inj. }
      destruct (HB row Hrow) as [[Hin Hch]|(r & Hr & Hm)].
      * left. split; [set_solver|]. destruct Hch as [?|(r & E & Hr)%list_elem_of_fmap]; [by left|right].
        rewrite E. apply list_elem_of_fmap_2, Hrs. right. split; [done|congruence].
      * right. exists r. split; [|done]. apply Hrs. right. split; [done|]. by rewrite (matches_key _ _ Hm).
Qed.

Lemma modify_changed_spec x todo :
  x ∈ rows →
  hoare (converging (if decide (changed x) then x :: todo else todo)) (modify_changed_route x)
    (λ _, converging todo).
Proof.
  intros Hin s Hs. unfold modify_changed_route, mbind, M_bind, gets.
  pose proof Hs as ((Hwf & Hk & Hn) & _). rewrite Hn.
  destruct (decide (changed x)) as [Hch|Hch].
  2:{ exists tt, s. split; [|done].
      destruct (bool_decide (name = rr_vrf x) && rr_modified x && negb (rr_inserted x)) eqn:E; [|done].
      rewrite !andb_true_iff, bool_decide_eq_true, negb_true_iff in E. unfold changed in Hch. tauto. }
  destruct Hch as (Ename & -> & ->). rewrite bool_decide_true by done. simpl.
  assert (x ∈ vrf_rows) as Hx by (by apply list_elem_of_filter).
  pose proof Hs as (Hc & _).
  destruct (vrf_route_hash_lookup x s) as [r|] eqn:El.
  - apply route_lookup_Some in El as [Hr Ek].
    destruct (vrf_is_route_row_selected x) eqn:Es.
    + destruct (modify_cache_ok r x s) as (r' & s' & E & Hc' & Hrs & Hm); try done.
      exists tt, s'. split; [done|]. apply (converging_step x todo s s' (Some r')); try done.
      * intros y. rewrite Hrs, elem_of_cons, list_elem_of_filter. split.
        -- intros [->|[Hy1 Hy2]]; [by left|right]. split; [done|].
           rewrite <-Ek. by apply (other_route s r y).
        -- intros [[= ->]|[Hy1 Hy2]]; [by left|right]. split; [|done].
           apply (other_route s r y); try done. by rewrite Ek.
      * rewrite Es. eauto.
    + destruct (delete_cache_ok r s) as (s' & E & Hc' & Hrs); try done.
      exists tt, s'. split; [done|]. apply (converging_step x todo s s' None); try done.
      * intros y. rewrite Hrs, list_elem_of_filter. split.
        -- intros [Hy1 Hy2]. right. split; [done|]. rewrite <-Ek. by apply (other_route s r y).
        -- intros [?|[Hy1 Hy2]]; [done|]. split; [|done].
           apply (other_route s r y); try done. by rewrite Ek.
      * by rewrite Es.
  - apply route_lookup_None in El.
    destruct (vrf_is_route_row_selected x) eqn:Es.
    + destruct (add_cache_ok x s) as (r' & s' & E & Hc' & Hrs & Hm); try done.
      exists tt, s'. split; [done|]. apply (converging_step x todo s s' (Some r')); try done.
      * intros y. rewrite Hrs, elem_of_cons. split.
        -- intros [->|Hy]; [by left|right]. split; [done|]. intros E'. apply El. rewrite <-E'.
           by apply list_elem_of_fmap_2.
        -- intros [[= ->]|[Hy1 Hy2]]; [by left|by right].
      * rewrite Es. eauto.
    + exists tt, s. split; [done|]. apply (converging_step x todo s s None); try done.
      * intros y. split; [|by intros [?|[? _]]]. intros Hy. right. split; [done|]. intros E'.
        apply El. rewrite <-E'. by apply list_elem_of_fmap_2.
      * by rewrite Es.
Qed.

Lemma modify_loop_spec others :
  hoare (converging (filter changed rows ++ others)) (mfor rows modify_changed_route) (λ _, converging others).
Proof.
  pose proof (hoare_for rows modify_changed_route
    (λ d, converging (filter changed (drop (length d) rows) ++ others))) as HF.
  simpl in HF. rewrite drop_all in HF. apply HF. clear HF. intros d x r Hrows.
  assert (drop (length d) rows = x :: r) as -> by (rewrite Hrows; apply drop_app_length).
  assert (drop (length (d ++ [x])) rows = r) as ->.
  { rewrite Hrows. replace (d ++ x :: r) with ((d ++ [x]) ++ r) by (by rewrite <-app_assoc).
    apply drop_app_length. }
  assert (x ∈ rows) as Hx by (rewrite Hrows; set_solver).
  pose proof (modify_changed_spec x (filter changed r ++ others) Hx) as Hspec.
  rewrite filter_cons. by destruct (decide (changed x)).
Qed.

Local Abbreviation idl_rts := (current_idl_routes name rows).

Lemma idl_rts_values : (shash_nodes idl_rts).*2 ≡ₚ sel_rows.
Proof.
  apply shash_collect_values. eapply sublist_NoDup; [exact Hnd|]. apply (fmap_sublist row_hash_str).
  unfold sel_rows, vrf_rows. rewrite <-(list_filter_filter (λ row, _ = true) (λ row, name = rr_vrf row)).
  apply sublist_filter.
Qed.

(** "Delete the routes that are deleted from the db". *)
Lemma delete_loop_spec s0 :
  cache_ok s0 →
  hoare (λ s, s = s0) (routes ← gets all_routes; mfor routes (delete_stale_route idl_rts))
    (λ _ s, cache_ok s ∧ ∀ r, r ∈ all_routes s ↔
       r ∈ all_routes s0 ∧ is_Some (idl_rts !! vrf_route_hash (r_from r) (r_prefix r))).
Proof.
  intros Hc0. apply (hoare_bind _ _ _ (λ routes s, s = s0 ∧ routes = all_routes s0)).
  { apply hoare_gets. by intros s ->. }
  intros routes. apply (hoare_conseq _
    (λ s, routes = all_routes s0 ∧ cache_ok s ∧ ∀ r, r ∈ all_routes s ↔ r ∈ all_routes s0 ∧
       (r ∈ @nil route → is_Some (idl_rts !! vrf_route_hash (r_from r) (r_prefix r)))) _ _
    (λ _ s, routes = all_routes s0 ∧ cache_ok s ∧ ∀ r, r ∈ all_routes s ↔ r ∈ all_routes s0 ∧
       (r ∈ routes → is_Some (idl_rts !! vrf_route_hash (r_from r) (r_prefix r))))).
  - apply (hoare_for routes _ (λ d s, routes = all_routes s0 ∧ cache_ok s ∧
      ∀ r, r ∈ all_routes s ↔ r ∈ all_routes s0 ∧
        (r ∈ d → is_Some (idl_rts !! vrf_route_hash (r_from r) (r_prefix r))))).
    intros d x rest Hd s (Hroutes & Hc & HI). unfold delete_stale_route.
    assert (x ∈ all_routes s0) as Hx by (rewrite <-Hroutes, Hd; set_solver).
    destruct (idl_rts !! _) as [row|] eqn:E.
    { exists tt, s. split_and!; [done|done|done|]. intros r. rewrite HI, elem_of_app, list_elem_of_singleton.
      split; intros [Hr Hs]; (split; [done|]); [|tauto]. intros [Hd'| ->]; [by apply Hs|eauto]. }
    assert (x ∈ all_routes s) as Hxs.
    { apply HI. split; [done|]. intros Hxd. destruct Hc0 as (Hwf0 & _).
      pose proof (wf_route_ids _ _ _ _ _ Hwf0) as Hids. rewrite <-Hroutes, Hd, fmap_app in Hids.
      apply NoDup_app in Hids as (_ & Hdis & _). destruct (Hdis (r_id x)); csimpl; [|left].
      by apply list_elem_of_fmap_2. }
    destruct (delete_cache_ok x s Hc Hxs) as (s' & E' & Hc' & Hrs).
    exists tt, s'. split_and!; [done|done|done|]. intros r.
    rewrite Hrs, list_elem_of_filter, HI, elem_of_app, list_elem_of_singleton. split.
    + intros [Hne [Hr Hs]]. split; [done|]. intros [Hd'| ->]; [by apply Hs|done].
    + intros [Hr Hs]. split; [|naive_solver]. intros Eid.
      destruct Hc0 as (Hwf0 & _). pose proof (wf_route_ids _ _ _ _ _ Hwf0) as Hids.
      assert (r = x) as -> by (by apply (NoDup_fmap_elem r_id (all_routes s0))).
      destruct Hs as [? Hs]; [by right|]. congruence.
  - intros s [-> ->]. split_and!; [done|done|]. intros r. split; [|by intros [? _]]. intros Hr.
    split; [done|]. by intros ?%elem_of_nil.
  - intros _ s (-> & Hc & HI). split; [done|]. intros r. rewrite HI. tauto.
Qed.

(** "Add new routes". *)
Lemma add_loop_spec s1 :
  cache_ok s1 →
  hoare (λ s, s = s1) (mfor (shash_nodes idl_rts).*2 add_new_route)
    (λ _ s, cache_ok s ∧ (∀ r, r ∈ all_routes s1 → r ∈ all_routes s) ∧
      (∀ r, r ∈ all_routes s → r ∈ all_routes s1 ∨ ∃ row, row ∈ sel_rows ∧ route_matches row r) ∧
      (∀ row, row ∈ sel_rows → row_key row ∉ rkey <$> all_routes s1 →
         ∃ r, r ∈ all_routes s ∧ route_matches row r)).
Proof.
  intros Hc1. set (vals := (shash_nodes idl_rts).*2).
  assert (∀ row, row ∈ vals ↔ row ∈ sel_rows) as Hvals
    by (intros row; unfold vals; by rewrite idl_rts_values).
  set (I := λ (d : list ovsrec_route) s, cache_ok s ∧ (∀ r, r ∈ all_routes s1 → r ∈ all_routes s) ∧
      (∀ r, r ∈ all_routes s → r ∈ all_routes s1 ∨ ∃ row, row ∈ sel_rows ∧ route_matches row r) ∧
      (∀ row, row ∈ d → row_key row ∉ rkey <$> all_routes s1 →
         ∃ r, r ∈ all_routes s ∧ route_matches row r)).
  apply (hoare_conseq _ (I []) _ _ (λ _, I vals)).
  - apply hoare_for. intros d x rest Hd s (Hc & Hsub & Hfrom & Hdone).
    assert (x ∈ sel_rows) as Hx by (apply Hvals; rewrite Hd; set_solver).
    assert (x ∈ vrf_rows) as Hxv by (by apply elem_of_sel_rows in Hx as [? _]).
    unfold add_new_route, mbind, M_bind, gets. destruct (vrf_route_hash_lookup x s) as [r|] eqn:El.
    + exists tt, s. split; [done|]. unfold I. split_and!; [done|done|done|].
      apply route_lookup_Some in El as [Hr Ek].
      intros row [Hrow| ->%list_elem_of_singleton]%elem_of_app Hnew; [by apply Hdone|].
      destruct (Hfrom r Hr) as [Hr1|(row & Hrow & Hm)].
      * destruct Hnew. rewrite <-Ek. by apply list_elem_of_fmap_2.
      * assert (row = x) as ->; [|eauto]. apply elem_of_sel_rows in Hrow as [Hrow _].
        apply row_key_inj; [done..|]. by rewrite <-(matches_key _ _ Hm).
    + apply route_lookup_None in El.
      destruct (add_cache_ok x s) as (r' & s' & E & Hc' & Hrs & Hm); try done.
      exists tt, s'. split; [done|]. unfold I. split_and!; [done| | |].
      * intros r Hr. rewrite Hrs. right. by apply Hsub.
      * intros r Hr. rewrite Hrs in Hr. apply elem_of_cons in Hr as [->|Hr]; [eauto|by apply Hfrom].
      * intros row [Hrow| ->%list_elem_of_singleton]%elem_of_app Hnew.
        -- destruct (Hdone row Hrow Hnew) as (r & Hr & Hm'). exists r. rewrite Hrs. split; [by right|done].
        -- exists r'. rewrite Hrs. split; [by left|done].
  - intros s ->. unfold I. split_and!; [done|done|by left|]. by intros row ?%elem_of_nil.
  - intros _ s (Hc & Hsub & Hfrom & Hdone). split_and!; try done.
    intros row Hrow. apply Hdone. by apply Hvals.
Qed.

(** What the change flags of the database promise about a cache that mirrored
    the previous contents: a selected row that is not mirrored is new or
    modified, a cached route whose row is not selected has a modified row or had
    its former row deleted, and a cached route without a row had its row deleted.  The truncated
    keys of cached routes and rows do not collide.  Of the rows [others]
    only the keys are promised. *)
Record tracked_but (others : list ovsrec_route) (db : idl_routes) (s : st) : Prop := {
  tr_new : ∀ row, row ∈ sel_rows → (∀ r, r ∈ all_routes s → ¬ route_matches row r) →
    (changed row ∧ routes_any_modified db = true) ∨
    (routes_any_inserted db = true ∧ row_key row ∉ rkey <$> all_routes s) ∨
    (row ∈ others ∧ row_key row ∈ rkey <$> all_routes s);
  tr_unselected : ∀ r row, r ∈ all_routes s → row ∈ vrf_rows → row_key row = rkey r →
    vrf_is_route_row_selected row = false →
    (changed row ∧ routes_any_modified db = true) ∨ routes_any_deleted db = true;
  tr_deleted : ∀ r, r ∈ all_routes s → (∀ row, row ∈ vrf_rows → row_key row ≠ rkey r) →
    routes_any_deleted db = true;
  tr_keys : ∀ r row, r ∈ all_routes s → row ∈ vrf_rows →
    vrf_route_hash (r_from r) (r_prefix r) = row_hash_str row → rkey r = row_key row;
}.

Definition tracked : idl_routes → st → Prop := tracked_but [].

(** The rows left for the third loop. *)
Definition todo_rows (db : idl_routes) : list ovsrec_route :=
  if routes_any_modified db then filter changed rows else [].

Lemma elem_of_todo db row :
  row ∈ vrf_rows → changed row → routes_any_modified db = true → row ∈ todo_rows db.
Proof.
  intros Hr Hc Hm. unfold todo_rows. rewrite Hm. apply list_elem_of_filter. split; [done|].
  by apply list_elem_of_filter in Hr as [_ ?].
Qed.

Lemma in_idl_rts r :
  is_Some (idl_rts !! vrf_route_hash (r_from r) (r_prefix r)) ↔
  ∃ row, row ∈ sel_rows ∧ row_hash_str row = vrf_route_hash (r_from r) (r_prefix r).
Proof.
  unfold current_idl_routes. rewrite shash_collect_is_Some, list_elem_of_fmap.
  split; intros (row & E & Hr); exists row; [by split|]. split; [by symmetry|done].
Qed.

(** The cache before the third loop, from the one before the first: [s1] is the
    state after the first loop and [s2] the state after the second. *)
Lemma before_modify others db s0 s1 s2 :
  cache_ok s0 → tracked_but others db s0 → cache_ok s2 →
  (∀ r, r ∈ all_routes s1 → r ∈ all_routes s0) →
  (∀ r, r ∈ all_routes s0 → (∃ row, row ∈ sel_rows ∧ row_key row = rkey r) → r ∈ all_routes s1) →
  (routes_any_deleted db = true → ∀ r, r ∈ all_routes s1 → ∃ row, row ∈ sel_rows ∧ row_key row = rkey r) →
  (∀ r, r ∈ all_routes s1 → r ∈ all_routes s2) →
  (∀ r, r ∈ all_routes s2 → r ∈ all_routes s1 ∨ ∃ row, row ∈ sel_rows ∧ route_matches row r) →
  (routes_any_inserted db = true → ∀ row, row ∈ sel_rows → row_key row ∉ rkey <$> all_routes s1 →
     ∃ r, r ∈ all_routes s2 ∧ route_matches row r) →
  converging (todo_rows db ++ others) s2.
Proof.
  intros Hc0 Htr Hc2 H01 H10 Hdel H12 H2 Hins. split_and!; [done| |].
  - intros r Hr. destruct (H2 r Hr) as [Hr1|(row & Hrow & Hm)].
    2:{ exists row. pose proof Hrow as [? _]%elem_of_sel_rows.
        split_and!; [done|by rewrite (matches_key _ _ Hm)|]. by right. }
    pose proof (H01 r Hr1) as Hr0.
    destruct (decide (Exists (λ row, row_key row = rkey r) vrf_rows)) as [He|He].
    2:{ destruct (routes_any_deleted db) eqn:Ed.
        - destruct (Hdel eq_refl r Hr1) as (row & Hrow & Ek). destruct He. apply Exists_exists.
          exists row. by apply elem_of_sel_rows in Hrow as [? _].
        - rewrite (tr_deleted others db s0 Htr r) in Ed; [done|done|].
          intros row Hrow Ek. apply He, Exists_exists. eauto. }
    apply Exists_exists in He as (row & Hrow & Ek). exists row. split_and!; [done|done|].
    destruct (vrf_is_route_row_selected row) eqn:Es.
    2:{ left. destruct (tr_unselected others db s0 Htr r row) as [[??]|Ed]; try done.
        { apply elem_of_app. left. by apply elem_of_todo. }
        destruct (Hdel Ed r Hr1) as (row' & [Hrow' Hs']%elem_of_sel_rows & Ek').
        rewrite (row_key_inj row row') in Es; [congruence|done|done|congruence]. }
    assert (row ∈ sel_rows) as Hsel by (by apply elem_of_sel_rows).
    destruct (decide (route_matches row r)) as [Hm|Hm]; [by right|left].
    rewrite elem_of_app.
    destruct (tr_new others db s0 Htr row Hsel) as [[? ?]|[[_ Hn]|[Ho _]]]; [|by left; apply elem_of_todo| |by right].
    + intros r' Hr' Hm'. apply Hm. destruct Hc0 as (_ & Hk & _).
      rewrite (NoDup_fmap_elem rkey (all_routes s0) r r'); try done.
      by rewrite <-Ek, (matches_key _ _ Hm').
    + destruct Hn. rewrite Ek. by apply list_elem_of_fmap_2.
  - intros row Hrow.
    destruct (decide (Exists (λ r, route_matches row r) (all_routes s0))) as [He|He].
    { apply Exists_exists in He as (r & Hr & Hm). right. exists r. split; [|done]. apply H12, H10; [done|].
      exists row. split; [done|]. by rewrite (matches_key _ _ Hm). }
    destruct (tr_new others db s0 Htr row Hrow) as [[? ?]|[[Hi Hn]|[Ho (r & E & Hr)%list_elem_of_fmap]]].
    + intros r Hr Hm. apply He, Exists_exists. eauto.
    + left. split; [|by left]. apply elem_of_app. left. apply elem_of_todo; try done. by apply elem_of_sel_rows in Hrow as [? _].
    + right. apply Hins; try done. intros (r & E & Hr)%list_elem_of_fmap. apply Hn. rewrite E.
      by apply list_elem_of_fmap_2, H01.
    + left. split; [apply elem_of_app; by right|right]. rewrite E. apply list_elem_of_fmap_2, H12, H10; [done|].
      by exists row.
Qed.

(** The cache mirrors the selected rows of the VRF. *)
Definition mirrored (s : st) : Prop :=
  cache_ok s ∧
  (∀ r, r ∈ all_routes s → ∃ row, row ∈ sel_rows ∧ route_matches row r) ∧
  (∀ row, row ∈ sel_rows → ∃ r, r ∈ all_routes s ∧ route_matches row r).

Lemma converging_mirrored s : converging [] s → mirrored s.
Proof.
  intros (Hc & HA & HB). split_and!; [done| |].
  - intros r Hr. destruct (HA r Hr) as (row & _ & _ & [?%elem_of_nil|[? ?]]); [done|eauto].
  - intros row Hrow. destruct (HB row Hrow) as [[?%elem_of_nil _]|?]; [done|eauto].
Qed.

(** The two optional loops before the modifications. *)
Lemma delete_add_spec others db s0 :
  cache_ok s0 → tracked_but others db s0 →
  hoare (λ s, s = s0)
    (mwhen (routes_any_deleted db)
       (routes ← gets all_routes; mfor routes (delete_stale_route idl_rts)) ;;
     mwhen (routes_any_inserted db) (mfor (shash_nodes idl_rts).*2 add_new_route))
    (λ _, converging (todo_rows db ++ others)).
Proof.
  intros Hc0 Htr.
  set (Q1 := λ (_ : unit) s1, cache_ok s1 ∧ (∀ r, r ∈ all_routes s1 → r ∈ all_routes s0) ∧
    (∀ r, r ∈ all_routes s0 → (∃ row, row ∈ sel_rows ∧ row_key row = rkey r) → r ∈ all_routes s1) ∧
    (routes_any_deleted db = true → ∀ r, r ∈ all_routes s1 → ∃ row, row ∈ sel_rows ∧ row_key row = rkey r)).
  apply (hoare_bind _ _ _ Q1).
  - destruct (routes_any_deleted db) eqn:Ed; simpl.
    + eapply hoare_conseq; [by apply (delete_loop_spec s0)|done|]. intros [] s1 [Hc1 HI]. unfold Q1.
      split_and!; [done| | |].
      * by intros r [? _]%HI.
      * intros r Hr (row & Hrow & Ek). apply HI. split; [done|]. apply in_idl_rts. exists row.
        split; [done|]. unfold row_hash_str. by injection Ek as -> ->.
      * intros _ r [Hr (row & Hrow & Eh)%in_idl_rts]%HI. exists row. split; [done|].
        symmetry. apply (tr_keys others db s0 Htr); try done. by apply elem_of_sel_rows in Hrow as [? _].
    + intros s ->. exists tt, s0. split; [done|]. unfold Q1. by split_and!.
  - intros [] s1 (Hc1 & H01 & H10 & Hdel).
    destruct (routes_any_inserted db) eqn:Ei; simpl.
    + destruct (add_loop_spec s1 Hc1 s1 eq_refl) as ([] & s2 & E & Hc2 & H12 & H2 & Hins).
      exists tt, s2. split; [done|]. by apply (before_modify others db s0 s1 s2).
    + exists tt, s1. split; [done|]. apply (before_modify others db s0 s1 s1); try done; [by left|].
      by rewrite Ei.
Qed.

Lemma reconfigure_loops_spec others db s0 :
  cache_ok s0 → tracked_but others db s0 →
  hoare (λ s, s = s0)
    (mwhen (routes_any_deleted db)
       (routes ← gets all_routes; mfor routes (delete_stale_route idl_rts)) ;;
     mwhen (routes_any_inserted db) (mfor (shash_nodes idl_rts).*2 add_new_route) ;;
     mwhen (routes_any_modified db) (mfor rows modify_changed_route))
    (λ _, converging others).
Proof.
  intros Hc0 Htr s ->.
  destruct (delete_add_spec others db s0 Hc0 Htr s0 eq_refl) as ([] & s2 & E2 & Hs2).
  apply bind_Ok in E2 as ([] & s1 & E1 & E2).
  assert (∃ s3, mwhen (routes_any_modified db) (mfor rows modify_changed_route) s2 = Ok (tt, s3) ∧
            converging others s3) as (s3 & E3 & Hs3).
  { unfold todo_rows in Hs2. destruct (routes_any_modified db); simpl; [|by exists s2].
    destruct (modify_loop_spec others s2 Hs2) as ([] & s3 & ? & ?). eauto. }
  exists tt, s3. split; [|done].
  apply bind_Ok. exists tt, s1. split; [done|]. apply bind_Ok. by exists tt, s2.
Qed.
End Convergence.

(** ** Neighbor changes *)

Definition uses_ip (ip : string) (r : route) : Prop :=
  Exists (λ nh, nh_ip_addr nh = Some ip) (r_nexthops r).
#[local] Instance uses_ip_dec ip r : Decision (uses_ip ip r).
Proof. unfold uses_ip. apply _. Defined.

(** The request a provider call carries, without its result. *)
Definition request (e : l3_event) : option (ofproto_route_action * ofproto_route) :=
  match e with
  | RouteAction a r _ => Some (a, r)
  | _ => None
  end.

Definition neighbor_slot (n : neighbor) (resolved : bool) : ofproto_route_nexthop :=
  OfpNexthop (if resolved then OFPROTO_NH_RESOLVED else OFPROTO_NH_UNRESOLVED) OFPROTO_NH_IPADDR
    (n_ip_address n) (if resolved then Some (n_l3_egress_id n) else None).

Definition neighbor_request (n : neighbor) (resolved : bool) (r : route)
  : ofproto_route_action * ofproto_route :=
  (OFPROTO_ROUTE_ADD, OfpRoute (route_family r) (r_prefix r) [neighbor_slot n resolved]).

(** At most one nexthop of a route has the address. *)
Lemma filter_ip_list ip rid l :
  Forall (nh_ok rid) l → NoDup (nh_key <$> l) →
  nh_route <$> filter (λ nh, nh_ip_addr nh = Some ip) l =
  if decide (Exists (λ nh, nh_ip_addr nh = Some ip) l) then [rid] else [].
Proof.
  intros Hnh Hk. induction l as [|nh l IH]; [done|].
  apply Forall_cons in Hnh as [[Hrid _] Hnh]. rewrite fmap_cons in Hk. apply NoDup_cons in Hk as [Hn Hk].
  rewrite filter_cons. specialize (IH Hnh Hk). destruct (decide (nh_ip_addr nh = Some ip)) as [E|E].
  - rewrite (decide_True (P := Exists _ (nh :: l))) by (by apply Exists_cons_hd).
    csimpl. rewrite IH, decide_False; [by rewrite Hrid|].
    intros (nh' & Hin & E')%Exists_exists. apply Hn.
    rewrite (nh_key_ip _ _ E), <-(nh_key_ip _ _ E'). by apply list_elem_of_fmap_2.
  - rewrite IH. destruct (decide (Exists _ l)) as [He|He].
    + rewrite decide_True; [done|]. by apply Exists_cons_tl.
    + rewrite decide_False; [done|]. rewrite Exists_cons. tauto.
Qed.

Lemma filter_ip_route ip r :
  route_ok r →
  nh_route <$> filter (λ nh, nh_ip_addr nh = Some ip) (r_nexthops r) =
  if decide (uses_ip ip r) then [r_id r] else [].
Proof.
  intros (Hnh & Hk & _). rewrite (filter_ip_list ip (r_id r)) by done.
  unfold uses_ip. by repeat case_decide.
Qed.

Lemma filter_ip_routes ip rs :
  Forall route_ok rs →
  nh_route <$> filter (λ nh, nh_ip_addr nh = Some ip) (rs ≫= r_nexthops) =
  r_id <$> filter (uses_ip ip) rs.
Proof.
  induction 1 as [|r rs Hr Hrs IH]; [done|]. csimpl.
  rewrite filter_app, fmap_app, filter_ip_route, IH by done. rewrite filter_cons. by case_decide.
Qed.

Lemma owners_of_ip s ip :
  wf s →
  nh_route <$> filter (λ nh, nh_ip_addr nh = Some ip) (all_nexthops s) ≡ₚ
  r_id <$> filter (uses_ip ip) (all_routes s).
Proof.
  intros Hwf. rewrite (wf_all_nexthops _ _ _ _ _ Hwf), filter_filter_sub.
  - by rewrite (filter_ip_routes ip _ (wf_routes _ _ _ _ _ Hwf)).
  - intros nh E. by exists ip.
Qed.

Lemma route_at_spec s r : wf s → r ∈ all_routes s → route_at (r_id r) s = Some r.
Proof.
  intros Hwf Hr. unfold route_at. apply find_Some_iff_unique; [|by rewrite Z.eqb_refl].
  intros x y Hx Hy Ex%Z.eqb_eq Ey%Z.eqb_eq.
  apply (NoDup_fmap_elem r_id (all_routes s)); try done; [by eapply wf_route_ids|congruence].
Qed.

Lemma only_log_trans evs evs' s s' s'' :
  only_log evs s s' → only_log evs' s' s'' → only_log (evs ++ evs') s s''.
Proof.
  intros (V1 & R1 & N1 & I1 & L1) (V2 & R2 & N2 & I2 & L2).
  split_and!; [by etrans|congruence|congruence|congruence|by rewrite L2, L1, app_assoc].
Qed.

Lemma only_log_wf evs s s' : only_log evs s s' → wf s → wf s'.
Proof. intros (_ & R & N & I & _). unfold Vrf.wf. by rewrite R, N, I. Qed.

Lemma update_other_nexthop ip egress resolved nh s :
  nh_ip_addr nh ≠ Some ip → update_route_of_nexthop ip egress resolved nh s = Ok (tt, s).
Proof.
  intros E. unfold update_route_of_nexthop. by rewrite (bool_decide_false _ E), andb_false_r.
Qed.

Lemma update_owner n resolved nh r s :
  wf s → r ∈ all_routes s → nh ∈ r_nexthops r → nh_ip_addr nh = Some (n_ip_address n) →
  ∃ s', update_route_of_nexthop (n_ip_address n) (n_l3_egress_id n) resolved nh s = Ok (tt, s') ∧
    only_log [action_event s OFPROTO_ROUTE_ADD r [neighbor_slot n resolved]] s s' ∧ nh_route nh = r_id r.
Proof.
  intros Hwf Hr Hnh E.
  pose proof (wf_routes _ _ _ _ _ Hwf) as Hrs. rewrite Forall_forall in Hrs.
  destruct (Hrs r Hr) as (Hrn & _). pose proof Hrn as Hrn'. rewrite Forall_forall in Hrn'.
  destruct (Hrn' nh Hnh) as [Hrid Hkind].
  unfold update_route_of_nexthop, nh_hash_of. rewrite (bool_decide_true _ E), E. simpl.
  rewrite Z.eqb_refl. simpl. unfold mbind, M_bind, gets. rewrite Hrid, route_at_spec by done.
  fold (neighbor_slot n resolved). rewrite ofproto_route_add_spec; [|done|].
  - eexists. split; [reflexivity|]. done.
  - constructor; [|done]. unfold slot_ok. simpl.
    destruct Hkind as [(i & Hi & _ & Hin)|(p & Hi & _)]; congruence.
Qed.

(** The loop of [vrf_ofproto_update_route_with_neighbor] over any part of
    [all_nexthops]. *)
Lemma update_loop_spec n resolved l s :
  wf s → (∀ nh, nh ∈ l → nh ∈ all_nexthops s) →
  ∃ evs s', mfor l (update_route_of_nexthop (n_ip_address n) (n_l3_egress_id n) resolved) s = Ok (tt, s') ∧
    only_log evs s s' ∧
    (request <$> evs) =
      ((λ id, neighbor_request n resolved <$> route_at id s) <$>
        (nh_route <$> filter (λ nh, nh_ip_addr nh = Some (n_ip_address n)) l)).
Proof.
  intros Hwf. revert s Hwf. induction l as [|nh l IH]; intros s Hwf Hl.
  { exists [], s. split_and!; [done| |done]. unfold only_log. by rewrite app_nil_r. }
  cbn [mfor]. rewrite filter_cons. unfold mbind, M_bind.
  destruct (decide (nh_ip_addr nh = Some (n_ip_address n))) as [E|E].
  2:{ rewrite update_other_nexthop by done. apply IH; [done|]. intros x Hx. apply Hl. by right. }
  assert (nh ∈ all_nexthops s) as Hnh by (apply Hl, list_elem_of_here).
  rewrite (wf_all_nexthops _ _ _ _ _ Hwf) in Hnh. apply list_elem_of_filter in Hnh as [_ Hnh].
  apply list_elem_of_bind in Hnh as (r & Hnh & Hr).
  destruct (update_owner n resolved nh r s) as (s1 & E1 & H1 & Hrid); [done..|]. rewrite E1.
  destruct (IH s1) as (evs & s2 & E2 & H2 & Hreq); [by eapply only_log_wf| |].
  { intros x Hx. destruct H1 as (_ & _ & -> & _). apply Hl. by right. }
  eexists (_ :: evs), s2. split_and!; [exact E2|exact (only_log_trans _ _ _ _ _ H1 H2)|].
  rewrite !fmap_cons, Hrid, (route_at_spec s r), Hreq by done. f_equal.
  apply list_fmap_ext. intros _ id _. unfold route_at. by destruct H1 as (_ & -> & _).
Qed.

Lemma update_with_neighbor_spec n resolved s :
  wf s →
  ∃ evs s', vrf_ofproto_update_route_with_neighbor n resolved s = Ok (tt, s') ∧ only_log evs s s' ∧
    (request <$> evs) ≡ₚ
      (Some ∘ neighbor_request n resolved) <$> filter (uses_ip (n_ip_address n)) (all_routes s).
Proof.
  intros Hwf. unfold vrf_ofproto_update_route_with_neighbor, mbind, M_bind, gets.
  destruct (update_loop_spec n resolved (all_nexthops s) s) as (evs & s' & E & Ho & Hreq); [done|done|].
  exists evs, s'. split_and!; [done|done|].
  rewrite Hreq, (owners_of_ip s _ Hwf), <-list_fmap_compose.
  apply reflexive_eq, list_fmap_ext. intros i r [_ Hr]%list_elem_of_lookup_2%list_elem_of_filter.
  simpl. by rewrite route_at_spec.
Qed.

(** a change of a neighbor reaches exactly the routes that go through it.
    In a well-formed cache [vrf_ofproto_update_route_with_neighbor] always
    returns, and it re-programs, once each, the routes with a nexthop at the
    neighbor's address, marking that nexthop resolved with the neighbor's egress
    id or unresolved; the cache itself is unchanged. *)
Theorem neighbor_change_updates_its_routes n resolved s :
  wf s →
  ∃ evs s', vrf_ofproto_update_route_with_neighbor n resolved s = Ok (tt, s') ∧
    wf s' ∧ all_routes s' = all_routes s ∧ all_nexthops s' = all_nexthops s ∧
    log s' = log s ++ evs ∧
    (request <$> evs) ≡ₚ
      (Some ∘ neighbor_request n resolved) <$> filter (uses_ip (n_ip_address n)) (all_routes s).
Proof.
  intros Hwf. destruct (update_with_neighbor_spec n resolved s Hwf) as (evs & s' & E & Ho & Hreq).
  exists evs, s'. pose proof (only_log_wf _ _ _ Ho Hwf) as Hwf'.
  destruct Ho as (_ & Er & En & _ & El). by split_and!.
Qed.

(** ** Results *)

(** One run, from any well-formed state. *)
Lemma reconfigure_routes_converging others db s :
  has_l3_route_action = true →
  cache_ok (vrf_name s) s →
  (∀ row, row ∈ vrf_rows (vrf_name s) (db_routes db) → row_ok row) →
  NoDup (row_hash_str <$> vrf_rows (vrf_name s) (db_routes db)) →
  tracked_but (vrf_name s) (db_routes db) others db s →
  ∃ s', vrf_reconfigure_routes db s = Ok (tt, s') ∧
    converging (vrf_name s) (db_routes db) others s'.
Proof.
  intros Hhas Hc Hok Hnd Htr. unfold vrf_reconfigure_routes, mbind, M_bind at 1.
  destruct (reconfigure_ecmp_frame db s) as (e & evs & ->). rewrite Hhas. cbn [negb].
  set (s0 := set_log _ _).
  assert (cache_ok (vrf_name s) s0) as Hc0 by done.
  assert (tracked_but (vrf_name s) (db_routes db) others db s0) as Htr0 by (by destruct Htr; split).
  destruct (db_routes db) as [|row rows] eqn:Edb.
  - destruct (delete_all_spec (vrf_name s) s0 Hc0) as (s' & E & Hc' & Hnil).
    exists s'. split; [exact E|]. split_and!; [done| |].
    + intros r. rewrite Hnil. by intros ?%elem_of_nil.
    + by intros r ?%elem_of_nil.
  - rewrite <-Edb in *.
    destruct (reconfigure_loops_spec (vrf_name s) (db_routes db) Hok Hnd others db s0 Hc0 Htr0 s0 eq_refl)
      as ([] & s' & E & Hm).
    destruct (_ && _) eqn:Eflags.
    + exists s0. split; [done|]. rewrite !andb_true_iff, !negb_true_iff in Eflags.
      destruct Eflags as [[Em Ed] Ei]. rewrite Em, Ed, Ei in E. injection E as <-. done.
    + exists s'. split; [|done]. exact E.
Qed.

Lemma reconfigure_routes_run db s :
  has_l3_route_action = true →
  cache_ok (vrf_name s) s →
  (∀ row, row ∈ vrf_rows (vrf_name s) (db_routes db) → row_ok row) →
  NoDup (row_hash_str <$> vrf_rows (vrf_name s) (db_routes db)) →
  tracked (vrf_name s) (db_routes db) db s →
  ∃ s', vrf_reconfigure_routes db s = Ok (tt, s') ∧
    mirrored (vrf_name s) (db_routes db) s'.
Proof.
  intros Hhas Hc Hok Hnd Htr. destruct (reconfigure_routes_converging [] db s) as (s' & E & Hs'); [done..|].
  exists s'. split; [done|]. by apply converging_mirrored.
Qed.

(** C1: one run of [vrf_reconfigure_routes] makes the cache mirror the
    database.  When the change flags describe the difference between the cache
    and the tables, the run returns without a fault, and afterwards the cached
    routes are exactly the selected route rows of this VRF, each with exactly
    the selected nexthops of its row; the cache stays well formed. *)
Theorem vrf_reconfigure_routes_converges db s :
  has_l3_route_action = true →
  cache_ok (vrf_name s) s →
  (∀ row, row ∈ vrf_rows (vrf_name s) (db_routes db) → row_ok row) →
  NoDup (row_hash_str <$> vrf_rows (vrf_name s) (db_routes db)) →
  tracked (vrf_name s) (db_routes db) db s →
  ∃ s', vrf_reconfigure_routes db s = Ok (tt, s') ∧
    mirrored (vrf_name s) (db_routes db) s'.
Proof. apply reconfigure_routes_run. Qed.

(** A new route is cached with exactly the selected nexthops of its row
    and programmed once.  An ECMP row (more than one nexthop) is programmed with
    its resolved IP nexthops and its port nexthops, or with its first IP nexthop
    marked unresolved when there are none; a row with one nexthop is programmed
    whatever its state; nothing is sent when there is no nexthop to send. *)
Theorem vrf_route_add_programs row s :
  wf s → row_ok row →
  ∃ r s', vrf_route_add row s = Ok (tt, s') ∧ wf s' ∧
    all_routes s' ≡ₚ r :: all_routes s ∧ route_matches row r ∧
    log s' = log s ++ match programmed_nexthops s row with
                      | [] => []
                      | nhs => [action_event s OFPROTO_ROUTE_ADD r nhs]
                      end.
Proof.
  intros Hwf Hrow. destruct (route_add_spec row s Hwf Hrow) as (r & s' & E & Hwf' & _ & Hrs & Hm & _ & _ & El).
  exists r, s'. split_and!; [done..|]. rewrite El. by destruct (programmed_nexthops s row).
Qed.

(** Deleting a route removes it and its nexthops from both hash maps and
    withdraws all its nexthops, with their current resolution, in one call. *)
Theorem vrf_route_delete_withdraws r s :
  wf s → r ∈ all_routes s →
  ∃ s', vrf_route_delete r s = Ok (tt, s') ∧ wf s' ∧
    all_routes s ≡ₚ r :: all_routes s' ∧
    log s' = log s ++ match r_nexthops r with
                      | [] => []
                      | nhs => [action_event s OFPROTO_ROUTE_DELETE r
                                  ((λ nh, slot s (nh_ip_addr nh) (nh_key nh)) <$> nhs)]
                      end.
Proof.
  intros Hwf Hr. destruct (route_delete_spec r s Hwf Hr) as (s' & E & Hwf' & _ & Hrs & El).
  exists s'. split_and!; [done|done| |].
  - rewrite Hrs. by eapply route_ids_filter.
  - rewrite El. by destruct (r_nexthops r).
Qed.

(** C30: modifying a route is incremental.  The nexthops that left the row are
    withdrawn in one call, the nexthops that are new in it are programmed in
    one call (the unresolved ones of an ECMP row are held back), and the ones
    that stay are not touched; afterwards the route mirrors the row. *)
Theorem vrf_route_modify_incremental r row s :
  wf s → r ∈ all_routes s → row_ok row → r_from r = rr_from row → r_prefix r = rr_prefix row →
  ∃ r' s' nhs, vrf_route_modify r row s = Ok (tt, s') ∧ wf s' ∧
    all_routes s' ≡ₚ r' :: filter (λ x, r_id x ≠ r_id r) (all_routes s) ∧
    route_matches row r' ∧ r_id r' = r_id r ∧
    nhs ≡ₚ added_slots s (length (rr_nexthops row)) (new_rows r (selected_rows row)) ∧
    (∃ s1, log s' = log s ++ delete_events s r row ++ event_unless_empty s1 OFPROTO_ROUTE_ADD r nhs).
Proof.
  intros Hwf Hr Hrow Hf Hp.
  destruct (route_modify_spec r row s Hwf Hr Hrow Hf Hp)
    as (r' & s' & nhs & E & Hwf' & _ & Hrs & Hm & Hid & _ & Hnhs & El).
  exists r', s', nhs. split_and!; [done..|]. eauto.
Qed.

Lemma report_all_other r results m l u :
  (∀ p nh, p ∈ l → nh_at (onh_id p.2) (r_nexthops r) = Some nh → nh_idl_row_uuid nh ≠ u) →
  report_all r results m l !! u = m !! u.
Proof.
  unfold report_all. revert m. induction l as [|p l IH]; intros m Hu; [done|]. simpl.
  rewrite IH by (intros; eapply Hu; [by right|done]).
  destruct (nh_at _ _) as [nh|] eqn:E; [|done]. rewrite lookup_alter_ne; [done|].
  eapply Hu; [apply list_elem_of_here|done].
Qed.

Lemma report_all_at r results m l l' i o nh :
  nh_at (onh_id o) (r_nexthops r) = Some nh →
  NoDup (nh_idl_row_uuid <$> r_nexthops r) →
  (∀ p, p ∈ l ++ l' → onh_id p.2 ≠ onh_id o) →
  report_all r results m (l ++ (i, o) :: l') !! nh_idl_row_uuid nh =
  reported (results i) <$> m !! nh_idl_row_uuid nh.
Proof.
  intros E Hnd Hids.
  assert (∀ p nh', p ∈ l ++ l' → nh_at (onh_id p.2) (r_nexthops r) = Some nh' →
            nh_idl_row_uuid nh' ≠ nh_idl_row_uuid nh) as Hne.
  { intros p nh' Hp E' Eu. apply (Hids p Hp).
    apply nh_at_Some in E as [Hin1 <-]. apply nh_at_Some in E' as [Hin2 <-].
    by rewrite (NoDup_fmap_elem nh_idl_row_uuid (r_nexthops r) nh' nh). }
  unfold report_all. rewrite fold_left_app. simpl. rewrite E.
  fold (report_all r results m l).
  fold (report_all r results (alter (reported (results i)) (nh_idl_row_uuid nh)
    (report_all r results m l)) l').
  rewrite report_all_other by (intros p nh' Hp; apply Hne; set_solver).
  rewrite lookup_alter_eq. f_equal.
  apply report_all_other. intros p nh' Hp. apply Hne. set_solver.
Qed.

Lemma imap_pair_split {A} (l : list A) i o :
  l !! i = Some o →
  ∃ l1 l2, imap pair l = l1 ++ (i, o) :: l2 ∧
    (∀ p, p ∈ l1 ++ l2 → p.1 ≠ i ∧ l !! p.1 = Some p.2).
Proof.
  intros Hi. assert (imap pair l !! i = Some (i, o)) as Hii by (by rewrite list_lookup_imap, Hi).
  exists (take i (imap pair l)), (drop (S i) (imap pair l)).
  split; [by rewrite take_drop_middle|]. intros [j x] Hj. simpl.
  apply elem_of_app in Hj as [Hj|Hj]; apply list_elem_of_lookup in Hj as [k Hk].
  - apply lookup_take_Some in Hk as [Hk Hlt]. rewrite list_lookup_imap in Hk.
    destruct (l !! k) eqn:El; [|done]. injection Hk as -> ->. split; [lia|done].
  - rewrite lookup_drop, list_lookup_imap in Hk.
    destruct (l !! (S i + k)%nat) eqn:El; [|done]. injection Hk as <- ->. split; [lia|done].
Qed.

(** the result of programming a nexthop ends up in the status column of its
    row.  After [vrf_ofproto_route_add] of distinct nexthops, the row of the
    i-th one shows the provider's error string when its return code is not
    zero, has an earlier error removed when it is zero, and is unchanged
    otherwise. *)
Theorem route_add_reports_errors r nhs s i o nh :
  Forall (nh_ok (r_id r)) (r_nexthops r) → Forall slot_ok nhs →
  NoDup (onh_id <$> nhs) → NoDup (nh_idl_row_uuid <$> r_nexthops r) →
  nhs !! i = Some o → nh_at (onh_id o) (r_nexthops r) = Some nh →
  ∃ s', vrf_ofproto_route_add nhs r s = Ok (tt, s') ∧
    nh_status s' !! nh_idl_row_uuid nh =
      reported ((route_action s OFPROTO_ROUTE_ADD r nhs).2 i) <$> nh_status s !! nh_idl_row_uuid nh ∧
    (∀ u, u ∉ nh_idl_row_uuid <$> r_nexthops r → nh_status s' !! u = nh_status s !! u).
Proof.
  intros Hr Hn Hnd Hu Hi E. rewrite ofproto_route_add_spec by done. eexists. split; [reflexivity|].
  cbn [nh_status set_nh_status]. split.
  - destruct (imap_pair_split nhs i o Hi) as (l1 & l2 & -> & Hl).
    apply report_all_at; [done|done|]. intros [j x] Hp. destruct (Hl _ Hp) as [Hne Hj]. simpl in *.
    intros Eid. apply Hne. eapply NoDup_lookup; [exact Hnd| |]; rewrite list_lookup_fmap;
      [rewrite Hj|rewrite Hi]; simpl; [done|by rewrite Eid].
  - intros u Hnu. apply report_all_other. intros p nh' _ [Hin _]%nh_at_Some <-. apply Hnu.
    by apply list_elem_of_fmap_2.
Qed.

(** An error is never removed when the status column is not replicated and always
    reads as empty, which is what [bridge_init] asks for: a nexthop that the
    provider accepts leaves its row as it is. *)
Theorem unread_status_not_cleared r nhs s i o nh :
  Forall (nh_ok (r_id r)) (r_nexthops r) → Forall slot_ok nhs →
  NoDup (onh_id <$> nhs) → NoDup (nh_idl_row_uuid <$> r_nexthops r) →
  nhs !! i = Some o → nh_at (onh_id o) (r_nexthops r) = Some nh →
  nh_status s !! nh_idl_row_uuid nh = Some ∅ → ((route_action s OFPROTO_ROUTE_ADD r nhs).2 i).1 = 0 →
  ∀ s', vrf_ofproto_route_add nhs r s = Ok (tt, s') →
    nh_status s' !! nh_idl_row_uuid nh = nh_status s !! nh_idl_row_uuid nh.
Proof.
  intros Hr Hn Hnd Hu Hi E Es Erc s' Hs'.
  destruct (route_add_reports_errors r nhs s i o nh Hr Hn Hnd Hu Hi E) as (s1 & Es1 & H & _).
  rewrite Hs' in Es1. injection Es1 as <-. rewrite H, Es. simpl. unfold reported. rewrite Erc. simpl.
  by rewrite lookup_empty.
Qed.

(** The loop of [vrf_reconfigure_nexthops]. *)
Definition nexthops_handled (name : string) (s0 : st) (d : list ovsrec_route) (s : st) : Prop :=
  cache_ok name s ∧ (rkey <$> all_routes s) ≡ₚ (rkey <$> all_routes s0) ∧
  (∀ row r, row ∈ d → is_route_nh_rows_modified row = true → r ∈ all_routes s →
     rkey r = row_key row → route_matches row r) ∧
  (∀ r, r ∈ all_routes s → r ∈ all_routes s0 ∨
     ∃ row, row ∈ d ∧ is_route_nh_rows_modified row = true ∧ row_key row = rkey r).

Lemma modified_nonempty row : is_route_nh_rows_modified row = true → (0 <? length (rr_nexthops row))%nat = true.
Proof. unfold is_route_nh_rows_modified. by destruct (rr_nexthops row). Qed.

Lemma modify_of_nexthops_spec name s0 d x rest :
  row_ok x → NoDup (row_key <$> d ++ x :: rest) →
  hoare (nexthops_handled name s0 d) (modify_route_of_nexthops x)
    (λ _, nexthops_handled name s0 (d ++ [x])).
Proof.
  intros Hx Hnd s (Hc & Hk & Hdone & Hold). unfold modify_route_of_nexthops.
  assert (∀ row, row ∈ d → row_key row ≠ row_key x) as Hne.
  { intros row Hrow E. rewrite fmap_app in Hnd. apply NoDup_app in Hnd as (_ & Hdis & _).
    destruct (Hdis (row_key row)); [by apply list_elem_of_fmap_2|]. rewrite E. csimpl. by left. }
  destruct (is_route_nh_rows_modified x) eqn:Em.
  2:{ rewrite andb_false_r. exists tt, s. split; [done|]. split_and!; [done|done| |].
      - intros row r [Hrow| ->%list_elem_of_singleton]%elem_of_app Hmod; [by apply Hdone|congruence].
      - intros r Hr. destruct (Hold r Hr) as [?|(row & ? & ?)]; [by left|right].
        exists row. split; [set_solver|done]. }
  rewrite modified_nonempty by done. simpl. unfold mbind, M_bind, gets.
  destruct (vrf_route_hash_lookup x s) as [r|] eqn:El.
  - apply route_lookup_Some in El as [Hr Ek]. pose proof Hc as (Hwf & Hkeys & Hn).
    pose proof Ek as [= Ef Ep].
    destruct (route_modify_spec r x s Hwf Hr Hx Ef Ep)
      as (r' & s' & nhs & E & Hwf' & Hev & Hrs & Hm & _).
    assert (all_routes s ≡ₚ r :: filter (λ y, r_id y ≠ r_id r) (all_routes s)) as Hsp
      by (by eapply route_ids_filter).
    assert ((rkey <$> all_routes s') ≡ₚ (rkey <$> all_routes s)) as Hk'.
    { rewrite Hrs. rewrite Hsp at 2. rewrite !fmap_cons. by rewrite (matches_key _ _ Hm), Ek. }
    exists tt, s'. split; [done|]. split_and!.
    + split_and!; [done|by rewrite Hk'|]. destruct Hev as [-> _]. done.
    + by rewrite Hk'.
    + intros row y Hrow Hmod Hy Eky. rewrite Hrs in Hy.
      apply elem_of_cons in Hy as [->|[Hy1 Hy2]%list_elem_of_filter].
      * rewrite (matches_key _ _ Hm) in Eky.
        apply elem_of_app in Hrow as [Hrow| ->%list_elem_of_singleton]; [|done].
        by destruct (Hne row Hrow).
      * apply elem_of_app in Hrow as [Hrow| ->%list_elem_of_singleton]; [by apply Hdone|].
        apply (other_route name s r y) in Hy1; try done. congruence.
    + intros y Hy. rewrite Hrs in Hy. apply elem_of_cons in Hy as [->|[_ Hy]%list_elem_of_filter].
      * right. exists x. rewrite (matches_key _ _ Hm). split_and!; [set_solver|done|done].
      * destruct (Hold y Hy) as [?|(row & ? & ?)]; [by left|right].
        exists row. split; [set_solver|done].
  - apply route_lookup_None in El. exists tt, s. split; [done|]. split_and!; [done|done| |].
    + intros row r [Hrow| ->%list_elem_of_singleton]%elem_of_app Hmod Hr Ek; [by apply Hdone|].
      destruct El. rewrite <-Ek. by apply list_elem_of_fmap_2.
    + intros r Hr. destruct (Hold r Hr) as [?|(row & ? & ?)]; [by left|right].
      exists row. split; [set_solver|done].
Qed.

(** A change of nexthop rows reaches the routes that list them.  When no
    two route rows have the same protocol and prefix,
    [vrf_reconfigure_nexthops] returns, keeps the cache well formed with the
    same routes, makes every cached route whose row has a modified nexthop
    mirror that row, and leaves every other route as it was. *)
Theorem vrf_reconfigure_nexthops_syncs db s :
  cache_ok (vrf_name s) s → nexthops_any_modified db = true → db_nexthops db ≠ [] →
  Forall row_ok (db_routes db) → NoDup (row_key <$> db_routes db) →
  ∃ s', vrf_reconfigure_nexthops db s = Ok (tt, s') ∧ cache_ok (vrf_name s) s' ∧
    (rkey <$> all_routes s') ≡ₚ (rkey <$> all_routes s) ∧
    (∀ row r, row ∈ db_routes db → is_route_nh_rows_modified row = true → r ∈ all_routes s' →
       rkey r = row_key row → route_matches row r) ∧
    (∀ r, r ∈ all_routes s' → r ∈ all_routes s ∨
       ∃ row, row ∈ db_routes db ∧ is_route_nh_rows_modified row = true ∧ row_key row = rkey r).
Proof.
  intros Hc Hmod Hne Hok Hnd. unfold vrf_reconfigure_nexthops.
  destruct (db_nexthops db) as [|n ns]; [done|]. rewrite Hmod. simpl mwhen.
  destruct (hoare_for (db_routes db) modify_route_of_nexthops (nexthops_handled (vrf_name s) s))
    with (s := s) as ([] & s' & E & Hs'); [|split_and!; try done; [set_solver|by left]|by exists s'].
  intros d x rest Hd. eapply modify_of_nexthops_spec; [|by rewrite Hd in Hnd].
  rewrite Forall_forall in Hok. apply Hok. rewrite Hd. set_solver.
Qed.
End Facts.

(** ** The keys of routes

    A string without a colon. *)
Fixpoint no_colon (s : string) : bool :=
  match s with
  | EmptyString => true
  | String c s' => negb (Ascii.eqb c ":"%char) && no_colon s'
  end.

Lemma app_colon_inj f1 p1 f2 p2 :
  no_colon f1 = true → no_colon f2 = true →
  (f1 +:+ ":" +:+ p1)%string = (f2 +:+ ":" +:+ p2)%string → f1 = f2 ∧ p1 = p2.
Proof.
  revert f2. induction f1 as [|c f1 IH]; intros [|c2 f2] H1 H2 E; simpl in *.
  - by injection E.
  - injection E as <- E. simpl in H2. done.
  - injection E as -> E. simpl in H1. done.
  - injection E as -> E. apply andb_true_iff in H1 as [_ H1], H2 as [_ H2].
    destruct (IH f2 H1 H2 E) as [-> ->]. done.
Qed.

Lemma route_hash_inj f1 p1 f2 p2 :
  no_colon f1 = true → no_colon f2 = true →
  (String.length f1 + String.length p1 ≤ 62)%nat →
  (String.length f2 + String.length p2 ≤ 62)%nat →
  vrf_route_hash f1 p1 = vrf_route_hash f2 p2 → f1 = f2 ∧ p1 = p2.
Proof.
  intros H1 H2 L1 L2. unfold vrf_route_hash, VRF_ROUTE_HASH_MAXSIZE.
  rewrite !substring_all by (rewrite !string_length_app; simpl; lia).
  by apply app_colon_inj.
Qed.

(** A protocol name without a colon and a prefix whose key fits in the array of
    [vrf_route_hash]. *)
Definition text_fits (from prefix : string) : Prop :=
  no_colon from = true ∧ (String.length from + String.length prefix ≤ 62)%nat.
Definition key_fits (row : ovsrec_route) : Prop := text_fits (rr_from row) (rr_prefix row).

Section Keys.
Context `{HL : OvsLib, HS : Schema, HP : L3Provider} (name : string) (rows : list ovsrec_route).

(** The rows [vrf_reconfigure_routes] collects. *)
Abbreviation chosen := (filter (λ row, vrf_is_route_row_selected row = true ∧ name = rr_vrf row) rows).

(** C38: a route is kept or removed by its own key.  The cache is compared with
    the database through keys cut to 63 characters.  If the keys of the selected
    rows of the VRF fit and are different, looking up the key of a protocol and
    prefix finds exactly the selected row of the VRF with that protocol and
    prefix, so the first loop of [vrf_reconfigure_routes] leaves a cached route
    alone if such a row exists and withdraws it otherwise. *)
Theorem stale_routes_go_by_key r s :
  Forall key_fits chosen → NoDup (row_key <$> chosen) → text_fits (r_from r) (r_prefix r) →
  (∀ from prefix row, text_fits from prefix →
     current_idl_routes name rows !! vrf_route_hash from prefix = Some row ↔
     row ∈ rows ∧ vrf_is_route_row_selected row = true ∧ rr_vrf row = name ∧
     rr_from row = from ∧ rr_prefix row = prefix) ∧
  delete_stale_route (current_idl_routes name rows) r s =
    if decide (rkey r ∈ row_key <$> chosen) then Ok (tt, s) else vrf_route_delete r s.
Proof.
  intros Hfit Hnd Hr. rewrite Forall_forall in Hfit.
  assert (∀ from prefix row, text_fits from prefix → row ∈ chosen →
    row_hash_str row = vrf_route_hash from prefix → rr_from row = from ∧ rr_prefix row = prefix) as Hinj.
  { intros from prefix row [? ?] Hrow E. destruct (Hfit row Hrow). by apply route_hash_inj in E. }
  split.
  - intros from prefix row Hf. split.
    + intros [Hrow E]%shash_collect_Some. pose proof Hrow as [[Hs Hv] Hin]%list_elem_of_filter.
      destruct (Hinj _ _ _ Hf Hrow E). by split_and!.
    + intros (Hin & Hs & Hv & <- & <-).
      assert (row ∈ chosen) as Hrow by (by apply list_elem_of_filter).
      assert (is_Some (current_idl_routes name rows !! row_hash_str row)) as [row' E]
        by (by apply shash_collect_is_Some, list_elem_of_fmap_2).
      unfold row_hash_str in E. rewrite E. f_equal.
      apply shash_collect_Some in E as [Hrow' E]. destruct (Hinj _ _ _ Hf Hrow' E) as [E1 E2].
      apply (NoDup_fmap_elem row_key chosen); try done. unfold row_key. by rewrite E1, E2.
  - unfold delete_stale_route. destruct (_ !! _) as [row|] eqn:E; case_decide as Hk; try done.
    + apply shash_collect_Some in E as [Hrow E]. destruct (Hinj _ _ _ Hr Hrow E) as [E1 E2].
      destruct Hk. apply list_elem_of_fmap. exists row. split; [|done]. unfold row_key, rkey. by rewrite E1, E2.
    + apply list_elem_of_fmap in Hk as (row & Ek & Hrow). injection Ek as E1 E2.
      unfold current_idl_routes in E. rewrite shash_collect_None in E. destruct (E row Hrow).
      unfold row_hash_str. by rewrite E1, E2.
Qed.
End Keys.
