(* ===== verification/VrfWitness.v ===== *)
(** * Concrete runs of the routing code

    The theorems of VrfFacts applied to a small network: VRF red with one
    neighbor, a BGP route over an address and a port. *)

From S2P Require Import Prelude OvsLib Vrf VrfFacts.
Local Open Scope Z_scope.

#[local] Existing Instance ref_lib.
#[local] Existing Instance ref_schema.
#[local] Existing Instance ref_l3.

Definition ex_ips : gset string := {[ "1.1.1.1"; "2.2.2.2" ]}.
Definition ex_ports : gset string := {[ "eth1" ]}.

Definition ex_nh1 : ovsrec_nexthop := NexthopRow 11 (Some "1.1.1.1") [] None false false.
Definition ex_nh2 : ovsrec_nexthop := NexthopRow 12 None [Some "eth1"] (Some true) false false.
Definition ex_nh3 : ovsrec_nexthop := NexthopRow 13 (Some "2.2.2.2") [] None true false.

Definition ex_row : ovsrec_route :=
  RouteRow 1 "bgp" "10.0.0.0/8" None "red" (Some true) [ex_nh1; ex_nh2] true true.
(** The same prefix in another VRF, over a nexthop that was just modified. *)
Definition ex_row_blue : ovsrec_route :=
  RouteRow 2 "bgp" "10.0.0.0/8" None "blue" (Some true) [ex_nh3] false false.

Definition ex_db (rows : list ovsrec_route) : idl_routes :=
  IdlRoutes rows true false true [ex_nh1; ex_nh2; ex_nh3] true
    (Some {[ "hash_srcip_enabled" := "false" ]}) true.

Definition ex_neighbor_row : ovsrec_neighbor :=
  NeighborRow 21 "1.1.1.1" (Some "00:00:00:00:00:01") (Some "eth1") None "red" false false.
Definition ex_neighbor : neighbor :=
  Neighbor "1.1.1.1" (Some "00:00:00:00:00:01") (Some ex_neighbor_row) false false (Some "eth1") 7.

Definition ex_start : st :=
  St "red" ["eth1"] [ex_neighbor] [] [] {[ 11 := ∅; 12 := ∅; 13 := ∅ ]} ecmp_default 100 [].

(** The route as it is cached, and a state that holds it. *)
Definition ex_cached1 : nexthop := Nexthop 101 (Some "1.1.1.1") None 100 11.
Definition ex_cached2 : nexthop := Nexthop 102 None (Some "eth1") 100 12.
Definition ex_route : route := Route 100 "10.0.0.0/8" "bgp" false [ex_cached2; ex_cached1] 1.
Definition ex_state : st :=
  St "red" ["eth1"] [ex_neighbor] [ex_route] [ex_cached1]
    {[ 11 := {[ "error" := "old" ]}; 12 := ∅; 13 := ∅ ]} ecmp_default 103 [].

(** The row after its address nexthop was replaced. *)
Definition ex_row' : ovsrec_route :=
  RouteRow 1 "bgp" "10.0.0.0/8" None "red" (Some true) [ex_nh2; ex_nh3] true false.

Lemma ex_apart : hashes_apart ex_ips ex_ports.
Proof.
  intros i p Hi Hp. unfold ex_ips, ex_ports in *.
  rewrite elem_of_union, !elem_of_singleton in Hi. rewrite elem_of_singleton in Hp.
  by destruct Hi as [-> | ->]; subst p.
Qed.

Lemma ex_row_ok : row_ok ex_ips ex_ports ex_row.
Proof.
  split_and!; [|by_compute|simpl; lia].
  simpl. apply Forall_cons. split; [|apply Forall_singleton];
    split_and!; try done;
    first [intros i [= <-]; by_compute | intros p _ [= <-]; by_compute].
Qed.

Lemma ex_start_wf : wf ex_ips ex_ports ex_start.
Proof. split; simpl; try constructor. Qed.

Lemma ex_row'_ok : row_ok ex_ips ex_ports ex_row'.
Proof.
  split_and!; [|by_compute|simpl; lia].
  simpl. apply Forall_cons. split; [|apply Forall_singleton];
    split_and!; try done;
    first [intros i [= <-]; by_compute | intros p _ [= <-]; by_compute].
Qed.

Lemma ex_route_ok : route_ok ex_ips ex_ports ex_route.
Proof.
  split_and!; [|by_compute|simpl; lia].
  simpl. apply Forall_cons. split; [|apply Forall_singleton]; unfold nh_ok, ex_ips, ex_ports;
    (split; [done|]); [right|left]; eexists; split_and!; try done; by_compute.
Qed.

Lemma ex_state_wf : wf ex_ips ex_ports ex_state.
Proof.
  split; simpl.
  - by_compute.
  - apply Forall_singleton. simpl. lia.
  - by_compute.
  - apply Forall_cons. split; [simpl; lia|]. apply Forall_singleton. simpl. lia.
  - by vm_compute.
  - apply Forall_singleton, ex_route_ok.
Qed.

Lemma ex_state_cache_ok : cache_ok ex_ips ex_ports "red" ex_state.
Proof. split_and!; [apply ex_state_wf|by_compute|done]. Qed.

(** The first reconfiguration, from an empty cache. *)
Lemma vrf_reconfigure_routes_converges_witness :
  ∃ s', vrf_reconfigure_routes (ex_db [ex_row; ex_row_blue]) ex_start = Ok (tt, s') ∧
    mirrored ex_ips ex_ports "red" [ex_row; ex_row_blue] s'.
Proof.
  apply (vrf_reconfigure_routes_converges ex_ips ex_ports ex_apart (ex_db [ex_row; ex_row_blue]) ex_start).
  - reflexivity.
  - split_and!; [apply ex_start_wf|constructor|done].
  - intros row Hrow. change (row ∈ [ex_row]) in Hrow. apply list_elem_of_singleton in Hrow as ->.
    apply ex_row_ok.
  - by_compute.
  - split.
    + intros row _ _. right; left. split; [done|]. simpl. apply not_elem_of_nil.
    + intros r row Hr. by apply elem_of_nil in Hr.
    + intros r Hr. by apply elem_of_nil in Hr.
    + intros r row Hr. by apply elem_of_nil in Hr.
Defined.

Lemma vrf_route_add_programs_witness :
  ∃ r s', vrf_route_add ex_row ex_start = Ok (tt, s') ∧ wf ex_ips ex_ports s' ∧
    all_routes s' ≡ₚ r :: all_routes ex_start ∧ route_matches ex_row r ∧
    log s' = log ex_start ++ match programmed_nexthops ex_start ex_row with
                             | [] => []
                             | nhs => [action_event ex_start OFPROTO_ROUTE_ADD r nhs]
                             end.
Proof.
  exact (vrf_route_add_programs ex_ips ex_ports ex_apart ex_row ex_start ex_start_wf ex_row_ok).
Defined.

Lemma vrf_route_delete_withdraws_witness :
  ∃ s', vrf_route_delete ex_route ex_state = Ok (tt, s') ∧ wf ex_ips ex_ports s' ∧
    all_routes ex_state ≡ₚ ex_route :: all_routes s' ∧
    log s' = [] ++ [action_event ex_state OFPROTO_ROUTE_DELETE ex_route
                      [port_slot "eth1"; ip_slot ex_state "1.1.1.1"]].
Proof.
  apply (vrf_route_delete_withdraws ex_ips ex_ports ex_route ex_state ex_state_wf).
  apply list_elem_of_here.
Defined.

Lemma vrf_route_modify_incremental_witness :
  ∃ r' s' nhs, vrf_route_modify ex_route ex_row' ex_state = Ok (tt, s') ∧ wf ex_ips ex_ports s' ∧
    all_routes s' ≡ₚ r' :: filter (λ x, r_id x ≠ r_id ex_route) (all_routes ex_state) ∧
    route_matches ex_row' r' ∧ r_id r' = r_id ex_route ∧
    nhs ≡ₚ added_slots ex_state (length (rr_nexthops ex_row')) (new_rows ex_route (selected_rows ex_row')) ∧
    (∃ s1, log s' = log ex_state ++ delete_events ex_state ex_route ex_row' ++
       event_unless_empty s1 OFPROTO_ROUTE_ADD ex_route nhs).
Proof.
  apply (vrf_route_modify_incremental ex_ips ex_ports ex_apart ex_route ex_row' ex_state ex_state_wf);
    [apply list_elem_of_here|apply ex_row'_ok|reflexivity|reflexivity].
Defined.

Lemma neighbor_change_updates_its_routes_witness :
  ∃ evs s', vrf_ofproto_update_route_with_neighbor ex_neighbor true ex_state = Ok (tt, s') ∧
    wf ex_ips ex_ports s' ∧ all_routes s' = all_routes ex_state ∧
    all_nexthops s' = all_nexthops ex_state ∧ log s' = log ex_state ++ evs ∧
    (request <$> evs) ≡ₚ (Some ∘ neighbor_request ex_neighbor true) <$>
      filter (uses_ip (n_ip_address ex_neighbor)) (all_routes ex_state).
Proof.
  exact (neighbor_change_updates_its_routes ex_ips ex_ports ex_apart ex_neighbor true ex_state ex_state_wf).
Defined.

(** The error left from an earlier attempt is cleared. *)
Lemma route_add_reports_errors_witness :
  ∃ s', vrf_ofproto_route_add [ip_slot ex_state "1.1.1.1"] ex_route ex_state = Ok (tt, s') ∧
    nh_status s' !! 11 = Some ∅ ∧
    (∀ u, u ∉ nh_idl_row_uuid <$> r_nexthops ex_route → nh_status s' !! u = nh_status ex_state !! u).
Proof.
  assert (reported ((route_action ex_state OFPROTO_ROUTE_ADD ex_route [ip_slot ex_state "1.1.1.1"]).2 0%nat)
            <$> nh_status ex_state !! nh_idl_row_uuid ex_cached1 = Some ∅) as E
    by (vm_compute; reflexivity).
  rewrite <-E.
  apply (route_add_reports_errors ex_ips ex_ports ex_apart ex_route [ip_slot ex_state "1.1.1.1"]
           ex_state 0%nat (ip_slot ex_state "1.1.1.1") ex_cached1).
  - apply ex_route_ok.
  - apply Forall_singleton. change ("1.1.1.1" ∈ ex_ips). by_compute.
  - by_compute.
  - by_compute.
  - reflexivity.
  - vm_compute. reflexivity.
Defined.

Lemma vrf_reconfigure_ecmp_syncs_witness :
  ∃ s', vrf_reconfigure_ecmp (ex_db [ex_row]) ex_start = Ok (tt, s') ∧
    (∀ h, ecmp_field h (ecmp_config s') = ecmp_wanted {[ "hash_srcip_enabled" := "false" ]} h) ∧
    log s' = log ex_start ++ (ecmp_event {[ "hash_srcip_enabled" := "false" ]} <$>
      filter (ecmp_differs {[ "hash_srcip_enabled" := "false" ]} (ecmp_config ex_start)) ecmp_settings) ∧
    all_routes s' = all_routes ex_start ∧ all_nexthops s' = all_nexthops ex_start.
Proof. apply (vrf_reconfigure_ecmp_syncs (ex_db [ex_row])); reflexivity. Defined.

(** The selected flag of a nexthop was modified: the row of the same VRF. *)
Definition ex_row_red : ovsrec_route :=
  RouteRow 1 "bgp" "10.0.0.0/8" None "red" (Some true) [ex_nh2; ex_nh3] false false.

Lemma ex_row_red_ok : row_ok ex_ips ex_ports ex_row_red.
Proof. exact ex_row'_ok. Qed.

Lemma vrf_reconfigure_nexthops_syncs_witness :
  ∃ s', vrf_reconfigure_nexthops (ex_db [ex_row_red]) ex_state = Ok (tt, s') ∧
    cache_ok ex_ips ex_ports "red" s' ∧
    (rkey <$> all_routes s') ≡ₚ (rkey <$> all_routes ex_state) ∧
    (∀ row r, row ∈ [ex_row_red] → is_route_nh_rows_modified row = true → r ∈ all_routes s' →
       rkey r = row_key row → route_matches row r) ∧
    (∀ r, r ∈ all_routes s' → r ∈ all_routes ex_state ∨
       ∃ row, row ∈ [ex_row_red] ∧ is_route_nh_rows_modified row = true ∧ row_key row = rkey r).
Proof.
  apply (vrf_reconfigure_nexthops_syncs ex_ips ex_ports ex_apart (ex_db [ex_row_red]) ex_state).
  - apply ex_state_cache_ok.
  - reflexivity.
  - discriminate.
  - apply Forall_singleton, ex_row_red_ok.
  - by_compute.
Defined.

Lemma stale_routes_go_by_key_witness :
  current_idl_routes "red" [ex_row; ex_row_blue] !! vrf_route_hash "bgp" "10.0.0.0/8" = Some ex_row ∧
  delete_stale_route (current_idl_routes "red" [ex_row; ex_row_blue]) ex_route ex_state =
    if decide (rkey ex_route ∈ row_key <$> [ex_row]) then Ok (tt, ex_state) else vrf_route_delete ex_route ex_state.
Proof.
  destruct (stale_routes_go_by_key "red" [ex_row; ex_row_blue] ex_route ex_state) as [H1 H2].
  - apply Forall_singleton. by_compute.
  - by_compute.
  - by_compute.
  - split; [|exact H2]. apply H1; [by_compute|]. split_and!; [set_solver|done..].
Defined.

(** With longer keys two routes can share the cut one: the second is never
    collected, so it is not added, and a cached one is not removed. *)
Example long_keys_collide :
  let from := "a-routing-protocol-whose-name-has-fifty-two-characters"%string in
  let row prefix := RouteRow 1 from prefix None "red" (Some true) [] false false in
  (String.length from + String.length "2001:db8::/32" = 67)%nat ∧
  size (current_idl_routes "red" [row "2001:db8::/32"; row "2001:db8::/48"]) = 1%nat.
Proof. vm_compute. split; reflexivity. Qed.

(** ** A nexthop change in one VRF rewrites a route of another

    [vrf_reconfigure_nexthops] looks the route rows of every VRF up in the cache
    of this one, without comparing the VRF. *)

(** With the same protocol and prefix in VRF red and in VRF blue, a
    modified nexthop of the blue row replaces the nexthops of the red route:
    the red cache mirrored the red row before and does not afterwards. *)
Theorem nexthop_change_leaks_between_vrfs :
  ∃ s', vrf_reconfigure_nexthops (ex_db [ex_row; ex_row_blue]) ex_state = Ok (tt, s') ∧
    route_matches ex_row ex_route ∧ all_routes ex_state = [ex_route] ∧
    (nh_key <$> (all_routes s' ≫= r_nexthops)) = ["2.2.2.2"].
Proof.
  eexists. split; [vm_compute; reflexivity|]. split_and!; [|reflexivity|vm_compute; reflexivity].
  split_and!; [reflexivity|reflexivity|]. vm_compute. apply Permutation_swap.
Qed.
