(* ===== verification/Neighbor.v ===== *)
(** * Neighbors of a VRF: the neighbor functions of bridge.c

    A VRF caches the rows of the Neighbor table that belong to it, programs a
    host entry for each one with a usable MAC address and port, and tells the
    routes through it when it becomes resolved or unresolved.  The state is
    that of Vrf.v; a neighbor is identified by its address, which is unique in
    the hash map (the assertion of [neighbor_create]). *)

From S2P Require Import Prelude OvsLib Vrf.
Local Open Scope Z_scope.

(** The Neighbor table with its table-level change flags. *)
Record idl_neighbors := IdlNeighbors {
  db_neighbors : list ovsrec_neighbor;
  neighbors_any_modified : bool;
  neighbors_any_deleted : bool;
  neighbors_any_inserted : bool;
}.

Section Neighbor.
Context `{HL : OvsLib, HS : Schema, HX : Posix, HP : L3Provider}.

Definition set_n_egress (e : Z) (n : neighbor) : neighbor :=
  Neighbor (n_ip_address n) (n_mac n) (n_cfg n) (n_is_ipv6_addr n) (n_hit_bit n) (n_port_name n) e.
Definition set_n_port (p : option string) (n : neighbor) : neighbor :=
  Neighbor (n_ip_address n) (n_mac n) (n_cfg n) (n_is_ipv6_addr n) (n_hit_bit n) p (n_l3_egress_id n).
Definition set_n_mac (m : option string) (n : neighbor) : neighbor :=
  Neighbor (n_ip_address n) m (n_cfg n) (n_is_ipv6_addr n) (n_hit_bit n) (n_port_name n) (n_l3_egress_id n).
Definition set_n_cfg (c : option ovsrec_neighbor) (n : neighbor) : neighbor :=
  Neighbor (n_ip_address n) (n_mac n) c (n_is_ipv6_addr n) (n_hit_bit n) (n_port_name n) (n_l3_egress_id n).
Definition set_n_hit (b : bool) (n : neighbor) : neighbor :=
  Neighbor (n_ip_address n) (n_mac n) (n_cfg n) (n_is_ipv6_addr n) b (n_port_name n) (n_l3_egress_id n).

(** A write through the pointer to a cached neighbor. *)
Definition put_neighbor (n : neighbor) : M st unit :=
  modify (λ s, set_neighbors
    ((λ x, if bool_decide (n_ip_address x = n_ip_address n) then n else x) <$> all_neighbors s) s).

Definition neighbor_hash_delete (n : neighbor) : M st unit :=
  modify (λ s, set_neighbors
    (filter (λ x, n_ip_address x ≠ n_ip_address n) (all_neighbors s)) s).

(** [port_lookup(vrf->up, name)]: a null name is dereferenced by the hash. *)
Definition vrf_port_lookup (name : option string) : M st (option string) :=
  name ← deref name;
  ports ← gets vrf_ports;
  mret (List.find (λ p, bool_decide (p = name)) ports).

(** The result is the return code and the neighbor with the egress id the
    provider stored. *)
Definition neighbor_set_l3_host_entry (n : neighbor) : M st (Z * neighbor) :=
  idl ← deref (n_cfg n);
  port ← vrf_port_lookup (n_port_name n);
  match port with
  | None => neighbor_hash_delete n ;; mret (1, n)
  | Some port =>
    l ← gets log;
    mac ← deref (ngr_mac idl);
    let '(rc, egress) := ofproto_add_l3_host_entry l port (n_is_ipv6_addr n) (ngr_ip_address idl) mac in
    emit (AddHost port (ngr_ip_address idl) mac (n_is_ipv6_addr n) rc egress) ;;
    let n := set_n_egress egress n in
    put_neighbor n ;;
    if rc =? 0 then mret (0, n)
    else neighbor_hash_delete n ;; mret (1, n)
  end.

Definition neighbor_delete_l3_host_entry (n : neighbor) : M st (Z * neighbor) :=
  port ← vrf_port_lookup (n_port_name n);
  match port with
  | None => mret (1, n)
  | Some port =>
    l ← gets log;
    let '(rc, egress) :=
      ofproto_delete_l3_host_entry l port (n_is_ipv6_addr n) (n_ip_address n) (n_l3_egress_id n) in
    emit (DeleteHost port (n_ip_address n) (n_is_ipv6_addr n) rc egress) ;;
    let n := set_n_egress egress n in
    put_neighbor n ;;
    mret (if rc =? 0 then 0 else 1, n)
  end.

(** [s && strlen(s)] *)
Definition nonempty (s : option string) : bool :=
  match s with Some s => negb (bool_decide (s = "")) | None => false end.

Definition neighbor_of_row (row : ovsrec_neighbor) : neighbor :=
  {| n_ip_address := ngr_ip_address row;
     n_mac := if nonempty (ngr_mac row) then ngr_mac row else None;
     n_cfg := Some row;
     n_is_ipv6_addr := match ngr_address_family row with
                       | None => inet_pton6 (ngr_ip_address row)
                       | Some af => bool_decide (af = OVSREC_NEIGHBOR_ADDRESS_FAMILY_IPV6)
                       end;
     n_hit_bit := false;
     n_port_name := if nonempty (ngr_port row) then ngr_port row else None;
     n_l3_egress_id := -1 |}.

(** The tail shared by creation and modification: program the host entry, and
    when that worked tell the routes. *)
Definition neighbor_program (n : neighbor) : M st unit :=
  match n_mac n, n_port_name n with
  | Some mac, Some _ =>
    mwhen (ether_aton mac)
      (res ← neighbor_set_l3_host_entry n;
       mwhen (res.1 =? 0) (vrf_ofproto_update_route_with_neighbor res.2 true))
  | _, _ => mret tt
  end.

Definition neighbor_create (row : ovsrec_neighbor) : M st unit :=
  known ← gets (neighbor_hash_lookup (ngr_ip_address row));
  ovs_assert (match known with None => true | Some _ => false end) ;;
  let n := neighbor_of_row row in
  modify (λ s, set_neighbors (hmap_insert (hash_string (n_ip_address n)) n (all_neighbors s)) s) ;;
  neighbor_program n.

Definition neighbor_delete (n : neighbor) : M st unit :=
  vrf_ofproto_update_route_with_neighbor n false ;;
  mwhen (negb (n_l3_egress_id n =? -1)) (neighbor_delete_l3_host_entry n ;; mret tt) ;;
  neighbor_hash_delete n.

(** The changes [neighbor_modify] detects, field by field: the structure with
    the new values that are stored at once, and the port names and flags. *)
Record changes := Changes {
  ch_neighbor : neighbor;
  ch_old_port : bool;                 (* old_port is set *)
  ch_new_port : option string;
  ch_add_new : bool;
  ch_delete_old : bool;
}.

Definition modify_port (n : neighbor) (row : ovsrec_neighbor) : changes :=
  match ngr_port row with
  | Some p =>
    match n_port_name n with
    | None => Changes (set_n_port (Some p) n) false None true false
    | Some q =>
      if bool_decide (q = p) then Changes n false None false false
      else Changes n true (Some p) true true
    end
  | None =>
    match n_port_name n with
    | Some _ => Changes n true None false true
    | None => Changes n false None false false
    end
  end.

Definition modify_mac (c : changes) (row : ovsrec_neighbor) : changes :=
  let n := ch_neighbor c in
  if nonempty (ngr_mac row) then
    match n_mac n with
    | None => Changes (set_n_mac (ngr_mac row) n) (ch_old_port c) (ch_new_port c) true (ch_delete_old c)
    | Some m =>
      if bool_decide (Some m = ngr_mac row) then c
      else Changes (set_n_mac (ngr_mac row) n) (ch_old_port c) (ch_new_port c) true true
    end
  else
    match n_mac n with
    | Some _ => Changes (set_n_mac None n) (ch_old_port c) (ch_new_port c) (ch_add_new c) true
    | None => c
    end.

Definition neighbor_modify (n : neighbor) (row : ovsrec_neighbor) : M st unit :=
  let c := modify_mac (modify_port (set_n_cfg (Some row) n) row) row in
  let n := ch_neighbor c in
  put_neighbor n ;;
  n ← (if ch_delete_old c && negb (n_l3_egress_id n =? -1) then
         vrf_ofproto_update_route_with_neighbor n false ;;
         res ← neighbor_delete_l3_host_entry n;
         mret res.2
       else mret n);
  let n := if ch_old_port c then set_n_port None n else n in
  let n := match ch_new_port c with Some p => set_n_port (Some p) n | None => n end in
  put_neighbor n ;;
  mwhen (ch_add_new c) (neighbor_program n).

Definition vrf_delete_all_neighbors : M st unit :=
  ns ← gets all_neighbors; mfor ns neighbor_delete.

Definition vrf_delete_port_neighbors (port_name : string) : M st unit :=
  ns ← gets all_neighbors;
  mfor ns (λ n, if bool_decide (n_port_name n = Some port_name) then neighbor_delete n else mret tt).

Definition create_if_unknown (row : ovsrec_neighbor) : M st unit :=
  known ← gets (neighbor_hash_lookup (ngr_ip_address row));
  match known with
  | None => neighbor_create row
  | Some _ => mret tt
  end.

Definition vrf_add_neighbors (db : idl_neighbors) : M st unit :=
  mfor (db_neighbors db) (λ row,
    name ← gets vrf_name;
    if bool_decide (name = ngr_vrf row) then create_if_unknown row else mret tt).

(** [current_idl_neigbors] *)
Definition current_idl_neighbors (name : string) (rows : list ovsrec_neighbor)
  : gmap string ovsrec_neighbor :=
  shash_collect ngr_ip_address (filter (λ row, name = ngr_vrf row) rows).

Definition delete_stale_neighbor (idl : gmap string ovsrec_neighbor) (n : neighbor) : M st unit :=
  let n := set_n_cfg (idl !! n_ip_address n) n in
  put_neighbor n ;;
  match n_cfg n with
  | None => neighbor_delete n
  | Some _ => mret tt
  end.

Definition modify_changed_neighbor (row : ovsrec_neighbor) : M st unit :=
  mwhen (ngr_modified row && negb (ngr_inserted row))
    (known ← gets (neighbor_hash_lookup (ngr_ip_address row));
     match known with
     | Some n => neighbor_modify n row
     | None => mret tt
     end).

Definition vrf_reconfigure_neighbors (db : idl_neighbors) : M st unit :=
  match db_neighbors db with
  | [] => vrf_delete_all_neighbors
  | _ =>
    if negb (neighbors_any_modified db) && negb (neighbors_any_deleted db)
       && negb (neighbors_any_inserted db)
    then mret tt else
    name ← gets vrf_name;
    let idl := current_idl_neighbors name (db_neighbors db) in
    ns ← gets all_neighbors;
    mfor ns (delete_stale_neighbor idl) ;;
    mfor (db_neighbors db) create_if_unknown ;;
    mwhen (neighbors_any_modified db) (mfor (db_neighbors db) modify_changed_neighbor)
  end.

(** ** Polling of the data-path hit bits

    [run_neighbor_update] works on all VRFs; each one has its own ofproto, so
    its log is part of its state.  [nb_status] is the status column of the rows
    of the Neighbor table. *)

Record nb_st := NbSt {
  nb_vrfs : list st;
  neighbor_timer_interval : Z;
  neighbor_timer : Z;
  nb_status : gmap Z smap;
}.

Definition NEIGHBOR_HIT_BIT_UPDATE_INTERVAL : Z := 10000.

Definition vrf_lookup (name : string) (s : nb_st) : option st :=
  List.find (λ v, bool_decide (vrf_name v = name)) (nb_vrfs s).

Definition store_vrf (v w : st) : st := if bool_decide (vrf_name w = vrf_name v) then v else w.
Definition set_vrf (v : st) (s : nb_st) : nb_st :=
  NbSt (store_vrf v <$> nb_vrfs s)
    (neighbor_timer_interval s) (neighbor_timer s) (nb_status s).
Definition set_timer (interval timer : Z) (s : nb_st) : nb_st :=
  NbSt (nb_vrfs s) interval timer (nb_status s).
Definition set_nb_status (m : gmap Z smap) (s : nb_st) : nb_st :=
  NbSt (nb_vrfs s) (neighbor_timer_interval s) (neighbor_timer s) m.

(** The provider call for a cached neighbor of [v]; the hit bit is written
    through the pointer. *)
Definition get_host_hit (v : st) (n : neighbor) (port : string) (row : ovsrec_neighbor)
  : Z * bool * st :=
  let '(rc, hit) := ofproto_get_l3_host_hit (log v) port (n_is_ipv6_addr n) (ngr_ip_address row) in
  let v := set_log (log v ++ [GetHostHit port (ngr_ip_address row) (n_is_ipv6_addr n) rc hit]) v in
  let v := set_neighbors ((λ x, if bool_decide (n_ip_address x = n_ip_address n)
                                then set_n_hit hit x else x) <$> all_neighbors v) v in
  (rc, hit, v).

Definition hit_string (hit : bool) : string := if hit then "true" else "false".

Definition update_hit_bit (row : ovsrec_neighbor) : M nb_st unit :=
  v ← gets (vrf_lookup (ngr_vrf row));
  v ← deref v;
  match neighbor_hash_lookup (ngr_ip_address row) v with
  | None => mret tt
  | Some n =>
    if n_l3_egress_id n =? -1 then mret tt else
    name ← deref (n_port_name n);
    match List.find (λ p, bool_decide (p = name)) (vrf_ports v) with
    | None => mret tt
    | Some port =>
      let '(rc, hit, v) := get_host_hit v n port row in
      modify (set_vrf v) ;;
      mwhen (rc =? 0)
        (modify (λ s, set_nb_status
           (alter (<[OVSDB_NEIGHBOR_STATUS_DP_HIT := hit_string hit]>) (ngr_uuid row) (nb_status s)) s))
    end
  end.

(** [now] and [now'] are the two readings of [time_msec]. *)
Definition run_neighbor_update (rows : list ovsrec_neighbor) (now now' : Z) : M nb_st unit :=
  match rows with
  | [] => mret tt
  | _ =>
    interval ← gets neighbor_timer_interval;
    mwhen (negb (interval =? NEIGHBOR_HIT_BIT_UPDATE_INTERVAL))
      (modify (set_timer NEIGHBOR_HIT_BIT_UPDATE_INTERVAL LLONG_MIN)) ;;
    timer ← gets neighbor_timer;
    mwhen (timer <=? now)
      (mfor rows update_hit_bit ;;
       modify (λ s, set_timer (neighbor_timer_interval s) (now' + neighbor_timer_interval s) s))
  end.
End Neighbor.
