(* ===== verification/NeighborFacts.v ===== *)
(** * Neighbors of a VRF: proofs

    Programming, modification and deletion of neighbors, and what a
    reconfiguration of the neighbor cache achieves. *)

From S2P Require Import Prelude OvsLib Vrf VrfFacts Neighbor.
Local Open Scope Z_scope.

Section Facts.
Context `{HL : OvsLib, HS : Schema, HX : Posix, HP : L3Provider} (ips ports : gset string).
Context (Hsep : hashes_apart ips ports).
Local Abbreviation wf := (wf ips ports).

#[local] Arguments vrf_port_lookup : simpl never.
#[local] Arguments put_neighbor : simpl never.
#[local] Arguments neighbor_hash_delete : simpl never.
#[local] Arguments vrf_ofproto_update_route_with_neighbor : simpl never.
#[local] Arguments neighbor_delete_l3_host_entry : simpl never.
#[local] Arguments neighbor_program : simpl never.

(** ** The cache of neighbors *)

Definition nkeys (s : st) : list string := n_ip_address <$> all_neighbors s.

(** The routes are not touched by the neighbor code. *)
Definition same_routes (s s' : st) : Prop :=
  all_routes s' = all_routes s ∧ all_nexthops s' = all_nexthops s ∧ next_id s' = next_id s ∧
  vrf_name s' = vrf_name s ∧ vrf_ports s' = vrf_ports s.

#[export] Instance same_routes_preorder : PreOrder same_routes.
Proof. split; [done|]. unfold same_routes. intros ???. naive_solver congruence. Qed.

Lemma same_routes_wf s s' : same_routes s s' → wf s → wf s'.
Proof. intros (R & N & I & _). unfold Vrf.wf. by rewrite R, N, I. Qed.

Lemma only_log_same_routes evs s s' : only_log evs s s' → same_routes s s'.
Proof. intros ((? & ? & ? & ?) & ? & ? & ? & ?). by split_and!. Qed.

Lemma neighbor_lookup_Some ip s n :
  neighbor_hash_lookup ip s = Some n → n ∈ all_neighbors s ∧ n_ip_address n = ip.
Proof.
  intros [Hin Hp]%List.find_some. apply list_elem_of_In in Hin. split; [done|].
  rewrite andb_true_iff, bool_decide_eq_true in Hp. by destruct Hp.
Qed.

Lemma neighbor_lookup_None ip s : neighbor_hash_lookup ip s = None ↔ ip ∉ nkeys s.
Proof.
  unfold neighbor_hash_lookup, hmap_first_with_hash, nkeys. rewrite find_None_iff. split.
  - intros Hn (n & -> & Hin)%list_elem_of_fmap. apply Hn in Hin.
    by rewrite Z.eqb_refl, bool_decide_true in Hin.
  - intros Hn n Hin. rewrite (bool_decide_false (n_ip_address n = ip)); [apply andb_false_r|].
    intros <-. by apply Hn, list_elem_of_fmap_2.
Qed.

(** Replacing the entry of a neighbor. *)
Lemma put_perm n s (o : list neighbor) :
  n_ip_address n ∉ n_ip_address <$> o →
  (∃ x, n_ip_address x = n_ip_address n ∧ all_neighbors s ≡ₚ x :: o) →
  ∃ s', put_neighbor n s = Ok (tt, s') ∧ all_neighbors s' ≡ₚ n :: o ∧ same_routes s s' ∧
    log s' = log s ∧ nh_status s' = nh_status s.
Proof.
  intros Hn (x & Ex & Hp). eexists. split; [reflexivity|]. simpl. split_and!; [|done..].
  rewrite Hp, fmap_cons, bool_decide_true by done. constructor.
  rewrite <-(list_fmap_id o) at 2. apply reflexive_eq, list_fmap_ext.
  intros i y Hy%list_elem_of_lookup_2. rewrite bool_decide_false; [done|].
  intros E. apply Hn. rewrite <-E. by apply list_elem_of_fmap_2.
Qed.

Lemma hash_delete_perm n s (o : list neighbor) :
  n_ip_address n ∉ n_ip_address <$> o →
  (∃ x, n_ip_address x = n_ip_address n ∧ all_neighbors s ≡ₚ x :: o) →
  ∃ s', neighbor_hash_delete n s = Ok (tt, s') ∧ all_neighbors s' ≡ₚ o ∧ same_routes s s' ∧
    log s' = log s ∧ nh_status s' = nh_status s.
Proof.
  intros Hn (x & Ex & Hp). eexists. split; [reflexivity|]. simpl. split_and!; [|done..].
  rewrite Hp, filter_cons_False by (intros Hne; by apply Hne). rewrite filter_all; [done|].
  intros y Hy E. apply Hn. rewrite <-E. by apply list_elem_of_fmap_2.
Qed.

(** ** Programming a host entry *)

(** What [neighbor_program] finds out about a neighbor. *)
Inductive attempt :=
| NotTried                            (* no MAC, no port, or no usable MAC *)
| NoPort                              (* the port is not in the VRF *)
| Refused (e : l3_event)              (* the provider failed *)
| Accepted (egress : Z) (e : l3_event).

Definition attempt_of (s : st) (n : neighbor) : attempt :=
  match n_mac n, n_port_name n with
  | Some mac, Some port =>
    if ether_aton mac then
      if decide (port ∈ vrf_ports s) then
        let '(rc, egress) := ofproto_add_l3_host_entry (log s) port (n_is_ipv6_addr n) (n_ip_address n) mac in
        let e := AddHost port (n_ip_address n) mac (n_is_ipv6_addr n) rc egress in
        if rc =? 0 then Accepted egress e else Refused e
      else NoPort
    else NotTried
  | _, _ => NotTried
  end.

(** The neighbor, and the events, an attempt leaves behind. *)
Definition attempt_keeps (n : neighbor) (a : attempt) : list neighbor :=
  match a with
  | NotTried => [n]
  | NoPort | Refused _ => []
  | Accepted egress _ => [set_n_egress egress n]
  end.

Definition attempt_log (s : st) (n : neighbor) (a : attempt) (evs : list l3_event) : Prop :=
  match a with
  | NotTried | NoPort => evs = []
  | Refused e => evs = [e]
  | Accepted egress e =>
    ∃ updates, evs = e :: updates ∧
      (request <$> updates) ≡ₚ
        (Some ∘ neighbor_request (set_n_egress egress n) true) <$>
          filter (uses_ip (n_ip_address n)) (all_routes s)
  end.

(** The row behind a neighbor carries its address and MAC. *)
Definition cfg_ok (n : neighbor) : Prop :=
  ∃ row, n_cfg n = Some row ∧ ngr_ip_address row = n_ip_address n ∧
    (is_Some (n_mac n) → n_mac n = ngr_mac row).

Lemma find_port p (l : list string) :
  List.find (λ q, bool_decide (q = p)) l = if decide (p ∈ l) then Some p else None.
Proof.
  case_decide as Hp.
  - apply find_Some_iff_unique; [|by rewrite bool_decide_true].
    by intros x y _ _ ->%bool_decide_eq_true ->%bool_decide_eq_true.
  - apply find_None_iff. intros q Hq. apply bool_decide_eq_false. by intros ->.
Qed.

Lemma vrf_port_lookup_spec p s :
  vrf_port_lookup (Some p) s = Ok (if decide (p ∈ vrf_ports s) then Some p else None, s).
Proof. unfold vrf_port_lookup, mbind, M_bind. simpl. by rewrite find_port. Qed.

Section Set_host.
Context (n : neighbor) (s : st) (o : list neighbor) (mac port : string).
Context (Hcfg : cfg_ok n) (Hp : all_neighbors s ≡ₚ n :: o) (Hn : n_ip_address n ∉ n_ip_address <$> o).
Context (Em : n_mac n = Some mac) (Ep : n_port_name n = Some port).

Lemma set_host_no_port :
  port ∉ vrf_ports s →
  ∃ s', neighbor_set_l3_host_entry n s = Ok ((1, n), s') ∧ same_routes s s' ∧
    all_neighbors s' ≡ₚ o ∧ log s' = log s.
Proof.
  intros Hin. destruct Hcfg as (row & Ecfg & _).
  destruct (hash_delete_perm n s o Hn) as (s1 & E1 & P1 & R1 & L1 & _); [by exists n|].
  exists s1. split_and!; try done. unfold neighbor_set_l3_host_entry. rewrite Ecfg, Ep.
  step. step (vrf_port_lookup_spec port s). rewrite decide_False by done. by step E1.
Qed.

Lemma set_host_called rc egress :
  port ∈ vrf_ports s →
  ofproto_add_l3_host_entry (log s) port (n_is_ipv6_addr n) (n_ip_address n) mac = (rc, egress) →
  ∃ s', neighbor_set_l3_host_entry n s = Ok ((if rc =? 0 then 0 else 1, set_n_egress egress n), s') ∧
    same_routes s s' ∧
    all_neighbors s' ≡ₚ (if rc =? 0 then [set_n_egress egress n] else []) ++ o ∧
    log s' = log s ++ [AddHost port (n_ip_address n) mac (n_is_ipv6_addr n) rc egress].
Proof.
  intros Hin Eadd. destruct Hcfg as (row & Ecfg & Eip & Emac).
  set (s0 := set_log (log s ++ [AddHost port (n_ip_address n) mac (n_is_ipv6_addr n) rc egress]) s).
  destruct (put_perm (set_n_egress egress n) s0 o Hn) as (s1 & E1 & P1 & R1 & L1 & _); [by exists n|].
  destruct (hash_delete_perm (set_n_egress egress n) s1 o Hn) as (s2 & E2 & P2 & R2 & L2 & _);
    [by exists (set_n_egress egress n)|].
  assert (same_routes s s1) as R01 by (etrans; [|exact R1]; done).
  exists (if rc =? 0 then s1 else s2). split_and!.
  - unfold neighbor_set_l3_host_entry. rewrite Ecfg, Ep. step. step (vrf_port_lookup_spec port s).
    rewrite decide_True by done. step. rewrite <-Emac, Em, Eip by (rewrite Em; eauto). step.
    rewrite Eadd. erewrite bind_run by reflexivity. fold s0. cbv zeta. step E1.
    destruct (rc =? 0); [done|]. by step E2.
  - destruct (rc =? 0); [done|by etrans].
  - destruct (rc =? 0); done.
  - destruct (rc =? 0); [by rewrite L1|by rewrite L2, L1].
Qed.
End Set_host.

Lemma neighbor_program_spec n s o :
  wf s → cfg_ok n → all_neighbors s ≡ₚ n :: o → n_ip_address n ∉ n_ip_address <$> o →
  ∃ s' evs, neighbor_program n s = Ok (tt, s') ∧ same_routes s s' ∧
    all_neighbors s' ≡ₚ attempt_keeps n (attempt_of s n) ++ o ∧
    log s' = log s ++ evs ∧ attempt_log s n (attempt_of s n) evs.
Proof.
  intros Hwf Hcfg Hp Hn. unfold neighbor_program, attempt_of.
  destruct (n_mac n) as [mac|] eqn:Em; [|exists s, []; by rewrite app_nil_r].
  destruct (n_port_name n) as [port|] eqn:Ep; [|exists s, []; by rewrite app_nil_r].
  destruct (ether_aton mac); cbn [mwhen]; [|exists s, []; by rewrite app_nil_r].
  case_decide as Hin.
  2:{ destruct (set_host_no_port n s o port Hcfg Hp Hn Ep Hin) as (s1 & E1 & R1 & P1 & L1).
      exists s1, []. rewrite app_nil_r. step E1. by split_and!. }
  destruct (ofproto_add_l3_host_entry _ _ _ _ _) as [rc egress] eqn:Eadd.
  destruct (set_host_called n s o mac port Hcfg Hp Hn Em Ep rc egress Hin Eadd)
    as (s1 & E1 & R1 & P1 & L1).
  set (ev := AddHost _ _ _ _ _ _) in *. destruct (rc =? 0).
  - destruct (update_with_neighbor_spec ips ports Hsep (set_n_egress egress n) true s1)
      as (evs & s2 & E2 & Ho & Hreq); [by eapply same_routes_wf|].
    exists s2, (ev :: evs). step E1.
    pose proof (only_log_same_routes _ _ _ Ho) as R2. destruct Ho as ((_ & _ & En & _) & _ & _ & _ & El).
    split_and!; [done|by etrans|by rewrite En|by rewrite El, L1, <-app_assoc|].
    exists evs. split; [done|]. by destruct R1 as (<- & _).
  - exists s1, [ev]. step E1. by split_and!.
Qed.

(** ** Creation *)

Lemma neighbor_of_row_cfg row : cfg_ok (neighbor_of_row row).
Proof.
  exists row. split_and!; [done|done|]. simpl. destruct (nonempty (ngr_mac row)); [done|]. by intros [? ?].
Qed.

Lemma neighbor_create_run row s :
  wf s → NoDup (nkeys s) → ngr_ip_address row ∉ nkeys s →
  let n := neighbor_of_row row in
  ∃ s' evs, neighbor_create row s = Ok (tt, s') ∧ same_routes s s' ∧
    all_neighbors s' ≡ₚ attempt_keeps n (attempt_of s n) ++ all_neighbors s ∧
    log s' = log s ++ evs ∧ attempt_log s n (attempt_of s n) evs.
Proof.
  intros Hwf Hnd Hnew n. unfold neighbor_create. apply neighbor_lookup_None in Hnew as El.
  set (s0 := set_neighbors (hmap_insert (hash_string (n_ip_address n)) n (all_neighbors s)) s).
  destruct (neighbor_program_spec n s0 (all_neighbors s)) as (s' & evs & E & R & P & L & A).
  { done. } { apply neighbor_of_row_cfg. } { apply hmap_insert_perm. } { done. }
  exists s', evs. split_and!; try done.
  step. rewrite El. step. cbv zeta. fold n. by step.
Qed.

(** ** Deletion *)

Lemma delete_host_called n s o port rc egress :
  all_neighbors s ≡ₚ n :: o → n_ip_address n ∉ n_ip_address <$> o →
  n_port_name n = Some port → port ∈ vrf_ports s →
  ofproto_delete_l3_host_entry (log s) port (n_is_ipv6_addr n) (n_ip_address n) (n_l3_egress_id n)
    = (rc, egress) →
  ∃ s', neighbor_delete_l3_host_entry n s = Ok ((if rc =? 0 then 0 else 1, set_n_egress egress n), s') ∧
    same_routes s s' ∧ all_neighbors s' ≡ₚ set_n_egress egress n :: o ∧
    log s' = log s ++ [DeleteHost port (n_ip_address n) (n_is_ipv6_addr n) rc egress].
Proof.
  intros Hp Hn Ep Hin Edel. unfold neighbor_delete_l3_host_entry. rewrite Ep.
  set (s0 := set_log (log s ++ [DeleteHost port (n_ip_address n) (n_is_ipv6_addr n) rc egress]) s).
  destruct (put_perm (set_n_egress egress n) s0 o Hn) as (s1 & E1 & P1 & R1 & L1 & _); [by exists n|].
  exists s1. split_and!; [|by etrans; [|exact R1]|done|by rewrite L1].
  step (vrf_port_lookup_spec port s). rewrite decide_True by done. step. rewrite Edel.
  erewrite bind_run by reflexivity. fold s0. cbv zeta. by step E1.
Qed.

(** A neighbor with an egress id has a port of the VRF. *)
Definition neighbor_ok (s : st) (n : neighbor) : Prop :=
  n_l3_egress_id n ≠ -1 → ∃ p, n_port_name n = Some p ∧ p ∈ vrf_ports s.

(** What withdrawing a neighbor sends: the routes through it first, then the
    host entry. *)
Definition withdraw_log (s : st) (n : neighbor) (evs : list l3_event) (tail : list l3_event) : Prop :=
  ∃ updates, evs = updates ++ tail ∧
    (request <$> updates) ≡ₚ
      (Some ∘ neighbor_request n false) <$> filter (uses_ip (n_ip_address n)) (all_routes s).

Definition is_delete_host (n : neighbor) (tail : list l3_event) : Prop :=
  ∃ port rc egress, n_port_name n = Some port ∧
    tail = [DeleteHost port (n_ip_address n) (n_is_ipv6_addr n) rc egress].

Lemma neighbor_delete_run n s o :
  wf s → neighbor_ok s n → all_neighbors s ≡ₚ n :: o → n_ip_address n ∉ n_ip_address <$> o →
  ∃ s' evs tail, neighbor_delete n s = Ok (tt, s') ∧ same_routes s s' ∧ all_neighbors s' ≡ₚ o ∧
    log s' = log s ++ evs ∧ withdraw_log s n evs tail ∧
    (if decide (n_l3_egress_id n = -1) then tail = [] else is_delete_host n tail).
Proof.
  intros Hwf Hok Hp Hn. unfold neighbor_delete.
  destruct (update_with_neighbor_spec ips ports Hsep n false s Hwf) as (upd & s1 & E1 & Ho & Hreq).
  pose proof (only_log_same_routes _ _ _ Ho) as R1. destruct Ho as ((_ & Ev & En & _) & _ & _ & _ & L1).
  step E1. destruct (Z.eqb_spec (n_l3_egress_id n) (-1)) as [E|E]; cbn [negb mwhen].
  - destruct (hash_delete_perm n s1 o Hn) as (s2 & E2 & P2 & R2 & L2 & _); [by exists n; rewrite En|].
    exists s2, upd, []. step. split_and!; [done|by etrans|done|by rewrite L2| |by rewrite decide_True].
    exists upd. by rewrite app_nil_r.
  - destruct (Hok E) as (port & Ep & Hport).
    destruct (ofproto_delete_l3_host_entry (log s1) port (n_is_ipv6_addr n) (n_ip_address n)
                (n_l3_egress_id n)) as [rc egress] eqn:Edel.
    destruct (delete_host_called n s1 o port rc egress) as (s2 & E2 & R2 & P2 & L2);
      [by rewrite En|done|done|by rewrite Ev|done|].
    destruct (hash_delete_perm n s2 o Hn) as (s3 & E3 & P3 & R3 & L3 & _);
      [by exists (set_n_egress egress n)|].
    exists s3, (upd ++ [DeleteHost port (n_ip_address n) (n_is_ipv6_addr n) rc egress]),
      [DeleteHost port (n_ip_address n) (n_is_ipv6_addr n) rc egress].
    erewrite bind_run; [|by step E2]. split_and!; [done|by do 2 (etrans; [eassumption|])|done| | |].
    + by rewrite L3, L2, L1, app_assoc.
    + by exists upd.
    + rewrite decide_False by done. by exists port, rc, egress.
Qed.

(** ** Modification *)

Definition mac_of (row : ovsrec_neighbor) : option string :=
  if nonempty (ngr_mac row) then ngr_mac row else None.

(** A port or MAC that was in use is changed or removed. *)
Definition withdraws (n : neighbor) (row : ovsrec_neighbor) : bool :=
  bool_decide (is_Some (n_port_name n) ∧ n_port_name n ≠ ngr_port row) ||
  bool_decide (is_Some (n_mac n) ∧ n_mac n ≠ mac_of row).

(** The row has a port or a MAC that is new to the neighbor. *)
Definition reprograms (n : neighbor) (row : ovsrec_neighbor) : bool :=
  bool_decide (is_Some (ngr_port row) ∧ n_port_name n ≠ ngr_port row) ||
  bool_decide (is_Some (mac_of row) ∧ n_mac n ≠ mac_of row).

(** The neighbor the row asks for. *)
Definition target (n : neighbor) (row : ovsrec_neighbor) (egress : Z) : neighbor :=
  Neighbor (n_ip_address n) (mac_of row) (Some row) (n_is_ipv6_addr n) (n_hit_bit n) (ngr_port row) egress.

(** The neighbor while the old entry is withdrawn: still on its old port. *)
Definition between (n : neighbor) (row : ovsrec_neighbor) (egress : Z) : neighbor :=
  Neighbor (n_ip_address n) (mac_of row) (Some row) (n_is_ipv6_addr n) (n_hit_bit n)
    (match n_port_name n with Some p => Some p | None => ngr_port row end) egress.

Definition changes_of (n : neighbor) (row : ovsrec_neighbor) : changes :=
  modify_mac (modify_port (set_n_cfg (Some row) n) row) row.

(** The port assignment at the end of the detection. *)
Definition assign_port (c : changes) (n : neighbor) : neighbor :=
  let n := if ch_old_port c then set_n_port None n else n in
  match ch_new_port c with Some p => set_n_port (Some p) n | None => n end.

Lemma nonempty_is_Some m : nonempty m = true → is_Some m.
Proof. destruct m; [eauto|done]. Qed.

Lemma modify_port_spec n row :
  let c := modify_port n row in
  ch_neighbor c = set_n_port (match n_port_name n with Some p => Some p | None => ngr_port row end) n ∧
  ch_delete_old c = bool_decide (is_Some (n_port_name n) ∧ n_port_name n ≠ ngr_port row) ∧
  ch_add_new c = bool_decide (is_Some (ngr_port row) ∧ n_port_name n ≠ ngr_port row) ∧
  (∀ x, n_port_name x = (match n_port_name n with Some p => Some p | None => ngr_port row end) →
     assign_port c x = set_n_port (ngr_port row) x).
Proof.
  unfold modify_port. destruct n as [ip mac cfg v6 hit port e]; simpl.
  destruct (ngr_port row) as [p|], port as [q|]; simpl.
  1: destruct (decide (q = p)) as [->|Hne]; [rewrite bool_decide_true by done|rewrite bool_decide_false by done].
  all: simpl; split_and!; try done.
  all: try (symmetry; first [apply bool_decide_eq_true|apply bool_decide_eq_false]; naive_solver).
  all: intros [] Hx; simpl in Hx; by subst.
Qed.

Lemma modify_mac_spec c row :
  let c' := modify_mac c row in let m := n_mac (ch_neighbor c) in
  ch_neighbor c' = set_n_mac (mac_of row) (ch_neighbor c) ∧
  ch_delete_old c' = ch_delete_old c || bool_decide (is_Some m ∧ m ≠ mac_of row) ∧
  ch_add_new c' = ch_add_new c || bool_decide (is_Some (mac_of row) ∧ m ≠ mac_of row) ∧
  ch_old_port c' = ch_old_port c ∧ ch_new_port c' = ch_new_port c.
Proof.
  unfold modify_mac, mac_of. destruct c as [[ip mac cfg v6 hit port e] op np a d].
  cbn [ch_neighbor ch_delete_old ch_add_new ch_old_port ch_new_port n_mac].
  destruct (nonempty (ngr_mac row)) eqn:En.
  - apply nonempty_is_Some in En as [m' Em]. rewrite Em. destruct mac as [m|].
    + destruct (decide (m = m')) as [->|Hne].
      * rewrite (bool_decide_true (Some m' = Some m')) by done.
        rewrite !bool_decide_false by naive_solver. by rewrite !orb_false_r.
      * rewrite (bool_decide_false (Some m = Some m')) by congruence.
        rewrite !bool_decide_true by naive_solver. by rewrite !orb_true_r.
    + rewrite (bool_decide_false (is_Some None ∧ _)) by (intros [[? ?] _]; done).
      rewrite bool_decide_true by naive_solver. by rewrite orb_false_r, orb_true_r.
  - rewrite (bool_decide_false (is_Some None ∧ _)) by (intros [[? ?] _]; done).
    rewrite orb_false_r. destruct mac as [m|].
    + rewrite bool_decide_true by naive_solver. by rewrite orb_true_r.
    + rewrite bool_decide_false by (intros [[? ?] _]; done). by rewrite orb_false_r.
Qed.

Lemma changes_of_spec n row :
  let c := changes_of n row in
  ch_neighbor c = between n row (n_l3_egress_id n) ∧
  ch_delete_old c = withdraws n row ∧ ch_add_new c = reprograms n row ∧
  (∀ e, assign_port c (between n row e) = target n row e).
Proof.
  unfold changes_of. set (n0 := set_n_cfg (Some row) n). set (c0 := modify_port n0 row).
  destruct (modify_port_spec n0 row) as (En & Ed & Ea & Ep). fold c0 in En, Ed, Ea, Ep.
  destruct (modify_mac_spec c0 row) as (En' & Ed' & Ea' & Eo' & Ew').
  assert (n_mac (ch_neighbor c0) = n_mac n) as Em by (by rewrite En).
  split_and!.
  - by rewrite En', En.
  - rewrite Ed', Ed, Em. done.
  - rewrite Ea', Ea, Em. done.
  - intros e. unfold assign_port. rewrite Eo', Ew'. fold (assign_port c0 (between n row e)).
    by rewrite Ep.
Qed.

(** The provider forgets the egress id of a deleted host entry. *)
Definition delete_resets_egress : Prop :=
  ∀ l port v6 ip egress, (ofproto_delete_l3_host_entry l port v6 ip egress).2 = -1.

Section Modify.
Context (Hreset : delete_resets_egress).

(** The withdrawal in the middle of [neighbor_modify]. *)
Definition withdraw_if (b : bool) (n : neighbor) : M st neighbor :=
  if b && negb (n_l3_egress_id n =? -1) then
    vrf_ofproto_update_route_with_neighbor n false ;;
    res ← neighbor_delete_l3_host_entry n;
    mret res.2
  else mret n.

Lemma withdraw_if_spec b n s o :
  wf s → neighbor_ok s n → all_neighbors s ≡ₚ n :: o → n_ip_address n ∉ n_ip_address <$> o →
  let gone := b && negb (n_l3_egress_id n =? -1) in
  ∃ s' evs, withdraw_if b n s = Ok (if gone then set_n_egress (-1) n else n, s') ∧ same_routes s s' ∧
    all_neighbors s' ≡ₚ (if gone then set_n_egress (-1) n else n) :: o ∧ log s' = log s ++ evs ∧
    (if gone then ∃ tail, withdraw_log s n evs tail ∧ is_delete_host n tail else evs = []).
Proof.
  intros Hwf Hok Hp Hn gone. unfold withdraw_if. fold gone. destruct gone eqn:Eg; subst gone.
  2:{ exists s, []. rewrite app_nil_r. by split_and!. }
  apply andb_true_iff in Eg as [_ E%negb_true_iff%Z.eqb_neq].
  destruct (update_with_neighbor_spec ips ports Hsep n false s Hwf) as (upd & s1 & E1 & Ho & Hreq).
  pose proof (only_log_same_routes _ _ _ Ho) as R1. destruct Ho as ((_ & Ev & En & _) & _ & _ & _ & L1).
  destruct (Hok E) as (port & Ep & Hport).
  destruct (ofproto_delete_l3_host_entry (log s1) port (n_is_ipv6_addr n) (n_ip_address n)
              (n_l3_egress_id n)) as [rc egress] eqn:Edel.
  assert (egress = -1) as -> by (by rewrite <-(Hreset (log s1) port (n_is_ipv6_addr n) (n_ip_address n)
    (n_l3_egress_id n)), Edel).
  destruct (delete_host_called n s1 o port rc (-1)) as (s2 & E2 & R2 & P2 & L2);
    [by rewrite En|done|done|by rewrite Ev|done|].
  exists s2, (upd ++ [DeleteHost port (n_ip_address n) (n_is_ipv6_addr n) rc (-1)]).
  split_and!; [step E1; by step E2|by etrans|done|by rewrite L2, L1, app_assoc|].
  exists [DeleteHost port (n_ip_address n) (n_is_ipv6_addr n) rc (-1)].
  split; [by exists upd|by exists port, rc, (-1)].
Qed.

(** [neighbor_modify] in terms of the changes. *)
Lemma neighbor_modify_eq n row s :
  neighbor_modify n row s =
  (put_neighbor (ch_neighbor (changes_of n row)) ;;
   x ← withdraw_if (ch_delete_old (changes_of n row)) (ch_neighbor (changes_of n row));
   put_neighbor (assign_port (changes_of n row) x) ;;
   mwhen (ch_add_new (changes_of n row)) (neighbor_program (assign_port (changes_of n row) x))) s.
Proof. done. Qed.

Lemma neighbor_modify_run n row s o :
  wf s → neighbor_ok s n → all_neighbors s ≡ₚ n :: o → n_ip_address n ∉ n_ip_address <$> o →
  ngr_ip_address row = n_ip_address n →
  let gone := withdraws n row && negb (n_l3_egress_id n =? -1) in
  let t := target n row (if gone then -1 else n_l3_egress_id n) in
  ∃ s' s1 evs evs', neighbor_modify n row s = Ok (tt, s') ∧ same_routes s s' ∧ same_routes s s1 ∧
    log s1 = log s ++ evs ∧ log s' = log s ++ evs ++ evs' ∧
    (if gone then ∃ tail, withdraw_log s n evs tail ∧ is_delete_host n tail else evs = []) ∧
    (if reprograms n row
     then all_neighbors s' ≡ₚ attempt_keeps t (attempt_of s1 t) ++ o ∧
          attempt_log s1 t (attempt_of s1 t) evs'
     else all_neighbors s' ≡ₚ t :: o ∧ evs' = []).
Proof.
  intros Hwf Hok Hp Hn Eip gone t. rewrite neighbor_modify_eq.
  destruct (changes_of_spec n row) as (-> & -> & -> & Ht).
  set (b := between n row (n_l3_egress_id n)).
  destruct (put_perm b s o Hn) as (s1 & E1 & P1 & R1 & L1 & _); [by exists n|].
  assert (neighbor_ok s1 b) as Hokb.
  { intros He. destruct (Hok He) as (p & Epn & Hin). exists p. destruct R1 as (_ & _ & _ & _ & ->).
    simpl. by rewrite Epn. }
  destruct (withdraw_if_spec (withdraws n row) b s1 o) as (s2 & evs & E2 & R2 & P2 & L2 & W2); try done.
  { by eapply same_routes_wf. }
  change (withdraws n row && negb (n_l3_egress_id b =? -1)) with gone in E2, P2, W2.
  assert (assign_port (changes_of n row) (if gone then set_n_egress (-1) b else b) = t) as Et.
  { unfold t. rewrite <-Ht. by destruct gone. }
  destruct (put_perm t s2 o Hn) as (s3 & E3 & P3 & R3 & L3 & _).
  { exists (if gone then set_n_egress (-1) b else b). split; [by destruct gone|done]. }
  assert (same_routes s s3) as R by (by do 2 (etrans; [eassumption|])).
  assert (if gone then ∃ tail, withdraw_log s n evs tail ∧ is_delete_host n tail else evs = []) as W.
  { destruct gone eqn:Eg; [|done]. destruct W2 as (tail & (upd & -> & Hreq) & (p & rc & e & Epb & ->)).
    destruct R1 as (Er & _). rewrite Er in Hreq. exists [DeleteHost p (n_ip_address b) (n_is_ipv6_addr b) rc e].
    split; [by exists upd|]. exists p, rc, e. split; [|done].
    unfold gone in Eg. apply andb_true_iff in Eg as [_ He%negb_true_iff%Z.eqb_neq].
    destruct (Hok He) as (q & Eq & _). simpl in Epb. rewrite Eq in *. congruence. }
  assert (cfg_ok t) as Hcfg.
  { exists row. split_and!; [done|done|]. unfold t, target, mac_of. simpl.
    destruct (nonempty (ngr_mac row)); [done|]. by intros [? ?]. }
  step E1. step E2. rewrite Et. step E3.
  destruct (reprograms n row); cbn [mwhen].
  - destruct (neighbor_program_spec t s3 o) as (s4 & evs' & E4 & R4 & P4 & L4 & A4); try done.
    { by eapply same_routes_wf. }
    exists s4, s3, evs, evs'. split_and!; try done; [by etrans|by rewrite L3, L2, L1|].
    by rewrite L4, L3, L2, L1, <-app_assoc.
  - exists s3, s3, evs, []. rewrite app_nil_r. split_and!; try done; by rewrite L3, L2, L1.
Qed.

(** ** Reconfiguration, when the provider accepts the host entries *)

Definition add_accepts : Prop :=
  ∀ l port v6 ip mac, (ofproto_add_l3_host_entry l port v6 ip mac).1 = 0.

Context (Hacc : add_accepts).
Context (name : string) (vports : list string).

Definition nok (s : st) : Prop :=
  wf s ∧ NoDup (nkeys s) ∧ (∀ n, n ∈ all_neighbors s → neighbor_ok s n) ∧
  vrf_name s = name ∧ vrf_ports s = vports.

Definition nrow_ok (row : ovsrec_neighbor) : Prop :=
  ngr_vrf row = name ∧ ∀ p, ngr_port row = Some p → p ∈ vports.

(** The row has what a host entry needs: a port and a MAC address that parses. *)
Definition row_complete (row : ovsrec_neighbor) : bool :=
  bool_decide (is_Some (ngr_port row)) &&
  match mac_of row with Some mac => ether_aton mac | None => false end.

(** A port is in one VRF only: the rows of this VRF are on its ports, those of
    others are not. *)
Definition nrow_sound (row : ovsrec_neighbor) : Prop :=
  if decide (ngr_vrf row = name) then (∀ p, ngr_port row = Some p → p ∈ vports)
  else ∀ p, ngr_port row = Some p → p ∉ vports ∧ p ≠ "".

(** The rows that stay in the cache: those of the VRF, and of the others those
    for which no host entry is tried. *)
Definition resident (row : ovsrec_neighbor) : Prop := ngr_vrf row = name ∨ row_complete row = false.
#[global] Instance resident_dec row : Decision (resident row).
Proof. unfold resident. apply _. Defined.

(** A host entry for the row is accepted or not tried. *)
Definition keepable (row : ovsrec_neighbor) : Prop :=
  (∀ p, ngr_port row = Some p → p ∈ vports) ∨ row_complete row = false.

Lemma sound_keepable row : nrow_sound row → resident row → keepable row.
Proof. unfold nrow_sound, keepable. intros Hs [E|?]; [left|by right]. by rewrite decide_True in Hs. Qed.

Lemma nrow_ok_sound row : nrow_ok row → nrow_sound row ∧ resident row.
Proof. intros [E Hp]. split; [|by left]. unfold nrow_sound. by rewrite decide_True. Qed.

Lemma nok_routes s s' :
  nok s → same_routes s s' → NoDup (nkeys s') →
  (∀ n, n ∈ all_neighbors s' → neighbor_ok s' n) → nok s'.
Proof.
  intros (Hwf & _ & _ & En & Ep) R Hnd Hok. split_and!; [by eapply same_routes_wf|done|done| |];
    destruct R as (_ & _ & _ & R1 & R2); congruence.
Qed.

Lemma neighbor_ok_routes s s' n : same_routes s s' → neighbor_ok s n → neighbor_ok s' n.
Proof. intros (_ & _ & _ & _ & E) Hok He. rewrite E. by apply Hok. Qed.

(** A cached neighbor and the others. *)
Lemma split_neighbor s n :
  nok s → n ∈ all_neighbors s →
  ∃ o, all_neighbors s ≡ₚ n :: o ∧ (n_ip_address n ∉ n_ip_address <$> o) ∧
    (∀ x, x ∈ all_neighbors s ↔ (x = n) ∨ (x ∈ o ∧ x ≠ n)).
Proof.
  intros (_ & Hnd & _) Hn. apply elem_of_Permutation in Hn as [o Hp].
  assert (n_ip_address n ∉ n_ip_address <$> o) as Hno.
  { unfold nkeys in Hnd. rewrite Hp, fmap_cons in Hnd. by apply NoDup_cons in Hnd as [? _]. }
  exists o. split_and!; [done|done|]. intros x. rewrite Hp, elem_of_cons. split; [|tauto].
  intros [->|Hx]; [by left|right]. split; [done|]. intros ->. by apply Hno, list_elem_of_fmap_2.
Qed.

Lemma attempt_accepted s n :
  (∀ p, n_port_name n = Some p → p ∈ vrf_ports s) ∨ attempt_of s n = NotTried → neighbor_ok s n →
  ∃ n', attempt_keeps n (attempt_of s n) = [n'] ∧ n_ip_address n' = n_ip_address n ∧ neighbor_ok s n'.
Proof.
  intros [Hport|E] Hok; [|by exists n; rewrite E]. unfold attempt_of.
  destruct (n_mac n) as [mac|]; [|by exists n]. destruct (n_port_name n) as [port|] eqn:Ep; [|by exists n].
  destruct (ether_aton mac); [|by exists n]. rewrite decide_True by (by apply Hport).
  pose proof (Hacc (log s) port (n_is_ipv6_addr n) (n_ip_address n) mac) as Hrc.
  destruct (ofproto_add_l3_host_entry _ _ _ _ _) as [rc egress]. simpl in Hrc. subst rc.
  exists (set_n_egress egress n). split_and!; [done|done|]. intros _. exists port. split; [done|by apply Hport].
Qed.

Lemma incomplete_not_tried s n row :
  row_complete row = false → n_mac n = mac_of row → (is_Some (n_port_name n) → is_Some (ngr_port row)) →
  attempt_of s n = NotTried.
Proof.
  unfold row_complete, attempt_of. intros Hc -> Hp. destruct (mac_of row) as [mac|]; [|done].
  destruct (n_port_name n) as [port|]; [|done]. rewrite bool_decide_true in Hc by eauto. simpl in Hc. by rewrite Hc.
Qed.

Lemma row_attempt s row :
  vrf_ports s = vports → keepable row →
  (∀ p, n_port_name (neighbor_of_row row) = Some p → p ∈ vrf_ports s) ∨ attempt_of s (neighbor_of_row row) = NotTried.
Proof.
  intros -> [Hport|Hc]; [left|right].
  - simpl. intros p. destruct (nonempty (ngr_port row)); [apply Hport|done].
  - apply (incomplete_not_tried s _ row); [done|done|]. simpl. destruct (nonempty (ngr_port row)); [done|by intros [? ?]].
Qed.

Lemma create_nok row s :
  nok s → keepable row → ngr_ip_address row ∉ nkeys s →
  ∃ s', neighbor_create row s = Ok (tt, s') ∧ nok s' ∧ nkeys s' ≡ₚ ngr_ip_address row :: nkeys s.
Proof.
  intros Hs Hport Hnew. pose proof Hs as (Hwf & Hnd & Hok & _ & Evp).
  destruct (neighbor_create_run row s Hwf Hnd Hnew) as (s' & evs & E & R & P & _).
  destruct (attempt_accepted s (neighbor_of_row row)) as (n' & Ek & Eip & Hn'); [by apply row_attempt|by intros He|].
  rewrite Ek in P. exists s'. split; [done|].
  assert (nkeys s' ≡ₚ ngr_ip_address row :: nkeys s) as Hk by (unfold nkeys; rewrite P; csimpl; by rewrite Eip).
  split; [|done]. apply (nok_routes s); [done|done|rewrite Hk; by apply NoDup_cons|].
  intros n Hn. rewrite P in Hn. apply (neighbor_ok_routes s); [done|].
  apply elem_of_cons in Hn as [->|Hn]; [done|by apply Hok].
Qed.

(** A neighbor of another VRF with everything that a host entry needs is created
    and dropped at once, since its port is not found. *)
Lemma create_dropped row s :
  nok s → nrow_sound row → (¬ resident row) → ngr_ip_address row ∉ nkeys s →
  ∃ s', neighbor_create row s = Ok (tt, s') ∧ nok s' ∧ nkeys s' ≡ₚ nkeys s.
Proof.
  intros Hs Hsound Hres Hnew. pose proof Hs as (Hwf & Hnd & Hok & _ & Evp).
  destruct (neighbor_create_run row s Hwf Hnd Hnew) as (s' & evs & E & R & P & _).
  assert (attempt_of s (neighbor_of_row row) = NoPort) as Ea.
  { unfold resident in Hres. unfold nrow_sound in Hsound. rewrite decide_False in Hsound by tauto.
    assert (row_complete row = true) as Hc by (destruct (row_complete row); tauto).
    unfold row_complete in Hc. apply andb_true_iff in Hc as [[p Ep]%bool_decide_eq_true Hm].
    destruct (Hsound p Ep) as [Hp Hne]. unfold attempt_of. simpl. fold (mac_of row).
    rewrite Ep. destruct (mac_of row) as [mac|]; [|done]. simpl. rewrite bool_decide_false by done. simpl.
    rewrite Hm. by rewrite decide_False by (by rewrite Evp). }
  rewrite Ea in P. simpl in P. exists s'. split; [done|].
  assert (nkeys s' ≡ₚ nkeys s) as Hk by (unfold nkeys; by rewrite P).
  split; [|done]. apply (nok_routes s); [done|done|by rewrite Hk|].
  intros n Hn. rewrite P in Hn. apply (neighbor_ok_routes s); [done|]. by apply Hok.
Qed.

Lemma delete_nok n s :
  nok s → n ∈ all_neighbors s →
  ∃ s', neighbor_delete n s = Ok (tt, s') ∧ nok s' ∧
    ∀ x, x ∈ all_neighbors s' ↔ x ∈ all_neighbors s ∧ x ≠ n.
Proof.
  intros Hs Hn. pose proof Hs as (Hwf & Hnd & Hok & _).
  destruct (split_neighbor s n Hs Hn) as (o & Hp & Hno & Hx).
  destruct (neighbor_delete_run n s o) as (s' & evs & tail & E & R & P & _); [done|by apply Hok|done|done|].
  exists s'. split; [done|]. split.
  - apply (nok_routes s); [done|done| |].
    + unfold nkeys in *. rewrite Hp, fmap_cons in Hnd. apply NoDup_cons in Hnd as [_ Hnd]. by rewrite P.
    + intros x Hxs. rewrite P in Hxs. apply (neighbor_ok_routes s); [done|]. apply Hok.
      rewrite Hp. by right.
  - intros x. rewrite P, Hx. split; [|tauto]. intros Hxo. assert (x ≠ n); [|tauto].
    intros ->. by apply Hno, list_elem_of_fmap_2.
Qed.

Lemma modify_nok n row s :
  nok s → n ∈ all_neighbors s → keepable row → ngr_ip_address row = n_ip_address n →
  ∃ s', neighbor_modify n row s = Ok (tt, s') ∧ nok s' ∧ nkeys s' ≡ₚ nkeys s.
Proof.
  intros Hs Hn Hport Eip. pose proof Hs as (Hwf & Hnd & Hok & _ & Evp).
  destruct (split_neighbor s n Hs Hn) as (o & Hp & Hno & Hx).
  destruct (neighbor_modify_run n row s o) as (s' & s1 & evs & evs' & E & R & R1 & _ & _ & _ & P);
    [done|by apply Hok|done|done|done|].
  set (gone := withdraws n row && negb (n_l3_egress_id n =? -1)) in P.
  set (t := target n row (if gone then -1 else n_l3_egress_id n)) in P.
  assert (neighbor_ok s t) as Ht.
  { intros He. destruct gone eqn:Eg; [done|]. simpl in He. destruct (Hok n Hn He) as (p & Epn & Hin).
    unfold gone in Eg. apply Z.eqb_neq in He. rewrite He in Eg. simpl in Eg. rewrite andb_true_r in Eg.
    unfold withdraws in Eg. apply orb_false_iff in Eg as [Eg%bool_decide_eq_false _].
    exists p. split; [|done]. simpl. destruct (decide (n_port_name n = ngr_port row)) as [<-|Hne]; [done|].
    destruct Eg. split; [rewrite Epn; eauto|done]. }
  assert (∃ n', all_neighbors s' ≡ₚ n' :: o ∧ n_ip_address n' = n_ip_address n ∧ neighbor_ok s n')
    as (n' & P' & Eip' & Hn').
  { destruct (reprograms n row).
    - destruct P as [P _]. destruct (attempt_accepted s1 t) as (n' & Ek & ? & ?).
      { destruct R1 as (_ & _ & _ & _ & ->). rewrite Evp. destruct Hport as [?|Hc]; [by left|right].
        by apply (incomplete_not_tried s1 _ row). }
      { by apply (neighbor_ok_routes s). }
      rewrite Ek in P. exists n'. split_and!; [done|done|].
      unfold neighbor_ok in *. destruct R1 as (_ & _ & _ & _ & <-). done.
    - destruct P as [P _]. by exists t. }
  assert (nkeys s' ≡ₚ nkeys s) as Hk by (unfold nkeys; rewrite P', Hp; csimpl; by rewrite Eip').
  exists s'. split_and!; [done| |done]. apply (nok_routes s); [done|done|by rewrite Hk|].
  intros x Hxs. rewrite P' in Hxs. apply (neighbor_ok_routes s); [done|].
  apply elem_of_cons in Hxs as [->|Hxs]; [done|]. apply Hok. rewrite Hp. by right.
Qed.

Lemma put_cfg_nok n c s :
  nok s → n ∈ all_neighbors s →
  ∃ s', put_neighbor (set_n_cfg c n) s = Ok (tt, s') ∧ nok s' ∧ set_n_cfg c n ∈ all_neighbors s' ∧
    nkeys s' ≡ₚ nkeys s ∧ ∀ x, x ∈ all_neighbors s → n_ip_address x ≠ n_ip_address n → x ∈ all_neighbors s'.
Proof.
  intros Hs Hn. pose proof Hs as (Hwf & Hnd & Hok & _).
  destruct (split_neighbor s n Hs Hn) as (o & Hp & Hno & Hx).
  destruct (put_perm (set_n_cfg c n) s o Hno) as (s' & E & P & R & _); [by exists n|].
  assert (nkeys s' ≡ₚ nkeys s) as Hk by (unfold nkeys; by rewrite P, Hp).
  exists s'. split_and!; [done| |rewrite P; by left|done|].
  - apply (nok_routes s); [done|done|by rewrite Hk|]. intros x Hxs. rewrite P in Hxs.
    apply (neighbor_ok_routes s); [done|]. apply elem_of_cons in Hxs as [->|Hxs]; [by apply (Hok n)|].
    apply Hok. rewrite Hp. by right.
  - intros x Hxs Hne. rewrite P. rewrite Hp in Hxs. apply elem_of_cons in Hxs as [->|Hxs]; [done|by right].
Qed.

(** "Deleting which are no more in idl". *)
Definition stale_handled (idl : gmap string ovsrec_neighbor) (s0 : st) (d : list neighbor) (s : st) : Prop :=
  nok s ∧ (∀ n, n ∈ all_neighbors s0 → n ∉ d → n ∈ all_neighbors s) ∧
  (∀ ip, ip ∈ nkeys s ↔ ip ∈ nkeys s0 ∧ (ip ∈ (n_ip_address <$> d) → is_Some (idl !! ip))).

Lemma delete_stale_spec idl s0 d n rest :
  NoDup (nkeys s0) → all_neighbors s0 = d ++ n :: rest →
  hoare (stale_handled idl s0 d) (delete_stale_neighbor idl n)
    (λ _, stale_handled idl s0 (d ++ [n])).
Proof.
  intros Hnd Hd s (Hs & Hin & Hk). unfold delete_stale_neighbor.
  assert (NoDup (n_ip_address <$> d ++ n :: rest)) as Hnd' by (by rewrite <-Hd).
  rewrite fmap_app, fmap_cons in Hnd'. apply NoDup_app in Hnd' as (_ & Hdis & _).
  assert (n_ip_address n ∉ n_ip_address <$> d) as Hipd by (intros Hc; apply (Hdis _ Hc); by left).
  assert (n ∈ all_neighbors s) as Hns.
  { apply Hin; [rewrite Hd; set_solver|]. intros Hc. by apply Hipd, list_elem_of_fmap_2. }
  destruct (put_cfg_nok n (idl !! n_ip_address n) s Hs Hns) as (s1 & E1 & Hs1 & Hn1 & Hk1 & Hother).
  assert (∀ x, x ∈ all_neighbors s0 → x ∉ d ++ [n] → x ∈ all_neighbors s1) as Hin1.
  { intros x Hx Hxd. apply Hother; [apply Hin; set_solver|]. intros E. apply Hxd, elem_of_app. right.
    apply list_elem_of_singleton. apply (NoDup_fmap_elem n_ip_address (all_neighbors s0)); try done.
    rewrite Hd. set_solver. }
  step E1. cbn [n_cfg set_n_cfg]. destruct (idl !! n_ip_address n) as [row|] eqn:El.
  - exists tt, s1. split; [done|]. split_and!; [done|done|]. intros ip.
    rewrite Hk1, Hk, fmap_app, elem_of_app. simpl. rewrite list_elem_of_singleton.
    split; intros [H1 H2]; (split; [done|]); [|tauto]. intros [?| ->]; [by apply H2|eauto].
  - destruct (delete_nok _ _ Hs1 Hn1) as (s2 & E2 & Hs2 & Hx2). exists tt, s2. split; [done|].
    split_and!; [done| |].
    + intros x Hx Hxd. apply Hx2. split; [by apply Hin1|]. intros ->. apply Hxd, elem_of_app. right.
      apply list_elem_of_singleton. apply (NoDup_fmap_elem n_ip_address (all_neighbors s0)); try done.
      rewrite Hd. set_solver.
    + intros ip. assert (ip ∈ nkeys s2 ↔ ip ∈ nkeys s1 ∧ ip ≠ n_ip_address n) as ->.
      { unfold nkeys. rewrite !list_elem_of_fmap. split.
        - intros (x & -> & [Hx Hne]%Hx2). split; [eauto|]. intros Ex. apply Hne.
          apply (NoDup_fmap_elem n_ip_address (all_neighbors s1)); try done. apply Hs1.
        - intros [(x & -> & Hx) Hne]. exists x. split; [done|]. apply Hx2. split; [done|]. by intros ->. }
      rewrite Hk1, Hk, fmap_app, elem_of_app. simpl. rewrite list_elem_of_singleton. split.
      * intros [[H1 H2] Hne]. split; [done|]. intros [?| ->]; [by apply H2|done].
      * intros [H1 H2]. split_and!; [done|tauto|]. intros ->. rewrite El in H2.
        destruct H2 as [? ?]; [by right|done].
Qed.

Lemma create_if_unknown_nok row s :
  nok s → nrow_sound row →
  ∃ s', create_if_unknown row s = Ok (tt, s') ∧ nok s' ∧
    ∀ ip, ip ∈ nkeys s' ↔ (resident row ∧ ip = ngr_ip_address row) ∨ ip ∈ nkeys s.
Proof.
  intros Hs Hrow. unfold create_if_unknown.
  destruct (neighbor_hash_lookup (ngr_ip_address row) s) as [n|] eqn:El.
  - exists s. erewrite bind_run by reflexivity. rewrite El. split_and!; [done|done|]. intros ip.
    split; [by right|]. intros [[_ ->]|?]; [|done]. apply neighbor_lookup_Some in El as [Hn <-].
    by apply list_elem_of_fmap_2.
  - pose proof El as Hnew%neighbor_lookup_None.
    assert (∃ s', neighbor_create row s = Ok (tt, s') ∧ nok s' ∧
      nkeys s' ≡ₚ (if decide (resident row) then [ngr_ip_address row] else []) ++ nkeys s) as (s' & E & Hs' & Hk).
    { case_decide as Hr; [apply create_nok|apply create_dropped]; try done. by apply sound_keepable. }
    exists s'. erewrite bind_run by reflexivity. rewrite El. split_and!; [done|done|].
    intros ip. rewrite Hk, elem_of_app. case_decide; rewrite ?list_elem_of_singleton, ?elem_of_nil; tauto.
Qed.

Lemma modify_changed_nok row s :
  nok s → keepable row ∨ ngr_ip_address row ∉ nkeys s →
  ∃ s', modify_changed_neighbor row s = Ok (tt, s') ∧ nok s' ∧ nkeys s' ≡ₚ nkeys s.
Proof.
  intros Hs Hrow. unfold modify_changed_neighbor. destruct (_ && _); cbn [mwhen]; [|by exists s].
  destruct (neighbor_hash_lookup (ngr_ip_address row) s) as [n|] eqn:El.
  - pose proof El as [Hn Eip]%neighbor_lookup_Some. destruct Hrow as [Hrow|Hno].
    + destruct (modify_nok n row s Hs Hn Hrow) as (s' & E & ? & ?); [done|].
      exists s'. erewrite bind_run by reflexivity. rewrite El. by split_and!.
    + destruct Hno. rewrite <-Eip. by apply list_elem_of_fmap_2.
  - exists s. erewrite bind_run by reflexivity. rewrite El. by split_and!.
Qed.

Lemma delete_all_nok s :
  nok s → ∃ s', vrf_delete_all_neighbors s = Ok (tt, s') ∧ nok s' ∧ nkeys s' = [].
Proof.
  intros Hs. unfold vrf_delete_all_neighbors. step.
  assert (∀ l s, nok s → NoDup (n_ip_address <$> l) → (∀ x, x ∈ all_neighbors s ↔ x ∈ l) →
    ∃ s', mfor l neighbor_delete s = Ok (tt, s') ∧ nok s' ∧ nkeys s' = []) as Hl.
  2:{ apply Hl; [done|apply Hs|done]. }
  clear s Hs. induction l as [|n l IH]; intros s Hs Hnd Hx.
  - exists s. split_and!; [done|done|]. unfold nkeys. destruct (all_neighbors s) as [|x ns]; [done|].
    destruct (proj1 (elem_of_nil x)). apply Hx. by left.
  - rewrite fmap_cons in Hnd. apply NoDup_cons in Hnd as [Hn Hnd].
    destruct (delete_nok n s Hs) as (s1 & E1 & Hs1 & Hx1); [apply Hx; by left|].
    cbn [mfor]. step E1. apply IH; [done|done|]. intros x. rewrite Hx1, Hx, elem_of_cons.
    split; [tauto|]. intros Hxl. split; [by right|]. intros ->. by apply Hn, list_elem_of_fmap_2.
Qed.

(** The addresses that a run leaves in the cache. *)
Definition resident_addresses (rows : list ovsrec_neighbor) : list string := ngr_ip_address <$> filter resident rows.

Lemma elem_of_resident_addresses rows row :
  NoDup (ngr_ip_address <$> rows) → row ∈ rows → ngr_ip_address row ∈ resident_addresses rows → resident row.
Proof.
  intros Hnd Hrow (row' & E & [Hr Hrow']%list_elem_of_filter)%list_elem_of_fmap.
  by rewrite (NoDup_fmap_elem ngr_ip_address rows row row').
Qed.

Lemma reconfigure_neighbors_loops rows s0 (b : bool) :
  nok s0 → Forall nrow_sound rows → NoDup (ngr_ip_address <$> rows) →
  ∃ s', (ns ← gets all_neighbors;
         mfor ns (delete_stale_neighbor (current_idl_neighbors name rows)) ;;
         mfor rows create_if_unknown ;;
         mwhen b (mfor rows modify_changed_neighbor)) s0 = Ok (tt, s') ∧
    nok s' ∧ nkeys s' ≡ₚ resident_addresses rows.
Proof.
  intros Hs0 Hrows Hnd. set (idl := current_idl_neighbors name rows).
  assert (∀ ip, is_Some (idl !! ip) → ip ∈ resident_addresses rows) as Hidl.
  { intros ip. unfold idl, current_idl_neighbors. rewrite shash_collect_is_Some.
    intros (row & -> & [Hv Hrow]%list_elem_of_filter)%list_elem_of_fmap. apply list_elem_of_fmap_2, list_elem_of_filter.
    split; [by left|done]. }
  rewrite Forall_forall in Hrows.
  destruct (hoare_for (all_neighbors s0) (delete_stale_neighbor idl) (stale_handled idl s0))
    with (s := s0) as ([] & s1 & E1 & (Hs1 & _ & Hk1)).
  { intros d n rest Hd. apply (delete_stale_spec idl s0 d n rest); [apply Hs0|done]. }
  { split_and!; [done|done|]. intros ip. split; [|by intros [? _]]. intros Hip. split; [done|].
    simpl. by intros ?%elem_of_nil. }
  destruct (hoare_for rows create_if_unknown (λ d s, nok s ∧
      ∀ ip, ip ∈ nkeys s ↔ ip ∈ nkeys s1 ∨ ip ∈ resident_addresses d))
    with (s := s1) as ([] & s2 & E2 & Hs2 & Hk2).
  { intros d row rest Hd s [Hs Hk]. destruct (create_if_unknown_nok row s Hs) as (s' & E & Hs' & Hk').
    { apply Hrows. rewrite Hd. set_solver. }
    exists tt, s'. split_and!; [done|done|]. intros ip. unfold resident_addresses in *.
    rewrite Hk', Hk, filter_app, fmap_app, elem_of_app, filter_cons, filter_nil.
    case_decide; csimpl; rewrite ?list_elem_of_singleton, ?elem_of_nil; tauto. }
  { split; [done|]. intros ip. unfold resident_addresses. rewrite filter_nil. simpl. rewrite elem_of_nil. tauto. }
  assert (nkeys s2 ≡ₚ resident_addresses rows) as Hk.
  { apply NoDup_Permutation; [apply Hs2|by apply NoDup_fmap_filter|]. intros ip. rewrite Hk2, Hk1.
    split; [|tauto]. intros [[Hip1 Hip2]|?]; [by apply Hidl, Hip2|done]. }
  assert (∃ s3, mwhen b (mfor rows modify_changed_neighbor) s2 = Ok (tt, s3) ∧ nok s3 ∧
            nkeys s3 ≡ₚ nkeys s2) as (s3 & E3 & Hs3 & Hk3).
  { destruct b; cbn [mwhen]; [|by exists s2].
    destruct (hoare_for_inv rows modify_changed_neighbor (λ s, nok s ∧ nkeys s ≡ₚ nkeys s2))
      with (s := s2) as ([] & s3 & ? & ? & ?); [|done|by exists s3].
    intros row Hrow s [Hs Hks]. destruct (modify_changed_nok row s Hs) as (s' & E & ? & Hk').
    { destruct (decide (resident row)) as [Hr|Hr]; [left|right]; [by apply sound_keepable; [apply Hrows|]|].
      rewrite Hks, Hk. intros Hin. apply Hr. by eapply elem_of_resident_addresses. }
    exists tt, s'. split_and!; [done|done|by rewrite Hk']. }
  exists s3. split_and!; [|done|by rewrite Hk3]. step. step E1. step E2. done.
Qed.
End Modify.

(** creating a neighbor.  The assertion never fires on a new address.  A
    neighbor without a port or a parsable MAC is only cached; otherwise its
    host entry is programmed on its port: when that fails, or the port is not
    in the VRF, the neighbor is not kept, and when it succeeds the neighbor
    has the provider's egress id and every route through it is re-programmed,
    once, as resolved. *)
Theorem neighbor_create_programs row s :
  wf s → NoDup (nkeys s) → ngr_ip_address row ∉ nkeys s →
  let n := neighbor_of_row row in
  ∃ s' evs, neighbor_create row s = Ok (tt, s') ∧ wf s' ∧
    all_neighbors s' ≡ₚ attempt_keeps n (attempt_of s n) ++ all_neighbors s ∧
    log s' = log s ++ evs ∧ attempt_log s n (attempt_of s n) evs.
Proof.
  intros Hwf Hnd Hnew n. destruct (neighbor_create_run row s Hwf Hnd Hnew) as (s' & evs & E & R & ? & ? & ?).
  exists s', evs. split_and!; try done. by eapply same_routes_wf.
Qed.

(** deleting a neighbor.  The routes through it are first re-programmed as
    unresolved, then its host entry is deleted (when it has one), on its port,
    then it leaves the cache. *)
Theorem neighbor_delete_withdraws n s o :
  wf s → neighbor_ok s n → all_neighbors s ≡ₚ n :: o → n_ip_address n ∉ n_ip_address <$> o →
  ∃ s' updates tail, neighbor_delete n s = Ok (tt, s') ∧ wf s' ∧ all_neighbors s' ≡ₚ o ∧
    log s' = log s ++ updates ++ tail ∧
    (request <$> updates) ≡ₚ
      (Some ∘ neighbor_request n false) <$> filter (uses_ip (n_ip_address n)) (all_routes s) ∧
    (if decide (n_l3_egress_id n = -1) then tail = [] else is_delete_host n tail).
Proof.
  intros Hwf Hok Hp Hn.
  destruct (neighbor_delete_run n s o Hwf Hok Hp Hn)
    as (s' & evs & tail & E & R & P & L & (upd & -> & Hreq) & Ht).
  exists s', upd, tail. split_and!; try done. by eapply same_routes_wf.
Qed.

(** modifying a neighbor.  The old host entry is withdrawn, on the old
    port, exactly when a port or MAC in use changed or disappeared; a new entry
    is attempted, with the port and MAC of the row, exactly when the row has a
    port or MAC the neighbor did not have; a neighbor that stays in the cache
    has the port and MAC of the row. *)
Theorem neighbor_modify_follows_row n row s o :
  delete_resets_egress → wf s → neighbor_ok s n → all_neighbors s ≡ₚ n :: o →
  n_ip_address n ∉ n_ip_address <$> o → ngr_ip_address row = n_ip_address n →
  let gone := withdraws n row && negb (n_l3_egress_id n =? -1) in
  let t := target n row (if gone then -1 else n_l3_egress_id n) in
  ∃ s' s1 evs evs', neighbor_modify n row s = Ok (tt, s') ∧ wf s' ∧ same_routes s s1 ∧
    log s1 = log s ++ evs ∧ log s' = log s ++ evs ++ evs' ∧
    (if gone then ∃ tail, withdraw_log s n evs tail ∧ is_delete_host n tail else evs = []) ∧
    (if reprograms n row
     then all_neighbors s' ≡ₚ attempt_keeps t (attempt_of s1 t) ++ o ∧
          attempt_log s1 t (attempt_of s1 t) evs'
     else all_neighbors s' ≡ₚ t :: o ∧ evs' = []).
Proof.
  intros Hreset Hwf Hok Hp Hn Eip gone t.
  destruct (neighbor_modify_run Hreset n row s o Hwf Hok Hp Hn Eip)
    as (s' & s1 & evs & evs' & E & R & R1 & ? & ? & ? & ?).
  exists s', s1, evs, evs'. split_and!; try done. by eapply same_routes_wf.
Qed.

(** One run, from any well-formed state, on a table that other VRFs share. *)
Lemma reconfigure_neighbors_run db s :
  delete_resets_egress → add_accepts → nok (vrf_name s) (vrf_ports s) s →
  Forall (nrow_sound (vrf_name s) (vrf_ports s)) (db_neighbors db) →
  NoDup (ngr_ip_address <$> db_neighbors db) →
  neighbors_any_modified db || neighbors_any_deleted db || neighbors_any_inserted db = true →
  ∃ s', vrf_reconfigure_neighbors db s = Ok (tt, s') ∧ nok (vrf_name s) (vrf_ports s) s' ∧
    nkeys s' ≡ₚ resident_addresses (vrf_name s) (db_neighbors db).
Proof.
  intros Hreset Hacc Hs Hrows Hnd Hany. unfold vrf_reconfigure_neighbors.
  destruct (db_neighbors db) as [|row rows] eqn:Edb.
  - destruct (delete_all_nok _ _ s Hs) as (s' & E & Hs' & Hk). exists s'. split_and!; [done|done|].
    by rewrite Hk.
  - rewrite <-Edb in *.
    assert (negb (neighbors_any_modified db) && negb (neighbors_any_deleted db) &&
            negb (neighbors_any_inserted db) = false) as -> by
      (by destruct (neighbors_any_modified db), (neighbors_any_deleted db), (neighbors_any_inserted db)).
    destruct (reconfigure_neighbors_loops Hreset Hacc (vrf_name s) (vrf_ports s) (db_neighbors db) s
      (neighbors_any_modified db) Hs Hrows Hnd) as (s' & E & Hs' & Hk).
    exists s'. split_and!; [|done|done]. by step.
Qed.

(** When all rows are those of the VRF, all stay. *)
Lemma own_rows name vports rows :
  Forall (nrow_ok name vports) rows → Forall (nrow_sound name vports) rows ∧
    resident_addresses name rows = ngr_ip_address <$> rows.
Proof.
  rewrite !Forall_forall. intros Hrows. split; [intros row Hrow; by apply nrow_ok_sound, Hrows|].
  unfold resident_addresses. rewrite filter_all; [done|]. intros row Hrow. by eapply nrow_ok_sound, Hrows.
Qed.

(** C2: one run of [vrf_reconfigure_neighbors] makes the cache hold exactly the
    addresses of the table, when the table is that of this VRF, its ports are
    in the VRF and the provider accepts the host entries; no fault occurs, and
    every neighbor with a host entry has a port of the VRF. *)
Theorem vrf_reconfigure_neighbors_converges db s :
  delete_resets_egress → add_accepts → nok (vrf_name s) (vrf_ports s) s →
  Forall (nrow_ok (vrf_name s) (vrf_ports s)) (db_neighbors db) →
  NoDup (ngr_ip_address <$> db_neighbors db) →
  neighbors_any_modified db || neighbors_any_deleted db || neighbors_any_inserted db = true →
  ∃ s', vrf_reconfigure_neighbors db s = Ok (tt, s') ∧ nok (vrf_name s) (vrf_ports s) s' ∧
    nkeys s' ≡ₚ ngr_ip_address <$> db_neighbors db.
Proof. intros ??? [Hrows Hr]%own_rows ??. rewrite <-Hr. by apply reconfigure_neighbors_run. Qed.
End Facts.
