(* ===== verification/NeighborPoll.v ===== *)
(** * Polling of the neighbors' hit bits, and concrete runs of the neighbor code *)

From S2P Require Import Prelude OvsLib Vrf VrfFacts VrfWitness Neighbor NeighborFacts.
Local Open Scope Z_scope.

Section Poll.
Context `{HL : OvsLib, HS : Schema, HX : Posix, HP : L3Provider}.

(** Every row's VRF exists, and a neighbor with an egress id has a port. *)
Definition poll_ok (rows : list ovsrec_neighbor) (s : nb_st) : Prop :=
  (∀ row, row ∈ rows → is_Some (vrf_lookup (ngr_vrf row) s)) ∧
  (∀ v n, v ∈ nb_vrfs s → n ∈ all_neighbors v → n_l3_egress_id n ≠ -1 → is_Some (n_port_name n)).

(** The status of a row is as before, or has the hit bit set and nothing else
    changed. *)
Definition status_polled (before after : option smap) : Prop :=
  after = before ∨ ∃ hit, after = <[OVSDB_NEIGHBOR_STATUS_DP_HIT := hit_string hit]> <$> before.

(** The rows that can be polled. *)
Definition pollable (s : nb_st) (row : ovsrec_neighbor) : Prop :=
  ∃ v n, vrf_lookup (ngr_vrf row) s = Some v ∧
    neighbor_hash_lookup (ngr_ip_address row) v = Some n ∧ n_l3_egress_id n ≠ -1.

Lemma vrf_lookup_name name s v : vrf_lookup name s = Some v → v ∈ nb_vrfs s ∧ vrf_name v = name.
Proof.
  intros [Hin Hp]%List.find_some. apply bool_decide_eq_true in Hp. by apply list_elem_of_In in Hin.
Qed.

(** A call for the hit bit changes only hit bits and the log. *)
Definition same_but_hits (v w : st) : Prop :=
  vrf_name w = vrf_name v ∧ vrf_ports w = vrf_ports v ∧
  Forall2 (λ a b, ∃ hit, b = a ∨ b = set_n_hit hit a) (all_neighbors v) (all_neighbors w).

#[local] Instance same_but_hits_refl : Reflexive same_but_hits.
Proof.
  intros v. split_and!; [done|done|]. apply Forall_Forall2_diag, Forall_forall. intros n _.
  exists true. by left.
Qed.

Lemma get_host_hit_same v n port row :
  same_but_hits v (get_host_hit v n port row).2.
Proof.
  unfold get_host_hit. destruct (ofproto_get_l3_host_hit _ _ _ _) as [rc hit]. simpl.
  split_and!; [done|done|]. simpl. apply Forall2_fmap_r, Forall_Forall2_diag, Forall_forall.
  intros x _. exists hit. case_bool_decide; [by right|by left].
Qed.

Lemma poll_ok_set rows v w s :
  v ∈ nb_vrfs s → same_but_hits v w → poll_ok rows s → poll_ok rows (set_vrf w s).
Proof.
  intros Hv (En & _ & Hn) [H1 H2]. split.
  - intros row Hrow. destruct (H1 row Hrow) as [x Hx]. apply vrf_lookup_name in Hx as [Hx Ex].
    unfold vrf_lookup. destruct (List.find _ (nb_vrfs (set_vrf w s))) eqn:E; [eauto|].
    rewrite find_None_iff in E. exfalso. simpl in E.
    apply (list_elem_of_fmap_2 (store_vrf w)) in Hx. apply E in Hx.
    apply bool_decide_eq_false in Hx. apply Hx. unfold store_vrf. case_bool_decide; congruence.
  - intros y n Hy Hin He. simpl in Hy. apply list_elem_of_fmap in Hy as (x & -> & Hx).
    unfold store_vrf in Hin. case_bool_decide; [|by eapply H2].
    apply list_elem_of_lookup in Hin as [i Hi]. destruct (Forall2_lookup_r _ _ _ _ _ Hn Hi) as (a & Ha & hit & Hab).
    apply list_elem_of_lookup_2 in Ha.
    destruct Hab as [->| ->]; by apply (H2 v a).
Qed.

Lemma update_hit_bit_spec rows row s :
  poll_ok rows s → row ∈ rows →
  ∃ s', update_hit_bit row s = Ok (tt, s') ∧ poll_ok rows s' ∧
    neighbor_timer_interval s' = neighbor_timer_interval s ∧
    (∀ u, u ≠ ngr_uuid row → nb_status s' !! u = nb_status s !! u) ∧
    status_polled (nb_status s !! ngr_uuid row) (nb_status s' !! ngr_uuid row).
Proof.
  intros Hok Hrow. destruct (proj1 Hok row Hrow) as [v Ev]. unfold update_hit_bit.
  step. rewrite Ev. step.
  assert (∃ s', @Ok (unit * nb_st) (tt, s) = Ok (tt, s') ∧ poll_ok rows s' ∧
    neighbor_timer_interval s' = neighbor_timer_interval s ∧
    (∀ u, u ≠ ngr_uuid row → nb_status s' !! u = nb_status s !! u) ∧
    status_polled (nb_status s !! ngr_uuid row) (nb_status s' !! ngr_uuid row)) as Hskip
    by (exists s; split_and!; try done; by left).
  destruct (neighbor_hash_lookup (ngr_ip_address row) v) as [n|] eqn:En; [|exact Hskip].
  destruct (Z.eqb_spec (n_l3_egress_id n) (-1)) as [|He]; [exact Hskip|].
  pose proof (vrf_lookup_name _ _ _ Ev) as [Hv Evn]. apply neighbor_lookup_Some in En as [Hn Eip].
  destruct (proj2 Hok v n Hv Hn He) as [name Ename]. rewrite Ename. step.
  destruct (List.find _ (vrf_ports v)) as [port|]; [|exact Hskip].
  pose proof (get_host_hit_same v n port row) as Hsame.
  destruct (get_host_hit v n port row) as [[rc hit] w]. simpl in Hsame.
  pose proof (poll_ok_set rows v w s Hv Hsame Hok) as Hok'. step.
  destruct (rc =? 0); cbn [mwhen].
  - eexists. split; [reflexivity|]. split_and!; [done|done| |].
    + intros u Hu. simpl. by rewrite lookup_alter_ne.
    + right. exists hit. simpl. by rewrite lookup_alter_eq.
  - exists (set_vrf w s). split_and!; try done. by left.
Qed.

Lemma status_polled_trans a b c : status_polled a b → status_polled b c → status_polled a c.
Proof.
  intros [->|[h1 ->]] [->|[h2 ->]]; [by left|right; eauto|right; eauto|].
  right. exists h2. destruct a; simpl; [|done]. by rewrite insert_insert_eq.
Qed.

Lemma update_hit_bits_spec rows l s :
  poll_ok rows s → (∀ row, row ∈ l → row ∈ rows) →
  ∃ s', mfor l update_hit_bit s = Ok (tt, s') ∧ neighbor_timer_interval s' = neighbor_timer_interval s ∧
    ∀ u, status_polled (nb_status s !! u) (nb_status s' !! u).
Proof.
  revert s. induction l as [|row l IH]; intros s Hok Hl.
  { exists s. split_and!; [done|done|]. intros u. by left. }
  destruct (update_hit_bit_spec rows row s Hok) as (s1 & E1 & Hok1 & Ei1 & Ho1 & Hs1); [apply Hl; by left|].
  destruct (IH s1 Hok1) as (s2 & E2 & Ei2 & Hs2); [intros; apply Hl; by right|].
  exists s2. cbn [mfor]. split_and!; [by step E1|congruence|].
  intros u. eapply status_polled_trans; [|apply Hs2].
  destruct (decide (u = ngr_uuid row)) as [->|Hu]; [done|]. rewrite Ho1 by done. by left.
Qed.

(** Hit-bit polling is rate limited and only touches the hit bit.  When the
    rows' VRFs exist, a run returns; before the timer expires it does nothing,
    and when it is due the timer is re-armed for the interval after the run and
    the status of every row is unchanged except for the hit bit. *)
Theorem run_neighbor_update_polls rows now now' s :
  rows ≠ [] → poll_ok rows s → neighbor_timer_interval s = NEIGHBOR_HIT_BIT_UPDATE_INTERVAL →
  ∃ s', run_neighbor_update rows now now' s = Ok (tt, s') ∧
    (now < neighbor_timer s → s' = s) ∧
    (neighbor_timer s ≤ now → neighbor_timer s' = now' + NEIGHBOR_HIT_BIT_UPDATE_INTERVAL) ∧
    ∀ u, status_polled (nb_status s !! u) (nb_status s' !! u).
Proof.
  intros Hne Hok Hint. unfold run_neighbor_update. destruct rows as [|row rows]; [done|].
  set (rs := row :: rows) in *. clearbody rs. rewrite (bind_run _ _ s _ s) by reflexivity.
  rewrite Hint, Z.eqb_refl. cbn [negb mwhen]. step. step.
  destruct (Z.leb_spec (neighbor_timer s) now) as [Hle|Hlt]; cbn [mwhen].
  - destruct (update_hit_bits_spec rs rs s Hok) as (s1 & E1 & Ei & Hs); [done|].
    eexists. split; [step E1; reflexivity|]. split_and!; [lia| |done]. intros _. simpl. lia.
  - exists s. split_and!; [done|done|lia|]. intros u. by left.
Qed.
End Poll.

(** ** Concrete runs *)

#[local] Existing Instance ref_lib.
#[local] Existing Instance ref_schema.
#[local] Existing Instance ref_posix.
#[local] Existing Instance ref_l3.

(** The state of VrfWitness without its neighbor, and the row that brings it. *)
Definition ex_bare : st :=
  St "red" ["eth1"; "eth2"] [] [ex_route] [ex_cached1] ∅ ecmp_default 103 [].
Definition ex_known : st :=
  St "red" ["eth1"; "eth2"] [ex_neighbor] [ex_route] [ex_cached1] ∅ ecmp_default 103 [].
(** The neighbor moves to another port. *)
Definition ex_moved_row : ovsrec_neighbor :=
  NeighborRow 21 "1.1.1.1" (Some "00:00:00:00:00:01") (Some "eth2") None "red" true false.

Lemma ex_bare_wf : wf ex_ips ex_ports ex_bare.
Proof. exact ex_state_wf. Qed.
Lemma ex_known_wf : wf ex_ips ex_ports ex_known.
Proof. exact ex_state_wf. Qed.
Lemma ex_known_ok : neighbor_ok ex_known ex_neighbor.
Proof. intros _. exists "eth1". split; [done|by_compute]. Qed.

Lemma ex_resets : delete_resets_egress.
Proof. done. Qed.
Lemma ex_accepts : add_accepts.
Proof. done. Qed.

Lemma neighbor_create_programs_witness :
  ∃ s' evs, neighbor_create ex_neighbor_row ex_bare = Ok (tt, s') ∧ wf ex_ips ex_ports s' ∧
    all_neighbors s' ≡ₚ attempt_keeps (neighbor_of_row ex_neighbor_row)
      (attempt_of ex_bare (neighbor_of_row ex_neighbor_row)) ++ all_neighbors ex_bare ∧
    log s' = log ex_bare ++ evs ∧
    attempt_log ex_bare (neighbor_of_row ex_neighbor_row)
      (attempt_of ex_bare (neighbor_of_row ex_neighbor_row)) evs.
Proof.
  apply (neighbor_create_programs ex_ips ex_ports ex_apart ex_neighbor_row ex_bare ex_bare_wf).
  - constructor.
  - apply not_elem_of_nil.
Defined.

Lemma neighbor_delete_withdraws_witness :
  ∃ s' updates tail, neighbor_delete ex_neighbor ex_known = Ok (tt, s') ∧ wf ex_ips ex_ports s' ∧
    all_neighbors s' ≡ₚ [] ∧ log s' = log ex_known ++ updates ++ tail ∧
    (request <$> updates) ≡ₚ (Some ∘ neighbor_request ex_neighbor false) <$>
      filter (uses_ip (n_ip_address ex_neighbor)) (all_routes ex_known) ∧
    (if decide (n_l3_egress_id ex_neighbor = -1) then tail = [] else is_delete_host ex_neighbor tail).
Proof.
  apply (neighbor_delete_withdraws ex_ips ex_ports ex_apart ex_neighbor ex_known [] ex_known_wf ex_known_ok).
  - reflexivity.
  - apply not_elem_of_nil.
Defined.

Lemma neighbor_modify_follows_row_witness :
  let t := target ex_neighbor ex_moved_row (-1) in
  ∃ s' s1 evs evs', neighbor_modify ex_neighbor ex_moved_row ex_known = Ok (tt, s') ∧
    wf ex_ips ex_ports s' ∧ same_routes ex_known s1 ∧
    log s1 = log ex_known ++ evs ∧ log s' = log ex_known ++ evs ++ evs' ∧
    (∃ tail, withdraw_log ex_known ex_neighbor evs tail ∧ is_delete_host ex_neighbor tail) ∧
    (all_neighbors s' ≡ₚ attempt_keeps t (attempt_of s1 t) ++ [] ∧
     attempt_log s1 t (attempt_of s1 t) evs').
Proof.
  apply (neighbor_modify_follows_row ex_ips ex_ports ex_apart ex_neighbor ex_moved_row ex_known []
           ex_resets ex_known_wf ex_known_ok).
  - reflexivity.
  - apply not_elem_of_nil.
  - reflexivity.
Defined.

Lemma vrf_reconfigure_neighbors_converges_witness :
  ∃ s', vrf_reconfigure_neighbors (IdlNeighbors [ex_moved_row] true false false) ex_known = Ok (tt, s') ∧
    nok ex_ips ex_ports "red" ["eth1"; "eth2"] s' ∧ nkeys s' ≡ₚ ["1.1.1.1"].
Proof.
  apply (vrf_reconfigure_neighbors_converges ex_ips ex_ports ex_apart
           (IdlNeighbors [ex_moved_row] true false false) ex_known ex_resets ex_accepts).
  - split_and!; [apply ex_known_wf|by_compute| |done|done].
    intros n Hn. apply list_elem_of_singleton in Hn as ->. apply ex_known_ok.
  - apply Forall_singleton. split; [done|]. intros p [= <-]. by_compute.
  - by_compute.
  - reflexivity.
Defined.

Definition ex_poll : nb_st := NbSt [ex_known] 10000 500 {[ 21 := {[ "state" := "reachable" ]} ]}.

Lemma run_neighbor_update_polls_witness :
  ∃ s', run_neighbor_update [ex_neighbor_row] 600 601 ex_poll = Ok (tt, s') ∧
    (600 < 500 → s' = ex_poll) ∧ (500 ≤ 600 → neighbor_timer s' = 601 + NEIGHBOR_HIT_BIT_UPDATE_INTERVAL) ∧
    ∀ u, status_polled (nb_status ex_poll !! u) (nb_status s' !! u).
Proof.
  apply (run_neighbor_update_polls [ex_neighbor_row] 600 601 ex_poll).
  - discriminate.
  - split.
    + intros row Hrow. apply list_elem_of_singleton in Hrow as ->. vm_compute. eauto.
    + intros v n Hv Hn _. apply list_elem_of_singleton in Hv as ->.
      apply list_elem_of_singleton in Hn as ->. vm_compute. eauto.
  - reflexivity.
Defined.

(** ** A neighbor of one VRF is added to another

    The loop "Add new neighbors" of [vrf_reconfigure_neighbors] visits every row
    of the table; the comparison of the VRF that the loop before it makes is
    missing. *)

Definition ex_blue_row : ovsrec_neighbor :=
  NeighborRow 22 "3.3.3.3" None None None "blue" false true.

(** After a reconfiguration of VRF red with a table that holds only a
    neighbor of VRF blue, the cache of red contains the neighbor of blue. *)
Theorem neighbors_of_other_vrfs_are_added :
  ∃ s', vrf_reconfigure_neighbors (IdlNeighbors [ex_blue_row] false false true) ex_bare = Ok (tt, s') ∧
    vrf_name s' = "red" ∧ ngr_vrf ex_blue_row = "blue" ∧ nkeys s' = [ngr_ip_address ex_blue_row].
Proof. eexists. split; [vm_compute; reflexivity|]. done. Qed.

(** ** A failed withdrawal leaves a neighbor that crashes its deletion

    [neighbor_modify] clears the port name of a neighbor whose port column was
    removed even when the provider could not delete the host entry and left the
    egress id in place; [neighbor_delete] then looks a null port name up. *)

Definition stuck_l3 : L3Provider := {|
  OFPROTO_MAX_NH_PER_ROUTE := 32;
  has_l3_route_action := true;
  ofproto_l3_route_action := λ _ _ _, (0, λ _, (0, ""%string));
  ofproto_add_l3_host_entry := λ _ _ _ _ _, (0, 7);
  ofproto_delete_l3_host_entry := λ _ _ _ _ egress, (EINVAL, egress);
  ofproto_get_l3_host_hit := λ _ _ _ _, (0, true);
|}.

Definition ex_unplugged_row : ovsrec_neighbor :=
  NeighborRow 21 "1.1.1.1" (Some "00:00:00:00:00:01") None None "red" true false.

(** With a provider whose deletion of a host entry fails, removing the port
    of a neighbor and then its row dereferences a null pointer. *)
Theorem failed_withdrawal_crashes_deletion :
  ∃ s', vrf_reconfigure_neighbors (HP := stuck_l3)
          (IdlNeighbors [ex_unplugged_row] true false false) ex_known = Ok (tt, s') ∧
    vrf_reconfigure_neighbors (HP := stuck_l3)
          (IdlNeighbors [] false true false) s' = Fault NullDereference.
Proof. eexists. split; vm_compute; reflexivity. Qed.
