(* ===== verification/Bufmon.v ===== *)
(** * Buffer monitoring: bufmon.c and bufmon-provider.c

    The counters of the Bufmon table are collected by a thread of their own,
    periodically and when the ASIC reports that a threshold is crossed, and
    written to the database by the main loop.  Every function below that takes
    [bufmon_mutex] is one atomic step; the two threads interleave between
    them. *)

From S2P Require Import Prelude OvsLib.
Local Open Scope Z_scope.

Definition DEFAULT_COLLECTION_INTERVAL : Z := 5.
Definition DEFAULT_TRIGGER_RATE_LIMIT_COUNT : Z := 60.
Definition DEFAULT_TRIGGER_RATE_LIMIT_DURATION : Z := 60.
Definition DEFAULT_TRIGGER_REPORT_INTERVAL : Z := 100.
Definition COUNTER_MODE_PEAK : string := "peak".

(** ** Data of bufmon-provider.h *)

Inductive collection_mode := MODE_CURRENT | MODE_PEAK.

Record bufmon_system_config := SystemConfig {
  enabled : bool;
  counters_mode : collection_mode;
  periodic_collection_enabled : bool;
  collection_period : Z;
  threshold_trigger_collection_enabled : bool;
  threshold_trigger_rate_limit : Z;
  snapshot_on_threshold_trigger : bool;
}.

Definition config_zero : bufmon_system_config :=
  SystemConfig false MODE_CURRENT false 0 false 0 false.

Inductive counter_status := BUFMON_STATUS_OK | BUFMON_STATUS_TRIGGERED.

Record bufmon_counter_info := Counter {
  c_counter_value : Z;
  c_vendor_specific_info : smap;
  c_enabled : bool;
  c_hw_unit_id : Z;
  c_name : string;
  c_status : counter_status;
  c_trigger_threshold : Z;
}.

(** An element of the array [xcalloc] returns. *)
Definition counter_zero : bufmon_counter_info := Counter 0 ∅ false 0 "" BUFMON_STATUS_OK 0.

Definition set_value (v : Z) (c : bufmon_counter_info) : bufmon_counter_info :=
  Counter v (c_vendor_specific_info c) (c_enabled c) (c_hw_unit_id c) (c_name c) (c_status c)
    (c_trigger_threshold c).
Definition set_status (x : counter_status) (c : bufmon_counter_info) : bufmon_counter_info :=
  Counter (c_counter_value c) (c_vendor_specific_info c) (c_enabled c) (c_hw_unit_id c) (c_name c) x
    (c_trigger_threshold c).

(** ** Database rows *)

Record ovsrec_bufmon := BufmonRow {
  br_uuid : Z;
  br_name : string;
  br_enabled : option bool;
  br_hw_unit_id : Z;
  br_vendor_specific_info : smap;
  br_trigger_threshold : option Z;
  br_inserted : bool;
  br_modified : bool;
}.

(** The system row (its bufmon_config column and change flags) and the Bufmon
    table. *)
Record idl_bufmon := IdlBufmon {
  db_system : option smap;
  system_inserted : bool;
  bufmon_config_modified : bool;
  db_bufmon : list ovsrec_bufmon;
  has_lock : bool;
  lock_contended : bool;
  seqno : Z;
  db_now : Z;                         (* time_now() *)
}.

(** Keys of the bufmon_config column. *)
Class BufmonSchema := {
  BUFMON_CONFIG_MAP_ENABLED : string;
  BUFMON_CONFIG_MAP_COUNTERS_MODE : string;
  BUFMON_CONFIG_MAP_PERIODIC_COLLECTION_ENABLED : string;
  BUFMON_CONFIG_MAP_COLLECTION_PERIOD : string;
  BUFMON_CONFIG_MAP_THRESHOLD_TRIGGER_COLLECTION_ENABLED : string;
  BUFMON_CONFIG_MAP_TRIGGER_RATE_LIMIT : string;
  BUFMON_CONFIG_MAP_SNAPSHOT_ON_THRESHOLD_TRIGGER : string;
}.

(** ** The provider *)

Inductive bufmon_event :=
| ConfigSystem (c : bufmon_system_config)
| ConfigCounter (c : bufmon_counter_info)
| StatsGet (n : nat)
| TriggerRegister (enable : bool).

(** A registered class: each function may be missing; [stats_get] is given the
    calls made so far and the counters, and returns their values. *)
Class BufmonProvider := {
  class_registered : bool;
  has_system_config : bool;
  has_counter_config : bool;
  has_trigger_register : bool;
  has_stats_get : bool;
  stats_get : list bufmon_event → list bufmon_counter_info → nat → Z;
}.

(** ** State

    [g_counter_list] is [None] when null; the writes to the database are the
    counter value and status per row. *)
Record bst := BSt {
  bufmon_cfg : bufmon_system_config;
  g_counter_list : option (list bufmon_counter_info);
  num_active_counters : Z;
  bufmon_latch : bool;
  stats_thread_started : bool;
  next_poll_interval : Z;
  last_seqno : Z;                     (* idl_seqno *)
  written : gmap Z (Z * counter_status);
  timestamp : option Z;               (* last_collection_timestamp of bufmon_info *)
  provider_log : list bufmon_event;
}.

Definition set_cfg (c : bufmon_system_config) (s : bst) : bst :=
  BSt c (g_counter_list s) (num_active_counters s) (bufmon_latch s) (stats_thread_started s)
    (next_poll_interval s) (last_seqno s) (written s) (timestamp s) (provider_log s).
Definition set_counters (l : option (list bufmon_counter_info)) (n : Z) (s : bst) : bst :=
  BSt (bufmon_cfg s) l n (bufmon_latch s) (stats_thread_started s)
    (next_poll_interval s) (last_seqno s) (written s) (timestamp s) (provider_log s).
Definition set_latch (b : bool) (s : bst) : bst :=
  BSt (bufmon_cfg s) (g_counter_list s) (num_active_counters s) b (stats_thread_started s)
    (next_poll_interval s) (last_seqno s) (written s) (timestamp s) (provider_log s).
Definition set_started (s : bst) : bst :=
  BSt (bufmon_cfg s) (g_counter_list s) (num_active_counters s) (bufmon_latch s) true
    (next_poll_interval s) (last_seqno s) (written s) (timestamp s) (provider_log s).
Definition set_next_poll (t : Z) (s : bst) : bst :=
  BSt (bufmon_cfg s) (g_counter_list s) (num_active_counters s) (bufmon_latch s)
    (stats_thread_started s) t (last_seqno s) (written s) (timestamp s) (provider_log s).
Definition set_seqno (n : Z) (s : bst) : bst :=
  BSt (bufmon_cfg s) (g_counter_list s) (num_active_counters s) (bufmon_latch s)
    (stats_thread_started s) (next_poll_interval s) n (written s) (timestamp s) (provider_log s).
Definition set_written (w : gmap Z (Z * counter_status)) (s : bst) : bst :=
  BSt (bufmon_cfg s) (g_counter_list s) (num_active_counters s) (bufmon_latch s)
    (stats_thread_started s) (next_poll_interval s) (last_seqno s) w (timestamp s) (provider_log s).
Definition set_timestamp (t : Z) (s : bst) : bst :=
  BSt (bufmon_cfg s) (g_counter_list s) (num_active_counters s) (bufmon_latch s)
    (stats_thread_started s) (next_poll_interval s) (last_seqno s) (written s) (Some t) (provider_log s).
Definition add_event (e : bufmon_event) (s : bst) : bst :=
  BSt (bufmon_cfg s) (g_counter_list s) (num_active_counters s) (bufmon_latch s)
    (stats_thread_started s) (next_poll_interval s) (last_seqno s) (written s) (timestamp s) (provider_log s ++ [e]).

Section Bufmon.
Context `{HL : OvsLib, HB : BufmonSchema, HP : BufmonProvider}.

(** ** bufmon-provider.c *)

(** [BUFMON_PROVIDER_VALIDATE]: nothing happens without a class or a function. *)
Definition provider_call (has : bool) (e : bufmon_event) : M bst unit :=
  mwhen (class_registered && has) (modify (add_event e)).

Definition bufmon_set_system_config (c : bufmon_system_config) : M bst unit :=
  provider_call has_system_config (ConfigSystem c).
Definition bufmon_set_counter_config (c : bufmon_counter_info) : M bst unit :=
  provider_call has_counter_config (ConfigCounter c).
Definition bufmon_trigger_enable (flag : bool) : M bst unit :=
  provider_call has_trigger_register (TriggerRegister flag).

(** The provider stores the values in the array it is given. *)
Definition bufmon_stats_get (l : list bufmon_counter_info) : M bst (list bufmon_counter_info) :=
  if class_registered && has_stats_get then
    events ← gets provider_log;
    modify (add_event (StatsGet (length l))) ;;
    mret (imap (λ i c, set_value (stats_get events l i) c) l)
  else mret l.

(** ** bufmon.c *)

Definition bufmon_enable_stats (enable : bool) : M bst unit :=
  started ← gets stats_thread_started;
  mwhen (enable && negb started) (modify set_started ;; modify (set_latch false)).

Definition row_enabled (row : ovsrec_bufmon) : bool :=
  match br_enabled row with Some b => b | None => false end.

Definition bufmon_enabled_counters_count (rows : list ovsrec_bufmon) (s : bst) : nat :=
  if enabled (bufmon_cfg s) then length (filter (λ row, row_enabled row = true) rows) else 0%nat.

Definition bufmon_discard_counter_list : M bst unit := modify (set_counters None 0).

Definition counter_of_row (row : ovsrec_bufmon) : bufmon_counter_info :=
  Counter 0 (br_vendor_specific_info row) (row_enabled row) (br_hw_unit_id row) (br_name row)
    BUFMON_STATUS_OK (default 0 (br_trigger_threshold row)).

(** The copy loop: a row whose [enabled] pointer is not null is written at the
    next index of the array. *)
Fixpoint copy_counters (rows : list ovsrec_bufmon) (i : nat) (l : list bufmon_counter_info)
  : M bst (list bufmon_counter_info) :=
  match rows with
  | [] => mret l
  | row :: rows' =>
    match br_enabled row with
    | None => copy_counters rows' i l
    | Some _ =>
      if decide (i < length l)%nat
      then copy_counters rows' (S i) (<[i := counter_of_row row]> l)
      else die BufferOverflow
    end
  end.

Definition bufmon_create_counters_list (rows : list ovsrec_bufmon) : M bst unit :=
  old ← gets g_counter_list;
  mwhen (match old with Some _ => true | None => false end) bufmon_discard_counter_list ;;
  count ← gets (bufmon_enabled_counters_count rows);
  if decide (count = 0%nat) then modify (λ s, set_counters (g_counter_list s) 0 s) else
  l ← copy_counters rows 0 (replicate count counter_zero);
  modify (set_counters (Some l) (Z.of_nat count)).

(** The write-back loop: the rows with a non-null [enabled] pointer are matched
    with the array by position. *)
Fixpoint write_counters (rows : list ovsrec_bufmon) (i : nat) : M bst unit :=
  match rows with
  | [] => mret tt
  | row :: rows' =>
    match br_enabled row with
    | None => write_counters rows' i
    | Some _ =>
      l ← gets g_counter_list;
      l ← deref l;
      match l !! i with
      | None => die BufferOverflow
      | Some c =>
        modify (λ s, set_written (<[br_uuid row := (c_counter_value c, c_status c)]> (written s)) s) ;;
        write_counters rows' (S i)
      end
    end
  end.

(** [system_cfg]: there is a System row, which gets the time [now] of the
    collection. *)
Definition bufmon_ovsdb_update (system_cfg : bool) (now : Z) (rows : list ovsrec_bufmon) : M bst unit :=
  mwhen system_cfg (modify (set_timestamp now)) ;;
  write_counters rows 0.

Definition counter_triggered (triggered : bool) (c : bufmon_counter_info) : bool :=
  triggered && negb (c_trigger_threshold c =? 0) && (c_trigger_threshold c <=? c_counter_value c).

Definition bufmon_get_current_counters_value (triggered : bool) : M bst unit :=
  l ← gets g_counter_list;
  n ← gets num_active_counters;
  match l with
  | None => mret tt
  | Some l =>
    if n =? 0 then mret tt else
    l ← bufmon_stats_get l;
    let l := (λ c, set_status (if counter_triggered triggered c then BUFMON_STATUS_TRIGGERED
                               else BUFMON_STATUS_OK) c) <$> l in
    modify (set_counters (Some l) n) ;;
    modify (set_latch true)
  end.

(** [bufmon_cfg.collection_period * 1000] is computed in [int]. *)
Definition period_msec (c : bufmon_system_config) : Z := to_signed 32 (collection_period c * 1000).

Definition bufmon_run_stats_update (triggered : bool) (now : Z) : M bst unit :=
  cfg ← gets bufmon_cfg;
  next ← gets next_poll_interval;
  if negb (enabled cfg) || negb (periodic_collection_enabled cfg ||
                                 threshold_trigger_collection_enabled cfg)
  then mret tt
  else if (negb (periodic_collection_enabled cfg) || (now <? next)) && negb triggered
  then mret tt
  else if triggered && negb (threshold_trigger_collection_enabled cfg)
  then mret tt
  else
    bufmon_get_current_counters_value triggered ;;
    modify (set_next_poll (now + period_msec cfg)) ;;
    mwhen triggered (bufmon_set_system_config cfg).

Definition config_of_row (row : smap) : bufmon_system_config :=
  {| enabled := smap_get_bool row BUFMON_CONFIG_MAP_ENABLED false;
     counters_mode := match row !! BUFMON_CONFIG_MAP_COUNTERS_MODE with
                      | Some mode => if bool_decide (mode = COUNTER_MODE_PEAK) then MODE_PEAK
                                     else MODE_CURRENT
                      | None => MODE_CURRENT
                      end;
     periodic_collection_enabled :=
       smap_get_bool row BUFMON_CONFIG_MAP_PERIODIC_COLLECTION_ENABLED false;
     collection_period :=
       Z.max (smap_get_int row BUFMON_CONFIG_MAP_COLLECTION_PERIOD DEFAULT_COLLECTION_INTERVAL)
         DEFAULT_COLLECTION_INTERVAL;
     threshold_trigger_collection_enabled :=
       smap_get_bool row BUFMON_CONFIG_MAP_THRESHOLD_TRIGGER_COLLECTION_ENABLED false;
     threshold_trigger_rate_limit :=
       smap_get_int row BUFMON_CONFIG_MAP_TRIGGER_RATE_LIMIT DEFAULT_TRIGGER_RATE_LIMIT_COUNT;
     snapshot_on_threshold_trigger :=
       smap_get_bool row BUFMON_CONFIG_MAP_SNAPSHOT_ON_THRESHOLD_TRIGGER false |}.

Definition bufmon_system_config_update (row : smap) : M bst unit :=
  let cfg := config_of_row row in
  modify (set_cfg cfg) ;;
  mwhen (enabled cfg) (bufmon_enable_stats (enabled cfg)) ;;
  bufmon_set_system_config cfg.

Definition bufmon_counter_config_update (row : ovsrec_bufmon) : M bst unit :=
  bufmon_set_counter_config
    (Counter 0 (br_vendor_specific_info row) (row_enabled row) (br_hw_unit_id row) (br_name row)
       BUFMON_STATUS_OK (default (-1) (br_trigger_threshold row))).

Definition row_changed (row : ovsrec_bufmon) : bool := br_inserted row || br_modified row.

Definition bufmon_reconfigure (db : idl_bufmon) : M bst unit :=
  match db_system db with
  | None => mret tt
  | Some cfg =>
    if decide (cfg = ∅) then mret tt else
    mfor (db_bufmon db) (λ row, mwhen (row_changed row) (bufmon_counter_config_update row)) ;;
    mwhen (system_inserted db || bufmon_config_modified db) (bufmon_system_config_update cfg) ;;
    mwhen (List.existsb row_changed (db_bufmon db)) (bufmon_create_counters_list (db_bufmon db))
  end.

Definition bufmon_run (db : idl_bufmon) : M bst unit :=
  if lock_contended db || negb (has_lock db) then mret tt else
  last ← gets last_seqno;
  mwhen (negb (seqno db =? last)) (bufmon_reconfigure db ;; modify (set_seqno (seqno db))) ;;
  cfg ← gets bufmon_cfg;
  mwhen (enabled cfg)
    (latch ← gets bufmon_latch;
     modify (set_latch false) ;;
     mwhen latch (bufmon_ovsdb_update (bool_decide (is_Some (db_system db))) (db_now db) (db_bufmon db))).

Definition bufmon_init (seqno : Z) : M bst unit := modify (set_seqno seqno).

Definition bufmon_exit : M bst unit := bufmon_discard_counter_list.

Definition bufmon_trigger_rate_limit (flag : bool) : M bst unit :=
  if flag then bufmon_trigger_enable false else
  cfg ← gets bufmon_cfg;
  mwhen (threshold_trigger_collection_enabled cfg)
    (bufmon_set_system_config cfg ;; bufmon_trigger_enable true).

(** ** The statistics thread

    The local variables of [bufmon_stats_thread], and where it is in its loop:
    waiting to be enabled, in [poll_block], or about to collect. *)

Inductive thread_pc := AtWait | AtPoll | AtCollect (trigger_collection : bool).

Record thread := Thread {
  pc : thread_pc;
  trigger_reports_count : Z;
  trigger_rate_limit : Z;
  trigger_disabled : bool;
  cur_seqno : Z;
  next_poll_msec : Z;
  next_trigger_msec : Z;
  last_rate_limit_time : Z;
}.

Definition thread_start (seq now : Z) : thread :=
  Thread AtWait 0 0 false seq 0 0 (to_signed 32 now).

(** The head of the loop, once the configuration is enabled. *)
Definition thread_begin (now_msec : Z) (cfg : bufmon_system_config) (t : thread) : thread :=
  Thread AtPoll (trigger_reports_count t) (threshold_trigger_rate_limit cfg) (trigger_disabled t)
    (cur_seqno t) (now_msec + period_msec cfg) (next_trigger_msec t) (last_rate_limit_time t).

(** What happened when [poll_block] returned. *)
Inductive wakeup :=
| Collected (at_msec next_from limit : Z)   (* a trigger is processed *)
| Limited                                   (* a trigger is over the limit *)
| TimedOut (reset : option (Z * Z)).        (* the periodic timer *)

(** [INT_MAX] *)
Definition INT_MAX : Z := 2147483647.

(** [seq] and [seq'] are the two readings of the trigger sequence number, [t1]
    and [t2] those of [time_msec], [now] and [now'] those of [time_now].  A
    wake-up is labelled with the readings it used. *)
Definition thread_wakeup (seq seq' t1 t2 now now' : Z) (t : thread) : M bst (wakeup * thread) :=
  if negb (cur_seqno t =? seq) then
    if trigger_reports_count t =? INT_MAX then die IntegerOverflow else
    let count := trigger_reports_count t + 1 in
    if (trigger_rate_limit t <? count) || (t1 <? next_trigger_msec t) then
      bufmon_trigger_rate_limit true ;;
      mret (Limited,
            Thread AtPoll count (trigger_rate_limit t) true seq' (next_poll_msec t)
              (next_trigger_msec t) (last_rate_limit_time t))
    else
      mret (Collected t1 t2 (trigger_rate_limit t),
            Thread (AtCollect true) count (trigger_rate_limit t) (trigger_disabled t) seq'
              (next_poll_msec t) (t2 + DEFAULT_TRIGGER_REPORT_INTERVAL) (last_rate_limit_time t))
  else if DEFAULT_TRIGGER_RATE_LIMIT_DURATION <? now - last_rate_limit_time t then
    mwhen (trigger_disabled t) (bufmon_trigger_rate_limit false) ;;
    mret (TimedOut (Some (now, now')),
          Thread (AtCollect false) 0 (trigger_rate_limit t) false (cur_seqno t) (next_poll_msec t)
            (next_trigger_msec t) (to_signed 32 now'))
  else
    mret (TimedOut None,
          Thread (AtCollect false) (trigger_reports_count t) (trigger_rate_limit t)
            (trigger_disabled t) (cur_seqno t) (next_poll_msec t) (next_trigger_msec t)
            (last_rate_limit_time t)).

Definition thread_done (t : thread) : thread :=
  Thread AtWait (trigger_reports_count t) (trigger_rate_limit t) (trigger_disabled t) (cur_seqno t)
    (next_poll_msec t) (next_trigger_msec t) (last_rate_limit_time t).

(** ** The two threads together *)

Inductive label := Main | Begin | Wake (w : wakeup) | Collect.

Inductive step : bst * thread → label → bst * thread → Prop :=
| step_main db s s' t :
    bufmon_run db s = Ok (tt, s') → step (s, t) Main (s', t)
| step_begin now s t :
    pc t = AtWait → enabled (bufmon_cfg s) = true →
    step (s, t) Begin (s, thread_begin now (bufmon_cfg s) t)
| step_wakeup seq seq' t1 t2 now now' s t w s' t' :
    pc t = AtPoll → thread_wakeup seq seq' t1 t2 now now' t s = Ok ((w, t'), s') →
    step (s, t) (Wake w) (s', t')
| step_collect now s t b s' :
    pc t = AtCollect b → bufmon_run_stats_update b now s = Ok (tt, s') →
    step (s, t) Collect (s', thread_done t).

(** Executions, with their labels in order. *)
Inductive exec : bst * thread → list label → bst * thread → Prop :=
| exec_nil c : exec c [] c
| exec_snoc c tr c' l c'' : exec c tr c' → step c' l c'' → exec c (tr ++ [l]) c''.
End Bufmon.

Definition bst_start : bst := BSt config_zero None 0 false false 0 0 ∅ None [].

(** [bufmon_wait]: does the main loop wait on the latch? *)
Definition bufmon_wait (has_lock : bool) (s : bst) : bool := has_lock && enabled (bufmon_cfg s).

(** ** Registration of a provider: [bufmon_class_register] of bufmon-provider.c *)

Section Provider.
(** A provider class; [init]: the result of its init function, if it has one. *)
Context {C : Type} (init : C → option Z).

(** The static variables, and the classes whose init function was called. *)
Record provider := Provider {
  bufmon_class_registered : option C;
  bufmon_registered : bool;
  init_calls : list C;
}.

Definition provider_start : provider := Provider None false [].

Definition bufmon_class_register (new_class : C) (p : provider) : Z * provider :=
  if bufmon_registered p then (0, p) else
  let error := default 0 (init new_class) in
  let calls := if init new_class is Some _ then init_calls p ++ [new_class] else init_calls p in
  if error =? 0 then (0, Provider (Some new_class) true calls)
  else (error, Provider (bufmon_class_registered p) false calls).

(** The first class whose init function succeeds stays registered; the errors of
    those before it are returned, and those after it are not called. *)
Theorem first_provider_registered l1 c l2 :
  Forall (λ x, default 0 (init x) ≠ 0) l1 → default 0 (init c) = 0 →
  let p := fold_left (λ p x, (bufmon_class_register x p).2) (l1 ++ c :: l2) provider_start in
  bufmon_class_registered p = Some c ∧
  init_calls p = l1 ++ (if init c is Some _ then [c] else []) ∧
  ∀ x, bufmon_class_register x p = (0, p).
Proof.
  intros Hl Hc. cbv zeta.
  assert (∀ p, bufmon_registered p = true → fold_left (λ p x, (bufmon_class_register x p).2) l2 p = p) as H2.
  { induction l2 as [|x l2 IH]; [done|]. intros p Hp. cbn [fold_left]. unfold bufmon_class_register at 2.
    rewrite Hp. by apply IH. }
  assert (fold_left (λ p x, (bufmon_class_register x p).2) l1 provider_start = Provider None false l1) as H1.
  { change l1 with ([] ++ l1) at 2. unfold provider_start. generalize (@nil C).
    induction Hl as [|x l1 Hx _ IH]; intros k; cbn [fold_left]; [by rewrite app_nil_r|].
    unfold bufmon_class_register at 2. cbn [bufmon_registered init_calls].
    rewrite (proj2 (Z.eqb_neq _ _) Hx). destruct (init x); [|by destruct Hx].
    simpl. rewrite IH. by rewrite <-app_assoc. }
  assert (bufmon_class_register c (Provider None false l1) =
    (0, Provider (Some c) true (l1 ++ (if init c is Some _ then [c] else [])))) as Ec.
  { unfold bufmon_class_register. simpl. rewrite Hc. destruct (init c); [done|]. by rewrite app_nil_r. }
  rewrite fold_left_app, H1. cbn [fold_left]. rewrite Ec. cbn [snd]. by rewrite H2.
Qed.
End Provider.
