(* ===== verification/BufmonFacts.v ===== *)
(** * Buffer monitoring: proofs

    The list of counters, the path of a value from the provider to its row, the
    gating of collections and the rate limit of triggers. *)

From S2P Require Import Prelude OvsLib Bufmon.
Local Open Scope Z_scope.

Section Facts.
Context `{HL : OvsLib, HB : BufmonSchema, HP : BufmonProvider}.

(** ** Total execution of the pieces *)

Lemma provider_call_run has e s :
  provider_call has e s = Ok (tt, if class_registered && has then add_event e s else s).
Proof. unfold provider_call. by destruct (class_registered && has). Qed.

Lemma trigger_rate_limit_run flag s :
  ∃ evs, bufmon_trigger_rate_limit flag s =
    Ok (tt, BSt (bufmon_cfg s) (g_counter_list s) (num_active_counters s) (bufmon_latch s)
              (stats_thread_started s) (next_poll_interval s) (last_seqno s) (written s)
              (timestamp s) (provider_log s ++ evs)).
Proof.
  unfold bufmon_trigger_rate_limit, bufmon_trigger_enable, bufmon_set_system_config.
  assert (∀ s : bst, s = BSt (bufmon_cfg s) (g_counter_list s) (num_active_counters s) (bufmon_latch s)
    (stats_thread_started s) (next_poll_interval s) (last_seqno s) (written s) (timestamp s) (provider_log s ++ []))
    as Hid by (intros []; by rewrite app_nil_r).
  destruct flag.
  - rewrite provider_call_run. destruct (_ && _); [by eexists|]. exists []. by rewrite <-Hid.
  - unfold mbind, M_bind, gets. destruct (threshold_trigger_collection_enabled _); simpl.
    + rewrite provider_call_run. destruct (class_registered && has_system_config); rewrite provider_call_run;
        destruct (class_registered && has_trigger_register).
      * exists [ConfigSystem (bufmon_cfg s); TriggerRegister true]. unfold add_event. simpl.
        by rewrite <-app_assoc.
      * by eexists.
      * by eexists.
      * exists []. by rewrite <-Hid.
    + exists []. by rewrite <-Hid.
Qed.

(** The list of counters and its length agree: the provider is never given a
    length that differs from the array's. *)
Definition counters_ok (s : bst) : Prop :=
  match g_counter_list s with
  | None => num_active_counters s = 0
  | Some l => num_active_counters s = Z.of_nat (length l) ∧ l ≠ []
  end.

Lemma copy_counters_length rows i l s l' s' :
  copy_counters rows i l s = Ok (l', s') → length l' = length l ∧ s' = s.
Proof.
  revert i l. induction rows as [|row rows IH]; intros i l; simpl; [by intros [= -> ->]|].
  destruct (br_enabled row); [|apply IH]. case_decide; [|done].
  intros [Hl ->]%IH. by rewrite length_insert in Hl.
Qed.

Lemma create_counters_ok rows s s' :
  bufmon_create_counters_list rows s = Ok (tt, s') → counters_ok s →
  counters_ok s' ∧ bufmon_cfg s' = bufmon_cfg s.
Proof.
  unfold bufmon_create_counters_list. intros (old & s1 & [= <- <-] & E)%bind_Ok Hok.
  apply bind_Ok in E as ([] & s2 & E2 & E).
  assert (bufmon_cfg s2 = bufmon_cfg s ∧ g_counter_list s2 = None) as [Ec El].
  { destruct (g_counter_list s) eqn:Eg; injection E2 as <-; done. }
  apply bind_Ok in E as (count & s3 & [= <- <-] & E).
  case_decide as Hc.
  - injection E as <-. split; [|done]. unfold counters_ok. simpl. by rewrite El.
  - apply bind_Ok in E as (l & s4 & [Hl ->]%copy_counters_length & [= <-]).
    split; [|done]. unfold counters_ok. simpl. rewrite length_replicate in Hl. split; [by rewrite Hl|].
    intros ->. by rewrite <-Hl in Hc.
Qed.

Lemma get_current_ok b s :
  counters_ok s → ∃ s', bufmon_get_current_counters_value b s = Ok (tt, s') ∧ counters_ok s' ∧
    bufmon_cfg s' = bufmon_cfg s ∧ written s' = written s.
Proof.
  intros Hok. unfold bufmon_get_current_counters_value. step. step. unfold counters_ok in Hok.
  destruct (g_counter_list s) as [l|] eqn:El; [|exists s; split_and!; try done; unfold counters_ok; by rewrite El].
  destruct Hok as [Hn Hl]. destruct (_ =? 0); [exists s; split_and!; try done; unfold counters_ok; by rewrite El|].
  unfold bufmon_stats_get. destruct (class_registered && has_stats_get).
  - eexists. split; [reflexivity|]. split_and!; try done. unfold counters_ok. simpl.
    rewrite length_fmap, length_imap. split; [done|]. by destruct l.
  - eexists. split; [reflexivity|]. split_and!; try done. unfold counters_ok. simpl.
    rewrite length_fmap. split; [done|]. by destruct l.
Qed.

Local Abbreviation keeps c := (hoarep counters_ok c (λ _, counters_ok)).

Lemma provider_call_keeps has e : keeps (provider_call has e).
Proof. apply hoarep_when, hoarep_modify. done. Qed.

Lemma system_config_update_keeps row : keeps (bufmon_system_config_update row).
Proof.
  eapply hoarep_bind; [by apply hoarep_modify|]. intros ?.
  eapply hoarep_bind; [|intros ?; apply provider_call_keeps].
  apply hoarep_when. eapply hoarep_bind; [apply hoarep_gets|]. intros b. apply hoarep_when.
  eapply hoarep_bind; [by apply hoarep_modify|]. intros ?. by apply hoarep_modify.
Qed.

Lemma reconfigure_keeps db : keeps (bufmon_reconfigure db).
Proof.
  unfold bufmon_reconfigure. destruct (db_system db); [|apply hoarep_ret].
  case_decide; [apply hoarep_ret|].
  eapply hoarep_bind; [apply hoarep_for; intros row; apply hoarep_when, provider_call_keeps|]. intros ?.
  eapply hoarep_bind; [apply hoarep_when, system_config_update_keeps|]. intros ?.
  apply hoarep_when. intros s [] s' Hs E. by apply (create_counters_ok _ _ _ E).
Qed.

Lemma write_counters_keeps rows i : keeps (write_counters rows i).
Proof.
  revert i. induction rows as [|row rows IH]; intros i; [apply hoarep_ret|]. simpl.
  destruct (br_enabled row); [|apply IH].
  eapply hoarep_bind; [apply hoarep_gets|]. intros l.
  apply (hoarep_bind _ _ _ (λ _, counters_ok)).
  - destruct l; [apply hoarep_ret|by intros s a s' _].
  - intros l'. destruct (l' !! i); [|by intros s a s' _].
    eapply hoarep_bind; [by apply hoarep_modify|]. intros ?. apply IH.
Qed.

Lemma run_keeps db : keeps (bufmon_run db).
Proof.
  unfold bufmon_run. destruct (_ || _); [apply hoarep_ret|].
  eapply hoarep_bind; [apply hoarep_gets|]. intros n.
  eapply hoarep_bind; [apply hoarep_when|intros ?].
  { eapply hoarep_bind; [apply reconfigure_keeps|]. intros ?. by apply hoarep_modify. }
  eapply hoarep_bind; [apply hoarep_gets|]. intros cfg. apply hoarep_when.
  eapply hoarep_bind; [apply hoarep_gets|]. intros b.
  eapply hoarep_bind; [by apply hoarep_modify|]. intros ?. apply hoarep_when.
  eapply hoarep_bind; [by apply hoarep_when, hoarep_modify|]. intros ?. apply write_counters_keeps.
Qed.

(** ** The list of counters and the rows *)

(** The rows whose enabled column is set. *)
Definition listed (rows : list ovsrec_bufmon) : list ovsrec_bufmon :=
  filter (λ row, is_Some (br_enabled row)) rows.

(** No row has its enabled column set to false. *)
Definition no_disabled (rows : list ovsrec_bufmon) : Prop :=
  Forall (λ row, br_enabled row ≠ Some false) rows.

Lemma listed_enabled rows :
  no_disabled rows → filter (λ row, row_enabled row = true) rows = listed rows.
Proof.
  intros Hd. apply list_filter_iff_strong. intros row Hrow. unfold no_disabled in Hd.
  rewrite Forall_forall in Hd. specialize (Hd row Hrow). unfold row_enabled.
  by destruct (br_enabled row) as [[]|].
Qed.

Lemma listed_cons row rows :
  listed (row :: rows) = match br_enabled row with Some _ => row :: listed rows | None => listed rows end.
Proof.
  unfold listed. rewrite filter_cons. destruct (br_enabled row); [by rewrite decide_True|].
  rewrite decide_False; [done|by intros [? ?]].
Qed.

Lemma copy_counters_spec rows pre s :
  copy_counters rows (length pre) (pre ++ replicate (length (listed rows)) counter_zero) s =
  Ok (pre ++ (counter_of_row <$> listed rows), s).
Proof.
  revert pre. induction rows as [|row rows IH]; intros pre; [done|].
  cbn [copy_counters]. rewrite listed_cons. destruct (br_enabled row) as [b|]; [|apply IH]. simpl.
    rewrite decide_True by (rewrite length_app; simpl; lia).
    replace (<[length pre:=counter_of_row row]>
      (pre ++ counter_zero :: replicate (length (listed rows)) counter_zero))
      with ((pre ++ [counter_of_row row]) ++ replicate (length (listed rows)) counter_zero).
    2:{ rewrite insert_app_r_alt, Nat.sub_diag by lia. simpl. by rewrite <-app_assoc. }
    replace (S (length pre)) with (length (pre ++ [counter_of_row row]))
      by (rewrite length_app; simpl; lia).
    rewrite IH. by rewrite <-app_assoc.
Qed.

Lemma create_counters_spec rows s :
  no_disabled rows → enabled (bufmon_cfg s) = true → listed rows ≠ [] →
  bufmon_create_counters_list rows s =
  Ok (tt, set_counters (Some (counter_of_row <$> listed rows)) (Z.of_nat (length (listed rows))) s).
Proof.
  intros Hd He Hne. unfold bufmon_create_counters_list. step.
  assert (∃ n', mwhen (match g_counter_list s with Some _ => true | None => false end)
    bufmon_discard_counter_list s = Ok (tt, set_counters None n' s)) as [n' E].
  { destruct (g_counter_list s) eqn:El; [by eexists|]. exists (num_active_counters s).
    destruct s; simpl in *. by subst. }
  step E. erewrite bind_run by reflexivity. unfold bufmon_enabled_counters_count. simpl. rewrite He.
  rewrite listed_enabled by done. rewrite decide_False by (by destruct (listed rows)).
  step (copy_counters_spec rows [] (set_counters None n' s)). done.
Qed.

(** The writes of the update loop. *)
Definition write_row (l : list bufmon_counter_info) (w : gmap Z (Z * counter_status))
  (p : nat * ovsrec_bufmon) : gmap Z (Z * counter_status) :=
  match l !! p.1 with
  | Some c => <[br_uuid p.2 := (c_counter_value c, c_status c)]> w
  | None => w
  end.

Lemma write_counters_spec rows i l s :
  g_counter_list s = Some l → (i + length (listed rows) ≤ length l)%nat →
  ∃ w, write_counters rows i s = Ok (tt, set_written w s) ∧
    (NoDup (br_uuid <$> listed rows) → ∀ k row c, listed rows !! k = Some row → l !! (i + k)%nat = Some c →
       w !! br_uuid row = Some (c_counter_value c, c_status c)) ∧
    (∀ u, u ∉ br_uuid <$> listed rows → w !! u = written s !! u).
Proof.
  revert i s. induction rows as [|row rows IH]; intros i s Hl Hlen.
  { exists (written s). split_and!; [by destruct s|done|done]. }
  cbn [write_counters]. rewrite listed_cons in *. destruct (br_enabled row) as [b|]; [|by apply IH].
  simpl in Hlen.
  destruct (lookup_lt_is_Some_2 l i) as [c Hc]; [lia|].
  step. rewrite Hl. step. rewrite Hc. step.
  set (s1 := set_written _ s).
  destruct (IH (S i) s1 Hl) as (w & E & Hw & Ho); [lia|].
  exists w. split_and!; [done| |].
  - rewrite fmap_cons. intros [Hn Hnd]%NoDup_cons k row' c' Hk Hck.
    destruct k as [|k]; simpl in Hk.
    + injection Hk as <-. rewrite Nat.add_0_r, Hc in Hck. injection Hck as <-.
      rewrite Ho by done. simpl. by rewrite lookup_insert_eq.
    + apply (Hw Hnd k row'); [done|]. by replace (S i + k)%nat with (i + S k)%nat by lia.
  - intros u [Hu1 Hu2]%not_elem_of_cons. rewrite Ho by done. simpl. by rewrite lookup_insert_ne.
Qed.

(** C26: a counter value reaches the row it belongs to.  With collection enabled
    and no row disabled, building the list, collecting and writing back all
    return, and the k-th listed row gets the k-th value the provider returned;
    the time of the collection is recorded; a row is marked triggered exactly when the collection was caused by a trigger
    and the value has reached a non-zero threshold. *)
Theorem counter_values_reach_their_rows rows triggered now s :
  no_disabled rows → enabled (bufmon_cfg s) = true → listed rows ≠ [] →
  NoDup (br_uuid <$> listed rows) → class_registered = true → has_stats_get = true →
  ∃ s1 s2 s3, bufmon_create_counters_list rows s = Ok (tt, s1) ∧
    bufmon_get_current_counters_value triggered s1 = Ok (tt, s2) ∧
    bufmon_ovsdb_update true now rows s2 = Ok (tt, s3) ∧ bufmon_latch s2 = true ∧
    timestamp s3 = Some now ∧
    ∀ k row, listed rows !! k = Some row →
      let v := stats_get (provider_log s) (counter_of_row <$> listed rows) k in
      let threshold := default 0 (br_trigger_threshold row) in
      written s3 !! br_uuid row =
        Some (v, if triggered && negb (threshold =? 0) && (threshold <=? v)
                 then BUFMON_STATUS_TRIGGERED else BUFMON_STATUS_OK).
Proof.
  intros Hd He Hne Hnd Hcls Hget.
  pose proof (create_counters_spec rows s Hd He Hne) as E1. set (s1 := set_counters _ _ _) in E1.
  set (vals := λ i c, set_value (stats_get (provider_log s) (counter_of_row <$> listed rows) i) c).
  set (l := (λ c, set_status (if counter_triggered triggered c then BUFMON_STATUS_TRIGGERED
                              else BUFMON_STATUS_OK) c) <$> imap vals (counter_of_row <$> listed rows)).
  assert (length l = length (listed rows)) as Hlen by (unfold l; by rewrite length_fmap, length_imap, length_fmap).
  assert (∃ s2, bufmon_get_current_counters_value triggered s1 = Ok (tt, s2) ∧
    g_counter_list s2 = Some l ∧ bufmon_latch s2 = true) as (s2 & E2 & El & Elatch).
  { unfold bufmon_get_current_counters_value. step. step. cbn [g_counter_list s1 set_counters].
    destruct (Z.eqb_spec (num_active_counters s1) 0) as [Hz|_].
    { simpl in Hz. by destruct (listed rows). }
    unfold bufmon_stats_get. rewrite Hcls, Hget. eexists. split; [reflexivity|]. done. }
  destruct (write_counters_spec rows 0 l (set_timestamp now s2) El) as (w & E3 & Hw & _); [lia|].
  exists s1, s2, (set_written w (set_timestamp now s2)). split_and!; [done|done|done|done|done|].
  intros k row Hk v threshold.
  destruct (lookup_lt_is_Some_2 l k) as [c Hc]; [rewrite Hlen; by eapply lookup_lt_Some|].
  simpl. rewrite (Hw Hnd k row c Hk Hc). unfold l in Hc.
  rewrite list_lookup_fmap, list_lookup_imap, list_lookup_fmap, Hk in Hc. simpl in Hc.
  injection Hc as <-. done.
Qed.

Lemma wakeup_counters seq seq' t1 t2 now now' t s w t' s' :
  thread_wakeup seq seq' t1 t2 now now' t s = Ok ((w, t'), s') →
  g_counter_list s' = g_counter_list s ∧ num_active_counters s' = num_active_counters s.
Proof.
  unfold thread_wakeup. destruct (negb _).
  - destruct (_ =? _); [done|]. destruct (_ || _); [|by intros [= _ _ <-]].
    destruct (trigger_rate_limit_run true s) as [evs E]. step E. by intros [= _ _ <-].
  - destruct (_ <? _); [|by intros [= _ _ <-]].
    destruct (trigger_disabled t); cbn [mwhen]; [|by intros [= _ _ <-]].
    destruct (trigger_rate_limit_run false s) as [evs E]. step E. by intros [= _ _ <-].
Qed.

(** in every interleaving of the main loop with the statistics thread, from
    start-up on, the length kept beside the counter array is the length of the
    array (zero exactly when there is none), so the provider is never given a
    wrong length. *)
Theorem counters_length_invariant seq now tr s t :
  exec (bst_start, thread_start seq now) tr (s, t) → counters_ok s.
Proof.
  intros He. remember (bst_start, thread_start seq now) as c0. remember (s, t) as c.
  revert s t Heqc. induction He as [c|c tr c' l c'' He IH Hstep]; intros s t ->; [by injection Heqc0 as -> _|].
  destruct c' as [s0 t0]. specialize (IH Heqc0 s0 t0 eq_refl). inversion Hstep; subst.
  - by eapply run_keeps.
  - done.
  - match goal with H : thread_wakeup _ _ _ _ _ _ _ _ = _ |- _ => apply wakeup_counters in H as [Eg En] end.
    unfold counters_ok in *. by rewrite Eg, En.
  - match goal with H : bufmon_run_stats_update _ _ _ = _ |- _ => rename H into Hr end.
    unfold bufmon_run_stats_update in Hr. apply bind_Ok in Hr as (cfg & s1 & [= <- <-] & Hr).
    apply bind_Ok in Hr as (nx & s1 & [= <- <-] & Hr).
    destruct (_ || _); [by injection Hr as <-|]. destruct (_ && _); [by injection Hr as <-|].
    destruct (_ && _); [by injection Hr as <-|].
    destruct (get_current_ok b s0 IH) as (s1 & E1 & Hok1 & _).
    apply bind_Ok in Hr as ([] & s1' & E1' & Hr). rewrite E1 in E1'. injection E1' as <-.
    apply bind_Ok in Hr as ([] & s2 & [= <-] & Hr).
    destruct b; simpl in Hr; [|by injection Hr as <-].
    unfold bufmon_set_system_config in Hr. rewrite provider_call_run in Hr. injection Hr as <-.
    by destruct (_ && _).
Qed.

(** ** The rate limit *)

(** The triggered collections of a trace with the readings of the clock and the
    limits in force, and the readings at the resets of the limit. *)
Definition collected (tr : list label) : list (Z * Z) :=
  omap (λ l, match l with Wake (Collected t1 t2 _) => Some (t1, t2) | _ => None end) tr.
Definition limits (tr : list label) : list Z :=
  omap (λ l, match l with Wake (Collected _ _ limit) => Some limit | _ => None end) tr.
Definition resets (tr : list label) : list (Z * Z) :=
  omap (λ l, match l with Wake (TimedOut r) => r | _ => None end) tr.

(** How many collections there were since the last reset. *)
Definition count_label (n : Z) (l : label) : Z :=
  match l with
  | Wake (Collected _ _ _) => n + 1
  | Wake (TimedOut (Some _)) => 0
  | _ => n
  end.
Definition since_reset (tr : list label) : Z := fold_left count_label tr 0.

(** No collection exceeds the limit it was decided under. *)
Definition limited (tr : list label) : Prop :=
  ∀ tr1 t1 t2 limit tr2, tr = tr1 ++ Wake (Collected t1 t2 limit) :: tr2 → since_reset tr1 + 1 ≤ limit.

(** From one pair of readings to the next at least, or more than, [d] passes. *)
Definition spaced (d : Z) (l : list (Z * Z)) : Prop :=
  ∀ i a b, l !! i = Some a → l !! S i = Some b → a.2 + d ≤ b.1.

Lemma collected_app tr1 tr2 : collected (tr1 ++ tr2) = collected tr1 ++ collected tr2.
Proof. unfold collected. apply omap_app. Qed.

Lemma since_reset_snoc tr l : since_reset (tr ++ [l]) = count_label (since_reset tr) l.
Proof. unfold since_reset. by rewrite fold_left_app. Qed.

Lemma since_reset_quiet tr seg :
  resets seg = [] → since_reset (tr ++ seg) = since_reset tr + Z.of_nat (length (collected seg)).
Proof.
  induction seg as [|l seg IH] using rev_ind; [rewrite app_nil_r; simpl; lia|].
  unfold resets, collected in *. rewrite !omap_app. intros [Hr Hl]%app_nil. specialize (IH Hr).
  rewrite app_assoc, since_reset_snoc, IH, length_app. destruct l as [| |[| |[]]|]; simpl in *; done || lia.
Qed.

Lemma since_reset_nonneg tr : 0 ≤ since_reset tr.
Proof.
  induction tr as [|l tr IH] using rev_ind; [done|]. rewrite since_reset_snoc. destruct l as [| |[| |[]]|]; simpl; lia.
Qed.

Lemma limited_app tr1 tr2 : limited (tr1 ++ tr2) → limited tr1.
Proof. intros H a t1 t2 limit b ->. eapply (H a t1 t2 limit (b ++ tr2)). by rewrite <-app_assoc. Qed.

Lemma limited_snoc tr l :
  limited tr → (∀ t1 t2 limit, l = Wake (Collected t1 t2 limit) → since_reset tr + 1 ≤ limit) → limited (tr ++ [l]).
Proof.
  intros H Hl a t1 t2 limit b E. destruct b as [|x b _] using rev_ind.
  - apply app_inj_tail in E as [-> ->]. by eapply Hl.
  - rewrite (app_assoc a (_ :: b) [x] : a ++ _ :: (b ++ [x]) = _) in E. apply app_inj_tail in E as [-> _]. by eapply H.
Qed.

Lemma spaced_snoc d l x :
  spaced d l → (∀ y, last l = Some y → y.2 + d ≤ x.1) → spaced d (l ++ [x]).
Proof.
  intros H Hx i a b Ha Hb. destruct (decide (S i < length l)%nat) as [Hlt|Hge].
  - rewrite lookup_app_l in Ha, Hb by lia. by eapply H.
  - pose proof (lookup_lt_Some _ _ _ Hb) as Hlt. rewrite length_app in Hlt. simpl in Hlt.
    rewrite lookup_app_r in Hb by lia. replace (S i - length l)%nat with 0%nat in Hb by lia. injection Hb as <-.
    apply Hx. rewrite lookup_app_l in Ha by lia. rewrite last_lookup. by replace (pred (length l)) with i by lia.
Qed.

Lemma spaced_app d l1 l2 : spaced d (l1 ++ l2) → spaced d l2.
Proof.
  intros H i a b Ha Hb. apply (H (length l1 + i)%nat); rewrite lookup_app_r by lia.
  - by replace (length l1 + i - length l1)%nat with i by lia.
  - by replace (S (length l1 + i) - length l1)%nat with (S i) by lia.
Qed.

(** A stretch without a reset. *)
Lemma quiet_stretch L tr seg :
  0 ≤ L → limited (tr ++ seg) → resets seg = [] → Forall (λ x, x ≤ L) (limits seg) →
  Z.of_nat (length (collected seg)) ≤ L.
Proof.
  intros Hge. induction seg as [|l seg IH] using rev_ind; intros Hl Hr Hlim; [done|].
  unfold resets, limits, collected in *. rewrite !omap_app in *. apply app_nil in Hr as [Hr Hr']. apply Forall_app in Hlim as [Hlim Hlim'].
  rewrite app_assoc in Hl. pose proof (limited_app _ _ Hl) as Hl'. specialize (IH Hl' Hr Hlim).
  destruct l as [| |[t1 t2 limit| |]|]; simpl in *; rewrite ?app_nil_r; try done.
  specialize (Hl (tr ++ seg) t1 t2 limit [] eq_refl). rewrite since_reset_quiet in Hl by done.
  apply Forall_cons in Hlim' as [? _]. pose proof (since_reset_nonneg tr). unfold collected in Hl. rewrite length_app. simpl. lia.
Qed.

Lemma split_reset tr r l :
  resets tr = r :: l → ∃ tr1 tr2, tr = tr1 ++ Wake (TimedOut (Some r)) :: tr2 ∧ resets tr1 = [] ∧ resets tr2 = l.
Proof.
  induction tr as [|x tr IH]; [done|]. destruct (decide (resets [x] = [])) as [Ex|Ex].
  - assert (resets (x :: tr) = resets tr) as ->.
    { change (x :: tr) with ([x] ++ tr). unfold resets in *. by rewrite omap_app, Ex. }
    intros (tr1 & tr2 & -> & E1 & E2)%IH. exists (x :: tr1), tr2. split; [done|]. split; [|done].
    change (x :: tr1) with ([x] ++ tr1). unfold resets in *. by rewrite omap_app, Ex.
  - destruct x as [| |[| |[r'|]]|]; try done. intros [= <- <-]. by exists [], tr.
Qed.

(** In a minute there is at most one reset, so at most twice the limit. *)
Lemma minute_stretch L a tr seg :
  0 ≤ L → limited (tr ++ seg) → spaced 61 (resets seg) → Forall (λ r, a ≤ r.2 ∧ r.1 ≤ a + 60) (resets seg) →
  Forall (λ x, x ≤ L) (limits seg) → Z.of_nat (length (collected seg)) ≤ 2 * L.
Proof.
  intros Hge Hl Hsp Hmin Hlim. destruct (resets seg) as [|r [|r' l]] eqn:Er.
  - pose proof (quiet_stretch L tr seg Hge Hl Er Hlim). lia.
  - destruct (split_reset _ _ _ Er) as (s1 & s2 & -> & E1 & E2).
    unfold limits in Hlim. rewrite omap_app in Hlim. apply Forall_app in Hlim as [Hlim1 Hlim2].
    assert (Z.of_nat (length (collected s1)) ≤ L).
    { apply (quiet_stretch L tr s1 Hge); [|done..]. rewrite app_assoc in Hl. by apply limited_app in Hl. }
    assert (Z.of_nat (length (collected s2)) ≤ L).
    { apply (quiet_stretch L (tr ++ s1 ++ [Wake (TimedOut (Some r))]) s2 Hge); [|done..].
      by rewrite <-!app_assoc. }
    rewrite collected_app, length_app. change (collected (_ :: s2)) with (collected s2). lia.
  - specialize (Hsp 0%nat r r' eq_refl eq_refl). apply Forall_cons in Hmin as [? Hmin].
    apply Forall_cons in Hmin as [? _]. lia.
Qed.

Lemma wakeup_cases seq seq' t1 t2 now now' t s w t' s' :
  thread_wakeup seq seq' t1 t2 now now' t s = Ok ((w, t'), s') →
  (w = Limited ∧ trigger_reports_count t' = trigger_reports_count t + 1 ∧
     next_trigger_msec t' = next_trigger_msec t ∧ last_rate_limit_time t' = last_rate_limit_time t) ∨
  (w = Collected t1 t2 (trigger_rate_limit t) ∧ trigger_reports_count t' = trigger_reports_count t + 1 ∧
     next_trigger_msec t' = t2 + 100 ∧ last_rate_limit_time t' = last_rate_limit_time t ∧
     trigger_reports_count t + 1 ≤ trigger_rate_limit t ∧ next_trigger_msec t ≤ t1) ∨
  (w = TimedOut (Some (now, now')) ∧ trigger_reports_count t' = 0 ∧ next_trigger_msec t' = next_trigger_msec t ∧
     last_rate_limit_time t' = to_signed 32 now' ∧ last_rate_limit_time t + 61 ≤ now) ∨
  (w = TimedOut None ∧ trigger_reports_count t' = trigger_reports_count t ∧
     next_trigger_msec t' = next_trigger_msec t ∧ last_rate_limit_time t' = last_rate_limit_time t).
Proof.
  unfold thread_wakeup. destruct (negb _).
  - destruct (_ =? _); [done|]. destruct (_ || _) eqn:El.
    + intros (? & ? & _ & [= <- <- <-])%bind_Ok. by left.
    + intros [= <- <- <-]. right; left. apply orb_false_iff in El as [?%Z.ltb_ge ?%Z.ltb_ge]. by split_and!.
  - destruct (Z.ltb_spec DEFAULT_TRIGGER_RATE_LIMIT_DURATION (now - last_rate_limit_time t)) as [Hlt|_].
    + intros (? & ? & _ & [= <- <- <-])%bind_Ok. right; right; left.
      unfold DEFAULT_TRIGGER_RATE_LIMIT_DURATION in Hlt. split_and!; try done. lia.
    + intros [= <- <- <-]. by right; right; right.
Qed.

(** What the thread remembers of a trace; the clock of seconds fits in an int. *)
Record limit_inv (start : Z) (tr : list label) (t : thread) : Prop := LimitInv {
  li_count : since_reset tr ≤ trigger_reports_count t;
  li_limited : limited tr;
  li_last : ∀ u, last (collected tr) = Some u → next_trigger_msec t = u.2 + 100;
  li_spaced : spaced 100 (collected tr);
  li_reset : last_rate_limit_time t = (default (start, start) (last (resets tr))).2;
  li_resets : spaced 61 (resets tr);
}.

Definition fits_int (r : Z * Z) : Prop := 0 ≤ r.2 ≤ INT_MAX.

Lemma fits_signed n : 0 ≤ n ≤ INT_MAX → to_signed 32 n = n.
Proof.
  unfold INT_MAX, to_signed. intros H. rewrite Z.mod_small by lia.
  destruct (Z.ltb_spec n (2 ^ (32 - 1))); lia.
Qed.

Lemma limit_inv_quiet start tr t l t' :
  limit_inv start tr t → collected [l] = [] → resets [l] = [] →
  trigger_reports_count t ≤ trigger_reports_count t' → next_trigger_msec t' = next_trigger_msec t →
  last_rate_limit_time t' = last_rate_limit_time t → limit_inv start (tr ++ [l]) t'.
Proof.
  intros [H1 H2 H3 H4 H5 H6] Hc Hr Hn Et El.
  assert (collected (tr ++ [l]) = collected tr) as Ec by (unfold collected in *; by rewrite omap_app, Hc, app_nil_r).
  assert (resets (tr ++ [l]) = resets tr) as Er by (unfold resets in *; by rewrite omap_app, Hr, app_nil_r).
  constructor; rewrite ?Ec, ?Er, ?Et, ?El; try done.
  - rewrite since_reset_quiet, Hc by done. simpl. lia.
  - apply limited_snoc; [done|]. intros t1 t2 limit ->. done.
Qed.

Lemma limit_invariant seq now tr s t :
  exec (bst_start, thread_start seq now) tr (s, t) → 0 ≤ now ≤ INT_MAX → Forall fits_int (resets tr) →
  limit_inv now tr t.
Proof.
  intros He Hnow. remember (bst_start, thread_start seq now) as c0. remember (s, t) as c.
  revert s t Heqc. induction He as [c|c tr c' l c'' He IH Hstep]; intros s t -> Hfit.
  { injection Heqc0 as _ ->. constructor; simpl; try done; [by intros [|?] ? ? ? ? ?|by rewrite fits_signed]. }
  destruct c' as [s0 t0]. unfold resets in Hfit. rewrite omap_app in Hfit. apply Forall_app in Hfit as [Hfit Hl].
  specialize (IH Heqc0 s0 t0 eq_refl Hfit). inversion Hstep; subst; try by eapply limit_inv_quiet.
  match goal with H : thread_wakeup _ _ _ _ _ _ _ _ = _ |- _ =>
    destruct (wakeup_cases _ _ _ _ _ _ _ _ _ _ _ H) as
      [(-> & E1 & E2 & E3)|[(-> & E1 & E2 & E3 & Hle & Hn)|[(-> & E1 & E2 & E3 & Hn)|(-> & E1 & E2 & E3)]]] end.
  1, 4: eapply limit_inv_quiet; [exact IH|done|done|lia|done|done].
  - destruct IH as [I1 I2 I3 I4 I5 I6]. constructor; unfold collected, resets in *; rewrite ?omap_app in *; simpl;
      rewrite ?app_nil_r in *; try done.
    + rewrite since_reset_snoc. simpl. lia.
    + apply limited_snoc; [done|]. intros ? ? ? [= <- <- <-]. lia.
    + rewrite last_snoc. by intros u [= <-].
    + apply spaced_snoc; [done|]. intros y Hy. simpl. rewrite <-(I3 y Hy). lia.
    + by rewrite E3.
  - destruct IH as [I1 I2 I3 I4 I5 I6]. constructor; unfold collected, resets in *; rewrite ?omap_app in *; simpl;
      rewrite ?app_nil_r in *; try done.
    + rewrite since_reset_snoc. simpl. lia.
    + apply limited_snoc; [done|]. by intros.
    + by rewrite E2.
    + rewrite last_snoc. simpl. apply Forall_cons in Hl as [? _]. by rewrite E3, fits_signed.
    + apply spaced_snoc; [done|]. intros y Hy. rewrite Hy in I5. simpl in I5. simpl. lia.
Qed.

(** C22: the trigger limits hold.  In every interleaving of the statistics
    thread with the main loop from start-up: no triggered collection exceeds the
    rate limit the thread last read, counted from the last reset of the count;
    in any stretch whose resets fall into one minute of the clock there are at
    most twice as many collections as the limit (the count is reset at most once
    in it); and two triggered collections are at least 100 ms apart.  The clock
    of seconds is that of [time_now], which the thread keeps in an int. *)
Theorem trigger_limits_hold seq now tr1 tr2 s t L minute :
  exec (bst_start, thread_start seq now) (tr1 ++ tr2) (s, t) →
  0 ≤ now ≤ INT_MAX → Forall fits_int (resets (tr1 ++ tr2)) →
  0 ≤ L → Forall (λ limit, limit ≤ L) (limits tr2) →
  Forall (λ r, minute ≤ r.2 ∧ r.1 ≤ minute + 60) (resets tr2) →
  limited (tr1 ++ tr2) ∧ Z.of_nat (length (collected tr2)) ≤ 2 * L ∧ spaced 100 (collected (tr1 ++ tr2)).
Proof.
  intros He Hnow Hfit Hge Hlim Hmin. destruct (limit_invariant _ _ _ _ _ He Hnow Hfit) as [_ Hl _ Hs _ Hr].
  split; [done|]. split; [|done]. apply (minute_stretch L minute tr1); try done.
  unfold resets in *. rewrite omap_app in Hr. by apply spaced_app in Hr.
Qed.

(** Is a collection due? *)
Definition collection_due (triggered : bool) (now : Z) (s : bst) : bool :=
  let cfg := bufmon_cfg s in
  enabled cfg && (if triggered then threshold_trigger_collection_enabled cfg
                  else periodic_collection_enabled cfg && (next_poll_interval s <=? now)).

(** Collections happen exactly when they are due.  A triggered collection
    needs trigger collection to be enabled, a periodic one needs periodic
    collection and an expired timer, and both need monitoring to be enabled;
    otherwise nothing changes.  A collection arms the timer one period later,
    asks the main loop for a database update when there are counters, and
    after a trigger the configuration is sent to the provider again. *)
Theorem collection_happens_when_due triggered now s :
  counters_ok s → 0 ≤ collection_period (bufmon_cfg s) ≤ 2147483 →
  ∃ s', bufmon_run_stats_update triggered now s = Ok (tt, s') ∧
    if collection_due triggered now s then
      next_poll_interval s' = now + collection_period (bufmon_cfg s) * 1000 ∧
      (g_counter_list s ≠ None → bufmon_latch s' = true) ∧
      (triggered = true → class_registered = true → has_system_config = true →
         last (provider_log s') = Some (ConfigSystem (bufmon_cfg s)))
    else s' = s.
Proof.
  intros Hok Hp. unfold bufmon_run_stats_update, collection_due. step. step.
  destruct (get_current_ok triggered s Hok) as (s1 & E1 & Hok1 & Ec & _).
  assert (g_counter_list s ≠ None → bufmon_latch s1 = true) as Hlatch.
  { intros Hne. unfold bufmon_get_current_counters_value in E1.
    apply bind_Ok in E1 as (? & ? & [= <- <-] & E1). apply bind_Ok in E1 as (? & ? & [= <- <-] & E1).
    unfold counters_ok in Hok. destruct (g_counter_list s) as [l|]; [|done]. destruct Hok as [Hn Hl].
    destruct (Z.eqb_spec (num_active_counters s) 0); [destruct l; simpl in *; [done|lia]|].
    apply bind_Ok in E1 as (? & ? & _ & E1). apply bind_Ok in E1 as (? & ? & _ & E1). by injection E1 as <-. }
  assert (period_msec (bufmon_cfg s) = collection_period (bufmon_cfg s) * 1000) as Hms.
  { unfold period_msec, to_signed. rewrite Z.mod_small by lia. destruct (Z.ltb_spec (collection_period (bufmon_cfg s) * 1000) (2 ^ (32 - 1))); lia. }
  destruct (enabled (bufmon_cfg s)) eqn:Een; cbn [negb orb andb]; [|by exists s].
  destruct triggered; cbn [negb andb orb].
  - rewrite andb_false_r. destruct (threshold_trigger_collection_enabled (bufmon_cfg s)) eqn:Et.
    + rewrite orb_true_r. cbn [negb]. step E1. step. cbn [mwhen]. unfold bufmon_set_system_config.
      rewrite provider_call_run. eexists. split; [reflexivity|]. split_and!.
      * destruct (_ && _); simpl; by rewrite Hms.
      * intros Hne. destruct (_ && _); simpl; by apply Hlatch.
      * intros _ Hc Hh. rewrite Hc, Hh. simpl. by rewrite last_snoc.
    + cbn [negb]. destruct (negb _); by exists s.
  - destruct (periodic_collection_enabled (bufmon_cfg s)) eqn:Epd; cbn [negb orb andb].
    + rewrite Z.leb_antisym. destruct (now <? next_poll_interval s); cbn [negb andb]; [by exists s|].
      step E1. step. exists (set_next_poll (now + period_msec (bufmon_cfg s)) s1).
      split; [done|]. split_and!; [by rewrite Hms|done|done].
    + destruct (negb _); by exists s.
Qed.
End Facts.

(** ** Concrete runs *)

Definition ref_bufmon_schema : BufmonSchema := {|
  BUFMON_CONFIG_MAP_ENABLED := "enabled";
  BUFMON_CONFIG_MAP_COUNTERS_MODE := "counters_mode";
  BUFMON_CONFIG_MAP_PERIODIC_COLLECTION_ENABLED := "periodic_collection_enabled";
  BUFMON_CONFIG_MAP_COLLECTION_PERIOD := "collection_period";
  BUFMON_CONFIG_MAP_THRESHOLD_TRIGGER_COLLECTION_ENABLED := "threshold_trigger_collection_enabled";
  BUFMON_CONFIG_MAP_TRIGGER_RATE_LIMIT := "threshold_trigger_rate_limit";
  BUFMON_CONFIG_MAP_SNAPSHOT_ON_THRESHOLD_TRIGGER := "snapshot_on_threshold_trigger";
|}.

(** A provider that reports 40, 41, ... *)
Definition ref_bufmon : BufmonProvider := {|
  class_registered := true;
  has_system_config := true;
  has_counter_config := true;
  has_trigger_register := true;
  has_stats_get := true;
  stats_get := λ _ _ i, 40 + Z.of_nat i;
|}.

#[local] Existing Instance ref_lib.
#[local] Existing Instance ref_bufmon_schema.
#[local] Existing Instance ref_bufmon.

Definition ex_config : smap :=
  {[ "enabled" := "true"; "periodic_collection_enabled" := "true";
     "threshold_trigger_collection_enabled" := "true" ]}.
Definition ex_cell (uuid : Z) (enabled : option bool) (threshold : option Z) : ovsrec_bufmon :=
  BufmonRow uuid "pool" enabled 0 ∅ threshold true false.
Definition ex_rows : list ovsrec_bufmon :=
  [ex_cell 1 (Some true) (Some 10); ex_cell 2 None None; ex_cell 3 (Some true) (Some 50)].
Definition ex_idl (rows : list ovsrec_bufmon) (seq : Z) : idl_bufmon :=
  IdlBufmon (Some ex_config) true false rows true false seq 1000.

(** The state after the first run of the main loop. *)
Definition ex_monitoring : bst :=
  match bufmon_run (ex_idl ex_rows 1) bst_start with Ok (_, s) => s | Fault _ => bst_start end.

Lemma counter_values_reach_their_rows_witness :
  ∃ s1 s2 s3, bufmon_create_counters_list ex_rows ex_monitoring = Ok (tt, s1) ∧
    bufmon_get_current_counters_value true s1 = Ok (tt, s2) ∧
    bufmon_ovsdb_update true 77 ex_rows s2 = Ok (tt, s3) ∧ bufmon_latch s2 = true ∧
    timestamp s3 = Some 77 ∧
    ∀ k row, listed ex_rows !! k = Some row →
      let v := stats_get (provider_log ex_monitoring) (counter_of_row <$> listed ex_rows) k in
      let threshold := default 0 (br_trigger_threshold row) in
      written s3 !! br_uuid row =
        Some (v, if true && negb (threshold =? 0) && (threshold <=? v)
                 then BUFMON_STATUS_TRIGGERED else BUFMON_STATUS_OK).
Proof.
  apply (counter_values_reach_their_rows ex_rows true 77 ex_monitoring).
  - by_compute.
  - vm_compute. reflexivity.
  - discriminate.
  - by_compute.
  - reflexivity.
  - reflexivity.
Defined.

Definition ex_thread : thread := thread_start 0 1000.
Definition ex_polling : thread := thread_begin 5000 (bufmon_cfg ex_monitoring) ex_thread.

Lemma ex_exec : exec (bst_start, ex_thread) [Main; Begin] (ex_monitoring, ex_polling).
Proof.
  apply (exec_snoc _ [Main] (ex_monitoring, ex_thread)).
  - apply (exec_snoc _ [] (bst_start, ex_thread)); [apply exec_nil|].
    apply (step_main (ex_idl ex_rows 1)). vm_compute. reflexivity.
  - apply step_begin; vm_compute; reflexivity.
Qed.

Lemma counters_length_invariant_witness : counters_ok ex_monitoring.
Proof. apply (counters_length_invariant 0 1000 [Main; Begin] ex_monitoring ex_polling). apply ex_exec. Defined.

(** A trigger is collected, and 70 seconds later the count is reset. *)
Definition ex_trace : list label := [Wake (Collected 6000 6001 60); Collect; Begin; Wake (TimedOut (Some (1070, 1070)))].

Definition ex_wake (t1 now : Z) (s : bst) (t : thread) : bst * thread :=
  match thread_wakeup 1 1 t1 (t1 + 1) now now t s with Ok ((_, t'), s') => (s', t') | Fault _ => (s, t) end.
Definition ex_woken : bst * thread := ex_wake 6000 1006 ex_monitoring ex_polling.
Definition ex_stored : bst :=
  match bufmon_run_stats_update true 6002 ex_woken.1 with Ok (_, s) => s | Fault _ => ex_woken.1 end.
Definition ex_polling_again : thread := thread_begin 6003 (bufmon_cfg ex_stored) (thread_done ex_woken.2).
Definition ex_timed_out : bst * thread := ex_wake 70000 1070 ex_stored ex_polling_again.

Lemma ex_trace_exec : exec (bst_start, ex_thread) ([Main; Begin] ++ ex_trace) ex_timed_out.
Proof.
  apply (exec_snoc _ ([Main; Begin] ++ [Wake (Collected 6000 6001 60); Collect; Begin]) (ex_stored, ex_polling_again)).
  - apply (exec_snoc _ ([Main; Begin] ++ [Wake (Collected 6000 6001 60); Collect]) (ex_stored, thread_done ex_woken.2)).
    + apply (exec_snoc _ ([Main; Begin] ++ [Wake (Collected 6000 6001 60)]) ex_woken).
      * apply (exec_snoc _ [Main; Begin] (ex_monitoring, ex_polling)); [apply ex_exec|].
        apply (step_wakeup 1 1 6000 6001 1006 1006); vm_compute; reflexivity.
      * apply (step_collect 6002 _ _ true); vm_compute; reflexivity.
    + apply step_begin; vm_compute; reflexivity.
  - apply (step_wakeup 1 1 70000 70001 1070 1070); vm_compute; reflexivity.
Qed.

Lemma trigger_limits_hold_witness :
  limited ([Main; Begin] ++ ex_trace) ∧ Z.of_nat (length (collected ex_trace)) ≤ 2 * 60 ∧
  spaced 100 (collected ([Main; Begin] ++ ex_trace)).
Proof.
  apply (trigger_limits_hold 0 1000 [Main; Begin] ex_trace ex_timed_out.1 ex_timed_out.2 60 1050).
  - apply ex_trace_exec.
  - by_compute.
  - repeat constructor; by_compute.
  - by_compute.
  - repeat constructor; by_compute.
  - repeat constructor; by_compute.
Defined.

Lemma collection_happens_when_due_witness :
  ∃ s', bufmon_run_stats_update true 7000 ex_monitoring = Ok (tt, s') ∧
    if collection_due true 7000 ex_monitoring then
      next_poll_interval s' = 7000 + collection_period (bufmon_cfg ex_monitoring) * 1000 ∧
      (g_counter_list ex_monitoring ≠ None → bufmon_latch s' = true) ∧
      (true = true → class_registered = true → has_system_config = true →
         last (provider_log s') = Some (ConfigSystem (bufmon_cfg ex_monitoring)))
    else s' = ex_monitoring.
Proof.
  apply (collection_happens_when_due true 7000 ex_monitoring).
  - vm_compute. split; [reflexivity|discriminate].
  - vm_compute. split; discriminate.
Defined.

(** ** Counters that are explicitly disabled

    The array is sized by the rows whose enabled column is true, but filled and
    read back by the rows whose enabled column is set. *)

(** One enabled and one disabled counter make the first run of the main
    loop write past the end of the counter array. *)
Theorem disabled_counter_overflows_list :
  bufmon_run (ex_idl [ex_cell 1 (Some true) None; ex_cell 2 (Some false) None] 1) bst_start =
  Fault BufferOverflow.
Proof. vm_compute. reflexivity. Qed.

(** Disabling the last enabled counter while a collected value waits to be
    written makes the main loop dereference the null counter array. *)
Theorem disabling_last_counter_crashes :
  ∃ s, bufmon_run_stats_update false 9000 ex_monitoring = Ok (tt, s) ∧
    bufmon_run (ex_idl [ex_cell 1 (Some false) (Some 10); ex_cell 3 (Some false) (Some 50)] 2) s =
    Fault NullDereference.
Proof. eexists. split; vm_compute; reflexivity. Qed.
