(* ===== verification/Subsystem.v ===== *)
(** * Subsystems and their physical interfaces: subsystem.c

    The daemon keeps one structure per row of the Subsystem table, with one
    structure and one network device per interface of the subsystem.  Devices
    belong to the netdev library: the calls to it are logged, and its answers
    are parameters. *)

From S2P Require Import Prelude OvsLib Blocks.
Import StatsBlocks.
Local Open Scope Z_scope.

(** ** Database rows *)

Record ovsrec_interface := InterfaceRow {
  ir_uuid : Z;
  ir_name : string;
  ir_hw_intf_info : smap;
  ir_hw_intf_config : smap;
  ir_split_parent : option string;    (* split_parent->name *)
  ir_n_split_children : nat;
  ir_modified : bool;
}.

Record ovsrec_subsystem := SubsystemRow {
  sr_name : string;
  sr_interfaces : list ovsrec_interface;
}.

Record ovsrec_system := SystemRow {
  sys_other_config : smap;
  sys_subsystems : list ovsrec_subsystem;
}.

(** ** The netdev library *)

Inductive netdev_event :=
| NetdevOpen (name : string)
| NetdevSetInfo (name : string) (info : smap)
| NetdevSetConfig (name : string) (config : smap)
| NetdevClose (name : option string)
| NetdevRemove (name : string)
(** [execute_stats_block] with [sblk.netdev] (None: null). *)
| StatsCallback (blk : stats_block_id) (netdev : option string).

(** Feature bits, as in netdev.h. *)
Class Netdev := {
  NETDEV_F_PAUSE : Z;
  NETDEV_F_PAUSE_ASYM : Z;
  netdev_is_reserved_name : string → bool;
  netdev_open : list netdev_event → string → Z;
  netdev_set_hw_intf_info : list netdev_event → string → smap → Z;
  netdev_set_hw_intf_config : list netdev_event → string → smap → Z;
  netdev_features_to_bps : Z → Z;
  netdev_features_is_full_duplex : Z → bool;
}.

(** The column values of the schema that are written below, and the key of the
    split parent. *)
Class InterfaceSchema := {
  INTERFACE_HW_INTF_INFO_SPLIT_PARENT : string;
  OVSREC_INTERFACE_ADMIN_STATE_UP : string;
  OVSREC_INTERFACE_ADMIN_STATE_DOWN : string;
  OVSREC_INTERFACE_LINK_STATE_UP : string;
  OVSREC_INTERFACE_LINK_STATE_DOWN : string;
  OVSREC_INTERFACE_PAUSE_NONE : string;
  OVSREC_INTERFACE_PAUSE_RXTX : string;
  OVSREC_INTERFACE_PAUSE_TX : string;
  OVSREC_INTERFACE_PAUSE_RX : string;
  OVSREC_INTERFACE_DUPLEX_FULL : string;
  OVSREC_INTERFACE_DUPLEX_HALF : string;
  DFLT_SYSTEM_OTHER_CONFIG_STATS_UPDATE_INTERVAL : Z;
}.

(** What the queries of one device answer at one moment; an error is [None]. *)
Record netdev_answers := Answers {
  na_change_seq : Z;
  na_status : option smap;
  na_up : option bool;
  na_carrier : bool;
  na_carrier_resets : Z;
  na_features : option Z;
  na_mtu : option Z;
  na_etheraddr : option string;
  na_stats : string → Z;              (* unsigned 64-bit counters, by member *)
}.

(** The columns of an Interface row the daemon writes. *)
Record iface_columns := Columns {
  col_status : option smap;
  col_admin_state : option string;
  col_link_state : string;
  col_link_resets : Z;
  col_pause : option string;
  col_duplex : option string;
  col_link_speed : Z;
  col_mtu : option Z;
  col_mac_in_use : option string;
}.

(** ** Structures *)

Record iface := Iface {
  i_name : string;
  i_subsystem : option string;        (* the containing subsystem, None: null *)
  i_change_seq : Z;
  i_cfg : option ovsrec_interface;
}.

Record subsystem := SubsystemSt {
  s_name : string;
  s_cfg : option ovsrec_subsystem;
  iface_by_name : list iface;
  wanted_ifaces : shash ovsrec_interface;
}.

Record sst := SSt {
  all_subsystems : list subsystem;
  stats_timer_interval : Z;
  stats_timer : Z;
  ss_seqno : Z;                       (* idl_seqno *)
  columns : gmap Z iface_columns;     (* by uuid of the Interface row *)
  statistics : gmap Z (list (string * Z));
  netdev_log : list netdev_event;
}.

Definition set_subsystems (l : list subsystem) (s : sst) : sst :=
  SSt l (stats_timer_interval s) (stats_timer s) (ss_seqno s) (columns s) (statistics s) (netdev_log s).
Definition set_stats_timer (i t : Z) (s : sst) : sst :=
  SSt (all_subsystems s) i t (ss_seqno s) (columns s) (statistics s) (netdev_log s).
Definition set_ss_seqno (n : Z) (s : sst) : sst :=
  SSt (all_subsystems s) (stats_timer_interval s) (stats_timer s) n (columns s) (statistics s)
    (netdev_log s).
Definition set_columns (m : gmap Z iface_columns) (s : sst) : sst :=
  SSt (all_subsystems s) (stats_timer_interval s) (stats_timer s) (ss_seqno s) m (statistics s)
    (netdev_log s).
Definition set_statistics (m : gmap Z (list (string * Z))) (s : sst) : sst :=
  SSt (all_subsystems s) (stats_timer_interval s) (stats_timer s) (ss_seqno s) (columns s) m
    (netdev_log s).
Definition add_netdev_event (e : netdev_event) (s : sst) : sst :=
  SSt (all_subsystems s) (stats_timer_interval s) (stats_timer s) (ss_seqno s) (columns s)
    (statistics s) (netdev_log s ++ [e]).

(** [IFACE_STATS]: the members of [struct netdev_stats] and their keys. *)
Definition IFACE_STATS : list (string * string) :=
  [("rx_packets", "rx_packets"); ("tx_packets", "tx_packets"); ("rx_bytes", "rx_bytes");
   ("tx_bytes", "tx_bytes"); ("rx_dropped", "rx_dropped"); ("tx_dropped", "tx_dropped");
   ("rx_errors", "rx_errors"); ("tx_errors", "tx_errors"); ("rx_crc_errors", "rx_crc_err");
   ("collisions", "collisions");
   ("ipv4_uc_tx_packets", "ipv4_uc_tx_packets"); ("ipv4_uc_rx_packets", "ipv4_uc_rx_packets");
   ("ipv4_uc_tx_bytes", "ipv4_uc_tx_bytes"); ("ipv4_uc_rx_bytes", "ipv4_uc_rx_bytes");
   ("ipv4_mc_tx_packets", "ipv4_mc_tx_packets"); ("ipv4_mc_rx_packets", "ipv4_mc_rx_packets");
   ("ipv4_mc_tx_bytes", "ipv4_mc_tx_bytes"); ("ipv4_mc_rx_bytes", "ipv4_mc_rx_bytes");
   ("ipv6_uc_tx_packets", "ipv6_uc_tx_packets"); ("ipv6_uc_rx_packets", "ipv6_uc_rx_packets");
   ("ipv6_uc_tx_bytes", "ipv6_uc_tx_bytes"); ("ipv6_uc_rx_bytes", "ipv6_uc_rx_bytes");
   ("ipv6_mc_tx_packets", "ipv6_mc_tx_packets"); ("ipv6_mc_rx_packets", "ipv6_mc_rx_packets");
   ("ipv6_mc_tx_bytes", "ipv6_mc_tx_bytes"); ("ipv6_mc_rx_bytes", "ipv6_mc_rx_bytes");
   ("l3_uc_rx_packets", "l3_uc_rx_packets"); ("l3_uc_rx_bytes", "l3_uc_rx_bytes");
   ("l3_uc_tx_packets", "l3_uc_tx_packets"); ("l3_uc_tx_bytes", "l3_uc_tx_bytes");
   ("l3_mc_rx_packets", "l3_mc_rx_packets"); ("l3_mc_rx_bytes", "l3_mc_rx_bytes");
   ("l3_mc_tx_packets", "l3_mc_tx_packets"); ("l3_mc_tx_bytes", "l3_mc_tx_bytes");
   ("sflow_ingress_packets", "sflow_ingress_packets"); ("sflow_ingress_bytes", "sflow_ingress_bytes");
   ("sflow_egress_packets", "sflow_egress_packets"); ("sflow_egress_bytes", "sflow_egress_bytes")].

Definition N_IFACE_STATS : nat := length IFACE_STATS.

Section Subsystem.
Context `{HL : OvsLib, HN : Netdev, HI : InterfaceSchema}.
(** The answers of the device with a name, for one run of the main loop. *)
Context (answers : string → netdev_answers).

(** ** Interfaces *)

(** The columns computed from the answers. *)
Definition pause_column (current : Z) : string :=
  let pause := Z.land current (Z.lor NETDEV_F_PAUSE NETDEV_F_PAUSE_ASYM) in
  if pause =? 0 then OVSREC_INTERFACE_PAUSE_NONE
  else if pause =? NETDEV_F_PAUSE then OVSREC_INTERFACE_PAUSE_RXTX
  else if pause =? NETDEV_F_PAUSE_ASYM then OVSREC_INTERFACE_PAUSE_TX
  else OVSREC_INTERFACE_PAUSE_RX.

Definition netdev_columns (a : netdev_answers) : iface_columns :=
  {| col_status := na_status a;
     col_admin_state :=
       match na_up a with
       | Some up => Some (if up then OVSREC_INTERFACE_ADMIN_STATE_UP
                          else OVSREC_INTERFACE_ADMIN_STATE_DOWN)
       | None => None
       end;
     col_link_state := if na_carrier a then OVSREC_INTERFACE_LINK_STATE_UP
                       else OVSREC_INTERFACE_LINK_STATE_DOWN;
     col_link_resets := na_carrier_resets a;
     col_pause := pause_column <$> na_features a;
     col_duplex :=
       match na_features a with
       | Some current => Some (if netdev_features_is_full_duplex current
                               then OVSREC_INTERFACE_DUPLEX_FULL else OVSREC_INTERFACE_DUPLEX_HALF)
       | None => None
       end;
     col_link_speed :=
       match na_features a with Some current => netdev_features_to_bps current | None => 0 end;
     col_mtu := na_mtu a;
     col_mac_in_use := na_etheraddr a |}.

(** The structure is returned with the change number seen. *)
Definition iface_refresh_netdev_status (i : iface) : M sst iface :=
  let a := answers (i_name i) in
  if i_change_seq i =? na_change_seq a then mret i else
  cfg ← deref (i_cfg i);
  modify (λ s, set_columns (<[ir_uuid cfg := netdev_columns a]> (columns s)) s) ;;
  mret (Iface (i_name i) (i_subsystem i) (na_change_seq a) (i_cfg i)).

(** The [keys] and [values] arrays: members that are not all-ones, converted to
    signed. *)
Definition iface_stats (a : netdev_answers) : list (string * Z) :=
  omap (λ p, if na_stats a p.1 =? UINT64_MAX then None else Some (p.2, to_signed 64 (na_stats a p.1)))
    IFACE_STATS.

Definition iface_refresh_stats (i : iface) : M sst unit :=
  let l := iface_stats (answers (i_name i)) in
  ovs_assert (bool_decide (length l ≤ N_IFACE_STATS)%nat) ;;
  cfg ← deref (i_cfg i);
  modify (λ s, set_statistics (<[ir_uuid cfg := l]> (statistics s)) s).

Definition iface_lookup (ss : subsystem) (name : string) : option iface :=
  hmap_first_with_hash (λ i, hash_string (i_name i)) (hash_string name)
    (λ i, bool_decide (i_name i = name)) (iface_by_name ss).

Definition set_ifaces (l : list iface) (ss : subsystem) : subsystem :=
  SubsystemSt (s_name ss) (s_cfg ss) l (wanted_ifaces ss).
Definition set_wanted (m : shash ovsrec_interface) (ss : subsystem) : subsystem :=
  SubsystemSt (s_name ss) (s_cfg ss) (iface_by_name ss) m.

Definition iface_set_netdev_hw_intf_config (cfg : ovsrec_interface) (netdev : string) : M sst Z :=
  l ← gets netdev_log;
  modify (add_netdev_event (NetdevSetConfig netdev (ir_hw_intf_config cfg))) ;;
  mret (netdev_set_hw_intf_config l netdev (ir_hw_intf_config cfg)).

(** The smap handed to the device. *)
Definition hw_intf_info_of (cfg : ovsrec_interface) : smap :=
  match ir_split_parent cfg with
  | Some parent => <[INTERFACE_HW_INTF_INFO_SPLIT_PARENT := parent]> (ir_hw_intf_info cfg)
  | None => ir_hw_intf_info cfg
  end.

(** Returns 0, or the error after closing whatever was opened. *)
Definition iface_do_create (cfg : ovsrec_interface) : M sst Z :=
  let fail netdev error :=
    modify (add_netdev_event (NetdevClose netdev)) ;; mret error in
  if netdev_is_reserved_name (ir_name cfg) then fail None EINVAL else
  l ← gets netdev_log;
  modify (add_netdev_event (NetdevOpen (ir_name cfg))) ;;
  let error := netdev_open l (ir_name cfg) in
  if negb (error =? 0) then fail None error else
  let info := hw_intf_info_of cfg in
  l ← gets netdev_log;
  modify (add_netdev_event (NetdevSetInfo (ir_name cfg) info)) ;;
  let error := netdev_set_hw_intf_info l (ir_name cfg) info in
  if negb (error =? 0) then fail (Some (ir_name cfg)) error else
  error ← iface_set_netdev_hw_intf_config cfg (ir_name cfg);
  if negb (error =? 0) then fail (Some (ir_name cfg)) error else
  mret 0.

(** The new structure comes from [xzalloc]: its [subsystem] member is null, and
    no statement assigns it. *)
Definition iface_create (ss : subsystem) (cfg : ovsrec_interface) : M sst (bool * subsystem) :=
  ovs_assert (match iface_lookup ss (ir_name cfg) with None => true | Some _ => false end) ;;
  error ← iface_do_create cfg;
  if negb (error =? 0) then mret (false, ss) else
  let i := Iface (ir_name cfg) None 0 (Some cfg) in
  i ← iface_refresh_netdev_status i;
  iface_refresh_stats i ;;
  modify (add_netdev_event (StatsCallback STATS_SUBSYSTEM_CREATE_NETDEV (Some (ir_name cfg)))) ;;
  mret (true, set_ifaces (hmap_insert (hash_string (ir_name cfg)) i (iface_by_name ss)) ss).

(** [hmap_remove(&ss->iface_by_name, ...)] with [ss = iface->subsystem]. *)
Definition iface_destroy (ss : subsystem) (i : iface) : M sst subsystem :=
  deref (i_subsystem i) ;;
  modify (add_netdev_event (NetdevRemove (i_name i))) ;;
  mret (set_ifaces (filter (λ x, i_name x ≠ i_name i) (iface_by_name ss)) ss).

(** ** Subsystems *)

Definition subsystem_lookup (name : string) (s : sst) : option subsystem :=
  hmap_first_with_hash (λ ss, hash_string (s_name ss)) (hash_string name)
    (λ ss, bool_decide (s_name ss = name)) (all_subsystems s).

Definition subsystem_create (cfg : ovsrec_subsystem) : M sst unit :=
  known ← gets (subsystem_lookup (sr_name cfg));
  ovs_assert (match known with None => true | Some _ => false end) ;;
  modify (λ s, set_subsystems (hmap_insert (hash_string (sr_name cfg))
    (SubsystemSt (sr_name cfg) (Some cfg) [] ∅) (all_subsystems s)) s).

Definition subsystem_destroy (ss : subsystem) : M sst unit :=
  mfold iface_destroy (iface_by_name ss) ss ;;
  modify (λ s, set_subsystems (filter (λ x, s_name x ≠ s_name ss) (all_subsystems s)) s).

(** A write through the pointer to a subsystem. *)
Definition put_subsystem (ss : subsystem) : M sst unit :=
  modify (λ s, set_subsystems
    ((λ x, if bool_decide (s_name x = s_name ss) then ss else x) <$> all_subsystems s) s).

Definition add_del_subsystems (sys : ovsrec_system) : M sst unit :=
  let new_ss := shash_collect sr_name (sys_subsystems sys) in
  old ← gets all_subsystems;
  mfor old (λ ss,
    let ss := SubsystemSt (s_name ss) (new_ss !! s_name ss) (iface_by_name ss) (wanted_ifaces ss) in
    put_subsystem ss ;;
    match s_cfg ss with
    | None => subsystem_destroy ss
    | Some _ => mret tt
    end) ;;
  mfor (sys_subsystems sys) (λ cfg,
    known ← gets (subsystem_lookup (sr_name cfg));
    match known with
    | None => subsystem_create cfg
    | Some _ => mret tt
    end).

(** The structure with its [wanted_ifaces] filled. *)
Definition subsystem_collect_wanted_ifaces (ss : subsystem) : M sst subsystem :=
  cfg ← deref (s_cfg ss);
  mret (set_wanted (shash_collect ir_name (sr_interfaces cfg)) ss).

(** [iface->cfg = ...], then the deletion when it is null. *)
Definition del_iface_if_unwanted (wanted : shash ovsrec_interface) (ss : subsystem) (i : iface)
  : M sst subsystem :=
  let i := Iface (i_name i) (i_subsystem i) (i_change_seq i) (wanted !! i_name i) in
  let ss := set_ifaces ((λ x, if bool_decide (i_name x = i_name i) then i else x)
                          <$> iface_by_name ss) ss in
  match i_cfg i with
  | None => iface_destroy ss i
  | Some _ => mret ss
  end.

Definition subsystem_del_ifaces (ss : subsystem) : M sst subsystem :=
  mfold (del_iface_if_unwanted (wanted_ifaces ss)) (iface_by_name ss) ss.

Definition reconfigure_iface (ss : subsystem) (cfg : ovsrec_interface) : M sst unit :=
  match iface_lookup ss (ir_name cfg) with
  | Some i => mwhen (ir_modified cfg) (iface_set_netdev_hw_intf_config cfg (i_name i) ;; mret tt)
  | None => mret tt
  end.

Definition subsystem_reconfigure_ifaces (ss : subsystem) : M sst unit :=
  mfor (shash_nodes (wanted_ifaces ss)).*2 (reconfigure_iface ss).

Definition add_iface_if_new (ss : subsystem) (cfg : ovsrec_interface) : M sst subsystem :=
  match iface_lookup ss (ir_name cfg) with
  | None => r ← iface_create ss cfg; mret r.2
  | Some _ => mret ss
  end.

(** [n_split_children != 0] *)
Definition is_split_parent (cfg : ovsrec_interface) : bool := negb (ir_n_split_children cfg =? 0)%nat.

(** Split parents first, then the others. *)
Definition subsystem_add_ifaces (ss : subsystem) : M sst subsystem :=
  let nodes := (shash_nodes (wanted_ifaces ss)).*2 in
  ss ← mfold (λ ss cfg, if is_split_parent cfg then add_iface_if_new ss cfg else mret ss) nodes ss;
  mfold (λ ss cfg, if is_split_parent cfg then mret ss else add_iface_if_new ss cfg) nodes ss.

Definition subsystem_reconfigure (sys : ovsrec_system) : M sst unit :=
  add_del_subsystems sys ;;
  all ← gets all_subsystems;
  mfor all (λ ss,
    ss ← subsystem_collect_wanted_ifaces ss;
    ss ← subsystem_del_ifaces ss;
    put_subsystem ss) ;;
  all ← gets all_subsystems;
  mfor all subsystem_reconfigure_ifaces ;;
  all ← gets all_subsystems;
  mfor all (λ ss,
    ss ← subsystem_add_ifaces ss;
    put_subsystem (set_wanted ∅ ss)).

(** ** The main loop's entry points *)

Definition run_status_update : M sst unit :=
  all ← gets all_subsystems;
  mfor all (λ ss,
    l ← mfold (λ l i, i ← iface_refresh_netdev_status i; mret (l ++ [i])) (iface_by_name ss) [];
    put_subsystem (set_ifaces l ss)).

(** [cfg] is dereferenced without a test; [now] and [now'] are the two readings
    of the clock. *)
Definition run_stats_update (sys : option ovsrec_system) (now now' : Z) : M sst unit :=
  cfg ← deref sys;
  let interval := Z.max (smap_get_int (sys_other_config cfg) "stats-update-interval"
                           DFLT_SYSTEM_OTHER_CONFIG_STATS_UPDATE_INTERVAL)
                    DFLT_SYSTEM_OTHER_CONFIG_STATS_UPDATE_INTERVAL in
  old ← gets stats_timer_interval;
  mwhen (negb (old =? interval)) (modify (set_stats_timer interval LLONG_MIN)) ;;
  timer ← gets stats_timer;
  mwhen (timer <=? now)
    (modify (add_netdev_event (StatsCallback STATS_SUBSYSTEM_BEGIN None)) ;;
     all ← gets all_subsystems;
     mfor all (λ ss,
       modify (add_netdev_event (StatsCallback STATS_PER_SUBSYSTEM None)) ;;
       mfor (iface_by_name ss) (λ i,
         iface_refresh_stats i ;;
         modify (add_netdev_event (StatsCallback STATS_PER_SUBSYSTEM_NETDEV (Some (i_name i)))))) ;;
     modify (add_netdev_event (StatsCallback STATS_SUBSYSTEM_END None)) ;;
     modify (λ s, set_stats_timer (stats_timer_interval s) (now' + stats_timer_interval s) s)).

Definition subsystem_run (sys : option ovsrec_system) (has_lock : bool) (seqno now now' : Z)
  : M sst unit :=
  if negb has_lock then mret tt else
  last ← gets ss_seqno;
  mwhen (negb (seqno =? last))
    (subsystem_reconfigure (default (SystemRow ∅ []) sys) ;; modify (set_ss_seqno seqno)) ;;
  run_status_update ;;
  run_stats_update sys now now'.

Definition subsystem_init (seqno : Z) : M sst unit := modify (set_ss_seqno seqno).

Definition subsystem_exit : M sst unit :=
  all ← gets all_subsystems; mfor all subsystem_destroy.
End Subsystem.

Definition sst_start : sst := SSt [] 0 LLONG_MIN 0 ∅ ∅ [].
