(* ===== verification/SubsystemFacts.v ===== *)
(** * Correctness of the subsystem layer

    Devices are opened and closed in pairs, reconfiguration without removals
    creates every wanted interface (split parents before the others), status
    and statistics reach the rows of the interfaces; removing an interface
    dereferences a null pointer. *)

From S2P Require Import Prelude OvsLib Blocks Subsystem.
Import StatsBlocks.
Local Open Scope Z_scope.

(** ** Invariant *)

(** An interface as [iface_create] builds it: its row has its name, and its
    [subsystem] member is null. *)
Definition iface_wf (i : iface) : Prop :=
  i_subsystem i = None ∧ ∃ cfg, i_cfg i = Some cfg ∧ ir_name cfg = i_name i.

Definition subsystem_wf (ss : subsystem) : Prop :=
  NoDup (i_name <$> iface_by_name ss) ∧ Forall iface_wf (iface_by_name ss).

Definition sst_wf (s : sst) : Prop :=
  NoDup (s_name <$> all_subsystems s) ∧ Forall subsystem_wf (all_subsystems s).

(** The devices opened, in order. *)
Definition opened (l : list netdev_event) : list string :=
  omap (λ e, match e with NetdevOpen n => Some n | _ => None end) l.

(** The rows written by the interfaces of the structures. *)
Definition iface_uuid (i : iface) : option Z := ir_uuid <$> i_cfg i.

Section Facts.
Context `{HL : OvsLib, HN : Netdev, HI : InterfaceSchema}.
Context (answers : string → netdev_answers).

(** A device that can be opened and configured at any time. *)
Definition device_works (name : string) : Prop :=
  netdev_is_reserved_name name = false ∧
  ∀ l, netdev_open l name = 0 ∧
       (∀ info, netdev_set_hw_intf_info l name info = 0) ∧
       (∀ config, netdev_set_hw_intf_config l name config = 0).

(** ** Lookups *)

Lemma iface_lookup_None ss name :
  iface_lookup ss name = None ↔ name ∉ (i_name <$> iface_by_name ss).
Proof.
  unfold iface_lookup, hmap_first_with_hash. rewrite find_None_iff, list_elem_of_fmap. split.
  - intros H (i & -> & Hi). specialize (H i Hi). by rewrite Z.eqb_refl, bool_decide_true in H.
  - intros H i Hi. case_bool_decide as En; [|by rewrite andb_false_r]. destruct H. eauto.
Qed.

Lemma iface_lookup_Some ss name i :
  iface_lookup ss name = Some i → i ∈ iface_by_name ss ∧ i_name i = name.
Proof.
  unfold iface_lookup, hmap_first_with_hash. intros [Hi Hn]%List.find_some.
  apply andb_true_iff in Hn as [_ Hn%bool_decide_eq_true]. by apply list_elem_of_In in Hi.
Qed.

Lemma subsystem_lookup_None name s :
  subsystem_lookup name s = None ↔ name ∉ (s_name <$> all_subsystems s).
Proof.
  unfold subsystem_lookup, hmap_first_with_hash. rewrite find_None_iff, list_elem_of_fmap. split.
  - intros H (i & -> & Hi). specialize (H i Hi). by rewrite Z.eqb_refl, bool_decide_true in H.
  - intros H i Hi. case_bool_decide as En; [|by rewrite andb_false_r]. destruct H. eauto.
Qed.

Lemma iface_stats_length a : (length (iface_stats a) ≤ N_IFACE_STATS)%nat.
Proof. apply omap_length. Qed.

Lemma iface_refresh_stats_run i cfg s :
  i_cfg i = Some cfg →
  iface_refresh_stats answers i s =
  Ok (tt, set_statistics (<[ir_uuid cfg := iface_stats (answers (i_name i))]> (statistics s)) s).
Proof.
  intros E. unfold iface_refresh_stats. rewrite bool_decide_true by apply iface_stats_length.
  step. rewrite E. by step.
Qed.

(** ** Creation of interfaces *)

(** What [iface_do_create] may return and the calls it makes on the way, from
    the calls [l] made so far: on success the device stays open, on each error
    path it is closed if it was opened. *)
Inductive create_outcome (cfg : ovsrec_interface) (l : list netdev_event)
  : Z → list netdev_event → Prop :=
| create_reserved :
    netdev_is_reserved_name (ir_name cfg) = true →
    create_outcome cfg l EINVAL [NetdevClose None]
| create_not_opened e :
    netdev_is_reserved_name (ir_name cfg) = false →
    netdev_open l (ir_name cfg) = e → e ≠ 0 →
    create_outcome cfg l e [NetdevOpen (ir_name cfg); NetdevClose None]
| create_no_info e :
    netdev_is_reserved_name (ir_name cfg) = false →
    netdev_open l (ir_name cfg) = 0 →
    netdev_set_hw_intf_info (l ++ [NetdevOpen (ir_name cfg)]) (ir_name cfg) (hw_intf_info_of cfg) = e →
    e ≠ 0 →
    create_outcome cfg l e
      [NetdevOpen (ir_name cfg); NetdevSetInfo (ir_name cfg) (hw_intf_info_of cfg);
       NetdevClose (Some (ir_name cfg))]
| create_configured e :
    netdev_is_reserved_name (ir_name cfg) = false →
    netdev_open l (ir_name cfg) = 0 →
    netdev_set_hw_intf_info (l ++ [NetdevOpen (ir_name cfg)]) (ir_name cfg) (hw_intf_info_of cfg) = 0 →
    netdev_set_hw_intf_config
      (l ++ [NetdevOpen (ir_name cfg); NetdevSetInfo (ir_name cfg) (hw_intf_info_of cfg)])
      (ir_name cfg) (ir_hw_intf_config cfg) = e →
    create_outcome cfg l e
      ([NetdevOpen (ir_name cfg); NetdevSetInfo (ir_name cfg) (hw_intf_info_of cfg);
        NetdevSetConfig (ir_name cfg) (ir_hw_intf_config cfg)] ++
       (if e =? 0 then [] else [NetdevClose (Some (ir_name cfg))])).

(** The state with [ev] appended to the log. *)
Definition log_events (ev : list netdev_event) (s : sst) : sst :=
  fold_left (λ s e, add_netdev_event e s) ev s.

Lemma iface_do_create_cases cfg s :
  ∃ r ev, iface_do_create cfg s = Ok (r, log_events ev s) ∧ create_outcome cfg (netdev_log s) r ev.
Proof.
  unfold iface_do_create, iface_set_netdev_hw_intf_config, mbind, M_bind, mret, M_ret, modify, gets.
  cbv zeta. cbn [netdev_log add_netdev_event].
  destruct (netdev_is_reserved_name (ir_name cfg)) eqn:Er.
  { exists EINVAL, [NetdevClose None]. split; [done|]. by constructor. }
  destruct (Z.eqb_spec (netdev_open (netdev_log s) (ir_name cfg)) 0) as [E1|E1];
    cbn [negb netdev_log add_netdev_event].
  2:{ eexists _, _. split; [|by eapply create_not_opened]. done. }
  match goal with |- context [?x =? 0] => destruct (Z.eqb_spec x 0) as [E2|E2] end;
    cbn [negb netdev_log add_netdev_event].
  2:{ eexists _, _. split; [|by eapply create_no_info]. done. }
  eexists _, _. split; [|by eapply create_configured]. rewrite <-app_assoc. simpl.
  destruct (netdev_set_hw_intf_config _ _ _ =? 0) eqn:E3; simpl; [|done].
  by apply Z.eqb_eq in E3 as ->.
Qed.

Lemma netdev_log_events ev s : netdev_log (log_events ev s) = netdev_log s ++ ev.
Proof.
  revert s. induction ev as [|e ev IH]; intros s; simpl; [by rewrite app_nil_r|].
  rewrite IH. simpl. by rewrite <-app_assoc.
Qed.

Lemma log_events_frame ev s :
  all_subsystems (log_events ev s) = all_subsystems s ∧ columns (log_events ev s) = columns s ∧
  statistics (log_events ev s) = statistics s.
Proof. revert s. induction ev as [|e ev IH]; intros s; simpl; [done|]. apply (IH (add_netdev_event e s)). Qed.

(** The structure [iface_create] inserts. *)
Definition new_iface (cfg : ovsrec_interface) : iface :=
  Iface (ir_name cfg) None (na_change_seq (answers (ir_name cfg))) (Some cfg).

(** The columns after a first look at the device: nothing is written while the
    device has never changed. *)
Definition first_columns (cfg : ovsrec_interface) (m : gmap Z iface_columns) : gmap Z iface_columns :=
  if na_change_seq (answers (ir_name cfg)) =? 0 then m
  else <[ir_uuid cfg := netdev_columns (answers (ir_name cfg))]> m.

(** The effect of a creation on everything but the log. *)
Lemma iface_create_cases ss cfg s :
  ir_name cfg ∉ (i_name <$> iface_by_name ss) →
  ∃ r ev, create_outcome cfg (netdev_log s) r ev ∧
    iface_create answers ss cfg s =
    if r =? 0 then
      Ok ((true, set_ifaces (hmap_insert (hash_string (ir_name cfg)) (new_iface cfg) (iface_by_name ss)) ss),
          log_events [StatsCallback STATS_SUBSYSTEM_CREATE_NETDEV (Some (ir_name cfg))]
            (set_statistics (<[ir_uuid cfg := iface_stats (answers (ir_name cfg))]> (statistics s))
              (set_columns (first_columns cfg (columns s)) (log_events ev s))))
    else Ok ((false, ss), log_events ev s).
Proof.
  intros Hn%iface_lookup_None. destruct (iface_do_create_cases cfg s) as (r & ev & E & Ho).
  exists r, ev. split; [done|]. unfold iface_create. rewrite Hn. step. step E.
  destruct (r =? 0); [|done]. cbn [negb].
  destruct (log_events_frame ev s) as (_ & Ec & Est).
  unfold iface_refresh_netdev_status, first_columns, new_iface. cbn [i_change_seq i_name i_cfg].
  rewrite (Z.eqb_sym 0). destruct (Z.eqb_spec (na_change_seq (answers (ir_name cfg))) 0) as [E0|_].
  - step. step iface_refresh_stats_run. step. rewrite E0, <-Ec, <-Est. by destruct (log_events ev s).
  - step. step iface_refresh_stats_run. step. rewrite <-Ec, <-Est. by destruct (log_events ev s).
Qed.

(** C37: [iface_create] is all or nothing.  A new interface whose device opens
    and accepts its settings is inserted with its row and gets its status
    (unless the device never changed) and its statistics written, and the
    statistics callbacks run; on an error the structures and the tables stay as
    they were, a device that was opened is closed again, and false is returned.
    A name that is already there fails the assertion. *)
Theorem iface_create_all_or_nothing (ss : subsystem) (cfg : ovsrec_interface) (s : sst) :
  if decide (ir_name cfg ∈ (i_name <$> iface_by_name ss))
  then iface_create answers ss cfg s = Fault AssertionFailure
  else ∃ r ev ok ss' s', iface_create answers ss cfg s = Ok ((ok, ss'), s') ∧
    create_outcome cfg (netdev_log s) r ev ∧ all_subsystems s' = all_subsystems s ∧
    (r = 0 → ok = true ∧ iface_by_name ss' ≡ₚ new_iface cfg :: iface_by_name ss ∧
      netdev_log s' =
        netdev_log s ++ ev ++ [StatsCallback STATS_SUBSYSTEM_CREATE_NETDEV (Some (ir_name cfg))] ∧
      columns s' = first_columns cfg (columns s) ∧
      statistics s' = <[ir_uuid cfg := iface_stats (answers (ir_name cfg))]> (statistics s)) ∧
    (r ≠ 0 → ok = false ∧ ss' = ss ∧ netdev_log s' = netdev_log s ++ ev ∧
      columns s' = columns s ∧ statistics s' = statistics s).
Proof.
  case_decide as Hn.
  - unfold iface_create. destruct (iface_lookup ss (ir_name cfg)) eqn:E; [done|].
    by apply iface_lookup_None in E.
  - destruct (iface_create_cases ss cfg s Hn) as (r & ev & Ho & E).
    destruct (log_events_frame ev s) as (Ea & Ec & Est).
    destruct (Z.eqb_spec r 0); eexists r, ev, _, _, _; (split; [exact E|]); simpl;
      rewrite ?netdev_log_events, <-?app_assoc.
    + repeat (split; [done|]). split; [|done]. intros _. split; [done|].
      split; [apply hmap_insert_perm|done].
    + repeat (split; [done|]). done.
Qed.

(** ** Adding the wanted interfaces *)

Lemma opened_app l1 l2 : opened (l1 ++ l2) = opened l1 ++ opened l2.
Proof. apply omap_app. Qed.

(** The device is opened once, unless its name is reserved. *)
Lemma create_outcome_opened cfg l r ev :
  create_outcome cfg l r ev →
  opened ev = if netdev_is_reserved_name (ir_name cfg) then [] else [ir_name cfg].
Proof. destruct 1 as [Hr|e Hr|e Hr|e Hr]; rewrite Hr; simpl; try done. by case_match. Qed.

Lemma create_outcome_works cfg l r ev :
  device_works (ir_name cfg) → create_outcome cfg l r ev → r = 0.
Proof.
  intros [Hr Hw]. destruct 1 as [Hr'|e _ E|e _ _ E|e _ _ _ E]; [congruence|..];
    subst e; apply Hw.
Qed.

Lemma new_iface_wf cfg : iface_wf (new_iface cfg).
Proof. split; [done|]. by exists cfg. Qed.

(** [ss'] is [ss] with interfaces made from rows of [rows] added. *)
Definition grows (rows : list ovsrec_interface) (ss ss' : subsystem) : Prop :=
  subsystem_wf ss' ∧
  (s_name ss' = s_name ss ∧ s_cfg ss' = s_cfg ss ∧ wanted_ifaces ss' = wanted_ifaces ss) ∧
  (∀ i, i ∈ iface_by_name ss → i ∈ iface_by_name ss') ∧
  (∀ i, i ∈ iface_by_name ss' → i ∈ iface_by_name ss ∨ ∃ cfg, cfg ∈ rows ∧ i = new_iface cfg).

Lemma grows_refl ss : subsystem_wf ss → grows [] ss ss.
Proof. unfold grows. naive_solver. Qed.

Lemma grows_trans rows1 rows2 ss1 ss2 ss3 :
  grows rows1 ss1 ss2 → grows rows2 ss2 ss3 → grows (rows1 ++ rows2) ss1 ss3.
Proof.
  intros (Hw1 & (En1 & Ec1 & Ew1) & Hm1 & Hn1) (Hw2 & (En2 & Ec2 & Ew2) & Hm2 & Hn2).
  split; [done|]. split; [repeat split; congruence|]. split; [naive_solver|].
  intros i [Hi|(cfg & Hc & ->)]%Hn2; [|right; exists cfg; set_solver].
  destruct (Hn1 i Hi) as [?|(cfg & ? & ->)]; [by left|right; exists cfg; set_solver].
Qed.

Lemma grows_names rows ss ss' n :
  grows rows ss ss' → n ∈ (i_name <$> iface_by_name ss') →
  n ∈ (i_name <$> iface_by_name ss) ∨ n ∈ (ir_name <$> rows).
Proof.
  intros (_ & _ & _ & Hn) (i & -> & Hi)%list_elem_of_fmap.
  destruct (Hn i Hi) as [?|(cfg & ? & ->)]; [left; by apply list_elem_of_fmap_2|].
  right. by apply (list_elem_of_fmap_2 ir_name).
Qed.

Lemma grows_mono rows ss ss' n :
  grows rows ss ss' → n ∈ (i_name <$> iface_by_name ss) → n ∈ (i_name <$> iface_by_name ss').
Proof. intros (_ & _ & Hm & _) (i & -> & Hi)%list_elem_of_fmap. by apply list_elem_of_fmap_2, Hm. Qed.

Lemma grows_more rows rows' ss ss' : rows ⊆ rows' → grows rows ss ss' → grows rows' ss ss'.
Proof.
  intros Hr (Hw & Hf & Hm & Hn). split; [done|]. split; [done|]. split; [done|].
  intros i [?|(cfg & ? & ->)]%Hn; [by left|right; eauto].
Qed.

(** A row whose device is opened when the interfaces of [ss] exist. *)
Definition opens_device (ss : subsystem) (cfg : ovsrec_interface) : Prop :=
  (ir_name cfg ∉ (i_name <$> iface_by_name ss)) ∧ netdev_is_reserved_name (ir_name cfg) = false.

#[global] Instance opens_device_dec ss cfg : Decision (opens_device ss cfg).
Proof. apply _. Defined.

Lemma opens_device_new ss cfg :
  ir_name cfg ∉ (i_name <$> iface_by_name ss) →
  (if netdev_is_reserved_name (ir_name cfg) then [] else [ir_name cfg]) =
  (if decide (opens_device ss cfg) then [ir_name cfg] else []).
Proof.
  intros Hn. case_decide as Hd; unfold opens_device in Hd; [by rewrite (proj2 Hd)|].
  destruct (netdev_is_reserved_name (ir_name cfg)); naive_solver.
Qed.

(** One wanted row: afterwards the interface exists if its device works. *)
Lemma add_iface_if_new_run ss cfg s :
  subsystem_wf ss →
  ∃ ss' s', add_iface_if_new answers ss cfg s = Ok (ss', s') ∧
    all_subsystems s' = all_subsystems s ∧ netdev_log s `prefix_of` netdev_log s' ∧
    grows [cfg] ss ss' ∧
    (device_works (ir_name cfg) → ir_name cfg ∈ (i_name <$> iface_by_name ss')) ∧
    opened (netdev_log s') = opened (netdev_log s) ++
      (if decide (opens_device ss cfg) then [ir_name cfg] else []).
Proof.
  intros Hwf. unfold add_iface_if_new. destruct (iface_lookup ss (ir_name cfg)) as [i|] eqn:El.
  { apply iface_lookup_Some in El as [Hi En]. eexists ss, s. split; [done|].
    assert (ir_name cfg ∈ (i_name <$> iface_by_name ss)) as Hin by (rewrite <-En; by apply list_elem_of_fmap_2).
    rewrite decide_False, app_nil_r by (by intros [? _]). split; [done|]. split; [done|].
    split; [|done]. eapply grows_more; [|by apply grows_refl]. set_solver. }
  apply iface_lookup_None in El.
  destruct (iface_create_cases ss cfg s El) as (r & ev & Ho & E).
  destruct (log_events_frame ev s) as (Ea & _ & _). apply create_outcome_opened in Ho as Hop.
  destruct Hwf as [Hnd Hall].
  destruct (Z.eqb_spec r 0) as [Er|Er].
  - erewrite bind_run by exact E. eexists _, _. split; [reflexivity|]. simpl.
    rewrite Ea, netdev_log_events, <-app_assoc, !opened_app, Hop. simpl.
    split; [done|]. split; [apply prefix_app_r, reflexivity|]. split.
    { split; [|split; [done|split]].
      - split; simpl; rewrite hmap_insert_perm; simpl; [by constructor|].
        constructor; [apply new_iface_wf|done].
      - intros i Hi. apply elem_of_hmap_insert. by right.
      - intros i [->|?]%elem_of_hmap_insert; [right; exists cfg; set_solver|by left]. }
    split; [intros _; rewrite hmap_insert_perm; left|].
    rewrite app_nil_r. f_equal. by apply opens_device_new.
  - erewrite bind_run by exact E. eexists _, _. split; [reflexivity|]. simpl.
    rewrite Ea, netdev_log_events, opened_app, Hop. split; [done|].
    split; [apply prefix_app_r, reflexivity|].
    split; [eapply grows_more; [|by apply grows_refl]; set_solver|].
    split; [intros Hw; by apply create_outcome_works in Ho|].
    f_equal. by apply opens_device_new.
Qed.

(** One pass over the wanted rows, for those that satisfy [p]. *)
Definition add_pass (p : ovsrec_interface → bool) (ss : subsystem) (cfg : ovsrec_interface)
  : M sst subsystem := if p cfg then add_iface_if_new answers ss cfg else mret ss.

Lemma add_pass_run p rows ss s :
  NoDup (ir_name <$> rows) → subsystem_wf ss →
  ∃ ss' s', mfold (add_pass p) rows ss s = Ok (ss', s') ∧
    all_subsystems s' = all_subsystems s ∧ netdev_log s `prefix_of` netdev_log s' ∧
    grows (filter p rows) ss ss' ∧
    (∀ cfg, cfg ∈ rows → p cfg → device_works (ir_name cfg) →
       ir_name cfg ∈ (i_name <$> iface_by_name ss')) ∧
    opened (netdev_log s') =
      opened (netdev_log s) ++ (ir_name <$> filter (λ cfg, p cfg ∧ opens_device ss cfg) rows).
Proof.
  revert ss s. induction rows as [|cfg rows IH]; intros ss s Hnd Hwf.
  { exists ss, s. simpl. rewrite app_nil_r. split; [done|]. split; [done|]. split; [done|].
    split; [by apply grows_refl|]. split; [set_solver|done]. }
  rewrite fmap_cons, NoDup_cons in Hnd. destruct Hnd as [Hn Hnd]. rewrite !filter_cons.
  destruct (p cfg) eqn:Ep.
  - destruct (add_iface_if_new_run ss cfg s Hwf) as (ss1 & s1 & E1 & Ea1 & Hl1 & Hg1 & Hw1 & Ho1).
    destruct (IH ss1 s1 Hnd) as (ss' & s' & E & Ea & Hl & Hg & Hw & Ho); [apply Hg1|].
    exists ss', s'. cbn [mfold]. erewrite bind_run by (unfold add_pass; rewrite Ep; exact E1).
    split; [exact E|]. split; [congruence|]. split; [by etrans|].
    rewrite (decide_True (P:=Is_true true)) by done.
    split; [by apply (grows_trans [cfg] _ _ ss1)|]. split.
    + intros c [->|Hc]%elem_of_cons; [|eauto]. intros _ Hd. eapply grows_mono; eauto.
    + rewrite Ho, Ho1, <-app_assoc. f_equal.
      assert (filter (λ c, p c ∧ opens_device ss1 c) rows = filter (λ c, p c ∧ opens_device ss c) rows) as ->.
      { apply list_filter_iff_strong. intros c Hc. unfold opens_device.
        assert (ir_name c ≠ ir_name cfg) by (intros En; apply Hn; rewrite <-En; by apply list_elem_of_fmap_2).
        pose proof (grows_names _ _ _ (ir_name c) Hg1). pose proof (grows_mono _ _ _ (ir_name c) Hg1).
        set_solver. }
      case_decide; case_decide; naive_solver.
  - destruct (IH ss s Hnd Hwf) as (ss' & s' & E & Ea & Hl & Hg & Hw & Ho).
    exists ss', s'. cbn [mfold]. erewrite bind_run by (unfold add_pass; rewrite Ep; reflexivity).
    split; [exact E|]. split; [done|]. split; [done|].
    rewrite (decide_False (P:=Is_true false)), (decide_False (P:=Is_true false ∧ _)) by naive_solver.
    split; [done|]. split; [|done].
    intros c [->|Hc]%elem_of_cons; [by rewrite Ep|eauto].
Qed.
(** The rows of a [wanted_ifaces] map are filed under their names. *)
Definition wanted_wf (m : shash ovsrec_interface) : Prop :=
  ∀ k cfg, m !! k = Some cfg → ir_name cfg = k.

Lemma wanted_names m : wanted_wf m → ir_name <$> (shash_nodes m).*2 = (shash_nodes m).*1.
Proof.
  intros Hm. rewrite <-list_fmap_compose. apply list_fmap_ext.
  intros j [k cfg] Hj%list_elem_of_lookup_2. rewrite elem_of_shash_nodes in Hj. by apply Hm.
Qed.

Lemma elem_of_wanted m cfg :
  wanted_wf m → cfg ∈ (shash_nodes m).*2 ↔ m !! ir_name cfg = Some cfg.
Proof.
  intros Hm. rewrite list_elem_of_fmap. split.
  - intros ([k c] & -> & Hk%elem_of_shash_nodes). simpl. by rewrite (Hm k c Hk).
  - intros Hc. exists (ir_name cfg, cfg). by rewrite elem_of_shash_nodes.
Qed.

Lemma subsystem_add_ifaces_run ss s :
  subsystem_wf ss → wanted_wf (wanted_ifaces ss) →
  let rows := (shash_nodes (wanted_ifaces ss)).*2 in
  ∃ ss' s', subsystem_add_ifaces answers ss s = Ok (ss', s') ∧
    all_subsystems s' = all_subsystems s ∧ netdev_log s `prefix_of` netdev_log s' ∧
    grows rows ss ss' ∧
    (∀ cfg, cfg ∈ rows → device_works (ir_name cfg) → ir_name cfg ∈ (i_name <$> iface_by_name ss')) ∧
    opened (netdev_log s') = opened (netdev_log s) ++
      (ir_name <$> filter (λ cfg, is_split_parent cfg ∧ opens_device ss cfg) rows) ++
      (ir_name <$> filter (λ cfg, negb (is_split_parent cfg) ∧ opens_device ss cfg) rows).
Proof.
  intros Hwf Hm rows.
  assert (NoDup (ir_name <$> rows)) as Hnd by (unfold rows; rewrite wanted_names by done; apply NoDup_shash_nodes).
  destruct (add_pass_run is_split_parent rows ss s Hnd Hwf) as (ss1 & s1 & E1 & Ea1 & Hl1 & Hg1 & Hw1 & Ho1).
  destruct (add_pass_run (λ c, negb (is_split_parent c)) rows ss1 s1 Hnd) as (ss2 & s2 & E2 & Ea2 & Hl2 & Hg2 & Hw2 & Ho2);
    [apply Hg1|].
  exists ss2, s2. split; [|split; [congruence|split; [by etrans|split; [|split]]]].
  - unfold subsystem_add_ifaces. fold rows. step E1.
    rewrite <-E2. apply mfold_ext. intros b c. unfold add_pass. by destruct (is_split_parent c).
  - eapply grows_more, grows_trans; [|exact Hg1|exact Hg2].
    intros c. rewrite elem_of_app, !list_elem_of_filter. tauto.
  - intros c Hc Hd. destruct (is_split_parent c) eqn:Ep.
    + eapply grows_mono; [exact Hg2|]. apply Hw1; [done|by rewrite Ep|done].
    + apply Hw2; [done|by rewrite Ep|done].
  - rewrite Ho2, Ho1, <-app_assoc. do 3 f_equal. apply list_filter_iff_strong. intros c Hc.
    unfold opens_device. destruct (is_split_parent c) eqn:Ep; simpl; [tauto|].
    assert (ir_name c ∉ (ir_name <$> filter is_split_parent rows)) as Hn.
    { intros (c' & En & [Hp Hc']%list_elem_of_filter)%list_elem_of_fmap.
      assert (c = c') as -> by (by apply (NoDup_fmap_elem ir_name rows)). by rewrite Ep in Hp. }
    pose proof (grows_names _ _ _ (ir_name c) Hg1). pose proof (grows_mono _ _ _ (ir_name c) Hg1). tauto.
Qed.

(** [subsystem_add_ifaces] returns with every wanted interface whose
    device works in place and no interface lost, and it opens the devices of
    the new split parents before those of all other new interfaces, each of
    them once. *)
Theorem split_parents_are_opened_first (ss : subsystem) (rows : list ovsrec_interface) (s : sst)
  (Hwf : subsystem_wf ss) (Hwanted : wanted_ifaces ss = shash_collect ir_name rows)
  (Hnd : NoDup (ir_name <$> rows)) :
  ∃ ss' s' parents others, subsystem_add_ifaces answers ss s = Ok (ss', s') ∧
    subsystem_wf ss' ∧
    (∀ i, i ∈ iface_by_name ss → i ∈ iface_by_name ss') ∧
    (∀ i, i ∈ iface_by_name ss' → i ∈ iface_by_name ss ∨ ∃ cfg, cfg ∈ rows ∧ i = new_iface cfg) ∧
    (∀ cfg, cfg ∈ rows → device_works (ir_name cfg) → ir_name cfg ∈ (i_name <$> iface_by_name ss')) ∧
    opened (netdev_log s') = opened (netdev_log s) ++ (ir_name <$> parents) ++ (ir_name <$> others) ∧
    parents ≡ₚ filter (λ cfg, is_split_parent cfg ∧ opens_device ss cfg) rows ∧
    others ≡ₚ filter (λ cfg, negb (is_split_parent cfg) ∧ opens_device ss cfg) rows.
Proof.
  assert (wanted_wf (wanted_ifaces ss)) as Hm.
  { rewrite Hwanted. by intros k cfg [_ ?]%shash_collect_Some. }
  destruct (subsystem_add_ifaces_run ss s Hwf Hm) as (ss' & s' & E & _ & _ & Hg & Hw & Ho).
  assert ((shash_nodes (wanted_ifaces ss)).*2 ≡ₚ rows) as Hp
    by (rewrite Hwanted; by apply shash_collect_values).
  do 4 eexists. split; [exact E|]. split; [apply Hg|]. split; [apply Hg|].
  split; [|split; [|split; [exact Ho|split]]].
  - intros i Hi. destruct Hg as (_ & _ & _ & Hn). destruct (Hn i Hi) as [?|(cfg & ? & ->)]; [by left|].
    right. exists cfg. by rewrite <-Hp.
  - intros cfg Hc. apply Hw. by rewrite Hp.
  - by apply filter_Permutation.
  - by apply filter_Permutation.
Qed.
End Facts.
