(* ===== verification/SubsystemReconf.v ===== *)
(** * Reconfiguration of the subsystems, status and statistics

    [subsystem_reconfigure] converges to the configuration when nothing is
    removed; when an interface is to be removed it dereferences the null
    [subsystem] member of the interface. *)

From S2P Require Import Prelude OvsLib Blocks Subsystem SubsystemFacts.
Import StatsBlocks.
Local Open Scope Z_scope.

Section Reconf.
Context `{HL : OvsLib, HN : Netdev, HI : InterfaceSchema}.
Context (answers : string → netdev_answers).

(** ** Deleting interfaces *)

Definition refreshed (wanted : shash ovsrec_interface) (i : iface) : iface :=
  Iface (i_name i) (i_subsystem i) (i_change_seq i) (wanted !! i_name i).

(** No interface of the list is unwanted: their rows are refreshed. *)
Lemma del_ifaces_keep wanted d r ss s :
  iface_by_name ss = (refreshed wanted <$> d) ++ r → NoDup (i_name <$> iface_by_name ss) →
  (∀ i, i ∈ r → is_Some (wanted !! i_name i)) →
  mfold (del_iface_if_unwanted wanted) r ss s =
  Ok (set_ifaces (refreshed wanted <$> (d ++ r)) ss, s).
Proof.
  revert d ss. induction r as [|i r IH]; intros d ss El Hnd Hr; simpl.
  { rewrite app_nil_r in *. rewrite <-El. by destruct ss. }
  destruct (Hr i) as [cfg Hc]; [left|].
  rewrite El in Hnd. erewrite bind_run.
  2:{ unfold del_iface_if_unwanted. simpl. rewrite Hc, El, (replace_by_name i_name) by done. rewrite <-Hc. reflexivity. }
  rewrite (IH (d ++ [i])); simpl.
  - by rewrite <-app_assoc.
  - by rewrite fmap_app, <-app_assoc.
  - by rewrite fmap_app, fmap_cons in Hnd |- *.
  - intros j Hj. apply Hr. by right.
Qed.

(** An unwanted interface kills the process. *)
Lemma del_ifaces_unwanted wanted r ss s :
  Forall iface_wf r → (∃ i, i ∈ r ∧ wanted !! i_name i = None) →
  mfold (del_iface_if_unwanted wanted) r ss s = Fault NullDereference.
Proof.
  revert ss. induction r as [|i r IH]; intros ss Hwf (j & Hj & Hn); [set_solver|].
  apply Forall_cons in Hwf as [[Hs _] Hwf]. simpl. destruct (wanted !! i_name i) eqn:E.
  - erewrite bind_run by (unfold del_iface_if_unwanted; simpl; rewrite E; reflexivity). apply IH; [done|]. exists j. split; [|done]. apply elem_of_cons in Hj as [->|?]; [congruence|done].
  - apply bind_fault. unfold del_iface_if_unwanted, iface_destroy. simpl. by rewrite E, Hs.
Qed.

(** ** Loops over all subsystems *)

Lemma NoDup_names_put d ss ss' r :
  s_name ss' = s_name ss → NoDup (s_name <$> d ++ ss :: r) → NoDup (s_name <$> (d ++ [ss']) ++ r).
Proof. intros E. by rewrite !fmap_app, !fmap_cons, <-app_assoc, E. Qed.

(** Each structure is replaced by the result of [f]. *)
Lemma update_all_run (f : subsystem → M sst subsystem) (R : subsystem → subsystem → Prop) s :
  NoDup (s_name <$> all_subsystems s) →
  (∀ ss s1, ss ∈ all_subsystems s → ∃ ss' s2, f ss s1 = Ok (ss', s2) ∧
     all_subsystems s2 = all_subsystems s1 ∧ netdev_log s1 `prefix_of` netdev_log s2 ∧
     s_name ss' = s_name ss ∧ R ss ss') →
  ∃ s' all', mfor (all_subsystems s) (λ ss, ss ← f ss; put_subsystem ss) s = Ok (tt, s') ∧
    netdev_log s `prefix_of` netdev_log s' ∧
    all_subsystems s' = all' ∧
    Forall2 (λ ss ss', s_name ss' = s_name ss ∧ R ss ss') (all_subsystems s) all' ∧
    s_name <$> all' = s_name <$> all_subsystems s.
Proof.
  intros Hnd Hf.
  assert (∀ r d s1, all_subsystems s1 = d ++ r → NoDup (s_name <$> d ++ r) → r ⊆ all_subsystems s →
    ∃ s' r', mfor r (λ ss, ss ← f ss; put_subsystem ss) s1 = Ok (tt, s') ∧
      netdev_log s1 `prefix_of` netdev_log s' ∧
      all_subsystems s' = d ++ r' ∧ Forall2 (λ ss ss', s_name ss' = s_name ss ∧ R ss ss') r r' ∧ s_name <$> r' = s_name <$> r) as H.
  2:{ destruct (H (all_subsystems s) [] s) as (s' & r' & ? & ? & ? & ? & ?); [done..|].
      by exists s', r'. }
  clear Hnd. induction r as [|ss r IH]; intros d s1 Ea Hnd Hsub.
  { exists s1, []. repeat split; try done. }
  destruct (Hf ss s1) as (ss' & s2 & E & Ea2 & Hl2 & En & HR); [set_solver|].
  destruct (IH (d ++ [ss']) (set_subsystems (d ++ ss' :: r) s2)) as (s' & r' & E' & Hl' & Ea' & HR' & En').
  { by rewrite <-app_assoc. }
  { by apply (NoDup_names_put d ss). }
  { set_solver. }
  exists s', (ss' :: r'). simpl. erewrite bind_run.
  2:{ erewrite bind_run by exact E. unfold put_subsystem, modify.
      rewrite Ea2, Ea, En, (replace_by_name s_name) by done. reflexivity. }
  split; [exact E'|]. split; [by etrans|]. rewrite Ea', <-app_assoc. split; [done|]. split; [by constructor|].
  simpl. by f_equal.
Qed.

(** ** Adding and deleting subsystems *)

Definition configured (sys : ovsrec_system) : shash ovsrec_subsystem :=
  shash_collect sr_name (sys_subsystems sys).

(** The configuration still has the interface. *)
Definition still_wanted (sys : ovsrec_system) (ss : subsystem) (i : iface) : Prop :=
  ∃ row, configured sys !! s_name ss = Some row ∧ i_name i ∈ (ir_name <$> sr_interfaces row).

Definition refresh_ss (m : shash ovsrec_subsystem) (ss : subsystem) : subsystem :=
  SubsystemSt (s_name ss) (m !! s_name ss) (iface_by_name ss) (wanted_ifaces ss).

Definition keep_ss (m : shash ovsrec_subsystem) (ss : subsystem) : option subsystem :=
  match m !! s_name ss with Some _ => Some (refresh_ss m ss) | None => None end.

Definition del_subsystem_if_gone (m : shash ovsrec_subsystem) (ss : subsystem) : M sst unit :=
  put_subsystem (refresh_ss m ss) ;;
  match s_cfg (refresh_ss m ss) with
  | None => subsystem_destroy (refresh_ss m ss)
  | Some _ => mret tt
  end.

(** Deleted subsystems have no interfaces: they go, the others get their rows. *)
Lemma del_subsystems_run m r d s :
  all_subsystems s = d ++ r → NoDup (s_name <$> d ++ r) →
  (∀ ss, ss ∈ r → m !! s_name ss = None → iface_by_name ss = []) →
  ∃ s', mfor r (del_subsystem_if_gone m) s = Ok (tt, s') ∧
    all_subsystems s' = d ++ omap (keep_ss m) r ∧ netdev_log s' = netdev_log s.
Proof.
  revert d s. induction r as [|ss r IH]; intros d s Ea Hnd He.
  { exists s. done. }
  csimpl. unfold keep_ss at 1.
  assert (put_subsystem (refresh_ss m ss) s = Ok (tt, set_subsystems (d ++ refresh_ss m ss :: r) s)) as Ep.
  { unfold put_subsystem, modify. change (s_name (refresh_ss m ss)) with (s_name ss).
    by rewrite Ea, (replace_by_name s_name) by done. }
  destruct (m !! s_name ss) as [row|] eqn:Em.
  - destruct (IH (d ++ [refresh_ss m ss]) (set_subsystems (d ++ refresh_ss m ss :: r) s)) as (s' & E & Ea' & El').
    { by rewrite <-app_assoc. } { by apply (NoDup_names_put d ss). } { set_solver. }
    exists s'. split; [|by rewrite Ea', <-app_assoc, El'].
    erewrite bind_run; [exact E|]. unfold del_subsystem_if_gone. step Ep. simpl. by rewrite Em.
  - destruct (IH d (set_subsystems (d ++ r) s)) as (s' & E & Ea' & El'); [done|..].
    { eapply sublist_NoDup; [exact Hnd|]. apply fmap_sublist. apply sublist_app; [done|by constructor]. }
    { set_solver. }
    exists s'. split; [|done]. erewrite bind_run; [exact E|]. unfold del_subsystem_if_gone. step Ep.
    simpl. rewrite Em. unfold subsystem_destroy. simpl. rewrite He by (done || left). simpl. step.
    unfold modify. simpl. rewrite (filter_by_name s_name) by done. by destruct s.
Qed.

(** A deleted subsystem with an interface kills the process. *)
Lemma del_subsystems_unwanted m r s :
  Forall subsystem_wf r →
  (∃ ss, ss ∈ r ∧ m !! s_name ss = None ∧ iface_by_name ss ≠ []) →
  mfor r (del_subsystem_if_gone m) s = Fault NullDereference.
Proof.
  revert s. induction r as [|ss r IH]; intros s Hwf (ss0 & H0 & Hm & Hi); [set_solver|].
  apply Forall_cons in Hwf as [[_ Hss] Hwf]. simpl.
  destruct (m !! s_name ss) eqn:Em.
  { erewrite bind_run by (unfold del_subsystem_if_gone; step; simpl; rewrite Em; reflexivity). apply IH; [done|]. exists ss0. apply elem_of_cons in H0 as [->|?]; [congruence|done]. }
  destruct (iface_by_name ss) as [|i l] eqn:Ei.
  { erewrite bind_run by (unfold del_subsystem_if_gone, subsystem_destroy; step; simpl; rewrite Em, Ei;
      step; reflexivity). simpl. apply IH; [done|]. exists ss0.
    apply elem_of_cons in H0 as [->|?]; [congruence|done]. }
  apply Forall_cons in Hss as [[Hs _] _]. apply bind_fault. unfold del_subsystem_if_gone. step. simpl.
  rewrite Em. unfold subsystem_destroy. apply bind_fault. simpl. rewrite Ei. apply bind_fault.
  unfold iface_destroy. apply bind_fault. by rewrite Hs.
Qed.
(** The structure has its row. *)
Definition has_row (sys : ovsrec_system) (ss : subsystem) : Prop :=
  ∃ row, configured sys !! s_name ss = Some row ∧ s_cfg ss = Some row.

Definition add_subsystem_if_new (cfg : ovsrec_subsystem) : M sst unit :=
  known ← gets (subsystem_lookup (sr_name cfg));
  match known with None => subsystem_create cfg | Some _ => mret tt end.

Lemma add_subsystem_if_new_run cfg s :
  ∃ s', add_subsystem_if_new cfg s = Ok (tt, s') ∧ netdev_log s' = netdev_log s ∧
    (if decide (sr_name cfg ∈ (s_name <$> all_subsystems s)) then s' = s
     else all_subsystems s' ≡ₚ SubsystemSt (sr_name cfg) (Some cfg) [] ∅ :: all_subsystems s).
Proof.
  unfold add_subsystem_if_new. step. destruct (subsystem_lookup (sr_name cfg) s) eqn:E.
  - exists s. split; [done|]. split; [done|]. rewrite decide_True; [done|]. apply dec_stable. intros Hn.
    apply subsystem_lookup_None in Hn. congruence.
  - unfold subsystem_create. step. rewrite E. step. eexists. split; [done|]. split; [done|].
    rewrite decide_False by (by apply subsystem_lookup_None). apply hmap_insert_perm.
Qed.

(** What the loop that adds subsystems keeps; [d] are the rows handled. *)
Definition adding (sys : ovsrec_system) (l0 : list netdev_event) (all0 : list subsystem)
  (d : list ovsrec_subsystem) (s : sst) : Prop :=
  netdev_log s = l0 ∧ NoDup (s_name <$> all_subsystems s) ∧ all0 ⊆ all_subsystems s ∧
  (∀ ss, ss ∈ all_subsystems s → ss ∈ all0 ∨
     ∃ row, configured sys !! s_name ss = Some row ∧ s_cfg ss = Some row ∧ iface_by_name ss = []) ∧
  (∀ cfg, cfg ∈ d → sr_name cfg ∈ (s_name <$> all_subsystems s)).

Lemma add_subsystems_run sys l0 all0 :
  hoare (λ s, netdev_log s = l0 ∧ all_subsystems s = all0 ∧ NoDup (s_name <$> all0))
    (mfor (sys_subsystems sys) add_subsystem_if_new)
    (λ _, adding sys l0 all0 (sys_subsystems sys)).
Proof.
  eapply hoare_conseq; [apply (hoare_for _ _ (adding sys l0 all0))|..].
  - intros d cfg r El s (Hlog & Hnd & Hsub & Hall & Hd).
    destruct (add_subsystem_if_new_run cfg s) as (s' & E & El' & Hs'). exists tt, s'. split; [done|].
    case_decide as Hn.
    { subst s'. split; [done|]. split; [done|]. split; [done|]. split; [done|]. set_solver. }
    assert (s_name <$> all_subsystems s' ≡ₚ sr_name cfg :: (s_name <$> all_subsystems s)) as Hp
      by (by rewrite Hs').
    split; [congruence|]. split; [rewrite Hp; by constructor|]. split; [rewrite Hs'; set_solver|]. split.
    + intros ss. rewrite Hs', elem_of_cons. intros [->|?]; [|by apply Hall]. right. exists cfg.
      split; [|done]. unfold configured. rewrite El. apply (shash_collect_first sr_name). intros c Hc Ec.
      apply Hn. rewrite <-Ec. by apply Hd.
    + intros c Hc. rewrite Hp. set_solver.
  - intros s (? & <- & Hnd). split; [done|]. split; [done|]. split; [done|]. split; [by left|]. set_solver.
  - done.
Qed.

(** [add_del_subsystems] returns when no interface goes with a subsystem. *)
Lemma add_del_subsystems_run sys s :
  sst_wf s →
  (∀ ss i, ss ∈ all_subsystems s → i ∈ iface_by_name ss → is_Some (configured sys !! s_name ss)) →
  ∃ s', add_del_subsystems sys s = Ok (tt, s') ∧ netdev_log s' = netdev_log s ∧ sst_wf s' ∧
    (∀ ss, ss ∈ all_subsystems s' → has_row sys ss ∧
       (iface_by_name ss = [] ∨
        ∃ ss0, ss0 ∈ all_subsystems s ∧ s_name ss = s_name ss0 ∧ iface_by_name ss = iface_by_name ss0)) ∧
    (∀ cfg, cfg ∈ sys_subsystems sys → sr_name cfg ∈ (s_name <$> all_subsystems s')) ∧
    (∀ ss, ss ∈ all_subsystems s → is_Some (configured sys !! s_name ss) →
       refresh_ss (configured sys) ss ∈ all_subsystems s').
Proof.
  intros [Hnd Hwf] Hw. rewrite Forall_forall in Hwf.
  destruct (del_subsystems_run (configured sys) (all_subsystems s) [] s) as (s1 & E1 & Ea1 & El1); [done..| |].
  { intros ss Hss Hn. destruct (iface_by_name ss) as [|i l] eqn:Ei; [done|].
    destruct (Hw ss i) as [row ?]; [done|rewrite Ei; left|congruence]. }
  simpl in Ea1. set (all1 := omap (keep_ss (configured sys)) (all_subsystems s)) in *.
  assert (∀ ss, ss ∈ all1 → ∃ ss0, ss0 ∈ all_subsystems s ∧ ss = refresh_ss (configured sys) ss0 ∧
            is_Some (configured sys !! s_name ss0)) as Hall1.
  { intros ss (ss0 & H0 & E)%list_elem_of_omap. exists ss0. unfold keep_ss in E. by case_match; simplify_eq. }
  assert (NoDup (s_name <$> all1)) as Hnd1.
  { eapply sublist_NoDup; [exact Hnd|]. unfold all1. clear. induction (all_subsystems s) as [|ss l IH]; csimpl; [done|].
    unfold keep_ss at 1. destruct (configured sys !! s_name ss); [apply sublist_skip|apply sublist_cons]; exact IH. }
  destruct (add_subsystems_run sys (netdev_log s) all1 s1) as ([] & s2 & E2 & El2 & Hnd2 & Hsub & Hall & Hadd); [done|].
  exists s2. split; [|split; [done|split; [|split; [|split]]]].
  - unfold add_del_subsystems. step. step E1. exact E2.
  - split; [done|]. apply Forall_forall. intros ss [(ss0 & H0 & -> & _)%Hall1|(row & _ & _ & Ei)]%Hall.
    + by apply (Hwf ss0).
    + split; rewrite Ei; constructor.
  - intros ss [(ss0 & H0 & -> & [row Hr])%Hall1|(row & Hr & Hc & Ei)]%Hall.
    + split; [by exists row|]. right. by exists ss0.
    + split; [by exists row|]. by left.
  - done.
  - intros ss Hss [row Hr]. apply Hsub. apply list_elem_of_omap. exists ss. split; [done|].
    unfold keep_ss. by rewrite Hr.
Qed.
(** ** The whole reconfiguration *)

(** The configuration calls of [subsystem_reconfigure_ifaces]. *)
Definition config_events (ss : subsystem) : list netdev_event :=
  (λ cfg, NetdevSetConfig (ir_name cfg) (ir_hw_intf_config cfg)) <$>
  filter (λ cfg, ir_modified cfg ∧ ir_name cfg ∈ (i_name <$> iface_by_name ss))
    (shash_nodes (wanted_ifaces ss)).*2.

Lemma reconfigure_ifaces_run ss s :
  subsystem_reconfigure_ifaces ss s = Ok (tt, log_events (config_events ss) s).
Proof.
  unfold subsystem_reconfigure_ifaces, config_events. revert s.
  induction (shash_nodes (wanted_ifaces ss)).*2 as [|cfg l IH]; intros s; [done|].
  cbn [mfor]. rewrite filter_cons.
  destruct (iface_lookup ss (ir_name cfg)) as [i|] eqn:E.
  - apply iface_lookup_Some in E as Hi. destruct Hi as [Hi En].
    assert (ir_name cfg ∈ (i_name <$> iface_by_name ss)) by (rewrite <-En; by apply list_elem_of_fmap_2).
    destruct (ir_modified cfg) eqn:Em.
    + rewrite decide_True by done. erewrite bind_run.
      2:{ unfold reconfigure_iface. rewrite E, Em, En. reflexivity. }
      apply IH.
    + rewrite decide_False by (by intros [? _]). erewrite bind_run; [apply IH|].
      unfold reconfigure_iface. by rewrite E, Em.
  - apply iface_lookup_None in E as Hn. rewrite decide_False by naive_solver.
    erewrite bind_run; [apply IH|]. unfold reconfigure_iface. by rewrite E.
Qed.

Lemma reconfigure_all_run all s :
  ∃ s', mfor all subsystem_reconfigure_ifaces s = Ok (tt, s') ∧
    all_subsystems s' = all_subsystems s ∧
    netdev_log s' = netdev_log s ++ (all ≫= config_events).
Proof.
  revert s. induction all as [|ss all IH]; intros s; simpl.
  { exists s. by rewrite app_nil_r. }
  destruct (IH (log_events (config_events ss) s)) as (s' & E & Ea & El). exists s'.
  step reconfigure_ifaces_run. split; [done|].
  rewrite Ea, El, netdev_log_events, <-app_assoc. split; [apply log_events_frame|done].
Qed.
(** First pass: the wanted rows are collected, and each interface gets its row. *)
Definition collected (sys : ovsrec_system) (ss ss' : subsystem) : Prop :=
  ∃ row, configured sys !! s_name ss = Some row ∧ s_cfg ss' = Some row ∧
    wanted_ifaces ss' = shash_collect ir_name (sr_interfaces row) ∧
    subsystem_wf ss' ∧ i_name <$> iface_by_name ss' = i_name <$> iface_by_name ss.

Lemma collect_and_del_run sys ss s :
  subsystem_wf ss → has_row sys ss → (∀ i, i ∈ iface_by_name ss → still_wanted sys ss i) →
  ∃ ss', (ss ← subsystem_collect_wanted_ifaces ss; subsystem_del_ifaces ss) s = Ok (ss', s) ∧
    s_name ss' = s_name ss ∧ collected sys ss ss'.
Proof.
  intros [Hnd Hwf] (row & Hr & Hc) Hw.
  set (m := shash_collect ir_name (sr_interfaces row)).
  assert (∀ i, i ∈ iface_by_name ss → is_Some (m !! i_name i)) as Hm.
  { intros i Hi. apply shash_collect_is_Some. destruct (Hw i Hi) as (row' & ? & ?). naive_solver. }
  exists (set_ifaces (refreshed m <$> iface_by_name ss) (set_wanted m ss)). split; [|split; [done|]].
  - unfold subsystem_collect_wanted_ifaces. rewrite Hc. step. fold m.
    unfold subsystem_del_ifaces. by rewrite (del_ifaces_keep m []).
  - exists row. split; [done|]. split; [done|]. split; [done|]. simpl.
    assert (i_name <$> (refreshed m <$> iface_by_name ss) = i_name <$> iface_by_name ss) as En
      by by rewrite <-list_fmap_compose.
    split; [|done]. split; simpl; [by rewrite En|]. apply Forall_fmap. rewrite Forall_forall in Hwf |- *.
    intros i Hi. split; [by apply (Hwf i Hi)|]. destruct (Hm i Hi) as [cfg E]. exists cfg.
    split; [done|]. by apply shash_collect_Some in E as [_ ?].
Qed.

(** Second pass: the wanted interfaces are added. *)
Definition completed (ss ss' : subsystem) : Prop :=
  s_cfg ss' = s_cfg ss ∧ subsystem_wf ss' ∧
  (∀ n, n ∈ (i_name <$> iface_by_name ss) → n ∈ (i_name <$> iface_by_name ss')) ∧
  (∀ n, n ∈ (i_name <$> iface_by_name ss') → n ∈ (i_name <$> iface_by_name ss) ∨ is_Some (wanted_ifaces ss !! n)) ∧
  (∀ n, is_Some (wanted_ifaces ss !! n) → device_works n → n ∈ (i_name <$> iface_by_name ss')).

Lemma add_and_clear_run ss s :
  subsystem_wf ss → wanted_wf (wanted_ifaces ss) →
  ∃ ss' s', (ss ← subsystem_add_ifaces answers ss; mret (set_wanted ∅ ss)) s = Ok (ss', s') ∧
    all_subsystems s' = all_subsystems s ∧ netdev_log s `prefix_of` netdev_log s' ∧
    s_name ss' = s_name ss ∧ completed ss ss'.
Proof.
  intros Hwf Hm. destruct (subsystem_add_ifaces_run answers ss s Hwf Hm) as (ss' & s' & E & Ea & El & Hg & Hw & _).
  exists (set_wanted ∅ ss'), s'. split; [by step E|]. split; [done|]. split; [done|].
  pose proof Hg as (Hwf' & (En & Ec & _) & _ & Hnew). split; [done|]. split; [done|]. split; [done|].
  split; [|split]; intros n Hn; simpl in *.
  - by eapply grows_mono.
  - eapply grows_names in Hn as [?|(cfg & -> & Hc)%list_elem_of_fmap]; [by left| |exact Hg].
    right. apply elem_of_wanted in Hc; [|done]. by exists cfg.
  - destruct Hn as [cfg Hc]. rewrite <-(Hm n cfg Hc) in Hc |- *. apply Hw, elem_of_wanted; done.
Qed.
(** [still_wanted] only looks at the two names. *)
Lemma still_wanted_name sys ss ss0 i :
  s_name ss = s_name ss0 → still_wanted sys ss0 i → still_wanted sys ss i.
Proof. unfold still_wanted. by intros ->. Qed.

(** Everything after [add_del_subsystems]. *)
Definition reconfigure_passes : M sst unit :=
  all ← gets all_subsystems;
  mfor all (λ ss,
    ss ← subsystem_collect_wanted_ifaces ss;
    ss ← subsystem_del_ifaces ss;
    put_subsystem ss) ;;
  all ← gets all_subsystems;
  mfor all subsystem_reconfigure_ifaces ;;
  all ← gets all_subsystems;
  mfor all (λ ss,
    ss ← subsystem_add_ifaces answers ss;
    put_subsystem (set_wanted ∅ ss)).

(** A structure before and after the three passes; [ev] are the calls made. *)
Definition passed (sys : ovsrec_system) (ev : list netdev_event) (ss ss' : subsystem) : Prop :=
  s_name ss' = s_name ss ∧
  ∃ ss1, collected sys ss ss1 ∧ completed ss1 ss' ∧ config_events ss1 ⊆ ev.

Lemma bind_assoc {A B C} (c : M sst A) (f : A → M sst B) (g : B → M sst C) s :
  (a ← c; b ← f a; g b) s = (b ← (a ← c; f a); g b) s.
Proof. unfold mbind, M_bind. by destruct (c s) as [[a s']|]. Qed.

Lemma reconfigure_passes_run sys s :
  sst_wf s → (∀ ss, ss ∈ all_subsystems s → has_row sys ss) →
  (∀ ss i, ss ∈ all_subsystems s → i ∈ iface_by_name ss → still_wanted sys ss i) →
  ∃ s' ev, reconfigure_passes s = Ok (tt, s') ∧ netdev_log s' = netdev_log s ++ ev ∧
    Forall2 (passed sys ev) (all_subsystems s) (all_subsystems s') ∧
    s_name <$> all_subsystems s' = s_name <$> all_subsystems s.
Proof.
  intros [Hnd Hwf] Hrow Hkeep. rewrite Forall_forall in Hwf.
  destruct (update_all_run (λ ss, ss ← subsystem_collect_wanted_ifaces ss; subsystem_del_ifaces ss)
              (collected sys) s Hnd) as (s2 & all2 & E2 & Hl2 & Ea2 & HR2 & En2).
  { intros ss s0 Hss. destruct (collect_and_del_run sys ss s0) as (ss' & E & ? & ?); auto.
    by exists ss', s0. }
  destruct (reconfigure_all_run all2 s2) as (s3 & E3 & Ea3 & El3).
  destruct (update_all_run (λ ss, ss ← subsystem_add_ifaces answers ss; mret (set_wanted ∅ ss))
              completed s3) as (s4 & all4 & E4 & Hl4 & Ea4 & HR4 & En4).
  { by rewrite Ea3, Ea2, En2. }
  { intros ss s0 Hss. rewrite Ea3, Ea2 in Hss.
    destruct (Forall2_elem_r _ _ _ _ HR2 Hss) as (ss1 & _ & _ & row & _ & _ & Ew & Hw & _).
    apply add_and_clear_run; [done|]. rewrite Ew. by intros k c [_ ?]%shash_collect_Some. }
  rewrite Ea3, Ea2 in E4, HR4, En4. destruct Hl2 as [ev2 El2], Hl4 as [ev4 El4].
  exists s4, (ev2 ++ (all2 ≫= config_events) ++ ev4). split; [|split; [|split]].
  - unfold reconfigure_passes. step. erewrite bind_run.
    2:{ erewrite mfor_ext; [exact E2|]. intros ss s0. apply bind_assoc. }
    step. rewrite Ea2. step E3. step. rewrite Ea3, Ea2. rewrite <-E4. apply mfor_ext.
    intros ss s0. unfold mbind, M_bind. by destruct (subsystem_add_ifaces answers ss s0) as [[]|].
  - by rewrite El4, El3, El2, <-!app_assoc.
  - rewrite Ea4. apply Forall2_same_length_lookup_2; [by rewrite <-(Forall2_length _ _ _ HR4), <-(Forall2_length _ _ _ HR2)|].
    intros j ss ss' Hj Hj'. destruct (Forall2_lookup_l _ _ _ _ _ HR2 Hj) as (ss1 & Hj1 & En1 & Hc).
    destruct (Forall2_lookup_lr _ _ _ _ _ _ HR4 Hj1 Hj') as [En' Hd].
    split; [congruence|]. exists ss1. split; [done|]. split; [done|].
    intros e He. apply elem_of_app. right. apply elem_of_app. left. apply list_elem_of_bind. exists ss1.
    split; [done|]. by eapply list_elem_of_lookup_2.
  - by rewrite Ea4, En4.
Qed.
Lemma collected_wanted sys ss ss1 n :
  collected sys ss ss1 → ∀ row, configured sys !! s_name ss = Some row →
  is_Some (wanted_ifaces ss1 !! n) ↔ n ∈ (ir_name <$> sr_interfaces row).
Proof.
  intros (row' & E' & _ & -> & _) row E. assert (row' = row) as -> by congruence.
  apply shash_collect_is_Some.
Qed.

(** The interfaces of a structure after the passes. *)
Lemma passed_names sys ev ss ss' :
  passed sys ev ss ss' → (∀ i, i ∈ iface_by_name ss → still_wanted sys ss i) →
  ∃ row, configured sys !! s_name ss' = Some row ∧ s_cfg ss' = Some row ∧
    (∀ n, n ∈ (i_name <$> iface_by_name ss') → n ∈ (ir_name <$> sr_interfaces row)) ∧
    (∀ n, n ∈ (ir_name <$> sr_interfaces row) → device_works n → n ∈ (i_name <$> iface_by_name ss')).
Proof.
  intros (Es & ss2 & Hc & (Ecfg & _ & _ & Hsub & Hnew) & _) Hkeep.
  pose proof Hc as (row & Hr & Hcfg & _ & _ & Hn). exists row. rewrite Es. split; [done|].
  split; [congruence|]. split; intros n Hin.
  - rewrite <-(collected_wanted _ _ _ n Hc row Hr). apply Hsub in Hin as [Hin|?]; [|done].
    rewrite Hn in Hin. apply list_elem_of_fmap in Hin as (i & -> & Hi).
    destruct (Hkeep i Hi) as (row' & ? & ?). apply (collected_wanted _ _ _ _ Hc row Hr). congruence.
  - apply Hnew. by apply (collected_wanted _ _ _ _ Hc row Hr).
Qed.

(** The device of an interface whose row was modified is configured. *)
Lemma passed_config sys ev ss ss' i row cfg :
  passed sys ev ss ss' → i ∈ iface_by_name ss → configured sys !! s_name ss = Some row →
  shash_collect ir_name (sr_interfaces row) !! i_name i = Some cfg → ir_modified cfg = true →
  NetdevSetConfig (i_name i) (ir_hw_intf_config cfg) ∈ ev.
Proof.
  intros (_ & ss2 & (row' & Hr' & _ & Hw & _ & Hn) & _ & Hev) Hi Hr Hcfg Hm. apply Hev.
  assert (row' = row) as -> by congruence. pose proof (shash_collect_Some _ _ _ _ Hcfg) as [_ Ein].
  unfold config_events. apply list_elem_of_fmap. exists cfg. rewrite Ein. split; [done|].
  apply list_elem_of_filter. rewrite Hn, Ein. split; [split; [by rewrite Hm|by apply list_elem_of_fmap_2]|].
  apply elem_of_wanted; [rewrite Hw; by intros k c [_ ?]%shash_collect_Some|]. by rewrite Ein, Hw.
Qed.

(** C17: when no interface is removed, [subsystem_reconfigure] returns with one
    structure per subsystem of the configuration, each with the row of its
    name; every interface of a subsystem is one of its row's interfaces, the
    interfaces that existed are kept, and every wanted interface whose device
    works exists.  The devices of existing interfaces with modified rows get
    their new hardware configuration. *)
Theorem subsystem_reconfigure_converges (sys : ovsrec_system) (s : sst)
  (Hwf : sst_wf s)
  (Hkeep : ∀ ss i, ss ∈ all_subsystems s → i ∈ iface_by_name ss → still_wanted sys ss i) :
  ∃ s' ev, subsystem_reconfigure answers sys s = Ok (tt, s') ∧ sst_wf s' ∧
    netdev_log s' = netdev_log s ++ ev ∧
    (∀ n, n ∈ (s_name <$> all_subsystems s') ↔ n ∈ (sr_name <$> sys_subsystems sys)) ∧
    (∀ ss, ss ∈ all_subsystems s' → ∃ row, configured sys !! s_name ss = Some row ∧ s_cfg ss = Some row ∧
       (∀ n, n ∈ (i_name <$> iface_by_name ss) → n ∈ (ir_name <$> sr_interfaces row)) ∧
       (∀ n, n ∈ (ir_name <$> sr_interfaces row) → device_works n → n ∈ (i_name <$> iface_by_name ss))) ∧
    (∀ ss i, ss ∈ all_subsystems s → i ∈ iface_by_name ss →
       ∃ ss', ss' ∈ all_subsystems s' ∧ s_name ss' = s_name ss ∧ i_name i ∈ (i_name <$> iface_by_name ss')) ∧
    (∀ ss i row cfg, ss ∈ all_subsystems s → i ∈ iface_by_name ss →
       configured sys !! s_name ss = Some row →
       shash_collect ir_name (sr_interfaces row) !! i_name i = Some cfg → ir_modified cfg = true →
       NetdevSetConfig (i_name i) (ir_hw_intf_config cfg) ∈ ev).
Proof.
  destruct (add_del_subsystems_run sys s Hwf) as (s1 & E1 & El1 & Hwf1 & Hall1 & Hadd & Hold).
  { intros ss i Hss Hi. destruct (Hkeep ss i Hss Hi) as (row & ? & _). by exists row. }
  assert (∀ ss i, ss ∈ all_subsystems s1 → i ∈ iface_by_name ss → still_wanted sys ss i) as Hkeep1.
  { intros ss i Hss Hi. destruct (Hall1 ss Hss) as [_ [Ei|(ss0 & H0 & En & Ei)]]; rewrite Ei in Hi; [set_solver|].
    eapply still_wanted_name; [exact En|]. by apply Hkeep. }
  destruct (reconfigure_passes_run sys s1 Hwf1) as (s' & ev & E & El & HR & En).
  { intros ss Hss. by apply Hall1. }
  { exact Hkeep1. }
  exists s', ev. split; [unfold subsystem_reconfigure; by step E1|].
  assert (∀ ss i, ss ∈ all_subsystems s → i ∈ iface_by_name ss → ∃ ss', ss' ∈ all_subsystems s' ∧
    passed sys ev (refresh_ss (configured sys) ss) ss') as Hkept.
  { intros ss i Hss Hi. eapply Forall2_elem_l; [exact HR|]. apply Hold; [done|].
    destruct (Hkeep ss i Hss Hi) as (row & ? & _). by exists row. }
  split; [|split; [by rewrite El, El1|split; [|split; [|split]]]].
  - split; [rewrite En; apply Hwf1|]. apply Forall_forall. intros ss Hss.
    destruct (Forall2_elem_r _ _ _ _ HR Hss) as (ss1 & _ & _ & ss2 & _ & Hd & _). apply Hd.
  - intros n. rewrite En. split.
    + intros (ss & -> & Hss)%list_elem_of_fmap. destruct (Hall1 ss Hss) as [(row & Hr & _) _].
      apply (shash_collect_is_Some sr_name). by exists row.
    + intros (cfg & -> & Hc)%list_elem_of_fmap. by apply Hadd.
  - intros ss Hss. destruct (Forall2_elem_r _ _ _ _ HR Hss) as (ss1 & H1 & Hp).
    eapply passed_names; [exact Hp|]. intros i. by apply Hkeep1.
  - intros ss i Hss Hi. destruct (Hkept ss i Hss Hi) as (ss' & Hss' & Es & ss2 & Hc & Hd & _).
    exists ss'. split; [done|]. split; [done|]. destruct Hd as (_ & _ & Hm & _). apply Hm.
    destruct Hc as (? & _ & _ & _ & _ & ->). by apply list_elem_of_fmap_2.
  - intros ss i row cfg Hss Hi Hr Hcfg Hm. destruct (Hkept ss i Hss Hi) as (ss' & _ & Hp).
    by apply (passed_config sys ev _ ss' i row cfg Hp).
Qed.
(** ** Removals *)

Lemma collect_and_del_fault sys ss i s :
  subsystem_wf ss → has_row sys ss → i ∈ iface_by_name ss → ¬ still_wanted sys ss i →
  (ss ← subsystem_collect_wanted_ifaces ss; subsystem_del_ifaces ss) s = Fault NullDereference.
Proof.
  intros [_ Hwf] (row & Hr & Hc) Hi Hn. unfold subsystem_collect_wanted_ifaces. rewrite Hc. step.
  apply del_ifaces_unwanted; [done|]. exists i. split; [done|]. simpl.
  apply shash_collect_None. intros c Hin E. apply Hn. exists row. split; [done|].
  rewrite <-E. by apply list_elem_of_fmap_2.
Qed.

Lemma still_wanted_all_dec sys ss :
  has_row sys ss →
  {∀ i, i ∈ iface_by_name ss → still_wanted sys ss i} +
  {∃ i, i ∈ iface_by_name ss ∧ ¬ still_wanted sys ss i}.
Proof.
  intros Hrow. destruct (configured sys !! s_name ss) as [row|] eqn:Er.
  2:{ left. intros. destruct Hrow as (? & ? & _). congruence. }
  destruct (decide (Forall (λ i, i_name i ∈ (ir_name <$> sr_interfaces row)) (iface_by_name ss))) as [Hf|Hf].
  - left. rewrite Forall_forall in Hf. intros i Hi. exists row. eauto.
  - right. apply not_Forall_Exists in Hf; [|apply _]. apply Exists_exists in Hf as (i & Hi & Hn).
    exists i. split; [done|]. intros (row' & ? & ?). naive_solver.
Qed.

Lemma pass_fault sys r s :
  Forall subsystem_wf r → Forall (has_row sys) r →
  (∃ ss i, ss ∈ r ∧ i ∈ iface_by_name ss ∧ ¬ still_wanted sys ss i) →
  mfor r (λ ss, ss ← subsystem_collect_wanted_ifaces ss; ss ← subsystem_del_ifaces ss; put_subsystem ss) s =
  Fault NullDereference.
Proof.
  revert s. induction r as [|ss r IH]; intros s Hwf Hrow (ss0 & i & H0 & Hi & Hn); [set_solver|].
  apply Forall_cons in Hwf as [Hw Hwf]. apply Forall_cons in Hrow as [Hr Hrow]. cbn [mfor].
  destruct (still_wanted_all_dec sys ss Hr) as [Hall|(j & Hj & Hnj)].
  - destruct (collect_and_del_run sys ss s Hw Hr Hall) as (ss' & E & _).
    erewrite bind_run; [apply IH; [done|done|]|].
    + exists ss0, i. apply elem_of_cons in H0 as [->|?]; [by apply Hall in Hi|done].
    + rewrite bind_assoc. by step E.
  - apply bind_fault. rewrite bind_assoc. apply bind_fault. by eapply collect_and_del_fault.
Qed.

(** An interface that disappears from the configuration, alone or with
    its subsystem, makes [subsystem_reconfigure] dereference a null pointer:
    [iface_destroy] follows [iface->subsystem], which [iface_create] leaves
    null. *)
Theorem removed_interface_crashes (sys : ovsrec_system) (s : sst) (ss : subsystem) (i : iface)
  (Hwf : sst_wf s) (Hss : ss ∈ all_subsystems s) (Hi : i ∈ iface_by_name ss)
  (Hgone : ¬ still_wanted sys ss i) :
  subsystem_reconfigure answers sys s = Fault NullDereference.
Proof.
  unfold subsystem_reconfigure.
  destruct (decide (Exists (λ ss, configured sys !! s_name ss = None ∧ length (iface_by_name ss) ≠ 0%nat)
                      (all_subsystems s))) as [(ss0 & H0 & Hn & Hl)%Exists_exists|Hno].
  { apply bind_fault. unfold add_del_subsystems. step. apply bind_fault.
    apply del_subsystems_unwanted; [apply Hwf|]. exists ss0. split; [done|]. split; [done|]. by destruct (iface_by_name ss0). }
  assert (∀ ss i, ss ∈ all_subsystems s → i ∈ iface_by_name ss → is_Some (configured sys !! s_name ss)) as Hrow.
  { intros ss0 i0 H0 Hi0. destruct (configured sys !! s_name ss0) eqn:E; [done|]. destruct Hno.
    apply Exists_exists. exists ss0. split; [done|]. split; [done|]. by destruct (iface_by_name ss0); [set_solver|]. }
  destruct (add_del_subsystems_run sys s Hwf Hrow) as (s1 & E1 & _ & Hwf1 & Hall1 & _ & Hold).
  step E1. step. apply bind_fault. apply (pass_fault sys); [apply Hwf1| |].
  - apply Forall_forall. intros ss0 H0. by apply Hall1.
  - exists (refresh_ss (configured sys) ss), i. split; [|done]. apply Hold; [done|]. by eapply Hrow.
Qed.

(** Without a System row [subsystem_run] dereferences a null pointer as
    soon as the daemon has the lock: the reconfiguration is given an empty
    configuration, but [run_stats_update] reads [other_config] of the missing
    row. *)
Theorem no_system_row_crashes (seqno now now' : Z) :
  subsystem_run answers None true seqno now now' sst_start = Fault NullDereference.
Proof.
  unfold subsystem_run. cbn [negb]. step. by destruct (negb (seqno =? ss_seqno sst_start)).
Qed.
(** ** Status and statistics *)

Definition all_ifaces (s : sst) : list iface := all_subsystems s ≫= iface_by_name.

(** The interface after a look at its device, and the columns then. *)
Definition seen (i : iface) : iface :=
  Iface (i_name i) (i_subsystem i) (na_change_seq (answers (i_name i))) (i_cfg i).

Definition column_update (i : iface) : option (Z * iface_columns) :=
  match i_cfg i with
  | Some cfg => if i_change_seq i =? na_change_seq (answers (i_name i)) then None
                else Some (ir_uuid cfg, netdev_columns (answers (i_name i)))
  | None => None
  end.

Definition write_all {A} (m : gmap Z A) (l : list (Z * A)) : gmap Z A :=
  fold_left (λ m p, <[p.1 := p.2]> m) l m.

Lemma write_all_app {A} (m : gmap Z A) l1 l2 : write_all m (l1 ++ l2) = write_all (write_all m l1) l2.
Proof. apply fold_left_app. Qed.

Lemma write_all_notin {A} (m : gmap Z A) l u : u ∉ l.*1 → write_all m l !! u = m !! u.
Proof.
  revert m. induction l as [|[v a] l IH]; intros m Hu; [done|]. csimpl in *.
  apply not_elem_of_cons in Hu as [? ?]. change (write_all (<[v:=a]> m) l !! u = m !! u).
  rewrite IH by done. by rewrite lookup_insert_ne.
Qed.

Lemma write_all_in {A} (m : gmap Z A) l u a :
  NoDup l.*1 → (u, a) ∈ l → write_all m l !! u = Some a.
Proof.
  revert m. induction l as [|[v b] l IH]; intros m Hnd Hin; [set_solver|]. csimpl in *.
  apply NoDup_cons in Hnd as [Hv Hnd]. apply elem_of_cons in Hin as [[= <- <-]|Hin].
  - change (write_all (<[u:=a]> m) l !! u = Some a).
    rewrite write_all_notin by done. by rewrite lookup_insert_eq.
  - by apply IH.
Qed.

Lemma refresh_status_run i s :
  iface_wf i →
  iface_refresh_netdev_status answers i s =
  Ok (seen i, set_columns (write_all (columns s) (omap column_update [i])) s).
Proof.
  intros (_ & cfg & Ec & _). unfold iface_refresh_netdev_status, column_update, seen. csimpl. rewrite Ec.
  destruct (Z.eqb_spec (i_change_seq i) (na_change_seq (answers (i_name i)))) as [E|_].
  - rewrite <-E, <-Ec. destruct i, s. done.
  - step. step. done.
Qed.

Lemma refresh_ifaces_run l acc s :
  Forall iface_wf l →
  mfold (λ l i, i ← iface_refresh_netdev_status answers i; mret (l ++ [i])) l acc s =
  Ok (acc ++ (seen <$> l), set_columns (write_all (columns s) (omap column_update l)) s).
Proof.
  revert acc s. induction l as [|i l IH]; intros acc s Hl.
  { simpl. rewrite app_nil_r. by destruct s. }
  apply Forall_cons in Hl as [Hi Hl]. cbn [mfold]. erewrite bind_run by (step refresh_status_run; reflexivity).
  rewrite IH by done. rewrite <-app_assoc. cbn [columns set_columns fmap list_fmap app].
  rewrite <-write_all_app, <-omap_app. by destruct s.
Qed.
Lemma status_loop_run r d s :
  all_subsystems s = d ++ r → NoDup (s_name <$> d ++ r) → Forall subsystem_wf r →
  mfor r (λ ss,
    l ← mfold (λ l i, i ← iface_refresh_netdev_status answers i; mret (l ++ [i])) (iface_by_name ss) [];
    put_subsystem (set_ifaces l ss)) s =
  Ok (tt, set_subsystems (d ++ ((λ ss, set_ifaces (seen <$> iface_by_name ss) ss) <$> r))
            (set_columns (write_all (columns s) (omap column_update (r ≫= iface_by_name))) s)).
Proof.
  revert d s. induction r as [|ss r IH]; intros d s Ea Hnd Hwf.
  { simpl. rewrite <-Ea. by destruct s. }
  apply Forall_cons in Hwf as [[_ Hss] Hwf]. cbn [mfor]. set (ss' := set_ifaces (seen <$> iface_by_name ss) ss).
  erewrite bind_run.
  2:{ erewrite bind_run by (by apply refresh_ifaces_run). unfold put_subsystem, modify. simpl.
      change (s_name (set_ifaces (seen <$> iface_by_name ss) ss)) with (s_name ss).
      rewrite Ea, (replace_by_name s_name) by done. reflexivity. }
  rewrite (IH (d ++ [ss'])); [|by rewrite <-app_assoc|by apply (NoDup_names_put d ss)|done].
  simpl. rewrite <-app_assoc, omap_app, write_all_app. by destruct s.
Qed.

Lemma run_status_update_run s :
  sst_wf s →
  run_status_update answers s =
  Ok (tt, set_subsystems ((λ ss, set_ifaces (seen <$> iface_by_name ss) ss) <$> all_subsystems s)
            (set_columns (write_all (columns s) (omap column_update (all_ifaces s))) s)).
Proof. intros [Hnd Hwf]. unfold run_status_update. step. by apply (status_loop_run _ []). Qed.

(** Rows of distinct interfaces are distinct. *)
Definition distinct_rows (s : sst) : Prop := NoDup (omap iface_uuid (all_ifaces s)).

Lemma column_update_uuid l : (omap column_update l).*1 `sublist_of` omap iface_uuid l.
Proof.
  induction l as [|i l IH]; csimpl; [done|]. unfold column_update at 1, iface_uuid at 1.
  destruct (i_cfg i) as [cfg|]; simpl; [|done].
  destruct (i_change_seq i =? _); simpl; [by apply sublist_cons|by apply sublist_skip].
Qed.

(** [run_status_update] returns with every interface's structure holding
    the change number of its device, writes the status columns of exactly the
    interfaces whose device had changed since the last look, from the answers
    of the device, and changes no other row, statistics or device. *)
Theorem run_status_update_follows_devices (s : sst) (Hwf : sst_wf s) (Hrows : distinct_rows s) :
  ∃ s', run_status_update answers s = Ok (tt, s') ∧
    all_subsystems s' = (λ ss, set_ifaces (seen <$> iface_by_name ss) ss) <$> all_subsystems s ∧
    statistics s' = statistics s ∧ netdev_log s' = netdev_log s ∧
    (∀ i cfg, i ∈ all_ifaces s → i_cfg i = Some cfg →
       columns s' !! ir_uuid cfg =
       if i_change_seq i =? na_change_seq (answers (i_name i)) then columns s !! ir_uuid cfg
       else Some (netdev_columns (answers (i_name i)))) ∧
    (∀ u, u ∉ omap iface_uuid (all_ifaces s) → columns s' !! u = columns s !! u).
Proof.
  eexists. split; [by apply run_status_update_run|]. simpl. do 3 (split; [done|]).
  split.
  - intros i cfg Hi Ec. destruct (i_change_seq i =? na_change_seq (answers (i_name i))) eqn:E.
    + apply write_all_notin. intros (p & Hp & (j & Hj & Hu)%list_elem_of_omap)%list_elem_of_fmap.
      assert (iface_uuid j = Some p.1) as Euj
        by (unfold column_update, iface_uuid in *; by repeat case_match; simplify_eq/=).
      assert (i = j) as ->; [|unfold column_update in Hu; by rewrite Ec, E in Hu].
      apply (NoDup_omap_elem iface_uuid (all_ifaces s) _ _ p.1); [done..| |done].
      unfold iface_uuid. rewrite Ec. simpl. congruence.
    + apply write_all_in.
      * eapply sublist_NoDup; [exact Hrows|apply column_update_uuid].
      * apply list_elem_of_omap. exists i. split; [done|]. unfold column_update. by rewrite Ec, E.
  - intros u Hu. apply write_all_notin. intros Hin. apply Hu.
    eapply elem_of_sublist; [exact Hin|apply column_update_uuid].
Qed.
Definition stats_write (i : iface) : option (Z * list (string * Z)) :=
  (λ u, (u, iface_stats (answers (i_name i)))) <$> iface_uuid i.

Lemma stats_write_uuid l : (omap stats_write l).*1 = omap iface_uuid l.
Proof.
  induction l as [|i l IH]; csimpl; [done|]. unfold stats_write at 1.
  destruct (iface_uuid i); simpl; [by f_equal|done].
Qed.

Definition subsystem_events (ss : subsystem) : list netdev_event :=
  StatsCallback STATS_PER_SUBSYSTEM None ::
  ((λ i, StatsCallback STATS_PER_SUBSYSTEM_NETDEV (Some (i_name i))) <$> iface_by_name ss).

Lemma log_events_app ev1 ev2 s : log_events (ev1 ++ ev2) s = log_events ev2 (log_events ev1 s).
Proof. apply fold_left_app. Qed.

Lemma log_events_set_statistics ev m s :
  log_events ev (set_statistics m s) = set_statistics m (log_events ev s).
Proof. revert s. induction ev as [|e ev IH]; intros s; simpl; [done|]. apply (IH (add_netdev_event e s)). Qed.

Lemma stats_ifaces_run l s :
  Forall iface_wf l →
  mfor l (λ i, iface_refresh_stats answers i ;;
    modify (add_netdev_event (StatsCallback STATS_PER_SUBSYSTEM_NETDEV (Some (i_name i))))) s =
  Ok (tt, set_statistics (write_all (statistics s) (omap stats_write l))
            (log_events ((λ i, StatsCallback STATS_PER_SUBSYSTEM_NETDEV (Some (i_name i))) <$> l) s)).
Proof.
  revert s. induction l as [|i l IH]; intros s Hl; [by destruct s|].
  apply Forall_cons in Hl as [(_ & cfg & Ec & _) Hl]. cbn [mfor].
  erewrite bind_run by (step iface_refresh_stats_run; reflexivity). rewrite IH by done. csimpl.
  unfold stats_write at 2, iface_uuid. rewrite Ec. simpl. do 2 f_equal.
  change (add_netdev_event ?e (set_statistics ?m ?s)) with (set_statistics m (add_netdev_event e s)).
  rewrite log_events_set_statistics. by destruct (log_events _ _).
Qed.

Lemma stats_loop_run all s :
  Forall subsystem_wf all →
  mfor all (λ ss,
    modify (add_netdev_event (StatsCallback STATS_PER_SUBSYSTEM None)) ;;
    mfor (iface_by_name ss) (λ i, iface_refresh_stats answers i ;;
      modify (add_netdev_event (StatsCallback STATS_PER_SUBSYSTEM_NETDEV (Some (i_name i)))))) s =
  Ok (tt, set_statistics (write_all (statistics s) (omap stats_write (all ≫= iface_by_name)))
            (log_events (all ≫= subsystem_events) s)).
Proof.
  revert s. induction all as [|ss all IH]; intros s Hwf; [by destruct s|].
  apply Forall_cons in Hwf as [[_ Hss] Hwf]. cbn [mfor].
  erewrite bind_run.
  2:{ step. apply stats_ifaces_run. done. }
  rewrite IH by done. simpl.
  rewrite omap_app, write_all_app, log_events_app, log_events_set_statistics.
  reflexivity.
Qed.

Lemma log_events_interval ev s :
  stats_timer_interval (log_events ev s) = stats_timer_interval s.
Proof. revert s. induction ev as [|e ev IH]; intros s; simpl; [done|]. apply (IH (add_netdev_event e s)). Qed.

(** Adopting the configured interval makes the timer expire. *)
Lemma stats_interval_run interval now s :
  LLONG_MIN ≤ now →
  ∃ s0, mwhen (negb (stats_timer_interval s =? interval)) (modify (set_stats_timer interval LLONG_MIN)) s =
          Ok (tt, s0) ∧
    stats_timer_interval s0 = interval ∧ all_subsystems s0 = all_subsystems s ∧ columns s0 = columns s ∧
    statistics s0 = statistics s ∧ netdev_log s0 = netdev_log s ∧
    (stats_timer s0 <=? now) = negb (bool_decide (stats_timer_interval s = interval ∧ now < stats_timer s)) ∧
    (stats_timer_interval s = interval → s0 = s).
Proof.
  intros Hnow. destruct (Z.eqb_spec (stats_timer_interval s) interval) as [E|E]; simpl.
  - exists s. do 6 (split; [done|]). split; [|done].
    destruct (Z.leb_spec (stats_timer s) now); case_bool_decide; naive_solver lia.
  - eexists. split; [reflexivity|]. do 5 (split; [done|]). split; [|done].
    rewrite bool_decide_false by naive_solver. by apply Z.leb_le.
Qed.

(** [run_stats_update] uses the configured interval, at least the default
    one.  When the timer has not expired nothing else happens; when it has, or
    the interval changed, the statistics of every interface are written to its
    row and to no other row, the statistics callbacks run in the order begin,
    subsystem by subsystem with its devices, end, and the timer is set one
    interval after the end. *)
Theorem run_stats_update_when_due (sys : ovsrec_system) (now now' : Z) (s : sst)
  (Hwf : sst_wf s) (Hrows : distinct_rows s) (Hnow : LLONG_MIN ≤ now) :
  let interval := Z.max (smap_get_int (sys_other_config sys) "stats-update-interval"
                           DFLT_SYSTEM_OTHER_CONFIG_STATS_UPDATE_INTERVAL)
                    DFLT_SYSTEM_OTHER_CONFIG_STATS_UPDATE_INTERVAL in
  ∃ s', run_stats_update answers (Some sys) now now' s = Ok (tt, s') ∧
    stats_timer_interval s' = interval ∧ all_subsystems s' = all_subsystems s ∧ columns s' = columns s ∧
    (if decide (stats_timer_interval s = interval ∧ now < stats_timer s) then
       stats_timer s' = stats_timer s ∧ statistics s' = statistics s ∧ netdev_log s' = netdev_log s
     else
       stats_timer s' = now' + interval ∧
       netdev_log s' = netdev_log s ++ [StatsCallback STATS_SUBSYSTEM_BEGIN None] ++
         (all_subsystems s ≫= subsystem_events) ++ [StatsCallback STATS_SUBSYSTEM_END None] ∧
       (∀ i cfg, i ∈ all_ifaces s → i_cfg i = Some cfg →
          statistics s' !! ir_uuid cfg = Some (iface_stats (answers (i_name i)))) ∧
       (∀ u, u ∉ omap iface_uuid (all_ifaces s) → statistics s' !! u = statistics s !! u)).
Proof.
  intros interval. destruct Hwf as [_ Hwf].
  unfold run_stats_update. step. fold interval. step.
  destruct (stats_interval_run interval now s Hnow) as (s0 & E0 & Ei0 & Ea0 & Ec0 & Es0 & El0 & Et & Hsame).
  step E0. step. rewrite Et.
  destruct (decide (stats_timer_interval s = interval ∧ now < stats_timer s)) as [Hd|Hd];
    [rewrite bool_decide_true by exact Hd|rewrite bool_decide_false by exact Hd].
  - exists s0. split; [done|]. rewrite Hsame by apply Hd. by destruct Hd.
  - unfold mwhen. cbn [negb]. step. step. simpl. rewrite Ea0. step stats_loop_run. step.
    eexists. split; [reflexivity|]. simpl.
    destruct (log_events_frame (all_subsystems s ≫= subsystem_events)
                (add_netdev_event (StatsCallback STATS_SUBSYSTEM_BEGIN None) s0)) as (Ea & Ec & _).
    rewrite log_events_interval, netdev_log_events, Ea, Ec. simpl.
    rewrite Ei0, Ea0, Ec0, El0, Es0, <-!app_assoc. do 5 (split; [done|]).
    pose proof (stats_write_uuid (all_ifaces s)) as Hu. split.
    + intros i cfg Hi Ecfg. apply write_all_in; [unfold all_ifaces in *; by rewrite Hu|].
      apply list_elem_of_omap. exists i. split; [done|]. unfold stats_write, iface_uuid. by rewrite Ecfg.
    + intros u Hn. apply write_all_notin. unfold all_ifaces in *. by rewrite Hu.
Qed.
End Reconf.

(** ** Examples *)

Definition ref_netdev : Netdev := {|
  NETDEV_F_PAUSE := 2 ^ 14;
  NETDEV_F_PAUSE_ASYM := 2 ^ 15;
  netdev_is_reserved_name := λ n, bool_decide (n = "ovs-system");
  netdev_open := λ _ n, if bool_decide (n = "broken") then ENXIO else 0;
  netdev_set_hw_intf_info := λ _ _ _, 0;
  netdev_set_hw_intf_config := λ _ _ _, 0;
  netdev_features_to_bps := λ f, f;
  netdev_features_is_full_duplex := λ _, true;
|}.

Definition ref_interface_schema : InterfaceSchema := {|
  INTERFACE_HW_INTF_INFO_SPLIT_PARENT := "split_parent";
  OVSREC_INTERFACE_ADMIN_STATE_UP := "up";
  OVSREC_INTERFACE_ADMIN_STATE_DOWN := "down";
  OVSREC_INTERFACE_LINK_STATE_UP := "up";
  OVSREC_INTERFACE_LINK_STATE_DOWN := "down";
  OVSREC_INTERFACE_PAUSE_NONE := "none";
  OVSREC_INTERFACE_PAUSE_RXTX := "rxtx";
  OVSREC_INTERFACE_PAUSE_TX := "tx";
  OVSREC_INTERFACE_PAUSE_RX := "rx";
  OVSREC_INTERFACE_DUPLEX_FULL := "full";
  OVSREC_INTERFACE_DUPLEX_HALF := "half";
  DFLT_SYSTEM_OTHER_CONFIG_STATS_UPDATE_INTERVAL := 5000;
|}.

#[local] Existing Instances ref_lib ref_netdev ref_interface_schema.

Definition ex_answers (n : string) : netdev_answers :=
  Answers 7 None (Some true) true 1 (Some 0) (Some 1500) None (λ _, 42).

Definition ex_parent : ovsrec_interface := InterfaceRow 1 "1" ∅ ∅ None 1 false.
Definition ex_child : ovsrec_interface := InterfaceRow 2 "1-1" ∅ ∅ (Some "1") 0 false.
Definition ex_plain : ovsrec_interface := InterfaceRow 3 "2" ∅ ∅ None 0 true.

Definition ex_rows : list ovsrec_interface := [ex_child; ex_plain; ex_parent].
Definition ex_sys : ovsrec_system := SystemRow ∅ [SubsystemRow "base" ex_rows].

(** One interface exists. *)
Definition ex_iface : iface := Iface "2" None 6 (Some ex_plain).
Definition ex_base : subsystem :=
  SubsystemSt "base" None [ex_iface] (shash_collect ir_name ex_rows).
Definition ex_state : sst := SSt [ex_base] 0 LLONG_MIN 0 ∅ ∅ [].

Lemma ex_base_wf : subsystem_wf ex_base.
Proof.
  split; [by_compute|]. constructor; [|constructor]. split; [reflexivity|]. by exists ex_plain.
Defined.

Lemma ex_subsystems_wf : sst_wf ex_state.
Proof. split; [by_compute|]. constructor; [apply ex_base_wf|constructor]. Defined.

Lemma ex_subsystems_elem ss i : ss ∈ all_subsystems ex_state → i ∈ iface_by_name ss → ss = ex_base ∧ i = ex_iface.
Proof. by intros ->%list_elem_of_singleton ->%list_elem_of_singleton. Qed.

Lemma split_parents_are_opened_first_witness :
  ∃ ss' s' parents others, subsystem_add_ifaces ex_answers ex_base ex_state = Ok (ss', s') ∧
    subsystem_wf ss' ∧
    (∀ i, i ∈ iface_by_name ex_base → i ∈ iface_by_name ss') ∧
    (∀ i, i ∈ iface_by_name ss' → i ∈ iface_by_name ex_base ∨
       ∃ cfg, cfg ∈ ex_rows ∧ i = new_iface ex_answers cfg) ∧
    (∀ cfg, cfg ∈ ex_rows → device_works (ir_name cfg) → ir_name cfg ∈ (i_name <$> iface_by_name ss')) ∧
    opened (netdev_log s') = opened [] ++ (ir_name <$> parents) ++ (ir_name <$> others) ∧
    parents ≡ₚ filter (λ cfg, is_split_parent cfg ∧ opens_device ex_base cfg) ex_rows ∧
    others ≡ₚ filter (λ cfg, negb (is_split_parent cfg) ∧ opens_device ex_base cfg) ex_rows.
Proof.
  apply (split_parents_are_opened_first ex_answers ex_base ex_rows ex_state).
  - apply ex_base_wf.
  - reflexivity.
  - by_compute.
Defined.

Lemma ex_kept ss i :
  ss ∈ all_subsystems ex_state → i ∈ iface_by_name ss → still_wanted ex_sys ss i.
Proof.
  intros Hss Hi. destruct (ex_subsystems_elem ss i Hss Hi) as [-> ->].
  exists (SubsystemRow "base" ex_rows). split; [vm_compute; reflexivity|]. by_compute.
Defined.

Lemma subsystem_reconfigure_converges_witness :
  ∃ s', subsystem_reconfigure ex_answers ex_sys ex_state = Ok (tt, s') ∧ sst_wf s' ∧
    NetdevSetConfig "2" ∅ ∈ netdev_log s'.
Proof.
  destruct (subsystem_reconfigure_converges ex_answers ex_sys ex_state ex_subsystems_wf ex_kept)
    as (s' & ev & E & Hwf & El & _ & _ & _ & Hm).
  exists s'. split; [exact E|]. split; [exact Hwf|]. rewrite El. apply elem_of_app. right.
  apply (Hm ex_base ex_iface (SubsystemRow "base" ex_rows) ex_plain).
  - apply list_elem_of_singleton. reflexivity.
  - apply list_elem_of_singleton. reflexivity.
  - vm_compute. reflexivity.
  - vm_compute. reflexivity.
  - reflexivity.
Defined.

Lemma removed_interface_crashes_witness :
  subsystem_reconfigure ex_answers (SystemRow ∅ [SubsystemRow "base" [ex_parent]]) ex_state =
  Fault NullDereference.
Proof.
  apply (removed_interface_crashes ex_answers _ ex_state ex_base ex_iface).
  - apply ex_subsystems_wf.
  - apply list_elem_of_singleton. reflexivity.
  - apply list_elem_of_singleton. reflexivity.
  - intros (row & E & Hin). vm_compute in E. injection E as <-.
    apply list_elem_of_singleton in Hin. discriminate.
Defined.

Lemma run_status_update_follows_devices_witness :
  ∃ s', run_status_update ex_answers ex_state = Ok (tt, s') ∧
    columns s' !! 3 = Some (netdev_columns (ex_answers "2")).
Proof.
  destruct (run_status_update_follows_devices ex_answers ex_state ex_subsystems_wf) as (s' & E & _ & _ & _ & Hc & _).
  - by_compute.
  - exists s'. split; [exact E|]. apply (Hc ex_iface ex_plain).
    + apply list_elem_of_singleton. reflexivity.
    + reflexivity.
Defined.

Lemma run_stats_update_when_due_witness :
  ∃ s', run_stats_update ex_answers (Some ex_sys) 100 110 ex_state = Ok (tt, s') ∧
    stats_timer s' = 5110 ∧ statistics s' !! 3 = Some (iface_stats (ex_answers "2")).
Proof.
  destruct (run_stats_update_when_due ex_answers ex_sys 100 110 ex_state ex_subsystems_wf)
    as (s' & E & _ & _ & _ & Hc).
  - by_compute.
  - vm_compute. discriminate.
  - exists s'. split; [exact E|]. rewrite decide_False in Hc by (intros [Hi _]; by vm_compute in Hi).
    destruct Hc as (Ht & _ & Hs & _). split; [rewrite Ht; by vm_compute|].
    apply (Hs ex_iface ex_plain); [|reflexivity]. apply list_elem_of_singleton. reflexivity.
Defined.
