(* ===== verification/Vlan.v ===== *)
(** * VLANs of a bridge: bridge.c, "VLAN functions"

    [bridge_configure_vlans] follows the VLAN rows of a bridge with one
    structure per row and programs the switch through [ofproto_set_vlan], whose
    result it ignores. *)

From S2P Require Import Prelude OvsLib.
Local Open Scope Z_scope.

(** ** Data *)

(** [vr_inserted], [vr_modified]: the row was inserted or modified since the
    last reconfiguration. *)
Record ovsrec_vlan := VlanRow {
  vr_name : string;
  vr_id : Z;
  vr_hw_vlan_config : smap;
  vr_inserted : bool;
  vr_modified : bool;
}.

Record vlan := Vlan {
  vl_name : string;
  vid : Z;
  vl_cfg : option ovsrec_vlan;
  vl_enable : bool;
}.

(** The [vlans] of one bridge, and the calls [ofproto_set_vlan(_, vid, add)]. *)
Record vlst := VlSt {
  vlans : list vlan;
  vlan_log : list (Z * bool);
}.

(** [openswitch-idl.h] *)
Class VlanSchema := {
  VLAN_HW_CONFIG_MAP_ENABLE : string;
  VLAN_HW_CONFIG_MAP_ENABLE_TRUE : string;
}.

Section Vlan.
Context `{HL : OvsLib, HV : VlanSchema}.

Definition set_vlans (l : list vlan) (s : vlst) : vlst := VlSt l (vlan_log s).

Definition ofproto_set_vlan (v : Z) (add : bool) : M vlst unit :=
  modify (λ s, VlSt (vlans s) (vlan_log s ++ [(v, add)])).

(** ** Operations *)

Definition vlan_lookup_by_name (name : string) (s : vlst) : option vlan :=
  hmap_first_with_hash (λ v, hash_string (vl_name v)) (hash_string name)
    (λ v, bool_decide (vl_name v = name)) (vlans s).

Definition vlan_lookup_by_vid (id : Z) (s : vlst) : option vlan :=
  List.find (λ v, vid v =? id) (vlans s).

Definition vlan_create (cfg : ovsrec_vlan) : M vlst unit :=
  modify (λ s, set_vlans (hmap_insert (hash_string (vr_name cfg))
    (Vlan (vr_name cfg) (to_signed 32 (vr_id cfg)) (Some cfg) false) (vlans s)) s).

Definition vlan_destroy (v : vlan) : M vlst unit :=
  modify (λ s, set_vlans (filter (λ x, vl_name x ≠ vl_name v) (vlans s)) s).

(** A write through the pointer to a VLAN. *)
Definition put_vlan (v : vlan) : M vlst unit :=
  modify (λ s, set_vlans ((λ x, if bool_decide (vl_name x = vl_name v) then v else x) <$> vlans s) s).

(** One iteration of "Delete old VLANs". *)
Definition delete_old_vlan (idl_vlans : shash ovsrec_vlan) (v : vlan) : M vlst unit :=
  match idl_vlans !! vl_name v with
  | None => ofproto_set_vlan (vid v) false ;; vlan_destroy v
  | Some cfg => put_vlan (Vlan (vl_name v) (vid v) (Some cfg) (vl_enable v))
  end.

(** One iteration of "Add new VLANs". *)
Definition add_new_vlan (node : string * ovsrec_vlan) : M vlst unit :=
  known ← gets (vlan_lookup_by_name node.1);
  match known with
  | None => vlan_create node.2
  | Some _ => mret tt
  end.

(** [new_enable] *)
Definition vlan_row_enable (row : ovsrec_vlan) : bool :=
  match vr_hw_vlan_config row !! VLAN_HW_CONFIG_MAP_ENABLE with
  | Some hw_cfg_enable => bool_decide (hw_cfg_enable = VLAN_HW_CONFIG_MAP_ENABLE_TRUE)
  | None => false
  end.

(** One iteration of "Check for changes in the VLAN row entries". *)
Definition check_vlan_changes (v : vlan) : M vlst unit :=
  match vl_cfg v with
  | None => mret tt
  | Some row =>
    mwhen (vr_inserted row || vr_modified row)
      (let new_enable := vlan_row_enable row in
       mwhen (negb (Bool.eqb new_enable (vl_enable v)))
         (put_vlan (Vlan (vl_name v) (vid v) (vl_cfg v) new_enable) ;;
          ofproto_set_vlan (vid v) new_enable))
  end.

(** [rows]: [br->cfg->vlans]. *)
Definition bridge_configure_vlans (rows : list ovsrec_vlan) : M vlst unit :=
  let sh_idl_vlans := shash_collect vr_name rows in
  old ← gets vlans;
  mfor old (delete_old_vlan sh_idl_vlans) ;;
  mfor (shash_nodes sh_idl_vlans) add_new_vlan ;;
  all ← gets vlans;
  mfor all check_vlan_changes.
End Vlan.

(** ** The VLAN table of the switch *)

(** The VLANs the calls leave in the switch. *)
Definition switch_vlans (log : list (Z * bool)) : gmap Z bool :=
  fold_left (λ m p, <[p.1 := p.2]> m) log ∅.

Definition switch_has_vlan (log : list (Z * bool)) (id : Z) : bool :=
  default false (switch_vlans log !! id).

Lemma switch_has_vlan_snoc log id b x :
  switch_has_vlan (log ++ [(id, b)]) x = if decide (id = x) then b else switch_has_vlan log x.
Proof.
  unfold switch_has_vlan, switch_vlans. rewrite fold_left_app. simpl.
  rewrite lookup_insert. by case_decide.
Qed.

(** ** Invariant *)

(** Names and identifiers are distinct, and the switch has exactly the enabled
    VLANs. *)
Record vlan_inv (s : vlst) : Prop := VlanInv {
  vi_names : NoDup (vl_name <$> vlans s);
  vi_vids : NoDup (vid <$> vlans s);
  vi_known : ∀ v, v ∈ vlans s → switch_has_vlan (vlan_log s) (vid v) = vl_enable v;
  vi_unknown : ∀ id, id ∉ (vid <$> vlans s) → switch_has_vlan (vlan_log s) id = false;
}.

Lemma NoDup_fmap_mid {A B} (f : A → B) d x r :
  NoDup (f <$> d ++ x :: r) ↔ (∀ y, y ∈ d ++ r → f y ≠ f x) ∧ NoDup (f <$> d ++ r).
Proof.
  rewrite <-Permutation_middle, fmap_cons, NoDup_cons, list_elem_of_fmap.
  split; intros [H1 H2]; (split; [|done]).
  - intros y Hy E. apply H1. by exists y.
  - intros (y & E & Hy). by apply (H1 y).
Qed.

Lemma vlan_inv_replace d v r v' log :
  vl_name v' = vl_name v → vid v' = vid v → vlan_inv (VlSt (d ++ v :: r) log) →
  vlan_inv (VlSt (d ++ v' :: r)
    (if Bool.eqb (vl_enable v') (vl_enable v) then log else log ++ [(vid v, vl_enable v')])).
Proof.
  intros En Ei [Hn Hv Hk Hu]; simpl in *.
  assert (vl_name <$> d ++ v' :: r = vl_name <$> d ++ v :: r) as En' by (by rewrite !fmap_app, !fmap_cons, En).
  assert (vid <$> d ++ v' :: r = vid <$> d ++ v :: r) as Ei' by (by rewrite !fmap_app, !fmap_cons, Ei).
  split; simpl; rewrite ?En', ?Ei'; [done|done|..].
  - apply NoDup_fmap_mid in Hv as [Hne _]. intros w Hw.
    assert (w = v' ∨ w ∈ d ++ r) as [->|Hw'] by set_solver.
    + rewrite Ei. destruct (Bool.eqb _ _) eqn:E.
      * apply eqb_prop in E as ->. apply Hk. set_solver.
      * rewrite switch_has_vlan_snoc. by rewrite decide_True.
    + assert (switch_has_vlan log (vid w) = vl_enable w) as <- by (apply Hk; set_solver).
      case_match; [done|]. rewrite switch_has_vlan_snoc. rewrite decide_False; [done|]. specialize (Hne w Hw'). congruence.
  - intros id Hid. case_match; [by apply Hu|]. rewrite switch_has_vlan_snoc, decide_False; [by apply Hu|].
    intros <-. apply Hid. rewrite fmap_app, fmap_cons. set_solver.
Qed.

Lemma vlan_inv_delete d v r log :
  vlan_inv (VlSt (d ++ v :: r) log) → vlan_inv (VlSt (d ++ r) (log ++ [(vid v, false)])).
Proof.
  intros [Hn Hv Hk Hu]; simpl in *. apply NoDup_fmap_mid in Hn as [_ Hn]. apply NoDup_fmap_mid in Hv as [Hne Hv].
  split; simpl; [done|done|..].
  - intros w Hw. rewrite switch_has_vlan_snoc, decide_False; [apply Hk; set_solver|]. specialize (Hne w Hw). congruence.
  - intros id Hid. rewrite switch_has_vlan_snoc. case_decide; [done|]. apply Hu.
    rewrite <-Permutation_middle, fmap_cons. set_solver.
Qed.

Lemma vlan_inv_insert v l l' log :
  l' ≡ₚ v :: l → vl_name v ∉ (vl_name <$> l) → vid v ∉ (vid <$> l) → vl_enable v = false →
  vlan_inv (VlSt l log) → vlan_inv (VlSt l' log).
Proof.
  intros Hp Hn Hv He [Hns Hvs Hk Hu]; simpl in *.
  split; simpl; [rewrite Hp, fmap_cons; by constructor..| |].
  - intros w. rewrite Hp. intros [->|Hw]%elem_of_cons; [|by apply Hk]. rewrite He. by apply Hu.
  - intros id. rewrite Hp, fmap_cons. intros Hid. apply Hu. set_solver.
Qed.

Section Facts.
Context `{HL : OvsLib, HV : VlanSchema}.

Lemma vlan_lookup_by_name_None name s :
  vlan_lookup_by_name name s = None ↔ name ∉ (vl_name <$> vlans s).
Proof.
  unfold vlan_lookup_by_name, hmap_first_with_hash. rewrite find_None_iff, list_elem_of_fmap. split.
  - intros H (i & -> & Hi). specialize (H i Hi). by rewrite Z.eqb_refl, bool_decide_true in H.
  - intros H i Hi. case_bool_decide as En; [|by rewrite andb_false_r]. destruct H. eauto.
Qed.

(** What the first loop leaves of a structure. *)
Definition keep_vlan (m : shash ovsrec_vlan) (v : vlan) : option vlan :=
  (λ cfg, Vlan (vl_name v) (vid v) (Some cfg) (vl_enable v)) <$> m !! vl_name v.

Lemma delete_loop_run m r d s :
  vlans s = d ++ r → vlan_inv s →
  ∃ s', mfor r (delete_old_vlan m) s = Ok (tt, s') ∧ vlans s' = d ++ omap (keep_vlan m) r ∧ vlan_inv s'.
Proof.
  revert d s. induction r as [|v r IH]; intros d [l log] El Hi; simpl in El; subst l.
  { by exists (VlSt (d ++ []) log). }
  pose proof (vi_names _ Hi) as Hn. simpl in Hn. csimpl. unfold keep_vlan at 1.
  destruct (m !! vl_name v) as [cfg|] eqn:E; simpl.
  - set (v' := Vlan (vl_name v) (vid v) (Some cfg) (vl_enable v)).
    destruct (IH (d ++ [v']) (VlSt (d ++ v' :: r) log)) as (s' & E' & El' & Hi').
    { by rewrite <-app_assoc. }
    { pose proof (vlan_inv_replace d v r v' log eq_refl eq_refl Hi) as H. by rewrite eqb_reflx in H. }
    exists s'. split; [|by rewrite El', <-app_assoc]. erewrite bind_run; [exact E'|].
    unfold delete_old_vlan, put_vlan, modify. rewrite E. simpl. by rewrite (replace_by_name vl_name).
  - destruct (IH d (VlSt (d ++ r) (log ++ [(vid v, false)]))) as (s' & E' & El' & Hi'); [done|by apply vlan_inv_delete|].
    exists s'. split; [|done]. erewrite bind_run; [exact E'|].
    unfold delete_old_vlan, vlan_destroy, ofproto_set_vlan. rewrite E. step. unfold modify, set_vlans. simpl.
    by rewrite (filter_by_name vl_name).
Qed.

(** What the last loop makes of a structure. *)
Definition checked_vlan (v : vlan) : vlan :=
  match vl_cfg v with
  | Some row => if vr_inserted row || vr_modified row
                then Vlan (vl_name v) (vid v) (vl_cfg v) (vlan_row_enable row) else v
  | None => v
  end.

Lemma check_vlan_run d v r log :
  vlan_inv (VlSt (d ++ v :: r) log) →
  ∃ log', check_vlan_changes v (VlSt (d ++ v :: r) log) = Ok (tt, VlSt (d ++ checked_vlan v :: r) log') ∧
    vlan_inv (VlSt (d ++ checked_vlan v :: r) log').
Proof.
  intros Hi. pose proof (vi_names _ Hi) as Hn. simpl in Hn.
  unfold check_vlan_changes, checked_vlan.
  destruct (vl_cfg v) as [row|] eqn:Ec; [|by exists log].
  destruct (vr_inserted row || vr_modified row); [|by exists log]. simpl.
  set (v' := Vlan _ _ _ _). pose proof (vlan_inv_replace d v r v' log eq_refl eq_refl Hi) as H. simpl in H.
  destruct (Bool.eqb (vlan_row_enable row) (vl_enable v)) eqn:Ee; simpl.
  - exists log. apply eqb_prop in Ee. split; [|done]. assert (v' = v) as ->; [|done].
    unfold v'. destruct v. simpl in *. by rewrite Ee, Ec.
  - exists (log ++ [(vid v, vlan_row_enable row)]). split; [|done].
    unfold put_vlan, ofproto_set_vlan. step. unfold modify, set_vlans. simpl.
    change (vl_name v) with (vl_name v) at 1. by rewrite (replace_by_name vl_name).
Qed.

Lemma check_loop_run r d s :
  vlans s = d ++ r → vlan_inv s →
  ∃ s', mfor r check_vlan_changes s = Ok (tt, s') ∧ vlans s' = d ++ (checked_vlan <$> r) ∧ vlan_inv s'.
Proof.
  revert d s. induction r as [|v r IH]; intros d [l log] El Hi; simpl in El; subst l.
  { by exists (VlSt (d ++ []) log). }
  destruct (check_vlan_run d v r log Hi) as (log' & E & Hi').
  destruct (IH (d ++ [checked_vlan v]) (VlSt (d ++ checked_vlan v :: r) log')) as (s' & E' & El' & Hi'').
  { by rewrite <-app_assoc. } { done. }
  exists s'. cbn [mfor]. step E. split; [done|]. split; [|done]. by rewrite El', <-app_assoc.
Qed.

(** The loop that adds VLANs: [d] are the nodes handled, [old] the structures
    before. *)
Definition vlans_adding (old : list vlan) (d : list (string * ovsrec_vlan)) (s : vlst) : Prop :=
  vlan_inv s ∧ old ⊆ vlans s ∧
  (∀ v, v ∈ vlans s → v ∈ old ∨
     ∃ row, ((vl_name v, row) ∈ d) ∧ (vl_name v ∉ (vl_name <$> old)) ∧
            v = Vlan (vr_name row) (to_signed 32 (vr_id row)) (Some row) false) ∧
  (∀ p, p ∈ d → p.1 ∈ (vl_name <$> vlans s)).
Lemma add_loop_run (m : shash ovsrec_vlan) old :
  (∀ k row, m !! k = Some row → vr_name row = k) →
  (∀ k1 k2 r1 r2, m !! k1 = Some r1 → m !! k2 = Some r2 →
     to_signed 32 (vr_id r1) = to_signed 32 (vr_id r2) → k1 = k2) →
  (∀ v, v ∈ old → ∃ row, m !! vl_name v = Some row ∧ to_signed 32 (vr_id row) = vid v) →
  hoare (vlans_adding old []) (mfor (shash_nodes m) add_new_vlan) (λ _, vlans_adding old (shash_nodes m)).
Proof.
  intros Hkey Hinj Hold. apply hoare_for. intros d [k row] r Hl s (Hi & Hsub & Hall & Hd).
  assert (m !! k = Some row) as Hk by (apply elem_of_shash_nodes; rewrite Hl; set_solver).
  assert (∀ p, p ∈ d → m !! p.1 = Some p.2) as Hdm.
  { intros [k' r'] Hp. apply elem_of_shash_nodes. rewrite Hl. set_solver. }
  unfold add_new_vlan. simpl. destruct (vlan_lookup_by_name k s) as [v|] eqn:E.
  - exists tt, s. split; [step; by rewrite E|]. split; [done|]. split; [done|]. split; [set_solver|].
    intros p [Hp| ->%list_elem_of_singleton]%elem_of_app; [by apply Hd|]. simpl. apply dec_stable.
    intros Hn%vlan_lookup_by_name_None. congruence.
  - apply vlan_lookup_by_name_None in E as Hn.
    set (v := Vlan (vr_name row) (to_signed 32 (vr_id row)) (Some row) false).
    exists tt, (set_vlans (hmap_insert (hash_string (vr_name row)) v (vlans s)) s).
    split; [step; rewrite E; reflexivity|].
    pose proof (hmap_insert_perm (hash_string (vr_name row)) v (vlans s)) as Hp.
    split; [|split; [|split]].
    + destruct s as [l log]. apply (vlan_inv_insert v l); simpl; [done|by rewrite (Hkey k row)| |done|done].
      intros (w & Ew & Hw)%list_elem_of_fmap. apply Hn.
      assert (∃ r', m !! vl_name w = Some r' ∧ to_signed 32 (vr_id r') = vid w) as (r' & Hr' & Ev).
      { destruct (Hall w Hw) as [?|(r' & Hin & _ & ->)]; [by apply Hold|]. exists r'. by apply Hdm in Hin. }
      rewrite (Hinj k (vl_name w) row r'); [by apply list_elem_of_fmap_2|done|done|congruence].
    + simpl. rewrite Hp. set_solver.
    + intros w Hw. simpl in Hw. rewrite Hp in Hw. apply elem_of_cons in Hw as [->|Hw].
      * right. exists row. assert (vl_name v = k) as -> by (by apply Hkey). split; [set_solver|]. split; [|done].
        intros (w & Ew & Hw)%list_elem_of_fmap. apply Hn. rewrite Ew. apply list_elem_of_fmap_2. by apply Hsub.
      * destruct (Hall w Hw) as [?|(r' & ? & ? & ?)]; [by left|]. right. exists r'. set_solver.
    + intros p [Hp'| ->%list_elem_of_singleton]%elem_of_app; simpl; rewrite Hp, fmap_cons.
      * right. by apply Hd.
      * simpl. rewrite (Hkey k row) by done. left.
Qed.

(** ** The whole reconfiguration *)

(** The conditions the database and the IDL guarantee: the identifiers of the
    rows are distinct, in range and never change; a row that is new to the
    bridge was inserted or modified; a row that was neither still has the
    setting that was applied. *)
Record vlan_rows_ok (rows : list ovsrec_vlan) (s : vlst) : Prop := VlanRowsOk {
  vo_range : ∀ r, r ∈ rows → 0 ≤ vr_id r < 4096;
  vo_ids : ∀ r1 r2, r1 ∈ rows → r2 ∈ rows → vr_id r1 = vr_id r2 → vr_name r1 = vr_name r2;
  vo_fixed : ∀ v r, v ∈ vlans s → r ∈ rows → vr_name r = vl_name v → vr_id r = vid v;
  vo_new : ∀ r, r ∈ rows → (vr_name r ∉ (vl_name <$> vlans s)) → vr_inserted r || vr_modified r = true;
  vo_same : ∀ v r, v ∈ vlans s → r ∈ rows → vr_name r = vl_name v →
    vr_inserted r || vr_modified r = false → vlan_row_enable r = vl_enable v;
}.

Lemma to_signed_small z : 0 ≤ z < 4096 → to_signed 32 z = z.
Proof.
  intros Hz. unfold to_signed. rewrite Z.mod_small by lia. cbv zeta.
  destruct (Z.ltb_spec z (2 ^ (32 - 1))); lia.
Qed.

(** The structure of a row after the last loop. *)
Definition vlan_of_row (r : ovsrec_vlan) : vlan :=
  Vlan (vr_name r) (vr_id r) (Some r) (vlan_row_enable r).

Section Converge.
Context (rows : list ovsrec_vlan) (s : vlst) (Hinv : vlan_inv s) (Hrows : vlan_rows_ok rows s).
Local Abbreviation m := (shash_collect vr_name rows).

Lemma vlan_row_id k r : m !! k = Some r → r ∈ rows ∧ vr_name r = k ∧ to_signed 32 (vr_id r) = vr_id r.
Proof.
  intros [Hr En]%shash_collect_Some. split; [done|]. split; [done|]. by apply to_signed_small, (vo_range _ _ Hrows).
Qed.

(** After the first two loops the structures stand for the rows, and the last
    loop gives them the setting of their row. *)
Lemma bridge_configure_vlans_run :
  ∃ s', bridge_configure_vlans rows s = Ok (tt, s') ∧ vlan_inv s' ∧
    (∀ v, v ∈ vlans s' → ∃ r, m !! vl_name v = Some r ∧ v = vlan_of_row r) ∧
    (∀ k, is_Some (m !! k) → k ∈ (vl_name <$> vlans s')).
Proof.
  destruct (delete_loop_run m (vlans s) [] s eq_refl Hinv) as (s1 & E1 & El1 & Hi1). simpl in El1.
  assert (∀ v, v ∈ vlans s1 → ∃ r v0, m !! vl_name v = Some r ∧ v0 ∈ vlans s ∧ vl_name v0 = vl_name v ∧
            v = Vlan (vr_name r) (vr_id r) (Some r) (vl_enable v0)) as H1.
  { rewrite El1. intros v (v0 & H0 & Ek)%list_elem_of_omap. unfold keep_vlan in Ek.
    destruct (m !! vl_name v0) as [r|] eqn:Er; simplify_eq/=. exists r, v0.
    destruct (vlan_row_id _ _ Er) as (Hr & En & _). rewrite En, (vo_fixed _ _ Hrows v0 r); auto. }
  assert (∀ k r, m !! k = Some r → k ∈ (vl_name <$> vlans s) → k ∈ (vl_name <$> vlans s1)) as Hkept.
  { rewrite El1. intros k r Hr (v0 & -> & H0)%list_elem_of_fmap. apply list_elem_of_fmap.
    exists (Vlan (vl_name v0) (vid v0) (Some r) (vl_enable v0)). split; [done|]. apply list_elem_of_omap.
    exists v0. unfold keep_vlan. by rewrite Hr. }
  destruct (add_loop_run m (vlans s1)) with (s := s1) as ([] & s2 & E2 & Hi2 & _ & Hall2 & Hadd2).
  { intros k r Hk. by apply vlan_row_id in Hk as (_ & ? & _). }
  { intros k1 k2 r1 r2 Hk1 Hk2. destruct (vlan_row_id _ _ Hk1) as (Hr1 & <- & ->), (vlan_row_id _ _ Hk2) as (Hr2 & <- & ->).
    by apply (vo_ids _ _ Hrows). }
  { intros v Hv. destruct (H1 v Hv) as (r & v0 & Er & _ & _ & Ev). exists r. split; [done|].
    destruct (vlan_row_id _ _ Er) as (_ & _ & ->). by rewrite Ev. }
  { split; [done|]. split; [done|]. split; [by left|]. set_solver. }
  destruct (check_loop_run (vlans s2) [] s2 eq_refl Hi2) as (s3 & E3 & El3 & Hi3). simpl in El3.
  exists s3. split; [|split; [done|split]].
  - unfold bridge_configure_vlans. step. step E1. step E2. step. done.
  - rewrite El3. intros w (v & -> & Hv)%list_elem_of_fmap.
    destruct (Hall2 v Hv) as [Hv1|(r & Hr%elem_of_shash_nodes & Hn & Ev)].
    + destruct (H1 v Hv1) as (r & v0 & Er & H0 & En0 & Ev). exists r. destruct (vlan_row_id _ _ Er) as (Hr & En & _).
      rewrite Ev in Er |- *. unfold checked_vlan, vlan_of_row. simpl in *.
      destruct (vr_inserted r || vr_modified r) eqn:Ef; [done|]. split; [done|].
      rewrite (vo_same _ _ Hrows v0 r); [done|done|done|congruence|done].
    + exists r. destruct (vlan_row_id _ _ Hr) as (Hin & En & Eid). rewrite Ev in Hr, Hn |- *.
      unfold checked_vlan, vlan_of_row. simpl in *. rewrite (vo_new _ _ Hrows r) by naive_solver.
      split; [done|]. by rewrite Eid.
  - intros k [r Hr]. rewrite El3. assert (k ∈ (vl_name <$> vlans s2)) as (v & -> & Hv)%list_elem_of_fmap.
    { apply (Hadd2 (k, r)). by apply elem_of_shash_nodes. }
    apply list_elem_of_fmap. exists (checked_vlan v). split; [|by apply list_elem_of_fmap_2].
    unfold checked_vlan. by repeat case_match.
Qed.
End Converge.

(** One structure per row, and exactly the enabled rows in the switch. *)
Definition vlans_follow (rows : list ovsrec_vlan) (s' : vlst) : Prop :=
  let m := shash_collect vr_name rows in
  vlan_inv s' ∧
  (∀ v, v ∈ vlans s' ↔ ∃ r, m !! vl_name v = Some r ∧ v = vlan_of_row r) ∧
  (∀ id, switch_has_vlan (vlan_log s') id = true ↔
      ∃ k r, m !! k = Some r ∧ vr_id r = id ∧ vlan_row_enable r = true).

Lemma configure_vlans_follow (rows : list ovsrec_vlan) (s : vlst) :
  vlan_inv s → vlan_rows_ok rows s →
  ∃ s', bridge_configure_vlans rows s = Ok (tt, s') ∧ vlans_follow rows s'.
Proof.
  intros Hinv Hrows. set (m := shash_collect vr_name rows).
  destruct (bridge_configure_vlans_run rows s Hinv Hrows) as (s' & E & Hi & Hall & Hk).
  exists s'. split; [done|]. split; [done|].
  assert (∀ k r, m !! k = Some r → vlan_of_row r ∈ vlans s') as Hrow.
  { intros k r Hr. assert (k ∈ (vl_name <$> vlans s')) as (v & -> & Hv)%list_elem_of_fmap by (apply Hk; eauto).
    destruct (Hall v Hv) as (r' & Hr' & Ev). fold m in Hr'. rewrite Ev in Hv. congruence. }
  split.
  - intros v. split; [by apply Hall|]. intros (r & Hr & ->). by eapply Hrow.
  - intros id. split.
    + intros Hon. destruct (decide (id ∈ (vid <$> vlans s'))) as [(v & -> & Hv)%list_elem_of_fmap|Hno].
      * rewrite (vi_known _ Hi) in Hon by done. destruct (Hall v Hv) as (r & Hr & Ev).
        exists (vl_name v), r. by subst v.
      * rewrite (vi_unknown _ Hi) in Hon by done. done.
    + intros (k & r & Hr & <- & He). rewrite <-He. apply (vi_known _ Hi (vlan_of_row r)). by eapply Hrow.
Qed.
(** C15: [bridge_configure_vlans] returns with one structure per VLAN of the
    bridge's row, holding the identifier, the row and the setting of the row,
    and with exactly the enabled VLANs of the configuration in the switch: VLANs
    that left the configuration are removed from it, new and changed ones are
    programmed. *)
Theorem bridge_configure_vlans_converges (rows : list ovsrec_vlan) (s : vlst)
  (Hinv : vlan_inv s) (Hrows : vlan_rows_ok rows s) :
  let m := shash_collect vr_name rows in
  ∃ s', bridge_configure_vlans rows s = Ok (tt, s') ∧ vlan_inv s' ∧
    (∀ v, v ∈ vlans s' ↔ ∃ r, m !! vl_name v = Some r ∧ v = vlan_of_row r) ∧
    (∀ id, switch_has_vlan (vlan_log s') id = true ↔
        ∃ k r, m !! k = Some r ∧ vr_id r = id ∧ vlan_row_enable r = true).
Proof. exact (configure_vlans_follow rows s Hinv Hrows). Qed.
End Facts.

(** ** Example *)

Definition ref_vlan_schema : VlanSchema := {|
  VLAN_HW_CONFIG_MAP_ENABLE := "enable";
  VLAN_HW_CONFIG_MAP_ENABLE_TRUE := "true";
|}.

#[local] Existing Instances ref_lib ref_vlan_schema.

(** VLAN 10 is enabled, VLAN 30 is not; VLAN 10 goes, VLAN 20 comes, and VLAN 30
    is enabled. *)
Definition ex_vlan (n : string) (id : Z) (on : bool) (inserted modified : bool) : ovsrec_vlan :=
  VlanRow n id (if on then {[ "enable" := "true" ]} else ∅) inserted modified.

Definition ex_vlans : vlst :=
  VlSt [Vlan "VLAN10" 10 (Some (ex_vlan "VLAN10" 10 true true false)) true;
        Vlan "VLAN30" 30 (Some (ex_vlan "VLAN30" 30 false true false)) false] [(10, true)].

Definition ex_vlan_rows : list ovsrec_vlan :=
  [ex_vlan "VLAN20" 20 true true false; ex_vlan "VLAN30" 30 true false true].

Lemma ex_vlans_inv : vlan_inv ex_vlans.
Proof.
  split; [by_compute|by_compute| |].
  - intros v Hv. simpl in Hv. cases_elem Hv; reflexivity.
  - intros id Hid. unfold switch_has_vlan, switch_vlans. simpl in *.
    rewrite lookup_insert_ne; [done|]. intros <-. apply Hid. left.
Qed.

Lemma ex_vlan_rows_ok : vlan_rows_ok ex_vlan_rows ex_vlans.
Proof.
  unfold ex_vlan_rows, ex_vlans. split; simpl.
  - intros r Hr. cases_elem Hr; simpl; lia.
  - intros r1 r2 H1 H2. cases_elem H1; cases_elem H2; simpl; done.
  - intros v r Hv Hr. cases_elem Hv; cases_elem Hr; simpl; done.
  - intros r Hr _. cases_elem Hr; reflexivity.
  - intros v r Hv Hr. cases_elem Hv; cases_elem Hr; simpl; done.
Qed.

Lemma bridge_configure_vlans_converges_witness :
  ∃ s', bridge_configure_vlans ex_vlan_rows ex_vlans = Ok (tt, s') ∧
    switch_has_vlan (vlan_log s') 20 = true ∧ switch_has_vlan (vlan_log s') 30 = true ∧
    switch_has_vlan (vlan_log s') 10 ≠ true.
Proof.
  destruct (bridge_configure_vlans_converges ex_vlan_rows ex_vlans ex_vlans_inv ex_vlan_rows_ok)
    as (s' & E & _ & _ & Hsw).
  exists s'. split; [exact E|]. split; [|split].
  - apply Hsw. exists "VLAN20", (ex_vlan "VLAN20" 20 true true false).
    split; [vm_compute; reflexivity|split; reflexivity].
  - apply Hsw. exists "VLAN30", (ex_vlan "VLAN30" 30 true false true).
    split; [vm_compute; reflexivity|split; reflexivity].
  - rewrite Hsw. intros (k & r & Hr & Hid & _).
    apply shash_collect_Some in Hr as [Hr _]. unfold ex_vlan_rows in Hr. cases_elem Hr; discriminate.
Defined.
