(* ===== verification/Mirror.v ===== *)
(** * Port mirroring: bridge.c, "Port mirroring"

    [bridge_configure_mirrors] follows the Mirror rows of a bridge, registers
    the mirrors with the switch through [ofproto_mirror_register] and reports
    the outcome in the [mirror_status] column of the rows. *)

From S2P Require Import Prelude OvsLib.
Local Open Scope Z_scope.

(** ** Data *)

Record ovsrec_mirror := MirrorRow {
  mr_uuid : Z;
  mr_name : string;
  mr_active : option bool;
  mr_output_port : option string;        (* output_port->name *)
  mr_select_src_port : list string;
  mr_select_dst_port : list string;
  mr_modified : bool;
}.

Record mirror := Mirror {
  m_uuid : Z;
  m_name : string;
  m_cfg : option ovsrec_mirror;
}.

(** A bridge, or the bridge part of a VRF, as far as mirrors see it: does it
    have an ofproto, and the names of its ports. *)
Record bridge_view := BridgeView {
  bv_name : string;
  bv_ofproto : bool;
  bv_ports : list string;
}.

(** [struct ofproto_mirror_bundle]: the owner of the ofproto and the port; both
    null in a slot that was never filled. *)
Record ofproto_mirror_bundle := Bundle {
  ob_ofproto : option string;
  ob_aux : option string;
}.

Definition null_bundle : ofproto_mirror_bundle := Bundle None None.

Record ofproto_mirror_settings := MirrorSettings {
  ms_name : string;
  ms_out_bundle : ofproto_mirror_bundle;
  ms_srcs : list ofproto_mirror_bundle;
  ms_n_srcs : nat;
  ms_dsts : list ofproto_mirror_bundle;
  ms_n_dsts : nat;
}.

(** The calls to the switch with the errors they returned. *)
Inductive mirror_event :=
| MirrorRegister (uuid : Z) (settings : ofproto_mirror_settings) (err : Z)
| MirrorUnregister (uuid : Z) (err : Z).

(** The mirrors of one bridge, the [mirror_status] column by row, and the calls. *)
Record mist := MiSt {
  mirrors : list mirror;
  mirror_status : gmap Z smap;
  mirror_log : list mirror_event;
}.

Definition set_mirrors (l : list mirror) (s : mist) : mist :=
  MiSt l (mirror_status s) (mirror_log s).
Definition set_status_column (u : Z) (m : smap) (s : mist) : mist :=
  MiSt (mirrors s) (<[u := m]> (mirror_status s)) (mirror_log s).
Definition add_mirror_event (e : mirror_event) (s : mist) : mist :=
  MiSt (mirrors s) (mirror_status s) (mirror_log s ++ [e]).

(** The errors the switch returns, and its statistics. *)
Class MirrorProvider := {
  ofproto_mirror_register : list mirror_event → Z → ofproto_mirror_settings → Z;
  ofproto_mirror_unregister : list mirror_event → Z → Z;
  (** tx_packets and tx_bytes, None: an error. *)
  ofproto_mirror_get_stats : list mirror_event → Z → option (Z * Z);
}.

(** [openswitch-idl.h], and [strerror(ENOMEM)]. *)
Class MirrorSchema := {
  MIRROR_STATUS_MAP_KEY_OPERATION_STATE : string;
  MIRROR_STATUS_MAP_STATE_ACTIVE : string;
  MIRROR_STATUS_MAP_STATE_SHUTDOWN : string;
  MIRROR_STATUS_MAP_ERROR_EXTERNAL : string;
  MIRROR_STATUS_MAP_ERROR_INTERNAL : string;
  MIRROR_STATUS_MAP_ERROR_UNKNOWN : string;
  strerror_enomem : string;
}.

Section Mirror.
Context `{HL : OvsLib, HP : MirrorProvider, HS : MirrorSchema}.
(** [all_bridges] and the bridges of [all_vrfs], in iteration order. *)
Context (all_bridges all_vrfs : list bridge_view).
(** [br->ofproto] of the bridge at hand is not null. *)
Context (br_ofproto : bool).

Definition mirror_strerror (errnum : Z) : string :=
  if errnum =? EFAULT then MIRROR_STATUS_MAP_ERROR_EXTERNAL
  else if errnum =? ENXIO then MIRROR_STATUS_MAP_ERROR_INTERNAL
  else if errnum =? ENOMEM then strerror_enomem
  else MIRROR_STATUS_MAP_ERROR_UNKNOWN.

Definition mirror_find_by_uuid (uuid : Z) (s : mist) : option mirror :=
  List.find (λ m, m_uuid m =? uuid) (mirrors s).

(** ** Ports *)

Definition port_lookup (br : bridge_view) (name : string) : option string :=
  hmap_first_with_hash hash_string (hash_string name) (λ p, bool_decide (p = name)) (bv_ports br).

(** The loops of [mirror_port_lookup]: the first owner of the port decides.
    [inl b]: the function returns; [inr tt]: the loop ends without a port. *)
Fixpoint lookup_in (l : list bridge_view) (name : string) : option ofproto_mirror_bundle + unit :=
  match l with
  | [] => inr tt
  | br :: l' =>
    match port_lookup br name with
    | Some port => inl (if bv_ofproto br then Some (Bundle (Some (bv_name br)) (Some port)) else None)
    | None => lookup_in l' name
    end
  end.

(** None: false is returned and the bundle is not written. *)
Definition mirror_port_lookup (name : string) : option ofproto_mirror_bundle :=
  match lookup_in all_bridges name with
  | inl r => r
  | inr _ => match lookup_in all_vrfs name with inl r => r | inr _ => None end
  end.

(** The array, one slot per name, and the count of the slots filled. *)
Definition mirror_collect_ports (in_ports : list string) : list ofproto_mirror_bundle * nat :=
  fold_left (λ out name, match mirror_port_lookup name with
                         | Some b => (out.1 ++ [b], S out.2)
                         | None => (out.1 ++ [null_bundle], out.2)
                         end) in_ports ([], 0%nat).

(** ** Mirrors *)

Definition mirror_create (cfg : ovsrec_mirror) : M mist mirror :=
  let m := Mirror (mr_uuid cfg) (mr_name cfg) None in
  modify (λ s, set_mirrors (hmap_insert (mr_uuid cfg) m (mirrors s)) s) ;; mret m.

Definition mirror_destroy (m : mirror) : M mist Z :=
  err ← (if br_ofproto then
           l ← gets mirror_log;
           let err := ofproto_mirror_unregister l (m_uuid m) in
           modify (add_mirror_event (MirrorUnregister (m_uuid m) err)) ;; mret err
         else mret 0);
  modify (λ s, set_mirrors (filter (λ x, m_uuid x ≠ m_uuid m) (mirrors s)) s) ;;
  mret err.

(** A write through the pointer to a mirror. *)
Definition put_mirror (m : mirror) : M mist unit :=
  modify (λ s, set_mirrors ((λ x, if m_uuid x =? m_uuid m then m else x) <$> mirrors s) s).

(** Returns a [bool], although its callers look at an errno value. *)
Definition mirror_configure (m : mirror) : M mist bool :=
  cfg ← deref (m_cfg m);
  let m := Mirror (m_uuid m) (mr_name cfg) (m_cfg m) in
  put_mirror m ;;
  match mr_output_port cfg with
  | None => mret true
  | Some out =>
    match mirror_port_lookup out with
    | None => mret true
    | Some out_bundle =>
      let srcs := mirror_collect_ports (mr_select_src_port cfg) in
      let dsts := mirror_collect_ports (mr_select_dst_port cfg) in
      let s := MirrorSettings (m_name m) out_bundle srcs.1 srcs.2 dsts.1 dsts.2 in
      deref (if br_ofproto then Some tt else None) ;;
      l ← gets mirror_log;
      let err := ofproto_mirror_register l (m_uuid m) s in
      modify (add_mirror_event (MirrorRegister (m_uuid m) s err)) ;;
      mret (negb (err =? 0))
    end
  end.

(** [smap_clone] of the column and [smap_replace] of the operation state. *)
Definition status_with (s : mist) (u : Z) (state : string) : smap :=
  <[MIRROR_STATUS_MAP_KEY_OPERATION_STATE := state]> (default ∅ (mirror_status s !! u)).

(** One iteration of "Get rid of deleted or disabled mirrors". *)
Definition mirror_delete_step (rows : list ovsrec_mirror) (m : mirror) : M mist unit :=
  match List.find (λ r, mr_uuid r =? m_uuid m) rows with
  | None => mirror_destroy m ;; mret tt
  | Some cfg_row =>
    if bool_decide (mr_active cfg_row = Some false) then
      err ← mirror_destroy m;
      modify (λ s, set_status_column (mr_uuid cfg_row)
        (status_with s (mr_uuid cfg_row)
           (if err =? 0 then MIRROR_STATUS_MAP_STATE_SHUTDOWN else mirror_strerror err)) s)
    else mret tt
  end.

(** The result of [mirror_configure] as the [int] the caller stores. *)
Definition int_of_bool (b : bool) : Z := if b then 1 else 0.

(** From [m->cfg = cfg_row] to the end of the iteration. *)
Definition mirror_program (cfg_row : ovsrec_mirror) (m : mirror) : M mist unit :=
  let m := Mirror (m_uuid m) (m_name m) (Some cfg_row) in
  put_mirror m ;;
  failed ← mirror_configure m;
  let err := int_of_bool failed in
  (if err =? 0 then mret tt else mirror_destroy m ;; mret tt) ;;
  modify (λ s, set_status_column (mr_uuid cfg_row)
    (status_with s (mr_uuid cfg_row)
       (if err =? 0 then MIRROR_STATUS_MAP_STATE_ACTIVE else mirror_strerror err)) s).

(** One iteration of "Add new mirrors and reconfigure existing ones". *)
Definition mirror_add_step (cfg_row : ovsrec_mirror) : M mist unit :=
  if negb (mr_modified cfg_row) then mret tt else
  known ← gets (mirror_find_by_uuid (mr_uuid cfg_row));
  match known with
  | Some m => mirror_program cfg_row m
  | None =>
    if bool_decide (mr_active cfg_row = Some true)
    then m ← mirror_create cfg_row; mirror_program cfg_row m
    else mret tt
  end.

(** [rows]: [br->cfg->mirrors]. *)
Definition bridge_configure_mirrors (rows : list ovsrec_mirror) : M mist unit :=
  old ← gets mirrors;
  mfor old (mirror_delete_step rows) ;;
  mfor rows mirror_add_step.

(** The keys and values written to the row's [statistics]. *)
Definition mirror_refresh_stats (m : mirror) (s : mist) : list (string * Z) :=
  match ofproto_mirror_get_stats (mirror_log s) (m_uuid m) with
  | None => []
  | Some (tx_packets, tx_bytes) =>
    (if tx_packets =? UINT64_MAX then [] else [("tx_packets", to_signed 64 tx_packets)]) ++
    (if tx_bytes =? UINT64_MAX then [] else [("tx_bytes", to_signed 64 tx_bytes)])
  end.
End Mirror.
