(* ===== verification/MirrorFacts.v ===== *)
(** * Correctness of port mirroring

    After a reconfiguration the switch has exactly the mirrors of the bridge,
    and the status of each row says so; a failure of the switch is always
    reported as unknown, and a missing source port shifts the others out of the
    range the switch reads. *)

From S2P Require Import Prelude OvsLib Mirror.
Local Open Scope Z_scope.

(** ** The mirrors of the switch *)

Definition switch_step (m : gmap Z ofproto_mirror_settings) (e : mirror_event) :=
  match e with
  | MirrorRegister u st err => if err =? 0 then <[u := st]> m else m
  | MirrorUnregister u err => if err =? 0 then delete u m else m
  end.

Definition switch_mirrors (log : list mirror_event) : gmap Z ofproto_mirror_settings :=
  fold_left switch_step log ∅.

Lemma switch_mirrors_snoc log e : switch_mirrors (log ++ [e]) = switch_step (switch_mirrors log) e.
Proof. apply fold_left_app. Qed.

Definition find_mirror (l : list mirror) (u : Z) : option mirror := List.find (λ m, m_uuid m =? u) l.

(** What is known about the mirror of a row: the structure, the switch, the
    status column. *)
Definition mview (s : mist) (u : Z)
  : option mirror * option ofproto_mirror_settings * option smap :=
  (find_mirror (mirrors s) u, switch_mirrors (mirror_log s) !! u, mirror_status s !! u).

Definition mirrors_distinct (s : mist) : Prop := NoDup (m_uuid <$> mirrors s).

Section Facts.
Context `{HL : OvsLib, HP : MirrorProvider, HS : MirrorSchema}.
Context (all_bridges all_vrfs : list bridge_view).

(** ** The structures *)

Lemma find_mirror_Some l u m :
  NoDup (m_uuid <$> l) → find_mirror l u = Some m ↔ m ∈ l ∧ m_uuid m = u.
Proof.
  intros Hnd. unfold find_mirror. rewrite find_Some_iff_unique, Z.eqb_eq; [done|].
  intros x y Hx Hy Ex%Z.eqb_eq Ey%Z.eqb_eq. apply (NoDup_fmap_elem m_uuid l); congruence.
Qed.

Lemma find_mirror_None l u : find_mirror l u = None ↔ u ∉ (m_uuid <$> l).
Proof.
  unfold find_mirror. rewrite find_None_iff, list_elem_of_fmap. split.
  - intros H (m & -> & Hm). specialize (H m Hm). by rewrite Z.eqb_refl in H.
  - intros H m Hm. apply Z.eqb_neq. intros <-. apply H. eauto.
Qed.

Lemma find_mirror_insert h m l u :
  m_uuid m ∉ (m_uuid <$> l) → NoDup (m_uuid <$> l) →
  find_mirror (hmap_insert h m l) u = if decide (u = m_uuid m) then Some m else find_mirror l u.
Proof.
  intros Hn Hnd. assert (NoDup (m_uuid <$> hmap_insert h m l)) as Hnd'
    by (rewrite hmap_insert_perm, fmap_cons; by constructor).
  case_decide as Hu.
  - apply find_mirror_Some; [done|]. rewrite elem_of_hmap_insert. naive_solver.
  - destruct (find_mirror l u) as [x|] eqn:E.
    + apply find_mirror_Some; [done|]. apply find_mirror_Some in E as [??]; [|done].
      rewrite elem_of_hmap_insert. naive_solver.
    + apply find_mirror_None. apply find_mirror_None in E. rewrite hmap_insert_perm, fmap_cons. set_solver.
Qed.

Lemma find_mirror_put m l u :
  find_mirror ((λ x, if m_uuid x =? m_uuid m then m else x) <$> l) u =
  if decide (u = m_uuid m) then (λ _, m) <$> find_mirror l u else find_mirror l u.
Proof.
  induction l as [|x l IH]; simpl; [by case_decide|].
  destruct (Z.eqb_spec (m_uuid x) (m_uuid m)) as [E|E]; simpl.
  - rewrite E. destruct (Z.eqb_spec (m_uuid m) u) as [Eu|Eu].
    + by rewrite decide_True.
    + rewrite decide_False in IH |- * by congruence. done.
  - destruct (Z.eqb_spec (m_uuid x) u) as [Eu|Eu]; [|done].
    by rewrite decide_False by congruence.
Qed.

Lemma find_mirror_filter u0 l u :
  find_mirror (filter (λ x, m_uuid x ≠ u0) l) u = if decide (u = u0) then None else find_mirror l u.
Proof.
  induction l as [|x l IH]; simpl; [by case_decide|]. rewrite filter_cons.
  destruct (decide (m_uuid x ≠ u0)) as [E|E]; simpl.
  - destruct (Z.eqb_spec (m_uuid x) u) as [Eu|Eu]; [|done]. by rewrite decide_False by congruence.
  - apply dec_stable in E. destruct (Z.eqb_spec (m_uuid x) u) as [Eu|Eu]; [|done].
    rewrite IH. by rewrite !decide_True by congruence.
Qed.

Lemma put_mirror_uuids m (l : list mirror) :
  m_uuid <$> ((λ x, if m_uuid x =? m_uuid m then m else x) <$> l) = m_uuid <$> l.
Proof.
  rewrite <-list_fmap_compose. apply list_fmap_ext. intros i x _. simpl.
  by destruct (Z.eqb_spec (m_uuid x) (m_uuid m)).
Qed.
(** ** Single operations *)

(** [mirror_destroy], when the switch lets mirrors go. *)
Lemma mirror_destroy_run m s :
  (∀ l u, ofproto_mirror_unregister l u = 0) → mirrors_distinct s →
  ∃ s', mirror_destroy true m s = Ok (0, s') ∧ mirrors_distinct s' ∧ mirror_status s' = mirror_status s ∧
    mview s' (m_uuid m) = (None, None, mirror_status s !! m_uuid m) ∧
    ∀ u, u ≠ m_uuid m → mview s' u = mview s u.
Proof.
  intros Hun Hd. unfold mirror_destroy. eexists. split.
  { erewrite bind_run; [|step; step; rewrite Hun; reflexivity]. step. reflexivity. }
  split; [by apply NoDup_fmap_filter|]. split; [done|].
  unfold mview. cbn [mirrors mirror_log mirror_status set_mirrors add_mirror_event].
  rewrite switch_mirrors_snoc. unfold switch_step. rewrite Z.eqb_refl.
  split; [|intros u Hu]; rewrite (find_mirror_filter (m_uuid m) (mirrors s)).
  - by rewrite decide_True, lookup_delete_eq.
  - by rewrite decide_False, lookup_delete_ne.
Qed.

(** The settings handed to the switch, when the output port exists. *)
Definition settings_of (r : ovsrec_mirror) : option ofproto_mirror_settings :=
  out ← mr_output_port r;
  out_bundle ← mirror_port_lookup all_bridges all_vrfs out;
  let srcs := mirror_collect_ports all_bridges all_vrfs (mr_select_src_port r) in
  let dsts := mirror_collect_ports all_bridges all_vrfs (mr_select_dst_port r) in
  Some (MirrorSettings (mr_name r) out_bundle srcs.1 srcs.2 dsts.1 dsts.2).

Lemma mirror_configure_run m r s :
  m_cfg m = Some r → mirrors_distinct s → find_mirror (mirrors s) (m_uuid m) ≠ None →
  ∃ failed s', mirror_configure all_bridges all_vrfs true m s = Ok (failed, s') ∧
    mirrors_distinct s' ∧ mirror_status s' = mirror_status s ∧
    (failed = false → ∃ st, settings_of r = Some st ∧
       mview s' (m_uuid m) = (Some (Mirror (m_uuid m) (mr_name r) (Some r)), Some st, mirror_status s !! m_uuid m)) ∧
    (∀ st, settings_of r = Some st → (∀ l, ofproto_mirror_register l (m_uuid m) st = 0) → failed = false) ∧
    ∀ u, u ≠ m_uuid m → mview s' u = mview s u.
Proof.
  intros Hc Hd Hf. unfold mirror_configure, settings_of. rewrite Hc. step.
  set (m' := Mirror (m_uuid m) (mr_name r) (Some r)).
  set (s1 := set_mirrors ((λ x, if m_uuid x =? m_uuid m' then m' else x) <$> mirrors s) s).
  assert (put_mirror m' s = Ok (tt, s1)) as Ep by done. step Ep. clear Ep.
  assert (mirrors_distinct s1) as Hd1 by (unfold mirrors_distinct, s1; simpl; by rewrite (put_mirror_uuids m')).
  assert (∀ u, u ≠ m_uuid m → find_mirror (mirrors s1) u = find_mirror (mirrors s) u) as Hfr.
  { intros u Hu. unfold s1. simpl. rewrite (find_mirror_put m'). by rewrite decide_False. }
  assert (find_mirror (mirrors s1) (m_uuid m) = Some m') as Hfm.
  { unfold s1. simpl. rewrite (find_mirror_put m'), decide_True by done. by destruct (find_mirror (mirrors s) (m_uuid m)). }
  destruct (mr_output_port r) as [out|]; simpl.
  2:{ exists true, s1. repeat (split; [done|]). intros u Hu. unfold mview. by rewrite Hfr. }
  destruct (mirror_port_lookup all_bridges all_vrfs out) as [b|]; simpl.
  2:{ exists true, s1. repeat (split; [done|]). intros u Hu. unfold mview. by rewrite Hfr. }
  set (st := MirrorSettings _ _ _ _ _ _). set (err := ofproto_mirror_register (mirror_log s1) (m_uuid m) st).
  exists (negb (err =? 0)), (add_mirror_event (MirrorRegister (m_uuid m) st err) s1).
  split; [by repeat step|]. split; [done|]. split; [done|].
  assert (∀ u, mview (add_mirror_event (MirrorRegister (m_uuid m) st err) s1) u =
    (find_mirror (mirrors s1) u, switch_step (switch_mirrors (mirror_log s)) (MirrorRegister (m_uuid m) st err) !! u,
     mirror_status s !! u)) as Hv by (intros u; unfold mview; simpl; by rewrite switch_mirrors_snoc).
  split; [|split].
  - intros Eerr%negb_false_iff. exists st. split; [done|]. rewrite Hv, Hfm. unfold switch_step.
    by rewrite Eerr, lookup_insert_eq.
  - intros st' [= <-] Hok. unfold err. rewrite Hok. done.
  - intros u Hu. rewrite Hv, Hfr by done. unfold mview, switch_step. case_match; [|done]. by rewrite lookup_insert_ne.
Qed.
(** ** One iteration of each loop *)

Definition with_state (st : option smap) (state : string) : option smap :=
  Some (<[MIRROR_STATUS_MAP_KEY_OPERATION_STATE := state]> (default ∅ st)).

Definition row_of (rows : list ovsrec_mirror) (u : Z) : option ovsrec_mirror :=
  List.find (λ r, mr_uuid r =? u) rows.

(** The first loop removes the mirrors without a row and those shut down. *)
Definition deleted_view (rows : list ovsrec_mirror) (u : Z)
  (v v' : option mirror * option ofproto_mirror_settings * option smap) : Prop :=
  match row_of rows u with
  | None => v' = (None, None, v.2)
  | Some r => if bool_decide (mr_active r = Some false)
              then v' = (None, None, with_state v.2 MIRROR_STATUS_MAP_STATE_SHUTDOWN)
              else v' = v
  end.

(** The second loop looks at modified rows of known or active mirrors: the
    mirror is registered and active, or gone and in an unknown error. *)
Definition handled (r : ovsrec_mirror) (known : option mirror) : bool :=
  mr_modified r && (bool_decide (is_Some known) || bool_decide (mr_active r = Some true)).

Definition added_view (r : ovsrec_mirror)
  (v v' : option mirror * option ofproto_mirror_settings * option smap) : Prop :=
  if handled r v.1.1 then
    (∃ st, settings_of r = Some st ∧
       v' = (Some (Mirror (mr_uuid r) (mr_name r) (Some r)), Some st,
             with_state v.2 MIRROR_STATUS_MAP_STATE_ACTIVE)) ∨
    (v' = (None, None, with_state v.2 MIRROR_STATUS_MAP_ERROR_UNKNOWN) ∧
     ∀ st, settings_of r = Some st → ¬ ∀ l, ofproto_mirror_register l (mr_uuid r) st = 0)
  else v' = v.

Lemma set_status_view s u0 m u :
  mview (set_status_column u0 m s) u =
  if decide (u = u0) then (find_mirror (mirrors s) u, switch_mirrors (mirror_log s) !! u, Some m)
  else mview s u.
Proof.
  unfold mview. simpl. case_decide as Hu; [subst; by rewrite lookup_insert_eq|by rewrite lookup_insert_ne].
Qed.

Context (Hun : ∀ l u, ofproto_mirror_unregister l u = 0).

Lemma mirror_delete_step_run rows m s :
  mirrors_distinct s →
  ∃ s', mirror_delete_step true rows m s = Ok (tt, s') ∧ mirrors_distinct s' ∧
    deleted_view rows (m_uuid m) (mview s (m_uuid m)) (mview s' (m_uuid m)) ∧
    ∀ u, u ≠ m_uuid m → mview s' u = mview s u.
Proof.
  intros Hd. destruct (mirror_destroy_run m s Hun Hd) as (s1 & E1 & Hd1 & Est & Hv1 & Hfr).
  unfold mirror_delete_step, deleted_view, row_of. destruct (List.find _ rows) as [r|] eqn:Er.
  2:{ exists s1. step E1. done. }
  apply List.find_some in Er as [_ Eu%Z.eqb_eq].
  case_bool_decide; [|by exists s].
  eexists. split; [step E1; reflexivity|]. split; [done|]. rewrite Eu. split.
  - rewrite set_status_view, decide_True by done. unfold status_with. rewrite Est.
    unfold mview in Hv1. injection Hv1 as -> -> _. done.
  - intros u Hu. rewrite set_status_view, decide_False by done. by apply Hfr.
Qed.

Lemma mirror_strerror_bool : mirror_strerror (int_of_bool true) = MIRROR_STATUS_MAP_ERROR_UNKNOWN.
Proof. done. Qed.

(** A known mirror with its row: configured, or destroyed. *)
Lemma mirror_program_run r s :
  mirrors_distinct s → find_mirror (mirrors s) (mr_uuid r) ≠ None →
  ∀ m, m_uuid m = mr_uuid r →
  ∃ s', mirror_program all_bridges all_vrfs true r m s = Ok (tt, s') ∧ mirrors_distinct s' ∧
    ((∃ st, settings_of r = Some st ∧
       mview s' (mr_uuid r) = (Some (Mirror (mr_uuid r) (mr_name r) (Some r)), Some st,
             with_state (mirror_status s !! mr_uuid r) MIRROR_STATUS_MAP_STATE_ACTIVE)) ∨
     (mview s' (mr_uuid r) = (None, None, with_state (mirror_status s !! mr_uuid r) MIRROR_STATUS_MAP_ERROR_UNKNOWN) ∧
      ∀ st, settings_of r = Some st → ¬ ∀ l, ofproto_mirror_register l (mr_uuid r) st = 0)) ∧
    ∀ u, u ≠ mr_uuid r → mview s' u = mview s u.
Proof.
  intros Hd Hf m Em. unfold mirror_program. set (m' := Mirror (m_uuid m) (m_name m) (Some r)).
  set (s1 := set_mirrors ((λ x, if m_uuid x =? m_uuid m' then m' else x) <$> mirrors s) s).
  assert (mirrors_distinct s1) as Hd1 by (unfold mirrors_distinct, s1; simpl; by rewrite (put_mirror_uuids m')).
  assert (∀ u, u ≠ mr_uuid r → mview s1 u = mview s u) as Hfr.
  { intros u Hu. unfold mview, s1. simpl. rewrite (find_mirror_put m'). simpl. by rewrite decide_False by congruence. }
  assert (put_mirror m' s = Ok (tt, s1)) as Ep by done. step Ep. clear Ep.
  destruct (mirror_configure_run m' r s1) as (failed & s2 & E2 & Hd2 & Est2 & Hok & Hreg & Hfr2); [done|done| |].
  { unfold s1. simpl. rewrite (find_mirror_put m'), decide_True by done. simpl. rewrite Em. by destruct (find_mirror _ _). }
  step E2. simpl in *. rewrite Em in *. destruct failed; simpl.
  - destruct (mirror_destroy_run m' s2 Hun Hd2) as (s3 & E3 & Hd3 & Est3 & Hv3 & Hfr3). simpl in *. rewrite Em in *.
    eexists. split; [erewrite bind_run by (step E3; reflexivity); reflexivity|]. split; [done|]. split.
    + right. split.
      * rewrite set_status_view, decide_True by done. unfold status_with. rewrite Est3, Est2.
        unfold mview in Hv3. injection Hv3 as -> -> _. done.
      * intros st Hst Hall. by specialize (Hreg st Hst Hall).
    + intros u Hu. rewrite set_status_view, decide_False by done. rewrite Hfr3, Hfr2, Hfr; done.
  - eexists. split; [step; reflexivity|]. split; [done|]. split.
    + left. destruct (Hok eq_refl) as (st & Hst & Hv). exists st. split; [done|].
      rewrite set_status_view, decide_True by done. unfold status_with. rewrite Est2.
      unfold mview in Hv. injection Hv as -> -> _. done.
    + intros u Hu. rewrite set_status_view, decide_False by done. rewrite Hfr2, Hfr; done.
Qed.
Lemma mirror_add_step_run r s :
  mirrors_distinct s →
  ∃ s', mirror_add_step all_bridges all_vrfs true r s = Ok (tt, s') ∧ mirrors_distinct s' ∧
    added_view r (mview s (mr_uuid r)) (mview s' (mr_uuid r)) ∧
    ∀ u, u ≠ mr_uuid r → mview s' u = mview s u.
Proof.
  intros Hd. unfold mirror_add_step, added_view, handled. destruct (mr_modified r); simpl; [|by exists s].
  step. change (mirror_find_by_uuid (mr_uuid r) s) with (find_mirror (mirrors s) (mr_uuid r)).
  destruct (find_mirror (mirrors s) (mr_uuid r)) as [m|] eqn:Ef; simpl.
  - apply find_mirror_Some in Ef as Hm; [|done]. destruct Hm as [_ Em].
    apply (mirror_program_run r s); [done|by rewrite Ef|done].
  - case_bool_decide; [|by exists s]. set (m := Mirror (mr_uuid r) (mr_name r) None).
    set (s1 := set_mirrors (hmap_insert (mr_uuid r) m (mirrors s)) s).
    assert (mirror_create r s = Ok (m, s1)) as Ec by done. step Ec. clear Ec.
    apply find_mirror_None in Ef as Hn.
    assert (∀ u, find_mirror (mirrors s1) u = if decide (u = mr_uuid r) then Some m else find_mirror (mirrors s) u)
      as Hf1 by (intros u; by apply (find_mirror_insert _ m)).
    destruct (mirror_program_run r s1) with (m := m) as (s' & E & Hd' & Hv & Hfr).
    { unfold mirrors_distinct, s1. simpl. rewrite hmap_insert_perm, fmap_cons. by constructor. }
    { rewrite Hf1. by rewrite decide_True. }
    { done. }
    exists s'. split; [done|]. split; [done|]. split; [done|]. intros u Hu. rewrite Hfr by done.
    unfold mview. rewrite Hf1. by rewrite decide_False.
Qed.

(** ** The whole reconfiguration *)

(** The structure exists exactly if the switch has the mirror. *)
Definition in_sync (v : option mirror * option ofproto_mirror_settings * option smap) : Prop :=
  is_Some v.1.1 ↔ is_Some v.1.2.

Lemma deleted_in_sync rows u v v' : deleted_view rows u v v' → in_sync v → in_sync v'.
Proof. unfold deleted_view, in_sync. repeat case_match; naive_solver. Qed.

Lemma added_in_sync r v v' : added_view r v v' → in_sync v → in_sync v'.
Proof.
  unfold added_view, in_sync. destruct (handled r v.1.1); [|by intros ->].
  intros [(st & _ & ->)|[-> _]] _; simpl; [|done]. split; intros _; eauto.
Qed.

(** What [bridge_configure_mirrors] achieves for the rows. *)
Definition mirrors_follow (rows : list ovsrec_mirror) (s s' : mist) : Prop :=
  mirrors_distinct s' ∧
  (∀ r, r ∈ rows → ∃ v, (if decide (mr_uuid r ∈ (m_uuid <$> mirrors s))
                         then deleted_view rows (mr_uuid r) (mview s (mr_uuid r)) v
                         else v = mview s (mr_uuid r)) ∧
     added_view r v (mview s' (mr_uuid r))) ∧
  (∀ m, m ∈ mirrors s → (m_uuid m ∉ (mr_uuid <$> rows)) →
     mview s' (m_uuid m) = (None, None, mirror_status s !! m_uuid m)) ∧
  (∀ u, (u ∉ (mr_uuid <$> rows)) → (u ∉ (m_uuid <$> mirrors s)) → mview s' u = mview s u) ∧
  ((∀ u, in_sync (mview s u)) → ∀ u, in_sync (mview s' u)).

Lemma configure_mirrors_follow (rows : list ovsrec_mirror) (s : mist) :
  mirrors_distinct s → NoDup (mr_uuid <$> rows) →
  ∃ s', bridge_configure_mirrors all_bridges all_vrfs true rows s = Ok (tt, s') ∧ mirrors_follow rows s s'.
Proof.
  intros Hdist Hrows.
  destruct (mfor_keyed mview m_uuid mirrors_distinct (λ m, deleted_view rows (m_uuid m))
              (mirror_delete_step true rows) (mirrors s) s) as (s1 & E1 & Hd1 & Hdel & Hfr1); [done|done| |].
  { intros m s0 _ H0. by apply mirror_delete_step_run. }
  destruct (mfor_keyed mview mr_uuid mirrors_distinct added_view
              (mirror_add_step all_bridges all_vrfs true) rows s1) as (s2 & E2 & Hd2 & Hadd & Hfr2); [done|done| |].
  { intros r s0 _ H0. by apply mirror_add_step_run. }
  exists s2. split; [unfold bridge_configure_mirrors; step; by step E1|]. split; [done|].
  split; [|split; [|split]].
  - intros r Hr. exists (mview s1 (mr_uuid r)). split; [|by apply Hadd].
    case_decide as Hin; [|by apply Hfr1]. apply list_elem_of_fmap in Hin as (m & -> & Hm). by apply Hdel.
  - intros m Hm Hn. rewrite Hfr2 by done. specialize (Hdel m Hm). unfold deleted_view, row_of in Hdel.
    destruct (List.find _ rows) as [r|] eqn:Er; [|done].
    apply List.find_some in Er as [Hr%list_elem_of_In Eu%Z.eqb_eq]. destruct Hn. rewrite <-Eu. by apply list_elem_of_fmap_2.
  - intros u Hr Hm. by rewrite Hfr2, Hfr1.
  - intros Hs u. assert (in_sync (mview s1 u)) as H1.
    { destruct (decide (u ∈ (m_uuid <$> mirrors s))) as [(m & -> & Hm)%list_elem_of_fmap|Hn].
      - by eapply deleted_in_sync; [apply Hdel|].
      - by rewrite Hfr1. }
    destruct (decide (u ∈ (mr_uuid <$> rows))) as [(r & -> & Hr)%list_elem_of_fmap|Hn].
    + by eapply added_in_sync; [apply Hadd|].
    + by rewrite Hfr2.
Qed.

(** C16: when the switch lets mirrors go, [bridge_configure_mirrors] returns
    and for every row of the bridge: a mirror that is shut down is removed from
    the structures and the switch and its status says so; a modified row of a
    known or active mirror ends either registered with the settings of the row
    and active, or (only if the output port does not exist or the switch
    refuses it) removed from the structures and the switch with an unknown
    error as its status; every other row keeps its mirror and its status.
    Mirrors without a row are removed from the structures and the switch.  If
    the switch had exactly the mirrors of the bridge before, it has exactly
    those of the bridge afterwards. *)
Theorem bridge_configure_mirrors_converges (rows : list ovsrec_mirror) (s : mist)
  (Hdist : mirrors_distinct s) (Hrows : NoDup (mr_uuid <$> rows)) :
  ∃ s', bridge_configure_mirrors all_bridges all_vrfs true rows s = Ok (tt, s') ∧ mirrors_distinct s' ∧
    (∀ r, r ∈ rows → ∃ v, (if decide (mr_uuid r ∈ (m_uuid <$> mirrors s))
                           then deleted_view rows (mr_uuid r) (mview s (mr_uuid r)) v
                           else v = mview s (mr_uuid r)) ∧
       added_view r v (mview s' (mr_uuid r))) ∧
    (∀ m, m ∈ mirrors s → (m_uuid m ∉ (mr_uuid <$> rows)) →
       mview s' (m_uuid m) = (None, None, mirror_status s !! m_uuid m)) ∧
    (∀ u, (u ∉ (mr_uuid <$> rows)) → (u ∉ (m_uuid <$> mirrors s)) → mview s' u = mview s u) ∧
    ((∀ u, in_sync (mview s u)) → ∀ u, in_sync (mview s' u)).
Proof. exact (configure_mirrors_follow rows s Hdist Hrows). Qed.

(** ** Ports of a mirror *)

Lemma collect_ports_from l bs n :
  fold_left (λ out name, match mirror_port_lookup all_bridges all_vrfs name with
                         | Some b => (out.1 ++ [b], S out.2)
                         | None => (out.1 ++ [null_bundle], out.2)
                         end) l (bs, n) =
  (bs ++ ((λ name, default null_bundle (mirror_port_lookup all_bridges all_vrfs name)) <$> l),
   (n + length (omap (mirror_port_lookup all_bridges all_vrfs) l))%nat).
Proof.
  revert bs n. induction l as [|x l IH]; intros bs n; csimpl; [by rewrite app_nil_r, Nat.add_0_r|].
  destruct (mirror_port_lookup all_bridges all_vrfs x); rewrite IH; simpl; rewrite <-app_assoc; f_equal; simpl; lia.
Qed.

(** [mirror_collect_ports] fills one slot per port, null for a port that
    is in no bridge or VRF, and counts the slots it filled; when every port
    exists the first [n] slots are the bundles of all of them, in order. *)
Theorem mirror_collect_ports_spec (ports : list string) :
  mirror_collect_ports all_bridges all_vrfs ports =
    ((λ name, default null_bundle (mirror_port_lookup all_bridges all_vrfs name)) <$> ports,
     length (omap (mirror_port_lookup all_bridges all_vrfs) ports)) ∧
  (if decide (Forall (λ name, is_Some (mirror_port_lookup all_bridges all_vrfs name)) ports) then
     let r := mirror_collect_ports all_bridges all_vrfs ports in
     take r.2 r.1 = omap (mirror_port_lookup all_bridges all_vrfs) ports ∧ r.2 = length ports
   else True).
Proof.
  assert (mirror_collect_ports all_bridges all_vrfs ports =
    ((λ name, default null_bundle (mirror_port_lookup all_bridges all_vrfs name)) <$> ports,
     length (omap (mirror_port_lookup all_bridges all_vrfs) ports))) as E by apply collect_ports_from.
  split; [done|]. case_decide as Hall; [|done]. rewrite E. simpl. clear E.
  induction Hall as [|x l [b Hb] _ [IH1 IH2]]; csimpl; [done|]. rewrite Hb. simpl. split; [by f_equal|by rewrite IH2].
Qed.

(** [mirror_port_lookup] finds a port in the first bridge that has it,
    and only if no bridge has it in the first VRF that has it; an owner without
    an ofproto gives nothing even if a later one has the port. *)
Theorem mirror_port_lookup_spec (name : string) :
  mirror_port_lookup all_bridges all_vrfs name =
  br ← head (filter (λ br, name ∈ bv_ports br) (all_bridges ++ all_vrfs));
  if bv_ofproto br then Some (Bundle (Some (bv_name br)) (Some name)) else None.
Proof.
  assert (∀ br, port_lookup br name = if decide (name ∈ bv_ports br) then Some name else None) as Hp.
  { intros br. unfold port_lookup, hmap_first_with_hash. case_decide as Hin.
    - destruct (List.find _ _) as [p|] eqn:E.
      + apply List.find_some in E as [_ [_ Ep%bool_decide_eq_true]%andb_true_iff]. by subst.
      + rewrite find_None_iff in E. specialize (E name Hin). by rewrite Z.eqb_refl, bool_decide_true in E.
    - apply find_None_iff. intros p Hp. rewrite bool_decide_false by (intros ->; done). apply andb_false_r. }
  assert (∀ l, lookup_in l name = match head (filter (λ br, name ∈ bv_ports br) l) with
    | Some br => inl (if bv_ofproto br then Some (Bundle (Some (bv_name br)) (Some name)) else None)
    | None => inr tt end) as Hl.
  { induction l as [|br l IH]; simpl; [done|]. rewrite Hp, filter_cons. by case_decide. }
  unfold mirror_port_lookup. rewrite !Hl, filter_app.
  destruct (filter _ all_bridges) as [|br l]; simpl; [|done]. by destruct (filter _ all_vrfs).
Qed.
End Facts.

(** ** Examples *)

Definition ref_mirror_schema : MirrorSchema := {|
  MIRROR_STATUS_MAP_KEY_OPERATION_STATE := "operation_state";
  MIRROR_STATUS_MAP_STATE_ACTIVE := "active";
  MIRROR_STATUS_MAP_STATE_SHUTDOWN := "shutdown";
  MIRROR_STATUS_MAP_ERROR_EXTERNAL := "external driver error";
  MIRROR_STATUS_MAP_ERROR_INTERNAL := "internal error";
  MIRROR_STATUS_MAP_ERROR_UNKNOWN := "unknown error";
  strerror_enomem := "Cannot allocate memory";
|}.

(** A switch that answers every registration with the same error. *)
Definition mirror_provider (err : Z) : MirrorProvider := {|
  ofproto_mirror_register := λ _ _ _, err;
  ofproto_mirror_unregister := λ _ _, 0;
  ofproto_mirror_get_stats := λ _ _, Some (10, 640);
|}.

#[local] Existing Instances ref_lib ref_mirror_schema.

Definition ex_bridges : list bridge_view := [BridgeView "bridge_normal" true ["1"; "2"]].
Definition ex_vrfs : list bridge_view := [BridgeView "vrf_default" true ["3"]].
Definition ex_mirror (u : Z) (active : bool) (srcs : list string) : ovsrec_mirror :=
  MirrorRow u "m" (Some active) (Some "3") srcs [] true.

(** Mirror 1 runs and is shut down, mirror 2 is new. *)
Definition ex_settings : ofproto_mirror_settings := MirrorSettings "m" (Bundle (Some "vrf_default") (Some "3")) [] 0 [] 0.
Definition ex_mirrors : mist := MiSt [Mirror 1 "m" None] ∅ [MirrorRegister 1 ex_settings 0].

Lemma bridge_configure_mirrors_converges_witness :
  ∃ s', bridge_configure_mirrors (HP := mirror_provider 0) ex_bridges ex_vrfs true [ex_mirror 1 false []; ex_mirror 2 true ["1"]] ex_mirrors =
      Ok (tt, s') ∧ mirrors_distinct s' ∧ ∀ u, in_sync (mview s' u).
Proof.
  destruct (bridge_configure_mirrors_converges (HP := mirror_provider 0) ex_bridges ex_vrfs (λ _ _, eq_refl)
    [ex_mirror 1 false []; ex_mirror 2 true ["1"]] ex_mirrors) as (s' & E & Hd & _ & _ & _ & Hs).
  - by_compute.
  - by_compute.
  - exists s'. split; [exact E|]. split; [exact Hd|]. apply Hs. intros u.
    unfold in_sync, mview, find_mirror, switch_mirrors, ex_mirrors.
    cbn [mirrors mirror_log List.find m_uuid fold_left fst snd switch_step]. change (0 =? 0) with true. cbv iota.
    destruct (Z.eq_dec 1 u) as [<-|Hne].
    + rewrite lookup_insert_eq. split; intros _; eexists; reflexivity.
    + rewrite lookup_insert_ne by done. rewrite (proj2 (Z.eqb_neq 1 u) Hne). split; intros [x Hx]; discriminate Hx.
Defined.

(** A switch that refuses a mirror with an internal error, for which
    there is a status of its own, is reported as an unknown error:
    [mirror_configure] returns a [bool]. *)
Theorem internal_error_reported_unknown :
  ∃ s', bridge_configure_mirrors (HP := mirror_provider ENXIO) ex_bridges ex_vrfs true [ex_mirror 2 true ["1"]] (MiSt [] ∅ []) = Ok (tt, s') ∧
    mirror_status s' !! 2 = Some {[ "operation_state" := "unknown error" ]} ∧
    mirror_strerror ENXIO = "internal error".
Proof. eexists. split; [vm_compute; reflexivity|]. split; vm_compute; reflexivity. Qed.

(** A source port that is in no bridge or VRF is not dropped: its slot
    stays null, and the switch, told to read as many slots as ports were found,
    reads the null slot and misses the existing port after it. *)
Theorem missing_source_shifts_ports :
  let r := mirror_collect_ports ex_bridges ex_vrfs ["9"; "2"] in
  take r.2 r.1 = [null_bundle] ∧
  omap (mirror_port_lookup ex_bridges ex_vrfs) ["9"; "2"] = [Bundle (Some "bridge_normal") (Some "2")].
Proof. split; vm_compute; reflexivity. Qed.
