(* ===== verification/PortConfig.v ===== *)
(** * Configuration of a port: [port_configure] of bridge.c

    The settings of a port (its members, VLANs, bond and IP changes) are
    computed from its row and handed to the switch by
    [ofproto_bundle_register]; the handle of the bond the switch allocates is
    published in the status column of the row. *)

From stdpp Require Import pretty.
From S2P Require Import Prelude OvsLib.
Local Open Scope Z_scope.

(** ** Rows and structures *)

(** A port row; [pr_vlan_tag] and [pr_vlan_trunks] are what [ops_port_get_tag]
    and [ops_port_get_trunks] read from the VLAN references. *)
Record ovsrec_port := PortRow {
  pr_uuid : Z;
  pr_vlan_tag : option Z;
  pr_vlan_trunks : list Z;
  pr_vlan_mode : option string;
  pr_lacp : option string;
  pr_bond_active_slave : option string;
  pr_hw_config : smap;
  pr_other_config : smap;
  pr_vlan_options : smap;
  pr_bond_options : smap;
  pr_ip4_address : option string;
  pr_ip6_address : option string;
  pr_ip4_address_secondary : list string;
  pr_ip6_address_secondary : list string;
}.

(** Which address columns of the Port table changed. *)
Record ip_columns := IpColumns {
  ip4_modified : bool;
  ip6_modified : bool;
  ip4_secondary_modified : bool;
  ip6_secondary_modified : bool;
}.

(** A member: its device and its [hw_bond_config] column. *)
Record port_iface := PortIface {
  pi_name : string;
  pi_ofp_port : Z;
  pi_hw_bond_config : smap;
}.

Record port := Port {
  p_name : string;
  p_cfg : ovsrec_port;
  p_ifaces : list port_iface;
  bond_hw_handle : Z;
}.

Inductive port_vlan_mode :=
| PORT_VLAN_ACCESS | PORT_VLAN_TRUNK | PORT_VLAN_NATIVE_TAGGED | PORT_VLAN_NATIVE_UNTAGGED.

Record bond_settings {mode : Type} := BondSettings {
  bs_name : string;
  bs_balance : mode;
  bs_basis : Z;
  bs_rebalance_interval : Z;
  bs_lacp_fallback_ab_cfg : bool;
  bs_active_slave_mac : option string;   (* None: zero *)
}.
Arguments bond_settings : clear implicits.
Arguments BondSettings {mode}.

(** [ip_change], one flag per bit, and the addresses that go with them. *)
Record ip_settings := IpSettings {
  PORT_PRIMARY_IPv4_CHANGED : option (option string);
  PORT_PRIMARY_IPv6_CHANGED : option (option string);
  PORT_SECONDARY_IPv4_CHANGED : option (list string);
  PORT_SECONDARY_IPv6_CHANGED : option (list string);
}.

Record ofproto_bundle_settings {mode : Type} := BundleSettings {
  s_port_name : string;
  s_slaves : list Z;
  s_slaves_entered : Z;
  s_slaves_tx_enable : list Z;
  s_enable : bool;
  s_hw_bond_should_exist : bool;
  s_bond_handle_alloc_only : bool;
  s_vlan : Z;
  s_trunks : option (list Z);            (* vlan_bitmap_from_array of the list, None: null *)
  s_vlan_mode : port_vlan_mode;
  s_use_priority_tags : bool;
  s_bond : option (bond_settings mode);
  s_port_options : list smap;            (* vlan, bond, hw_config and other_config *)
  s_ip : ip_settings;
}.
Arguments ofproto_bundle_settings : clear implicits.
Arguments BundleSettings {mode}.

(** The bond modes and address scanner of the library, and the keys of the
    schema. *)
Class PortLib := {
  bond_mode : Type;
  BM_L3_SRC_DST_HASH : bond_mode;
  bond_mode_from_string : string → option bond_mode;
  scan_eth_addr : string → bool;
  PORT_HW_CONFIG_MAP_ENABLE : string;
  PORT_HW_CONFIG_MAP_ENABLE_DEFAULT : bool;
  INTERFACE_HW_BOND_CONFIG_MAP_RX_ENABLED : string;
  INTERFACE_HW_BOND_CONFIG_MAP_TX_ENABLED : string;
  PORT_OTHER_CONFIG_MAP_BOND_MODE : string;
  PORT_STATUS_BOND_HW_HANDLE : string;
}.

Inductive port_event `{PortLib} :=
| SetMiimonInterval (netdev : string) (interval : Z)
| BundleRegister (port : string) (settings : ofproto_bundle_settings bond_mode).

(** [ofproto_bundle_get]: the handle of the bond after the calls so far. *)
Class PortProvider `{PortLib} := { ofproto_bundle_get : list port_event → string → Z }.

Record pst `{PortLib} := PSt {
  port_status : gmap Z smap;             (* the status column, by row *)
  port_log : list port_event;
}.

Section PortConfig.
Context `{HL : OvsLib, HPL : PortLib, HPP : !PortProvider}.
Implicit Types p : port.

Definition add_port_event (e : port_event) (s : pst) : pst :=
  PSt _ (port_status s) (port_log s ++ [e]).
Definition set_port_status (u : Z) (m : smap) (s : pst) : pst :=
  PSt _ (<[u := m]> (port_status s)) (port_log s).

(** ** LACP *)

(** The result, and what is stored through [activep]. *)
Definition enable_lacp (cfg : ovsrec_port) (active : bool) : bool * bool :=
  match pr_lacp cfg with
  | None => (false, active)
  | Some lacp =>
    if bool_decide (lacp = "off") then (false, active)
    else if bool_decide (lacp = "active") then (true, true)
    else if bool_decide (lacp = "passive") then (true, false)
    else (false, active)
  end.

(** ** Members *)

(** [strncmp(port->name, "lag", 3) == 0] *)
Definition is_lag (name : string) : bool := bool_decide (String.substring 0 3 name = "lag").

Definition bond_wanted (p : port) (lacp_enabled : bool) : bool :=
  is_lag (p_name p) || (1 <? length (p_ifaces p))%nat || lacp_enabled.

(** The members collected so far. *)
Record members := Members {
  mb_slaves : list Z;
  mb_slaves_tx_enable : list Z;
  mb_hw_bond_should_exist : bool;
}.

Definition add_member (p : port) (lacp_enabled : bool) (m : members) (i : port_iface) : members :=
  if bond_wanted p lacp_enabled then
    Members
      (mb_slaves m ++ if smap_get_bool (pi_hw_bond_config i) INTERFACE_HW_BOND_CONFIG_MAP_RX_ENABLED false
                      then [pi_ofp_port i] else [])
      (mb_slaves_tx_enable m ++
         if smap_get_bool (pi_hw_bond_config i) INTERFACE_HW_BOND_CONFIG_MAP_TX_ENABLED false
         then [pi_ofp_port i] else [])
      true
  else Members (mb_slaves m ++ [pi_ofp_port i]) (mb_slaves_tx_enable m) false.

Definition port_members (p : port) (lacp_enabled : bool) : members :=
  fold_left (add_member p lacp_enabled) (p_ifaces p) (Members [] [] false).

(** ** VLANs *)

(** "Get VLAN tag." *)
Definition port_vlan (cfg : ovsrec_port) : Z :=
  match pr_vlan_tag cfg with
  | Some vlan_tag => if (1 <=? vlan_tag) && (vlan_tag <=? 4094) then vlan_tag else -1
  | None => -1
  end.

(** "Get VLAN mode.": the mode and the tag that is kept. *)
Definition port_vlan_settings (cfg : ovsrec_port) : port_vlan_mode * Z :=
  let vlan := port_vlan cfg in
  let vlan_mode :=
    match pr_vlan_mode cfg with
    | Some mode =>
      if bool_decide (mode = "access") then PORT_VLAN_ACCESS
      else if bool_decide (mode = "trunk") then PORT_VLAN_TRUNK
      else if bool_decide (mode = "native-tagged") then PORT_VLAN_NATIVE_TAGGED
      else if bool_decide (mode = "native-untagged") then PORT_VLAN_NATIVE_UNTAGGED
      else PORT_VLAN_TRUNK
    | None => if 0 <=? vlan then PORT_VLAN_ACCESS else PORT_VLAN_TRUNK
    end in
  (vlan_mode, match vlan_mode with PORT_VLAN_TRUNK => -1 | _ => vlan end).

Definition port_trunks (cfg : ovsrec_port) : option (list Z) :=
  match pr_vlan_trunks cfg with [] => None | l => Some l end.

(** ** Bond *)

Definition miimon_interval (cfg : ovsrec_port) : Z :=
  let interval := smap_get_int (pr_other_config cfg) "bond-miimon-interval" 0 in
  let interval := if interval <=? 0 then 200 else interval in
  match pr_other_config cfg !! "bond-detect-mode" with
  | None => 0
  | Some detect_s =>
    if bool_decide (detect_s = "carrier") then 0
    else if bool_decide (detect_s = "miimon") then interval
    else 0
  end.

Definition set_miimon_intervals (p : port) (interval : Z) : M pst unit :=
  mfor (p_ifaces p) (λ i, modify (add_port_event (SetMiimonInterval (pi_name i) interval))).

Definition port_configure_bond (p : port) : M pst (bond_settings bond_mode) :=
  let cfg := p_cfg p in
  let balance :=
    match pr_other_config cfg !! PORT_OTHER_CONFIG_MAP_BOND_MODE with
    | Some str => default BM_L3_SRC_DST_HASH (bond_mode_from_string str)
    | None => BM_L3_SRC_DST_HASH
    end in
  let rebalance := smap_get_int (pr_other_config cfg) "bond-rebalance-interval" 10000 in
  let rebalance := if negb (rebalance =? 0) && (rebalance <? 1000) then 1000 else rebalance in
  set_miimon_intervals p (miimon_interval cfg) ;;
  mret (BondSettings (p_name p) balance
          (to_unsigned 32 (smap_get_int (pr_other_config cfg) "bond-hash-basis" 0))
          rebalance
          (smap_get_bool (pr_other_config cfg) "lacp-fallback-ab" false)
          (match pr_bond_active_slave cfg with
           | Some mac_s => if scan_eth_addr mac_s then Some mac_s else None
           | None => None
           end)).

(** ** IP addresses: vrf.c *)

Definition vrf_port_reconfig_ipaddr (c : ip_columns) (cfg : ovsrec_port) : ip_settings :=
  IpSettings
    (if ip4_modified c then Some (pr_ip4_address cfg) else None)
    (if ip6_modified c then Some (pr_ip6_address cfg) else None)
    (if ip4_secondary_modified c then Some (pr_ip4_address_secondary cfg) else None)
    (if ip6_secondary_modified c then Some (pr_ip6_address_secondary cfg) else None).

(** ** [port_configure] *)

(** The port is returned with its new handle. *)
Definition port_configure (c : ip_columns) (p : port) : M pst port :=
  let cfg := p_cfg p in
  let '(lacp_enabled, _) := enable_lacp cfg false in
  let m := port_members p lacp_enabled in
  let alloc_only := mb_hw_bond_should_exist m && (length (mb_slaves m) <? 1)%nat &&
                    (bond_hw_handle p =? -1) in
  let '(vlan_mode, vlan) := port_vlan_settings cfg in
  bond ← (if mb_hw_bond_should_exist m
          then b ← port_configure_bond p; mret (Some b)
          else set_miimon_intervals p 0 ;; mret None);
  let s := BundleSettings (p_name p) (mb_slaves m) (Z.of_nat (length (p_ifaces p)))
    (mb_slaves_tx_enable m)
    (smap_get_bool (pr_hw_config cfg) PORT_HW_CONFIG_MAP_ENABLE PORT_HW_CONFIG_MAP_ENABLE_DEFAULT)
    (mb_hw_bond_should_exist m) alloc_only vlan (port_trunks cfg) vlan_mode
    (smap_get_bool (pr_other_config cfg) "priority-tags" false) bond
    [pr_vlan_options cfg; pr_bond_options cfg; pr_hw_config cfg; pr_other_config cfg]
    (vrf_port_reconfig_ipaddr c cfg) in
  modify (add_port_event (BundleRegister (p_name p) s)) ;;
  l ← gets port_log;
  let handle := ofproto_bundle_get l (p_name p) in
  mwhen (negb (bond_hw_handle p =? handle))
    (modify (λ s,
       let status := default ∅ (port_status s !! pr_uuid cfg) in
       set_port_status (pr_uuid cfg)
         (if negb (handle =? -1) then <[PORT_STATUS_BOND_HW_HANDLE := pretty handle]> status
          else delete PORT_STATUS_BOND_HW_HANDLE status) s)) ;;
  mret (Port (p_name p) cfg (p_ifaces p) handle).
End PortConfig.

(** ** Facts *)

Section Facts.
Context `{HL : OvsLib, HPL : PortLib, HPP : !PortProvider}.

(** the VLAN settings of a port.  The tag that is kept is a valid one, the
    row's, and a port in trunk mode has none; a known mode of the row is used as
    it is; without a mode the port is an access port exactly if the row has a
    valid tag, and otherwise a trunk. *)
Theorem port_vlan_settings_spec (cfg : ovsrec_port) :
  let '(mode, vlan) := port_vlan_settings cfg in
  (vlan = -1 ∨ (1 ≤ vlan ≤ 4094 ∧ pr_vlan_tag cfg = Some vlan)) ∧
  (mode = PORT_VLAN_TRUNK ↔
     match pr_vlan_mode cfg with
     | Some m => m ∉ ["access"; "native-tagged"; "native-untagged"]
     | None => ¬ ∃ t, pr_vlan_tag cfg = Some t ∧ 1 ≤ t ≤ 4094
     end) ∧
  (mode = PORT_VLAN_TRUNK → vlan = -1) ∧
  (mode ≠ PORT_VLAN_TRUNK → ∀ t, pr_vlan_tag cfg = Some t → 1 ≤ t ≤ 4094 → vlan = t) ∧
  (mode = PORT_VLAN_NATIVE_TAGGED ↔ pr_vlan_mode cfg = Some "native-tagged") ∧
  (mode = PORT_VLAN_NATIVE_UNTAGGED ↔ pr_vlan_mode cfg = Some "native-untagged").
Proof.
  assert (port_vlan cfg = -1 ∧ (¬ ∃ t, pr_vlan_tag cfg = Some t ∧ 1 ≤ t ≤ 4094) ∨
          1 ≤ port_vlan cfg ≤ 4094 ∧ pr_vlan_tag cfg = Some (port_vlan cfg)) as Hv.
  { unfold port_vlan. destruct (pr_vlan_tag cfg) as [t|]; [|left; split; [done|naive_solver]].
    destruct (Z.leb_spec 1 t), (Z.leb_spec t 4094); simpl;
      first [right; split; [lia|done] | left; split; [done|intros (? & [= <-] & ?); lia]]. }
  unfold port_vlan_settings. destruct (pr_vlan_mode cfg) as [m|].
  - repeat case_bool_decide; subst; simpl; split_and!; try set_solver;
      destruct Hv as [[-> Hno]|[Hr Ht]]; naive_solver.
  - destruct Hv as [[-> Hno]|[Hr Ht]]; simpl; [naive_solver|].
    destruct (Z.leb_spec 0 (port_vlan cfg)); [|lia]. split_and!; naive_solver.
Qed.
(** Members of a bond are those enabled in their row, in order. *)
Definition rx_members (p : port) : list Z :=
  pi_ofp_port <$> filter (λ i, smap_get_bool (pi_hw_bond_config i) INTERFACE_HW_BOND_CONFIG_MAP_RX_ENABLED false)
    (p_ifaces p).
Definition tx_members (p : port) : list Z :=
  pi_ofp_port <$> filter (λ i, smap_get_bool (pi_hw_bond_config i) INTERFACE_HW_BOND_CONFIG_MAP_TX_ENABLED false)
    (p_ifaces p).

Lemma port_members_spec p lacp :
  port_members p lacp =
  if bond_wanted p lacp then Members (rx_members p) (tx_members p) (bool_decide (p_ifaces p ≠ []))
  else Members (pi_ofp_port <$> p_ifaces p) [] false.
Proof.
  unfold port_members, rx_members, tx_members.
  assert (∀ l m, fold_left (add_member p lacp) l m =
    if bond_wanted p lacp then
      Members (mb_slaves m ++ (pi_ofp_port <$> filter (λ i, smap_get_bool (pi_hw_bond_config i)
                                  INTERFACE_HW_BOND_CONFIG_MAP_RX_ENABLED false) l))
        (mb_slaves_tx_enable m ++ (pi_ofp_port <$> filter (λ i, smap_get_bool (pi_hw_bond_config i)
                                  INTERFACE_HW_BOND_CONFIG_MAP_TX_ENABLED false) l))
        (if l is [] then mb_hw_bond_should_exist m else true)
    else Members (mb_slaves m ++ (pi_ofp_port <$> l)) (mb_slaves_tx_enable m)
           (if l is [] then mb_hw_bond_should_exist m else false)) as H.
  { induction l as [|x l IH]; intros m; [destruct m, (bond_wanted p lacp); simpl; by rewrite !app_nil_r|].
    cbn [fold_left]. rewrite IH. unfold add_member. destruct (bond_wanted p lacp); simpl.
    - rewrite !filter_cons. destruct (smap_get_bool (pi_hw_bond_config x) _ false),
        (smap_get_bool (pi_hw_bond_config x) INTERFACE_HW_BOND_CONFIG_MAP_TX_ENABLED false);
        simpl; rewrite <-?app_assoc, ?app_nil_r; by destruct l.
    - rewrite <-app_assoc. by destruct l. }
  rewrite H. destruct (bond_wanted p lacp), (p_ifaces p); done.
Qed.

Lemma set_miimon_run p interval s :
  set_miimon_intervals p interval s =
  Ok (tt, PSt _ (port_status s)
            (port_log s ++ ((λ i, SetMiimonInterval (pi_name i) interval) <$> p_ifaces p))).
Proof.
  unfold set_miimon_intervals. revert s. induction (p_ifaces p) as [|i l IH]; intros s; simpl.
  { rewrite app_nil_r. by destruct s. }
  step. rewrite IH. simpl. by rewrite <-app_assoc.
Qed.

(** The status column of the row tells the handle of the bond. *)
Definition handle_published (p : port) (s : pst) : Prop :=
  default ∅ (port_status s !! pr_uuid (p_cfg p)) !! PORT_STATUS_BOND_HW_HANDLE =
  if decide (bond_hw_handle p = -1) then None else Some (pretty (bond_hw_handle p)).

Lemma bond_step_run p (bond : bool) s :
  ∃ b, (if bond then b ← port_configure_bond p; mret (Some b) else set_miimon_intervals p 0 ;; mret None) s =
    Ok (b, PSt _ (port_status s) (port_log s ++
      ((λ i, SetMiimonInterval (pi_name i) (if bond then miimon_interval (p_cfg p) else 0)) <$> p_ifaces p))) ∧
    (is_Some b ↔ bond = true).
Proof.
  destruct bond; unfold port_configure_bond.
  - eexists. split; [|split; [done|intros _; by eexists]].
    erewrite bind_run by (step set_miimon_run; reflexivity). reflexivity.
  - eexists. split; [step set_miimon_run; reflexivity|]. split; [by intros [? ?]|done].
Qed.

(** The update of the status column. *)
Definition with_handle (handle : Z) (status : smap) : smap :=
  if negb (handle =? -1) then <[PORT_STATUS_BOND_HW_HANDLE := pretty handle]> status
  else delete PORT_STATUS_BOND_HW_HANDLE status.

Lemma with_handle_published handle status :
  with_handle handle status !! PORT_STATUS_BOND_HW_HANDLE =
  if decide (handle = -1) then None else Some (pretty handle).
Proof.
  unfold with_handle. destruct (Z.eqb_spec handle (-1)) as [->|Hne]; simpl.
  - apply lookup_delete_eq.
  - rewrite decide_False by done. apply lookup_insert_eq.
Qed.

Lemma with_handle_other handle status k :
  k ≠ PORT_STATUS_BOND_HW_HANDLE → with_handle handle status !! k = status !! k.
Proof.
  intros Hk. unfold with_handle. destruct (negb _); [by rewrite lookup_insert_ne|by rewrite lookup_delete_ne].
Qed.

Lemma publish_run p handle s :
  ∃ s', mwhen (negb (bond_hw_handle p =? handle))
      (modify (λ s, set_port_status (pr_uuid (p_cfg p))
         (with_handle handle (default ∅ (port_status s !! pr_uuid (p_cfg p)))) s)) s = Ok (tt, s') ∧
    port_log s' = port_log s ∧
    (handle_published p s → handle_published (Port (p_name p) (p_cfg p) (p_ifaces p) handle) s') ∧
    (∀ u, u ≠ pr_uuid (p_cfg p) → port_status s' !! u = port_status s !! u) ∧
    (∀ k, k ≠ PORT_STATUS_BOND_HW_HANDLE →
       default ∅ (port_status s' !! pr_uuid (p_cfg p)) !! k =
       default ∅ (port_status s !! pr_uuid (p_cfg p)) !! k).
Proof.
  destruct (Z.eqb_spec (bond_hw_handle p) handle) as [E|E]; simpl.
  - exists s. split; [done|]. split; [done|]. split; [|done].
    unfold handle_published. simpl. by rewrite E.
  - eexists. split; [reflexivity|]. split; [done|]. unfold handle_published. simpl. split; [|split].
    + intros _. rewrite lookup_insert_eq. apply with_handle_published.
    + intros u Hu. by rewrite lookup_insert_ne.
    + intros k Hk. rewrite lookup_insert_eq. simpl. by apply with_handle_other.
Qed.

(** C27: [port_configure] returns after setting the monitoring interval of
    every member and then registering the port once.  The switch gets a bond
    exactly if the port has members and is a LAG, has several members or runs
    LACP; the members are then those enabled for receiving and for sending, in
    order and within the arrays, and otherwise all of them.  A handle is only
    asked for without members when there is none yet.  Afterwards the port has
    the handle of the switch, and the status column still tells it; nothing
    else in the status columns changes. *)
Theorem port_configure_registers (c : ip_columns) (p : port) (s : pst) :
  let bond := bond_wanted p (enable_lacp (p_cfg p) false).1 && bool_decide (p_ifaces p ≠ []) in
  let interval := if bond then miimon_interval (p_cfg p) else 0 in
  ∃ st p' s', port_configure c p s = Ok (p', s') ∧
    port_log s' = port_log s ++ ((λ i, SetMiimonInterval (pi_name i) interval) <$> p_ifaces p) ++
                  [BundleRegister (p_name p) st] ∧
    s_hw_bond_should_exist st = bond ∧ (is_Some (s_bond st) ↔ bond = true) ∧
    s_slaves st = (if bond then rx_members p else pi_ofp_port <$> p_ifaces p) ∧
    s_slaves_tx_enable st = (if bond then tx_members p else []) ∧
    (length (s_slaves st) ≤ length (p_ifaces p))%nat ∧
    (length (s_slaves_tx_enable st) ≤ length (p_ifaces p))%nat ∧
    (s_bond_handle_alloc_only st = true ↔ bond = true ∧ s_slaves st = [] ∧ bond_hw_handle p = -1) ∧
    (s_vlan_mode st, s_vlan st) = port_vlan_settings (p_cfg p) ∧
    p' = Port (p_name p) (p_cfg p) (p_ifaces p) (ofproto_bundle_get (port_log s') (p_name p)) ∧
    (handle_published p s → handle_published p' s') ∧
    (∀ u, u ≠ pr_uuid (p_cfg p) → port_status s' !! u = port_status s !! u) ∧
    (∀ k, k ≠ PORT_STATUS_BOND_HW_HANDLE →
       default ∅ (port_status s' !! pr_uuid (p_cfg p)) !! k =
       default ∅ (port_status s !! pr_uuid (p_cfg p)) !! k).
Proof.
  intros bond interval.
  assert (port_members p (enable_lacp (p_cfg p) false).1 =
    if bond then Members (rx_members p) (tx_members p) true
    else Members (pi_ofp_port <$> p_ifaces p) [] false) as Hm.
  { rewrite port_members_spec. unfold bond. destruct (bond_wanted p _); simpl; [|done].
    case_bool_decide as Hi; [done|]. unfold rx_members, tx_members. by rewrite Hi. }
  clearbody bond. unfold port_configure. destruct (enable_lacp (p_cfg p) false) as [lacp act]. simpl in Hm.
  rewrite Hm. destruct (port_vlan_settings (p_cfg p)) as [mode vlan].
  destruct (bond_step_run p bond s) as (b & Eb & Hb).
  assert (mb_hw_bond_should_exist (if bond then Members (rx_members p) (tx_members p) true
    else Members (pi_ofp_port <$> p_ifaces p) [] false) = bond) as -> by (by destruct bond).
  step Eb. fold interval. step. step. simpl.
  match goal with |- context [add_port_event (BundleRegister _ ?st) ?s0] =>
    set (s1 := add_port_event (BundleRegister (p_name p) st) s0); exists st end.
  destruct (publish_run p (ofproto_bundle_get (port_log s1) (p_name p)) s1) as (s' & E & El & Hpub & Hu & Hk).
  eexists _, s'. split; [erewrite bind_run by exact E; reflexivity|]. rewrite El. simpl.
  split; [by rewrite <-app_assoc|]. split; [done|]. split; [done|].
  split; [by destruct bond|]. split; [by destruct bond|].
  assert (∀ q : port_iface → bool, (length (pi_ofp_port <$> filter q (p_ifaces p)) ≤ length (p_ifaces p))%nat) as Hlen
    by (intros q; rewrite length_fmap; apply length_filter).
  split; [destruct bond; [apply Hlen|cbn [mb_slaves]; by rewrite length_fmap]|].
  split; [destruct bond; [apply Hlen|apply Nat.le_0_l]|].
  split; [|done]. rewrite !andb_true_iff, Z.eqb_eq, Nat.ltb_lt.
  assert (∀ l : list Z, (length l < 1)%nat ↔ l = []) as Hnil by (intros []; simpl; naive_solver lia).
  rewrite Hnil. by destruct bond; naive_solver.
Qed.
End Facts.
