(* ===== verification/BridgePorts.v ===== *)
(** * Ports and interfaces of a bridge: bridge.c

    The structures of the ports and interfaces of one bridge (or of the bridge
    part of a VRF) and how they follow its row: [bridge_collect_wanted_ports],
    [bridge_del_ports], [bridge_delete_or_reconfigure_ports] (and its VRF
    variant) and [bridge_add_ports], down to the creation and destruction of
    single interfaces. *)

From stdpp Require Import pretty.
From S2P Require Import Prelude OvsLib.
Local Open Scope Z_scope.

(** ** Rows *)

Record ovsrec_interface := IfaceRow {
  ir_uuid : Z;
  ir_name : string;
  ir_type : string;
  ir_hw_intf_info : smap;
  ir_split_parent : option string;
  ir_options : smap;
  ir_subintf_parent : option (Z * string);   (* first vlan and parent name *)
  ir_synthetic : bool;
}.

Record ovsrec_port := PortRow {
  pr_name : string;
  pr_interfaces : list ovsrec_interface;
}.

Record ovsrec_bridge := BridgeRow {
  brr_name : string;
  brr_datapath_type : string;
  brr_ports : list ovsrec_port;
  brr_controllers : list string;             (* their targets *)
}.

(** ** Structures *)

(** [bp_ifaces]: the members of the port's list, by name, in order. *)
Record port := Port {
  bp_name : string;
  bp_cfg : option ovsrec_port;
  bp_ifaces : list string;
}.

Record iface := Iface {
  f_name : string;
  f_port : string;
  f_ofp_port : Z;
  f_type : string;
  f_cfg : ovsrec_interface;
}.

(** Calls to the device and switch libraries, writes that clear the columns of
    an interface row, and what follows a creation: the first refresh of the
    status of the interface with the [STATS_BRIDGE_CREATE_NETDEV] callbacks.
    [DeletePortNeighbors]: a call of [vrf_delete_port_neighbors]. *)
Inductive bp_event :=
| DevOpen (name type : string)
| DevSetEtheraddr (name : string)
| DevSetInfo (name : string) (info : smap)
| DevSetConfig (name : string) (config : smap)
| OfPortAdd (name : string) (ofp_port : Z)
| OfPortDel (ofp_port : Z)
| DevClose (name : option string)
| DevRemove (name : string)
| OfPortUnregister (ofp_port : Z)
| BundleUnregister (port : string)
| ClearRecord (uuid : Z)
| IfaceRefresh (name : string)
| DeletePortNeighbors (port : string).

(** [br->ports] and [br->iface_by_name]; [br->ifaces] indexes the same
    interfaces by OpenFlow port. *)
Record bpst := BpSt {
  ports : list port;
  ifaces : list iface;
  bp_log : list bp_event;
}.

Definition set_ports (l : list port) (s : bpst) : bpst := BpSt l (ifaces s) (bp_log s).
Definition set_ifaces (l : list iface) (s : bpst) : bpst := BpSt (ports s) l (bp_log s).
Definition add_bp_event (e : bp_event) (s : bpst) : bpst := BpSt (ports s) (ifaces s) (bp_log s ++ [e]).

(** The answers of the libraries: error codes, and the OpenFlow port number
    assigned by [ofproto_port_add]. *)
Class SwitchDev := {
  OFPP_NONE : Z;
  OVSREC_INTERFACE_TYPE_VLANSUBINT : string;
  SPLIT_PARENT_KEY : string;                 (* INTERFACE_HW_INTF_INFO_SPLIT_PARENT *)
  netdev_is_reserved_name : string → bool;
  netdev_open : list bp_event → string → string → Z;
  netdev_set_etheraddr : list bp_event → string → Z;
  netdev_set_hw_intf_info : list bp_event → string → smap → Z;
  netdev_set_config : list bp_event → string → smap → Z;
  ofproto_port_add : list bp_event → string → Z → Z * Z;
  ofproto_port_open_type : string → string → string;
}.

(** A port the switch reports ([struct ofproto_port]). *)
Record ofproto_port := OfprotoPort {
  op_name : string;
  op_type : string;
  op_ofp_port : Z;
}.

Section BridgePorts.
Context `{HL : OvsLib, HD : SwitchDev}.
(** [br->ofproto] is not null, and [br->cfg] (null for a VRF). *)
Context (br_ofproto : bool) (br_cfg : option ovsrec_bridge).

(** ** Lookups and types *)

Definition port_lookup (name : string) (s : bpst) : option port :=
  hmap_first_with_hash (λ p, hash_string (bp_name p)) (hash_string name)
    (λ p, bool_decide (bp_name p = name)) (ports s).

Definition iface_lookup (name : string) (s : bpst) : option iface :=
  hmap_first_with_hash (λ f, hash_string (f_name f)) (hash_string name)
    (λ f, bool_decide (f_name f = name)) (ifaces s).

Definition iface_is_internal (row : ovsrec_interface) : bool :=
  bool_decide (ir_type row = "internal") ||
  match br_cfg with Some br => bool_decide (ir_name row = brr_name br) | None => false end.

Definition iface_get_type (row : ovsrec_interface) : string :=
  let type := if iface_is_internal row then "internal"
              else if bool_decide (ir_type row = "") then "system" else ir_type row in
  ofproto_port_open_type (match br_cfg with Some br => brr_datapath_type br | None => "vrf" end) type.

(** ** Destruction *)

(** [iface_destroy__]; the interface is unlinked from its port's list. *)
Definition iface_destroy__ (name : string) : M bpst unit :=
  f ← gets (iface_lookup name);
  match f with
  | None => die UseAfterFree
  | Some f =>
    mwhen (br_ofproto && negb (f_ofp_port f =? OFPP_NONE))
      (modify (add_bp_event (OfPortUnregister (f_ofp_port f)))) ;;
    modify (λ s, set_ports ((λ p, if bool_decide (bp_name p = f_port f)
      then Port (bp_name p) (bp_cfg p) (filter (λ n, n ≠ name) (bp_ifaces p)) else p) <$> ports s) s) ;;
    modify (λ s, set_ifaces (filter (λ x, f_name x ≠ name) (ifaces s)) s) ;;
    modify (add_bp_event (DevRemove name))
  end.

Definition port_destroy (name : string) : M bpst unit :=
  p ← gets (port_lookup name);
  match p with
  | None => die UseAfterFree
  | Some p =>
    mwhen br_ofproto (modify (add_bp_event (BundleUnregister name))) ;;
    mfor (bp_ifaces p) iface_destroy__ ;;
    modify (λ s, set_ports (filter (λ x, bp_name x ≠ name) (ports s)) s)
  end.

Definition iface_destroy (name : string) : M bpst unit :=
  f ← gets (iface_lookup name);
  match f with
  | None => die UseAfterFree
  | Some f =>
    iface_destroy__ name ;;
    p ← gets (port_lookup (f_port f));
    match p with
    | None => die UseAfterFree
    | Some p => match bp_ifaces p with [] => port_destroy (f_port f) | _ => mret tt end
    end
  end.

(** ** Creation *)

Definition get_subinterface_info (row : ovsrec_interface) : smap :=
  <["vlan" := pretty (match ir_subintf_parent row with Some (vlan, _) => to_signed 32 vlan | None => 0 end)]>
  {[ "parent_intf_name" := match ir_subintf_parent row with Some (_, parent) => parent | None => "" end ]}.

Definition iface_set_netdev_config (row : ovsrec_interface) : M bpst Z :=
  let config := if bool_decide (ir_type row = OVSREC_INTERFACE_TYPE_VLANSUBINT)
                then get_subinterface_info row else ir_options row in
  l ← gets bp_log;
  modify (add_bp_event (DevSetConfig (ir_name row) config)) ;;
  mret (netdev_set_config l (ir_name row) config).

Definition bridge_intf_info (row : ovsrec_interface) : smap :=
  match ir_split_parent row with
  | Some parent => <[SPLIT_PARENT_KEY := parent]> (ir_hw_intf_info row)
  | None => ir_hw_intf_info row
  end.

Definition iface_pick_ofport (row : ovsrec_interface) : Z := OFPP_NONE.

(** An error after closing what was opened, or the OpenFlow port. *)
Definition iface_do_create (row : ovsrec_interface) : M bpst (Z + Z) :=
  let fail netdev error := modify (add_bp_event (DevClose netdev)) ;; mret (inl error) in
  let name := ir_name row in
  if netdev_is_reserved_name name then fail None EINVAL else
  l ← gets bp_log;
  modify (add_bp_event (DevOpen name (iface_get_type row))) ;;
  let error := netdev_open l name (iface_get_type row) in
  if negb (error =? 0) then fail None error else
  l ← gets bp_log;
  modify (add_bp_event (DevSetEtheraddr name)) ;;
  let error := netdev_set_etheraddr l name in
  if negb (error =? 0) then fail (Some name) error else
  l ← gets bp_log;
  modify (add_bp_event (DevSetInfo name (bridge_intf_info row))) ;;
  let error := netdev_set_hw_intf_info l name (bridge_intf_info row) in
  if negb (error =? 0) then fail (Some name) error else
  error ← iface_set_netdev_config row;
  if negb (error =? 0) then fail (Some name) error else
  l ← gets bp_log;
  let '(error, ofp_port) := ofproto_port_add l name (iface_pick_ofport row) in
  modify (add_bp_event (OfPortAdd name ofp_port)) ;;
  if negb (error =? 0) then fail (Some name) error else
  mret (inr ofp_port).

Definition iface_clear_db_record (row : ovsrec_interface) : M bpst unit :=
  mwhen (negb (ir_synthetic row)) (modify (add_bp_event (ClearRecord (ir_uuid row)))).

Definition port_create (row : ovsrec_port) : M bpst unit :=
  modify (λ s, set_ports (hmap_insert (hash_string (pr_name row)) (Port (pr_name row) (Some row) []) (ports s)) s).

Definition iface_create (port_row : ovsrec_port) (row : ovsrec_interface) : M bpst bool :=
  known ← gets (iface_lookup (ir_name row));
  ovs_assert (match known with None => true | Some _ => false end) ;;
  r ← iface_do_create row;
  match r with
  | inl _ => iface_clear_db_record row ;; mret false
  | inr ofp_port =>
    p ← gets (port_lookup (pr_name port_row));
    mwhen (match p with None => true | Some _ => false end) (port_create port_row) ;;
    modify (λ s, set_ports ((λ p, if bool_decide (bp_name p = pr_name port_row)
      then Port (bp_name p) (bp_cfg p) (bp_ifaces p ++ [ir_name row]) else p) <$> ports s) s) ;;
    modify (λ s, set_ifaces (hmap_insert (hash_string (ir_name row))
      (Iface (ir_name row) (pr_name port_row) ofp_port (iface_get_type row) row) (ifaces s)) s) ;;
    modify (add_bp_event (IfaceRefresh (ir_name row))) ;;
    mret true
  end.

(** ** Following the row *)

Definition bridge_get_controllers (br : ovsrec_bridge) : list string :=
  if bool_decide (brr_controllers br = ["none"]) then [] else brr_controllers br.

Definition synth_local_port (br : ovsrec_bridge) : ovsrec_port :=
  PortRow (brr_name br) [IfaceRow 0 (brr_name br) "internal" ∅ None ∅ None true].

Definition bridge_collect_wanted_ports (br : ovsrec_bridge) : shash ovsrec_port :=
  let wanted := shash_collect pr_name (brr_ports br) in
  match bridge_get_controllers br, wanted !! brr_name br with
  | _ :: _, None => <[brr_name br := synth_local_port br]> wanted
  | _, _ => wanted
  end.

Definition vrf_collect_wanted_ports (rows : list ovsrec_port) : shash ovsrec_port :=
  shash_collect pr_name rows.

(** [new_ifaces] of [port_del_ifaces] *)
Definition new_ifaces (row : ovsrec_port) : list string :=
  ir_name <$> filter (λ r, ir_type r ≠ "null") (pr_interfaces row).

Definition port_del_ifaces (p : port) (row : ovsrec_port) : M bpst unit :=
  mfor (bp_ifaces p) (λ n, if bool_decide (n ∈ new_ifaces row) then mret tt else iface_destroy n).

(** One iteration of "Get rid of deleted ports", in a VRF or a bridge. *)
Definition del_or_trim_port (vrf : bool) (wanted : shash ovsrec_port) (p : port) : M bpst unit :=
  modify (λ s, set_ports ((λ x, if bool_decide (bp_name x = bp_name p)
    then Port (bp_name x) (wanted !! bp_name p) (bp_ifaces x) else x) <$> ports s) s) ;;
  match wanted !! bp_name p with
  | None =>
    mwhen vrf (modify (add_bp_event (DeletePortNeighbors (bp_name p)))) ;;
    port_destroy (bp_name p)
  | Some row => port_del_ifaces p row
  end.

(** "Update iface->cfg and iface->type in interfaces that still exist." *)
Definition update_iface (row : ovsrec_interface) : M bpst unit :=
  modify (λ s, set_ifaces ((λ f, if bool_decide (f_name f = ir_name row)
    then Iface (f_name f) (f_port f) (f_ofp_port f) (iface_get_type row) row else f) <$> ifaces s) s).

Definition del_ports (vrf : bool) (wanted : shash ovsrec_port) : M bpst unit :=
  old ← gets ports;
  mfor old (del_or_trim_port vrf wanted) ;;
  mfor (shash_nodes wanted).*2 (λ row, mfor (pr_interfaces row) update_iface).

Definition bridge_del_ports : shash ovsrec_port → M bpst unit := del_ports false.

(** [br_cfg] is [None] in a VRF. *)
Definition vrf_del_ports : shash ovsrec_port → M bpst unit := del_ports true.

(** ** Following the ports of the switch *)

(** [netdev_set_config] on the interface: its answer. *)
Definition reconfigure_netdev (f : iface) (config : smap) : M bpst Z :=
  l ← gets bp_log;
  modify (add_bp_event (DevSetConfig (f_name f) config)) ;;
  mret (netdev_set_config l (f_name f) config).

(** The interface is of the type the switch has, and takes its options. *)
Definition iface_still_good (d : ofproto_port) (f : iface) : M bpst bool :=
  if bool_decide (op_type d ≠ f_type f) then mret false
  else error ← reconfigure_netdev f (ir_options (f_cfg f)); mret (error =? 0).

Definition vrf_iface_still_good (d : ofproto_port) (f : iface) : M bpst bool :=
  if bool_decide (ir_type (f_cfg f) = OVSREC_INTERFACE_TYPE_VLANSUBINT)
  then error ← reconfigure_netdev f (get_subinterface_info (f_cfg f)); mret (error =? 0)
  else iface_still_good d f.

(** One iteration of [OFPROTO_PORT_FOR_EACH]; [del] is the list of OpenFlow
    ports to delete. *)
Definition check_ofproto_port (still_good : ofproto_port → iface → M bpst bool)
    (del : list Z) (d : ofproto_port) : M bpst (list Z) :=
  f ← gets (iface_lookup (op_name d));
  match f with
  | None => mret (del ++ [op_ofp_port d])
  | Some f =>
    good ← still_good d f;
    if good : bool then mret del
    else iface_destroy (op_name d) ;; mret (del ++ [op_ofp_port d])
  end.

(** One iteration of the loop that removes "ports that disappeared". *)
Definition drop_vanished (ofproto_ports : list string) (p : port) : M bpst unit :=
  mfor (bp_ifaces p) (λ n, if bool_decide (n ∈ ofproto_ports) then mret tt else iface_destroy__ n) ;;
  p' ← gets (port_lookup (bp_name p));
  match p' with
  | None => die UseAfterFree
  | Some p' => match bp_ifaces p' with [] => port_destroy (bp_name p) | _ => mret tt end
  end.

Definition delete_or_reconfigure_ports_with (still_good : ofproto_port → iface → M bpst bool)
    (dump : list ofproto_port) : M bpst unit :=
  del ← mfold (check_ofproto_port still_good) dump [];
  mfor del (λ o, modify (add_bp_event (OfPortDel o))) ;;
  old ← gets ports;
  mfor old (drop_vanished (op_name <$> dump)).

Definition bridge_delete_or_reconfigure_ports : list ofproto_port → M bpst unit :=
  delete_or_reconfigure_ports_with iface_still_good.

Definition vrf_delete_or_reconfigure_ports : list ofproto_port → M bpst unit :=
  delete_or_reconfigure_ports_with vrf_iface_still_good.

Definition add_iface_if_new (port_row : ovsrec_port) (row : ovsrec_interface) : M bpst unit :=
  known ← gets (iface_lookup (ir_name row));
  match known with
  | None => iface_create port_row row ;; mret tt
  | Some _ => mret tt
  end.

Definition bridge_add_ports (wanted : shash ovsrec_port) : M bpst unit :=
  mfor (shash_nodes wanted).*2 (λ port_row, mfor (pr_interfaces port_row) (add_iface_if_new port_row)).

(** The steps of [bridge_reconfigure] that change the ports of one bridge or VRF
    whose switch exists, in their order. *)
Definition reconfigure_ports (vrf : bool) (dump : list ofproto_port) (wanted : shash ovsrec_port) : M bpst unit :=
  (if vrf then vrf_del_ports wanted else bridge_del_ports wanted) ;;
  (if vrf then vrf_delete_or_reconfigure_ports dump else bridge_delete_or_reconfigure_ports dump) ;;
  bridge_add_ports wanted.
End BridgePorts.
