(* ===== verification/BridgePortsFacts.v ===== *)
(** * The ports of a bridge follow its row

    Deleting, reconfiguring and adding ports leaves exactly wanted interfaces,
    each in its port, with all those whose devices work, and keeps those that
    were already there and still fit. *)

From S2P Require Import Prelude OvsLib BridgePorts.
Local Open Scope Z_scope.

(** ** The structures as a relation *)

(** Interface [n] is in port [q]. *)
Definition has (s : bpst) (n q : string) : Prop :=
  ∃ f, f ∈ ifaces s ∧ f_name f = n ∧ f_port f = q.

Definition port_names (s : bpst) : list string := bp_name <$> ports s.

(** The list of a port has exactly its interfaces. *)
Record bwf (s : bpst) : Prop := BWf {
  bw_ports : NoDup (port_names s);
  bw_ifaces : NoDup (f_name <$> ifaces s);
  bw_lists : ∀ p, p ∈ ports s → NoDup (bp_ifaces p) ∧ ∀ n, n ∈ bp_ifaces p ↔ has s n (bp_name p);
  bw_owned : ∀ f, f ∈ ifaces s → f_port f ∈ port_names s;
}.

(** No port is empty. *)
Definition full (s : bpst) : Prop := ∀ q, q ∈ port_names s → ∃ n, has s n q.

Lemma iface_unique s f1 f2 : bwf s → f1 ∈ ifaces s → f2 ∈ ifaces s → f_name f1 = f_name f2 → f1 = f2.
Proof. intros Hw. apply NoDup_fmap_elem, Hw. Qed.

Lemma has_fun s n q1 q2 : bwf s → has s n q1 → has s n q2 → q1 = q2.
Proof. intros Hw (f1 & H1 & E1 & <-) (f2 & H2 & E2 & <-). rewrite (iface_unique s f1 f2); congruence. Qed.

(** Changes that keep names, owners and lists. *)
Lemma bwf_frame s s' :
  port_names s' = port_names s → f_name <$> ifaces s' = f_name <$> ifaces s →
  f_port <$> ifaces s' = f_port <$> ifaces s → (∀ n q, has s' n q ↔ has s n q) →
  (∀ p', p' ∈ ports s' → ∃ p, p ∈ ports s ∧ bp_name p' = bp_name p ∧ bp_ifaces p' = bp_ifaces p) →
  bwf s → bwf s' ∧ (full s → full s').
Proof.
  intros Ep Ei Eo Ho Hp [H1 H2 H3 H4]. split; [split|].
  - by rewrite Ep.
  - by rewrite Ei.
  - intros p' Hp'. destruct (Hp p' Hp') as (p & Hin & En & El). rewrite El, En.
    destruct (H3 p Hin) as [Hnd Hl]. split; [done|]. intros n. by rewrite Hl, Ho.
  - intros f Hf. rewrite Ep. assert (f_port f ∈ f_port <$> ifaces s) as (g & -> & Hg)%list_elem_of_fmap
      by (rewrite <-Eo; by apply list_elem_of_fmap_2). by apply H4.
  - intros Hf q. rewrite Ep. setoid_rewrite Ho. apply Hf.
Qed.

(** Changes of the log only. *)
Lemma bwf_log s s' : ports s' = ports s → ifaces s' = ifaces s → bwf s → bwf s' ∧ (full s → full s').
Proof.
  intros Ep Ei. apply bwf_frame; unfold port_names, has; rewrite ?Ep, ?Ei; [done..|naive_solver].
Qed.

Section Facts.
Context `{HL : OvsLib, HD : SwitchDev}.
Context (br_ofproto : bool) (br_cfg : option ovsrec_bridge).

(** ** Lookups *)

Lemma find_by_name {A} (name : A → string) (l : list A) k x :
  NoDup (name <$> l) →
  hmap_first_with_hash (λ y, hash_string (name y)) (hash_string k) (λ y, bool_decide (name y = k)) l = Some x ↔
  x ∈ l ∧ name x = k.
Proof.
  intros Hnd. unfold hmap_first_with_hash. rewrite find_Some_iff_unique.
  - rewrite andb_true_iff, Z.eqb_eq, bool_decide_eq_true. naive_solver.
  - intros a b Ha Hb [_ Ea%bool_decide_eq_true]%andb_true_iff [_ Eb%bool_decide_eq_true]%andb_true_iff.
    apply (NoDup_fmap_elem name l); congruence.
Qed.

Lemma find_by_name_None {A} (name : A → string) (l : list A) k :
  hmap_first_with_hash (λ y, hash_string (name y)) (hash_string k) (λ y, bool_decide (name y = k)) l = None ↔
  k ∉ (name <$> l).
Proof.
  unfold hmap_first_with_hash. rewrite find_None_iff, list_elem_of_fmap. split.
  - intros H (x & -> & Hx). specialize (H x Hx). by rewrite Z.eqb_refl, bool_decide_true in H.
  - intros H x Hx. case_bool_decide as E; [|by rewrite andb_false_r]. destruct H. eauto.
Qed.

Lemma iface_lookup_in s f : bwf s → f ∈ ifaces s → iface_lookup (f_name f) s = Some f.
Proof. intros Hw Hf. apply (find_by_name f_name); [apply Hw|done]. Qed.

Lemma bridge_iface_lookup_Some s n f : bwf s → iface_lookup n s = Some f → f ∈ ifaces s ∧ f_name f = n.
Proof. intros Hw. apply (find_by_name f_name), Hw. Qed.

Lemma port_lookup_name s q : bwf s → q ∈ port_names s → ∃ p, port_lookup q s = Some p ∧ p ∈ ports s ∧ bp_name p = q.
Proof.
  intros Hw (p & -> & Hp)%list_elem_of_fmap. exists p. split; [|done]. apply (find_by_name bp_name); [apply Hw|done].
Qed.

(** ** Destruction *)

(** [s'] is [s] with only the interfaces of [keep]. *)
Definition trimmed (keep : iface → Prop) (s s' : bpst) : Prop :=
  bwf s' ∧ ∀ f, f ∈ ifaces s' ↔ f ∈ ifaces s ∧ keep f.

Lemma has_trimmed keep s s' n q :
  trimmed keep s s' → has s' n q ↔ ∃ f, f ∈ ifaces s ∧ keep f ∧ f_name f = n ∧ f_port f = q.
Proof. intros [_ H]. unfold has. setoid_rewrite H. naive_solver. Qed.

Lemma iface_destroy___run s f :
  bwf s → f ∈ ifaces s →
  ∃ s', iface_destroy__ br_ofproto (f_name f) s = Ok (tt, s') ∧ port_names s' = port_names s ∧
    trimmed (λ g, f_name g ≠ f_name f) s s'.
Proof.
  intros Hw Hf. pose proof (iface_lookup_in s f Hw Hf) as El.
  assert (∃ log, iface_destroy__ br_ofproto (f_name f) s =
    Ok (tt, BpSt ((λ p, if bool_decide (bp_name p = f_port f)
                        then Port (bp_name p) (bp_cfg p) (filter (λ m, m ≠ f_name f) (bp_ifaces p)) else p) <$> ports s)
              (filter (λ x, f_name x ≠ f_name f) (ifaces s)) log)) as (log & E).
  { unfold iface_destroy__. step. rewrite El. destruct (br_ofproto && _); simpl; eexists; reflexivity. }
  eexists. split; [exact E|]. set (s' := BpSt _ _ log).
  assert (port_names s' = port_names s) as Epn.
  { unfold port_names, s'. simpl. rewrite <-list_fmap_compose. apply list_fmap_ext. intros i p _. simpl. by case_bool_decide. }
  assert (∀ g, g ∈ ifaces s' ↔ g ∈ ifaces s ∧ f_name g ≠ f_name f) as Ho.
  { intros g. unfold s'. simpl. rewrite list_elem_of_filter. naive_solver. }
  split; [done|]. split; [|done]. split.
  - rewrite Epn. apply Hw.
  - simpl. apply NoDup_fmap_filter, Hw.
  - intros p' (p & -> & Hp)%list_elem_of_fmap. destruct (bw_lists s Hw p Hp) as [Hnd Hl]. unfold has in *.
    case_bool_decide as Ep; cbn [bp_name bp_ifaces].
    + split; [by apply NoDup_filter|]. intros m. rewrite list_elem_of_filter, Hl. setoid_rewrite Ho. naive_solver.
    + split; [done|]. intros m. rewrite Hl. setoid_rewrite Ho. split; [|naive_solver].
      intros (g & Hg & <- & Eq). exists g. split_and!; [done| |done..]. intros Eg.
      rewrite (iface_unique s g f) in Eq by done. congruence.
  - intros g [Hg _]%Ho. rewrite Epn. by apply Hw.
Qed.

Lemma trimmed_refl s (P : iface → Prop) : bwf s → (∀ f, f ∈ ifaces s → P f) → trimmed P s s.
Proof. intros Hw HP. split; [done|]. naive_solver. Qed.

Lemma trimmed_trans s1 s2 s3 (P Q R : iface → Prop) :
  trimmed P s1 s2 → trimmed Q s2 s3 → (∀ f, f ∈ ifaces s1 → R f ↔ P f ∧ Q f) → trimmed R s1 s3.
Proof. intros [_ H1] [Hw H2] HR. split; [done|]. intros f. rewrite H2, H1. naive_solver. Qed.

Lemma trimmed_ext s0 s s' (P Q : iface → Prop) :
  ifaces s0 = ifaces s → trimmed P s0 s' → (∀ f, f ∈ ifaces s → P f ↔ Q f) → trimmed Q s s'.
Proof. intros Ei [Hw H] HPQ. split; [done|]. intros f. rewrite H, Ei. naive_solver. Qed.

(** A loop that destroys some of the interfaces of a list. *)
Lemma destroy_loop (I : bpst → Prop) (destroy : string → M bpst unit) (keep : string → bool) :
  (∀ s f, bwf s → I s → f ∈ ifaces s →
     ∃ s', destroy (f_name f) s = Ok (tt, s') ∧ I s' ∧ trimmed (λ g, f_name g ≠ f_name f) s s') →
  ∀ l s, bwf s → I s → NoDup l → (∀ n, n ∈ l → ∃ q, has s n q) →
  ∃ s', mfor l (λ n, if keep n then mret tt else destroy n) s = Ok (tt, s') ∧ I s' ∧
    trimmed (λ f, f_name f ∈ l → keep (f_name f) = true) s s'.
Proof.
  intros Hd. induction l as [|n l IH]; intros s Hw HI Hnd Hl.
  { exists s. split; [done|]. split; [done|]. apply trimmed_refl; [done|]. by intros f _ ?%elem_of_nil. }
  apply NoDup_cons in Hnd as [Hn Hnd].
  assert (∃ s1, (if keep n then mret tt else destroy n) s = Ok (tt, s1) ∧
    I s1 ∧ trimmed (λ f, f_name f = n → keep n = true) s s1) as (s1 & E1 & HI1 & Ht1).
  { destruct (keep n) eqn:Ek.
    { exists s. split; [done|]. split; [done|]. by apply trimmed_refl. }
    destruct (Hl n) as (q & f & Hf & <- & _); [left|].
    destruct (Hd s f Hw HI Hf) as (s1 & E1 & HI1 & Hw1 & H1). exists s1.
    split; [done|]. split; [done|]. split; [done|]. intros g. rewrite H1. naive_solver. }
  destruct (IH s1 (proj1 Ht1) HI1 Hnd) as (s' & E & HI' & Ht).
  { intros m Hm. destruct (Hl m) as (q & f & Hf & <- & Eq); [by right|]. exists q, f.
    split; [|done]. apply Ht1. split; [done|]. intros E. destruct Hn. by rewrite <-E. }
  exists s'. simpl. step E1. split; [done|]. split; [done|].
  eapply trimmed_trans; [exact Ht1|exact Ht|]. intros f _. simpl. rewrite elem_of_cons. naive_solver.
Qed.

Lemma destroy_ifaces_run (keep : string → bool) l s :
  bwf s → NoDup l → (∀ n, n ∈ l → ∃ q, has s n q) →
  ∃ s', mfor l (λ n, if keep n then mret tt else iface_destroy__ br_ofproto n) s = Ok (tt, s') ∧
    port_names s' = port_names s ∧ trimmed (λ f, f_name f ∈ l → keep (f_name f) = true) s s'.
Proof.
  intros Hw Hnd Hl. apply (destroy_loop (λ x, port_names x = port_names s)); [|done..].
  intros s1 f Hw1 <- Hf. by apply iface_destroy___run.
Qed.

Lemma port_destroy_run s q :
  bwf s → q ∈ port_names s →
  ∃ s', port_destroy br_ofproto q s = Ok (tt, s') ∧ (∀ r, r ∈ port_names s' ↔ r ∈ port_names s ∧ r ≠ q) ∧
    trimmed (λ f, f_port f ≠ q) s s'.
Proof.
  intros Hw Hq. destruct (port_lookup_name s q Hw Hq) as (p & El & Hp & En).
  destruct (bw_lists s Hw p Hp) as [Hnd Hl].
  set (s0 := if br_ofproto then add_bp_event (BundleUnregister q) s else s).
  assert (bwf s0 ∧ port_names s0 = port_names s ∧ ifaces s0 = ifaces s) as (Hw0 & Ep0 & Ho0).
  { unfold s0. destruct br_ofproto; [|done]. split; [|done]. by apply (bwf_log s). }
  destruct (destroy_ifaces_run (λ _, false) (bp_ifaces p) s0 Hw0 Hnd) as (s1 & E1 & Ep1 & Hw1 & Ho1).
  { intros n (f & Hf & ? & ?)%Hl. exists (bp_name p), f. by rewrite Ho0. }
  exists (set_ports (filter (λ x, bp_name x ≠ q) (ports s1)) s1). split.
  { unfold port_destroy. step. rewrite El. erewrite (bind_run (mwhen _ _) _ _ tt s0) by (unfold s0; by destruct br_ofproto).
    by step E1. }
  assert (∀ f, f ∈ ifaces s1 ↔ f ∈ ifaces s ∧ f_port f ≠ q) as Ho.
  { intros f. rewrite Ho1, Ho0, Hl, En. split; intros [Hf H]; (split; [done|]).
    - intros Eq. assert (false = true) by (apply H; by exists f). done.
    - intros (g & Hg & Eg & Eq). rewrite (iface_unique s g f) in Eq by done. done. }
  assert (∀ r, r ∈ port_names (set_ports (filter (λ x, bp_name x ≠ q) (ports s1)) s1) ↔ r ∈ port_names s ∧ r ≠ q) as Hn.
  { intros r. rewrite <-Ep0, <-Ep1. unfold port_names. simpl. rewrite !list_elem_of_fmap.
    setoid_rewrite list_elem_of_filter. naive_solver. }
  split; [done|]. split; [|exact Ho]. split; simpl.
  - unfold port_names. simpl. apply NoDup_fmap_filter, Hw1.
  - apply Hw1.
  - intros p' [_ Hp']%list_elem_of_filter. apply (bw_lists s1 Hw1 p' Hp').
  - intros f [Hf ?]%Ho. apply Hn. split; [by apply Hw|done].
Qed.

Lemma full_trimmed_other s s' q :
  bwf s → full s → (∀ r, r ∈ port_names s' → r ∈ port_names s ∧ (r = q → ∃ n, has s' n q)) →
  (∀ f, f ∈ ifaces s → f_port f ≠ q → f ∈ ifaces s') → full s'.
Proof.
  intros Hw Hf Hn Hk r [Hr Hq]%Hn. destruct (decide (r = q)) as [->|Hne]; [by apply Hq|].
  destruct (Hf r Hr) as (n & f & Hin & <- & <-). exists (f_name f), f. auto.
Qed.

(** The port of an interface that was destroyed: kept unless it became empty. *)
Lemma drop_if_empty_run s0 s q :
  bwf s0 → full s0 → bwf s → port_names s = port_names s0 → q ∈ port_names s →
  (∀ f, f ∈ ifaces s0 → f_port f ≠ q → f ∈ ifaces s) →
  ∃ s', (p ← gets (port_lookup q);
         match p with
         | None => die UseAfterFree
         | Some p => match bp_ifaces p with [] => port_destroy br_ofproto q | _ => mret tt end
         end) s = Ok (tt, s') ∧ full s' ∧ trimmed (λ _, True) s s'.
Proof.
  intros Hw0 Hf Hw Epn Hq Hk. destruct (port_lookup_name s q Hw Hq) as (p & El & Hp & En).
  destruct (bw_lists s Hw p Hp) as [_ Hl]. rewrite En in Hl. step. rewrite El.
  destruct (bp_ifaces p) as [|m ms].
  - destruct (port_destroy_run s q Hw Hq) as (s' & E & Hn & Hw' & Ho). exists s'. split; [done|].
    assert (∀ f, f ∈ ifaces s' ↔ f ∈ ifaces s ∧ True) as Ho'.
    { intros f. rewrite Ho. split; [naive_solver|]. intros [Hin _]. split; [done|]. intros Eq.
      apply (not_elem_of_nil (f_name f)), Hl. by exists f. }
    split; [|done]. apply (full_trimmed_other s0 s' q Hw0 Hf).
    + intros r [Hr Hne]%Hn. rewrite Epn in Hr. done.
    + intros f Hin Hne. apply Ho'. auto.
  - exists s. split; [done|]. split; [|by apply trimmed_refl]. apply (full_trimmed_other s0 s q Hw0 Hf); [|done].
    intros r Hr. rewrite <-Epn. split; [done|]. intros _. exists m. apply Hl. left.
Qed.

Lemma iface_destroy_run s f :
  bwf s → full s → f ∈ ifaces s →
  ∃ s', iface_destroy br_ofproto (f_name f) s = Ok (tt, s') ∧ full s' ∧ trimmed (λ g, f_name g ≠ f_name f) s s'.
Proof.
  intros Hw Hf Hin. pose proof (iface_lookup_in s f Hw Hin) as El.
  destruct (iface_destroy___run s f Hw Hin) as (s1 & E1 & Ep1 & Ht1).
  destruct (drop_if_empty_run s s1 (f_port f)) as (s' & E & Hf' & Ht); [done..|apply Ht1|done| | |].
  { rewrite Ep1. by apply Hw. }
  { intros g Hg Hne. apply Ht1. split; [done|]. intros Eg. rewrite (iface_unique s g f) in Hne; done. }
  exists s'. split; [|split; [done|]].
  - unfold iface_destroy. step. rewrite El. step E1. exact E.
  - eapply trimmed_trans; [exact Ht1|exact Ht|]. naive_solver.
Qed.

(** ** Loops over the ports *)

(** [p], read at the start of the loop, still describes its port. *)
Definition listed (s : bpst) (p : port) : Prop :=
  NoDup (bp_ifaces p) ∧ bp_ifaces p ≠ [] ∧ ∀ n, n ∈ bp_ifaces p ↔ has s n (bp_name p).

Lemma listed_in s p : bwf s → full s → p ∈ ports s → listed s p.
Proof.
  intros Hw Hf Hp. destruct (bw_lists s Hw p Hp) as [Hnd Hl]. split; [done|]. split; [|done].
  destruct (Hf (bp_name p)) as (n & Hn%Hl); [by apply list_elem_of_fmap_2|]. by intros Hnil; rewrite Hnil in Hn; apply elem_of_nil in Hn.
Qed.

Lemma listed_trimmed (keep : iface → Prop) s s' p :
  trimmed keep s s' → (∀ f, f_port f = bp_name p → keep f) → listed s p → listed s' p.
Proof.
  intros Ht Hk (Hnd & Hne & Hl). split; [done|]. split; [done|]. intros n. rewrite Hl, (has_trimmed keep s s') by done.
  unfold has. naive_solver.
Qed.

Lemma listed_port s p : bwf s → listed s p → bp_name p ∈ port_names s.
Proof.
  intros Hw (_ & Hne & Hl). destruct (bp_ifaces p) as [|n l]; [done|].
  destruct (Hl n) as [(f & Hf & _ & <-) _]; [left|]. by apply Hw.
Qed.

Lemma ports_loop (body : port → M bpst unit) (keep : iface → Prop) :
  (∀ p s, bwf s → full s → listed s p →
     ∃ s', body p s = Ok (tt, s') ∧ full s' ∧ trimmed (λ f, f_port f = bp_name p → keep f) s s') →
  ∀ s, bwf s → full s → ∃ s', mfor (ports s) body s = Ok (tt, s') ∧ full s' ∧ trimmed keep s s'.
Proof.
  intros Hb.
  assert (∀ l s, bwf s → full s → NoDup (bp_name <$> l) → (∀ p, p ∈ l → listed s p) →
    ∃ s', mfor l body s = Ok (tt, s') ∧ full s' ∧ trimmed (λ f, f_port f ∈ bp_name <$> l → keep f) s s') as Hloop.
  { induction l as [|p l IH]; intros s Hw Hf Hnd Hl.
    { exists s. split; [done|]. split; [done|]. apply trimmed_refl; [done|]. by intros f _ ?%elem_of_nil. }
    apply NoDup_cons in Hnd as [Hp Hnd]. destruct (Hb p s Hw Hf) as (s1 & E1 & Hf1 & Ht1); [apply Hl; left|].
    destruct (IH s1 (proj1 Ht1) Hf1 Hnd) as (s' & E & Hf' & Ht).
    { intros p' Hp'. eapply listed_trimmed; [exact Ht1| |apply Hl; by right]. simpl. intros f -> E.
      destruct Hp. rewrite <-E. by apply list_elem_of_fmap_2. }
    exists s'. simpl. step E1. split; [done|]. split; [done|].
    eapply trimmed_trans; [exact Ht1|exact Ht|]. intros f _. simpl. rewrite elem_of_cons. naive_solver. }
  intros s Hw Hf. destruct (Hloop (ports s) s Hw Hf) as (s' & E & Hf' & Ht).
  { apply Hw. }
  { intros p. by apply listed_in. }
  exists s'. split; [done|]. split; [done|]. split; [apply Ht|]. intros f. rewrite (proj2 Ht).
  split; intros [Hin H]; (split; [done|]); [|done]. apply H. by apply Hw.
Qed.

(** ** Deletion *)

(** The wanted ports have an interface [f] in the port of [f]. *)
Definition kept (wanted : shash ovsrec_port) (f : iface) : Prop :=
  ∃ row, wanted !! f_port f = Some row ∧ f_name f ∈ new_ifaces row.

Lemma set_cfg_frame s q (cfg : option ovsrec_port) :
  bwf s → full s →
  let s' := set_ports ((λ x, if bool_decide (bp_name x = q) then Port (bp_name x) cfg (bp_ifaces x) else x) <$> ports s) s in
  bwf s' ∧ full s'.
Proof.
  intros Hw Hf s'. destruct (bwf_frame s s') as [Hw' Hf']; [|done..| |done|auto].
  - unfold port_names, s'. simpl. rewrite <-list_fmap_compose. apply list_fmap_ext. intros i p _. simpl. by case_bool_decide.
  - intros p' (p & -> & Hp)%list_elem_of_fmap. exists p. by case_bool_decide.
Qed.

(** The interfaces of a listed port are those in its list. *)
Lemma listed_iface s p f : bwf s → listed s p → f ∈ ifaces s → f_name f ∈ bp_ifaces p ↔ f_port f = bp_name p.
Proof.
  intros Hw (_ & _ & Hl) Hf. rewrite Hl. split; [|by exists f].
  intros Hh. apply (has_fun s (f_name f)); [done| |done]. by exists f.
Qed.

Lemma del_or_trim_port_run vrf wanted p s :
  bwf s → full s → listed s p →
  ∃ s', del_or_trim_port br_ofproto vrf wanted p s = Ok (tt, s') ∧ full s' ∧
    trimmed (λ f, f_port f = bp_name p → kept wanted f) s s'.
Proof.
  intros Hw0 Hf0 Hl0. unfold del_or_trim_port. step. set (s0 := set_ports _ s).
  destruct (set_cfg_frame s (bp_name p) (wanted !! bp_name p) Hw0 Hf0) as [Hw Hf]. fold s0 in Hw, Hf.
  assert (listed s0 p) as Hl by done. assert (ifaces s0 = ifaces s) as Ei by done. clearbody s0. unfold kept.
  destruct (wanted !! bp_name p) as [row|] eqn:Ew.
  - destruct (destroy_loop full (iface_destroy br_ofproto) (λ n, bool_decide (n ∈ new_ifaces row))
      iface_destroy_run (bp_ifaces p) s0 Hw Hf) as (s' & E & Hf' & Ht).
    { apply Hl. }
    { intros n. destruct Hl as (_ & _ & ->). eauto. }
    exists s'. split; [exact E|]. split; [done|]. apply (trimmed_ext s0 s s' _ _ Ei Ht).
    intros f Hin. rewrite (listed_iface s p f), bool_decide_eq_true by done.
    split; intros H Ep; specialize (H Ep); rewrite Ep, Ew in *; naive_solver.
  - set (s1 := if vrf then add_bp_event (DeletePortNeighbors (bp_name p)) s0 else s0).
    erewrite (bind_run (mwhen _ _) _ _ tt s1) by (unfold s1; by destruct vrf).
    assert (bwf s1 ∧ full s1 ∧ listed s1 p ∧ ifaces s1 = ifaces s) as (Hw1 & Hf1 & Hl1 & Ei1).
    { unfold s1. destruct vrf; [|done]. destruct (bwf_log s0 (add_bp_event (DeletePortNeighbors (bp_name p)) s0)); auto. }
    destruct (port_destroy_run s1 (bp_name p) Hw1) as (s' & E & Hn & Ht); [by apply listed_port|].
    exists s'. split; [done|]. split.
    + apply (full_trimmed_other s1 s' (bp_name p) Hw1 Hf1); [|intros f ? ?; by apply Ht]. intros r [? ?]%Hn. done.
    + apply (trimmed_ext s1 s s' _ _ Ei1 Ht). intros f Hin. split; [done|].
      intros H Ep. destruct (H Ep) as (row & E' & _). congruence.
Qed.

Lemma del_ports_loop vrf wanted s :
  bwf s → full s →
  ∃ s', mfor (ports s) (del_or_trim_port br_ofproto vrf wanted) s = Ok (tt, s') ∧ full s' ∧ trimmed (kept wanted) s s'.
Proof. apply (ports_loop _ (kept wanted)). apply del_or_trim_port_run. Qed.

(** ** Ports of the switch *)

Lemma drop_vanished_run names p s :
  bwf s → full s → listed s p →
  ∃ s', drop_vanished br_ofproto names p s = Ok (tt, s') ∧ full s' ∧
    trimmed (λ f, f_port f = bp_name p → f_name f ∈ names) s s'.
Proof.
  intros Hw Hf Hl. pose proof (listed_port s p Hw Hl) as Hq.
  destruct (destroy_ifaces_run (λ n, bool_decide (n ∈ names)) (bp_ifaces p) s Hw) as (s1 & E1 & Ep1 & Ht1).
  { apply Hl. }
  { intros n. destruct Hl as (_ & _ & ->). eauto. }
  destruct (drop_if_empty_run s s1 (bp_name p)) as (s' & E & Hf' & Ht); [done..|apply Ht1|done|by rewrite Ep1| |].
  { intros f Hin Hne. apply Ht1. split; [done|]. by rewrite (listed_iface s p f). }
  exists s'. split; [|split; [done|]].
  - unfold drop_vanished. step E1. exact E.
  - eapply trimmed_trans; [exact Ht1|exact Ht|]. intros f Hin. simpl.
    rewrite (listed_iface s p f), bool_decide_eq_true by done. naive_solver.
Qed.

(** A step that at most destroys interfaces, and none of [must]. *)
Definition shrunk (must : iface → Prop) (s s' : bpst) : Prop :=
  bwf s' ∧ full s' ∧ (∀ f, f ∈ ifaces s' → f ∈ ifaces s) ∧ (∀ f, f ∈ ifaces s → must f → f ∈ ifaces s').

Section SwitchPorts.
Context (still_good : ofproto_port → iface → M bpst bool) (fits : ofproto_port → iface → Prop).
Hypothesis still_good_run : ∀ d f s, ∃ b s', still_good d f s = Ok (b, s') ∧
  ports s' = ports s ∧ ifaces s' = ifaces s ∧ (fits d f → b = true).

Lemma check_ofproto_port_run del d s :
  bwf s → full s →
  ∃ del' s', check_ofproto_port br_ofproto still_good del d s = Ok (del', s') ∧
    shrunk (λ f, op_name d = f_name f → fits d f) s s'.
Proof.
  intros Hw Hf. unfold check_ofproto_port. step. destruct (iface_lookup (op_name d) s) as [f|] eqn:El.
  2: { exists (del ++ [op_ofp_port d]), s. done. }
  apply bridge_iface_lookup_Some in El as [Hin En]; [|done].
  destruct (still_good_run d f s) as (b & s1 & E1 & Ep1 & Ei1 & Hb). step E1.
  destruct (bwf_log s s1 Ep1 Ei1 Hw) as [Hw1 Hf1]. specialize (Hf1 Hf). destruct b.
  { exists del, s1. split; [done|]. split; [done|]. split; [done|]. rewrite Ei1. done. }
  destruct (iface_destroy_run s1 f Hw1 Hf1) as (s' & E & Hf' & Hw' & Ho); [by rewrite Ei1|].
  rewrite <-En. step E. exists (del ++ [op_ofp_port d]), s'. split; [done|].
  split; [done|]. split; [done|]. rewrite Ei1 in Ho. split; [naive_solver|]. intros g Hg Hm. apply Ho.
  split; [done|]. intros Eg. rewrite (iface_unique s g f) in Hm by done. discriminate (Hb (Hm eq_refl)).
Qed.

Lemma check_ofproto_ports_run dump del s :
  bwf s → full s →
  ∃ del' s', mfold (check_ofproto_port br_ofproto still_good) dump del s = Ok (del', s') ∧
    shrunk (λ f, ∀ d, d ∈ dump → op_name d = f_name f → fits d f) s s'.
Proof.
  revert del s. induction dump as [|d dump IH]; intros del s Hw Hf; [by exists del, s|].
  destruct (check_ofproto_port_run del d s Hw Hf) as (del1 & s1 & E1 & Hw1 & Hf1 & Hs1 & Hm1).
  destruct (IH del1 s1 Hw1 Hf1) as (del' & s' & E & Hw' & Hf' & Hs & Hm).
  exists del', s'. simpl. step E1. split; [done|]. split; [done|]. split; [done|]. split; [auto|].
  intros f Hin H. apply Hm; [apply Hm1; [done|]|]; intros; apply H; try done; [left|by right].
Qed.

Lemma del_ofp_ports_run (del : list Z) s :
  ∃ s', mfor del (λ o, modify (add_bp_event (OfPortDel o))) s = Ok (tt, s') ∧ ports s' = ports s ∧ ifaces s' = ifaces s.
Proof.
  revert s. induction del as [|o del IH]; intros s; [by exists s|].
  destruct (IH (add_bp_event (OfPortDel o) s)) as (s' & E & ? & ?). exists s'. simpl. step. done.
Qed.

Lemma delete_or_reconfigure_ports_with_run dump s :
  bwf s → full s →
  ∃ s', delete_or_reconfigure_ports_with br_ofproto still_good dump s = Ok (tt, s') ∧
    (∀ f, f ∈ ifaces s' → f_name f ∈ op_name <$> dump) ∧
    shrunk (λ f, f_name f ∈ op_name <$> dump ∧ ∀ d, d ∈ dump → op_name d = f_name f → fits d f) s s'.
Proof.
  intros Hw Hf. destruct (check_ofproto_ports_run dump [] s Hw Hf) as (del & s1 & E1 & Hw1 & Hf1 & Hs1 & Hm1).
  destruct (del_ofp_ports_run del s1) as (s2 & E2 & Ep2 & Ei2).
  destruct (bwf_log s1 s2 Ep2 Ei2 Hw1) as [Hw2 Hf2].
  destruct (ports_loop (drop_vanished br_ofproto (op_name <$> dump)) (λ f, f_name f ∈ op_name <$> dump)) with (s := s2)
    as (s' & E & Hf' & Hw' & Ho); [apply drop_vanished_run|done|auto|].
  exists s'. split; [|split; [|split; [done|split; [done|split]]]].
  - unfold delete_or_reconfigure_ports_with. step E1. step E2. step. exact E.
  - naive_solver.
  - intros f [Hin _]%Ho. rewrite Ei2 in Hin. auto.
  - intros f Hin [Hn H]. apply Ho. rewrite Ei2. auto.
Qed.
End SwitchPorts.
End Facts.
