(* ===== verification/BridgePortsReconf.v ===== *)
(** * One reconfiguration of the ports of a bridge

    The update of the interfaces that stay, the creation of those that are
    missing, and the theorem on the sequence of the three steps. *)

From S2P Require Import Prelude OvsLib BridgePorts BridgePortsFacts.
Local Open Scope Z_scope.

(** ** Nested loops as one loop *)

Lemma mfor_app {S A} (f : A → M S unit) (l k : list A) s : mfor (l ++ k) f s = (mfor l f ;; mfor k f) s.
Proof.
  revert s. induction l as [|x l IH]; intros s; simpl; [done|].
  unfold mbind, M_bind. destruct (f x s) as [[[] s1]|]; [apply IH|done].
Qed.

Lemma mfor_fmap {S A B} (g : A → B) (f : B → M S unit) (l : list A) s : mfor (g <$> l) f s = mfor l (λ x, f (g x)) s.
Proof.
  revert s. induction l as [|x l IH]; intros s; simpl; [done|].
  unfold mbind, M_bind. by destruct (f (g x) s) as [[[] s1]|].
Qed.

Lemma mfor_nested {S A B} (g : A → list B) (f : A → B → M S unit) (l : list A) s :
  mfor l (λ x, mfor (g x) (f x)) s = mfor (l ≫= λ x, pair x <$> g x) (λ p, f p.1 p.2) s.
Proof.
  revert s. induction l as [|x l IH]; intros s; [done|]. rewrite bind_cons, mfor_app. simpl. unfold mbind, M_bind.
  rewrite mfor_fmap. simpl. destruct (mfor (g x) (f x) s) as [[[] s1]|]; [apply IH|done].
Qed.

Section Reconf.
Context `{HL : OvsLib, HD : SwitchDev}.
Context (br_ofproto : bool) (br_cfg : option ovsrec_bridge) (wanted : shash ovsrec_port).

(** Interface row [row] is wanted in port [q]. *)
Definition wanted_row (q : string) (row : ovsrec_interface) : Prop :=
  ∃ pr, wanted !! q = Some pr ∧ row ∈ pr_interfaces pr.

(** The ports are under their names, and no interface is in two ports. *)
Record wanted_ok : Prop := WantedOk {
  wo_names : ∀ q pr, wanted !! q = Some pr → pr_name pr = q;
  wo_once : ∀ q1 q2 r1 r2, wanted_row q1 r1 → wanted_row q2 r2 → ir_name r1 = ir_name r2 → q1 = q2 ∧ r1 = r2;
}.

Definition wanted_pairs : list (ovsrec_port * ovsrec_interface) :=
  (shash_nodes wanted).*2 ≫= λ pr, pair pr <$> pr_interfaces pr.

Lemma elem_of_wanted_pairs pr row :
  (pr, row) ∈ wanted_pairs ↔ ∃ q, wanted !! q = Some pr ∧ row ∈ pr_interfaces pr.
Proof.
  unfold wanted_pairs. rewrite list_elem_of_bind. setoid_rewrite list_elem_of_fmap. split.
  - intros (pr' & (row' & [= -> ->] & Hr) & ([q pr''] & -> & Hq%elem_of_shash_nodes)). eauto.
  - intros (q & Hq & Hr). exists pr. split; [by exists row|]. exists (q, pr). by rewrite elem_of_shash_nodes.
Qed.

(** The structure follows its row. *)
Definition fresh (f : iface) : Prop :=
  wanted_row (f_port f) (f_cfg f) ∧ ir_name (f_cfg f) = f_name f ∧ f_type f = iface_get_type br_cfg (f_cfg f).

(** ** Update of the interfaces that stay *)

Definition updated (f : iface) (row : ovsrec_interface) : iface :=
  if bool_decide (f_name f = ir_name row)
  then Iface (f_name f) (f_port f) (f_ofp_port f) (iface_get_type br_cfg row) row else f.

Lemma update_loop_run (l : list (ovsrec_port * ovsrec_interface)) s :
  ∃ s', mfor l (λ p, update_iface br_cfg p.2) s = Ok (tt, s') ∧ ports s' = ports s ∧
    ifaces s' = (λ f, foldl updated f l.*2) <$> ifaces s.
Proof.
  revert s. induction l as [|[pr row] l IH]; intros s.
  { exists s. split; [done|]. split; [done|]. simpl. by rewrite list_fmap_id. }
  destruct (IH (set_ifaces ((λ f, updated f row) <$> ifaces s) s)) as (s' & E & Ep & Ei).
  exists s'. simpl. unfold update_iface at 1. step. split; [exact E|]. split; [done|].
  rewrite Ei. simpl. by rewrite <-list_fmap_compose.
Qed.

Lemma updated_keys l f :
  f_name (foldl updated f l) = f_name f ∧ f_port (foldl updated f l) = f_port f ∧
  f_ofp_port (foldl updated f l) = f_ofp_port f.
Proof.
  revert f. induction l as [|row l IH]; intros f; [done|]. simpl. destruct (IH (updated f row)) as (-> & -> & ->).
  unfold updated. by case_bool_decide.
Qed.

Lemma updated_cfg l f :
  (∃ row, row ∈ l ∧ ir_name row = f_name f) →
  ∃ row, row ∈ l ∧ ir_name row = f_name f ∧ f_cfg (foldl updated f l) = row ∧
    f_type (foldl updated f l) = iface_get_type br_cfg row.
Proof.
  induction l as [|row l IH] using rev_ind; [intros (? & ?%elem_of_nil & _); done|]. intros Hex.
  rewrite foldl_app. simpl. destruct (updated_keys l f) as (En & _ & _). unfold updated at 1 3. rewrite En.
  case_bool_decide as E; simpl.
  - exists row. split; [set_solver|]. done.
  - destruct IH as (r & Hr & ?); [|exists r; split; [set_solver|done]].
    destruct Hex as (r & [Hr|Hr%list_elem_of_singleton]%elem_of_app & Er); [by exists r|]. congruence.
Qed.

(** What [bridge_del_ports] and [vrf_del_ports] leave. *)
Lemma del_ports_run vrf s :
  wanted_ok → bwf s → full s →
  ∃ s', del_ports br_ofproto br_cfg vrf wanted s = Ok (tt, s') ∧ bwf s' ∧ full s' ∧
    (∀ f, f ∈ ifaces s' → fresh f) ∧
    (∀ f row, f ∈ ifaces s → kept wanted f → wanted_row (f_port f) row → ir_name row = f_name f →
       Iface (f_name f) (f_port f) (f_ofp_port f) (iface_get_type br_cfg row) row ∈ ifaces s').
Proof.
  intros Hok Hw Hf. destruct (del_ports_loop br_ofproto vrf wanted s Hw Hf) as (s1 & E1 & Hf1 & Hw1 & Ho1).
  destruct (update_loop_run wanted_pairs s1) as (s' & E & Ep & Ei).
  assert (∀ f, f ∈ ifaces s1 → fresh (foldl updated f wanted_pairs.*2)) as Hfresh.
  { intros f [Hin (pr & Hpr & Hn)]%Ho1. unfold new_ifaces in Hn.
    apply list_elem_of_fmap in Hn as (row & Er & [_ Hrow]%list_elem_of_filter).
    destruct (updated_cfg wanted_pairs.*2 f) as (r & Hr & En & Ec & Et).
    { exists row. split; [|done]. apply list_elem_of_fmap. exists (pr, row). rewrite elem_of_wanted_pairs. eauto. }
    apply list_elem_of_fmap in Hr as ([pr' r'] & -> & (q & Hq & Hr)%elem_of_wanted_pairs). simpl in *.
    destruct (wo_once Hok (f_port f) q row r') as [<- <-]; [by exists pr|by exists pr'|congruence|].
    destruct (updated_keys wanted_pairs.*2 f) as (En' & Eq' & _). unfold fresh. rewrite Ec, Et, En', Eq'.
    split; [|done]. by exists pr. }
  destruct (bwf_frame s1 s') as [Hw' Hf']; [| | | | |done|].
  { unfold port_names. by rewrite Ep. }
  { rewrite Ei, <-list_fmap_compose. apply list_fmap_ext. intros i f _. apply updated_keys. }
  { rewrite Ei, <-list_fmap_compose. apply list_fmap_ext. intros i f _. apply updated_keys. }
  { intros n q. unfold has. rewrite Ei. setoid_rewrite list_elem_of_fmap. split.
    - intros (? & (f & -> & Hin) & <- & <-). exists f. by destruct (updated_keys wanted_pairs.*2 f) as (-> & -> & _).
    - intros (f & Hin & <- & <-). eexists. split; [by exists f|]. by destruct (updated_keys wanted_pairs.*2 f) as (-> & -> & _). }
  { rewrite Ep. eauto. }
  exists s'. split; [|split; [done|split; [auto|split]]].
  - unfold del_ports. step. step E1. rewrite mfor_nested. exact E.
  - rewrite Ei. intros ? (f & -> & Hin)%list_elem_of_fmap. auto.
  - intros f row Hin Hk Hrow En. assert (f ∈ ifaces s1) as Hin1 by (apply Ho1; done).
    destruct (Hfresh f Hin1) as (Hwr & Hn & Ht). destruct (updated_keys wanted_pairs.*2 f) as (En' & Eq' & Eo').
    destruct (wo_once Hok (f_port f) (f_port f) row (f_cfg (foldl updated f wanted_pairs.*2))) as [_ ->];
      [done|by rewrite <-Eq'|congruence|].
    rewrite <-Ht, <-En', <-Eq', <-Eo' at 1. rewrite Ei. apply list_elem_of_fmap. exists f. split; [|done].
    by destruct (foldl updated f wanted_pairs.*2).
Qed.

(** ** Creation *)

(** The libraries accept the interface, whatever was done before. *)
Record device_works (row : ovsrec_interface) : Prop := DeviceWorks {
  dw_name : netdev_is_reserved_name (ir_name row) = false;
  dw_open : ∀ l, netdev_open l (ir_name row) (iface_get_type br_cfg row) = 0;
  dw_addr : ∀ l, netdev_set_etheraddr l (ir_name row) = 0;
  dw_info : ∀ l, netdev_set_hw_intf_info l (ir_name row) (bridge_intf_info row) = 0;
  dw_config : ∀ l config, netdev_set_config l (ir_name row) config = 0;
  dw_add : ∀ l, (ofproto_port_add l (ir_name row) (iface_pick_ofport row)).1 = 0;
}.

(** A computation that always returns and changes at most the log. *)
Definition log_only {A} (c : M bpst A) (Q : A → Prop) : Prop :=
  ∀ s, ∃ a s', c s = Ok (a, s') ∧ ports s' = ports s ∧ ifaces s' = ifaces s ∧ Q a.

Lemma log_only_ret {A} (a : A) (Q : A → Prop) : Q a → log_only (mret a) Q.
Proof. intros HQ s. by exists a, s. Qed.

Lemma log_only_bind {A B} (c : M bpst A) (f : A → M bpst B) P Q :
  log_only c P → (∀ a, P a → log_only (f a) Q) → log_only (c ≫= f) Q.
Proof.
  intros Hc Hf s. destruct (Hc s) as (a & s1 & E1 & Ep1 & Ei1 & Ha). destruct (Hf a Ha s1) as (b & s2 & E2 & Ep2 & Ei2 & Hb).
  exists b, s2. step E1. split; [done|]. split; [congruence|]. split; [congruence|done].
Qed.

Lemma log_only_event e (Q : unit → Prop) : Q tt → log_only (modify (add_bp_event e)) Q.
Proof. intros HQ s. by exists tt, (add_bp_event e s). Qed.

Lemma log_only_gets {A} (g : bpst → A) : log_only (gets g) (λ _, True).
Proof. intros s. by exists (g s), s. Qed.

Lemma log_only_fail (netdev : option string) (error : Z) (Q : Z + Z → Prop) :
  Q (inl error) → log_only (modify (add_bp_event (DevClose netdev)) ;; mret (inl error)) Q.
Proof.
  intros HQ. apply (log_only_bind _ _ (λ _, True)); [by apply log_only_event|]. intros _ _. by apply log_only_ret.
Qed.

Lemma iface_set_netdev_config_log row :
  log_only (iface_set_netdev_config row) (λ e, device_works row → e = 0).
Proof.
  unfold iface_set_netdev_config. eapply log_only_bind; [apply log_only_gets|]. intros l _.
  eapply (log_only_bind _ _ (λ _, True)); [by apply log_only_event|]. intros _ _. apply log_only_ret. intros H. apply H.
Qed.

(** One call of [iface_do_create] and its error test. *)
Ltac create_step :=
  first [ eapply log_only_bind; [apply log_only_gets|intros ? _]
        | eapply (log_only_bind _ _ (λ _, True)); [by apply log_only_event|intros _ _] ].
Ltac create_test H :=
  case_match eqn:H; [apply log_only_fail; intros Hwk; exfalso|].

Lemma iface_do_create_log row :
  log_only (iface_do_create br_cfg row) (λ r, device_works row → ∃ o, r = inr o).
Proof.
  unfold iface_do_create. case_match eqn:E0.
  { apply log_only_fail. intros [H _ _ _ _ _]. congruence. }
  repeat create_step. create_test E1; [by rewrite (dw_open row Hwk) in E1|].
  repeat create_step. create_test E2; [by rewrite (dw_addr row Hwk) in E2|].
  repeat create_step. create_test E3; [by rewrite (dw_info row Hwk) in E3|].
  eapply log_only_bind; [apply iface_set_netdev_config_log|]. intros e He.
  create_test E4; [by rewrite (He Hwk) in E4|].
  create_step. destruct (ofproto_port_add _ _ _) as [e' o] eqn:Ea. create_step.
  create_test E5; [pose proof (dw_add row Hwk a2) as H; rewrite Ea in H; simpl in H; by rewrite H in E5|].
  apply log_only_ret. eauto.
Qed.

(** The structures after the insertion of [f] in its port. *)
Lemma insert_iface_bwf s s' f pl :
  bwf s → full s → f_name f ∉ f_name <$> ifaces s →
  (∀ p, p ∈ pl → p ∈ ports s ∨ bp_name p = f_port f ∧ bp_ifaces p = []) →
  f_port f ∈ bp_name <$> pl → NoDup (bp_name <$> pl) →
  (∀ q, q ∈ port_names s → q ∈ bp_name <$> pl) → (f_port f ∈ port_names s → ∀ p, p ∈ pl → p ∈ ports s) →
  ports s' = (λ p, if bool_decide (bp_name p = f_port f) then Port (bp_name p) (bp_cfg p) (bp_ifaces p ++ [f_name f]) else p) <$> pl →
  ifaces s' ≡ₚ f :: ifaces s → bwf s' ∧ full s'.
Proof.
  intros Hw Hf Hnew Hpl Hfp Hnd Hincl Hold Ep Ei.
  assert (port_names s' = bp_name <$> pl) as Epn.
  { unfold port_names. rewrite Ep, <-list_fmap_compose. apply list_fmap_ext. intros i p _. simpl. by case_bool_decide. }
  assert (∀ n q, has s' n q ↔ (n = f_name f ∧ q = f_port f) ∨ has s n q) as Hh.
  { intros n q. unfold has. setoid_rewrite Ei. setoid_rewrite elem_of_cons. naive_solver. }
  assert (∀ q, ¬ has s (f_name f) q) as Hno.
  { intros q (g & Hg & En & _). destruct Hnew. rewrite <-En. by apply list_elem_of_fmap_2. }
  assert (∀ p, p ∈ pl → NoDup (bp_ifaces p) ∧ ∀ n, n ∈ bp_ifaces p ↔ has s n (bp_name p)) as Hl.
  { intros p Hp. destruct (Hpl p Hp) as [Hin|[En Enil]]; [by apply (bw_lists s Hw)|].
    split; [rewrite Enil; apply NoDup_nil_2|]. intros n. split; [rewrite Enil; by intros ?%elem_of_nil|].
    intros (g & Hg & <- & Eq). apply (bw_lists s Hw); [|by exists g]. apply Hold; [|done].
    rewrite <-En, <-Eq. by apply Hw. }
  split; [split|].
  - by rewrite Epn.
  - rewrite Ei. simpl. apply NoDup_cons. split; [done|]. apply Hw.
  - rewrite Ep. intros p' (p & -> & Hp)%list_elem_of_fmap. destruct (Hl p Hp) as [Hndl Hlp].
    case_bool_decide as En; cbn [bp_name bp_ifaces].
    + split; [|intros n; rewrite elem_of_app, list_elem_of_singleton, Hh, Hlp; naive_solver].
      apply NoDup_app. split; [done|]. split; [|apply NoDup_singleton].
      intros n Hn ->%list_elem_of_singleton. by apply (Hno (bp_name p)), Hlp.
    + split; [done|]. intros n. rewrite Hh, Hlp. naive_solver.
  - intros g. rewrite Ei, elem_of_cons, Epn. intros [->|Hg]; [done|]. by apply Hincl, Hw.
  - intros q Hq. rewrite Epn in Hq. setoid_rewrite Hh. destruct (decide (q = f_port f)) as [->|Hne]; [eauto|].
    apply list_elem_of_fmap in Hq as (p & -> & Hp). destruct (Hpl p Hp) as [Hin|[? _]]; [|done].
    destruct (Hf (bp_name p)) as [n Hn]; [by apply list_elem_of_fmap_2|]. eauto.
Qed.

Lemma NoDup_fmap_perm_cons {A B} (g : A → B) (l k : list A) x :
  k ≡ₚ x :: l → g x ∉ g <$> l → NoDup (g <$> l) → NoDup (g <$> k).
Proof. intros -> Hx Hl. simpl. by apply NoDup_cons. Qed.

Lemma iface_create_run pr row s :
  bwf s → full s → ir_name row ∉ f_name <$> ifaces s →
  ∃ b s', iface_create br_cfg pr row s = Ok (b, s') ∧ bwf s' ∧ full s' ∧
    (device_works row → b = true) ∧
    if b : bool then ∃ o, ifaces s' ≡ₚ Iface (ir_name row) (pr_name pr) o (iface_get_type br_cfg row) row :: ifaces s
    else ifaces s' = ifaces s.
Proof.
  intros Hw Hf Hnew. unfold iface_create. step.
  assert (iface_lookup (ir_name row) s = None) as -> by by apply (find_by_name_None f_name). step.
  destruct (iface_do_create_log row s) as (r & s1 & E1 & Ep1 & Ei1 & Hr). step E1.
  destruct (bwf_log s s1 Ep1 Ei1 Hw) as [Hw1 Hf1]. specialize (Hf1 Hf). destruct r as [e|o].
  { exists false. unfold iface_clear_db_record. destruct (negb (ir_synthetic row)); simpl; step; eexists.
    all: split; [done|]. all: destruct (bwf_log s1 (add_bp_event (ClearRecord (ir_uuid row)) s1)) as [? ?]; [done..|].
    all: split; [done|]; split; [auto|]; split; [|done]; intros [? [=]]%Hr. }
  set (f := Iface (ir_name row) (pr_name pr) o (iface_get_type br_cfg row) row).
  exists true. step. destruct (port_lookup (pr_name pr) s1) as [p|] eqn:El; simpl; step; do 3 step; eexists;
    (split; [reflexivity|]); rewrite <-Ei1 in *.
  - apply (find_by_name bp_name) in El as [Hp En]; [|apply Hw1].
    eapply (insert_iface_bwf _ _ f (ports s1)) in Hw1 as [Hw' Hf']; [split; [exact Hw'|split; [exact Hf'|]]|..].
    all: try done; simpl; auto.
    + split; [done|]. exists o. apply hmap_insert_perm.
    + rewrite <-En. by apply list_elem_of_fmap_2.
    + apply Hw1.
    + apply hmap_insert_perm.
  - apply (find_by_name_None bp_name) in El.
    set (pl := hmap_insert (hash_string (pr_name pr)) (Port (pr_name pr) (Some pr) []) (ports s1)).
    assert (pl ≡ₚ Port (pr_name pr) (Some pr) [] :: ports s1) as Epl by apply hmap_insert_perm.
    assert (NoDup (bp_name <$> pl)) as Hnd by (eapply NoDup_fmap_perm_cons; [exact Epl|done|apply Hw1]).
    eapply (insert_iface_bwf _ _ f pl) in Hw1 as [Hw' Hf']; [split; [exact Hw'|split; [exact Hf'|]]|..].
    all: try done; simpl; auto.
    + split; [done|]. exists o. apply hmap_insert_perm.
    + intros p. rewrite Epl, elem_of_cons. naive_solver.
    + rewrite Epl. simpl. left.
    + intros q. rewrite Epl. simpl. by right.
    + apply hmap_insert_perm.
Qed.

(** What one iteration of [bridge_add_ports] ensures. *)
Definition grown (s s' : bpst) : Prop :=
  bwf s' ∧ full s' ∧ (∀ f, f ∈ ifaces s' → fresh f) ∧ ∀ f, f ∈ ifaces s → f ∈ ifaces s'.

Lemma add_bridge_iface_run pr row s :
  wanted_ok → (pr, row) ∈ wanted_pairs → bwf s → full s → (∀ f, f ∈ ifaces s → fresh f) →
  ∃ s', add_iface_if_new br_cfg pr row s = Ok (tt, s') ∧ grown s s' ∧
    (device_works row → has s' (ir_name row) (pr_name pr)).
Proof.
  intros Hok (q & Hq & Hrow)%elem_of_wanted_pairs Hw Hf Hfr.
  assert (wanted_row (pr_name pr) row) as Hwr by (rewrite (wo_names Hok q pr Hq); by exists pr).
  unfold add_iface_if_new. step. destruct (iface_lookup (ir_name row) s) as [f|] eqn:El.
  - apply bridge_iface_lookup_Some in El as [Hin En]; [|done]. exists s. split; [done|]. split; [by split; [|split]|]. intros _.
    destruct (Hfr f Hin) as (Hwf & Hn & _). exists f. split; [done|]. split; [done|].
    by destruct (wo_once Hok (f_port f) (pr_name pr) (f_cfg f) row) as [-> _]; [done|done|congruence|].
  - apply (find_by_name_None f_name) in El.
    destruct (iface_create_run pr row s Hw Hf El) as (b & s' & E & Hw' & Hf' & Hb & Hi). step E.
    exists s'. split; [done|]. destruct b.
    + destruct Hi as [o Hi]. split; [split; [done|split; [done|split]]|].
      * intros f. rewrite Hi, elem_of_cons. intros [->|Hin]; [done|auto].
      * intros f. rewrite Hi, elem_of_cons. auto.
      * intros _. eexists. rewrite Hi. split; [left|done].
    + split; [|by intros ?%Hb]. unfold grown. rewrite Hi. auto.
Qed.

Lemma bridge_add_ports_run s :
  wanted_ok → bwf s → full s → (∀ f, f ∈ ifaces s → fresh f) →
  ∃ s', bridge_add_ports br_cfg wanted s = Ok (tt, s') ∧ grown s s' ∧
    ∀ q row, wanted_row q row → device_works row → has s' (ir_name row) q.
Proof.
  intros Hok Hw Hf Hfr. unfold bridge_add_ports. rewrite mfor_nested.
  fold wanted_pairs. 
  assert (∀ l s, (∀ x, x ∈ l → x ∈ wanted_pairs) → bwf s → full s → (∀ f, f ∈ ifaces s → fresh f) →
    ∃ s', mfor l (λ p, add_iface_if_new br_cfg p.1 p.2) s = Ok (tt, s') ∧ grown s s' ∧
      ∀ pr row, (pr, row) ∈ l → device_works row → has s' (ir_name row) (pr_name pr)) as Hloop.
  { clear s Hw Hf Hfr. induction l as [|[pr row] l IH]; intros s Hl Hw Hf Hfr.
    { exists s. split; [done|]. split; [done|]. by intros ? ? ?%elem_of_nil. }
    destruct (add_bridge_iface_run pr row s Hok) as (s1 & E1 & (Hw1 & Hf1 & Hfr1 & Hi1) & Hd1); [apply Hl; left|done..|].
    destruct (IH s1) as (s' & E & (Hw' & Hf' & Hfr' & Hi) & Hd); [intros; apply Hl; by right|done..|].
    exists s'. simpl. step E1. split; [exact E|]. split; [split; [done|split; [done|split; auto]]|].
    intros pr' row' [[= -> ->]|Hin]%elem_of_cons Hdev; [|by apply Hd].
    destruct (Hd1 Hdev) as (f & Hin & En & Ep). exists f. auto. }
  destruct (Hloop wanted_pairs s) as (s' & E & Hg & Hd); [done..|]. exists s'. split; [done|]. split; [done|].
  intros q row (pr & Hq & Hrow) Hdev. rewrite <-(wo_names Hok q pr Hq). apply Hd; [|done].
  apply elem_of_wanted_pairs. eauto.
Qed.

(** ** The rows of the ports *)

(** The ports not in [rest] point to their wanted rows. *)
Definition cfgs (rest : list string) (s : bpst) : Prop :=
  ∀ p, p ∈ ports s → bp_name p ∈ rest ∨ bp_cfg p = wanted !! bp_name p.

Lemma cfgs_sub rest s l :
  (∀ p', p' ∈ l → ∃ p, p ∈ ports s ∧ bp_name p' = bp_name p ∧ bp_cfg p' = bp_cfg p) →
  cfgs rest s → cfgs rest (set_ports l s).
Proof. intros Hl Hc p' (p & Hp & -> & ->)%Hl. by apply Hc. Qed.

Lemma cfgs_map_lists rest s q (g : list string → list string) :
  cfgs rest s →
  cfgs rest (set_ports ((λ p, if bool_decide (bp_name p = q) then Port (bp_name p) (bp_cfg p) (g (bp_ifaces p)) else p) <$> ports s) s).
Proof. apply cfgs_sub. intros p' (p & -> & Hp)%list_elem_of_fmap. exists p. by case_bool_decide. Qed.

Lemma cfgs_log_only {A} rest (c : M bpst A) Q : log_only c Q → hoarep (cfgs rest) c (λ _, cfgs rest).
Proof. intros Hc s a s' Hs E. destruct (Hc s) as (a' & s1 & E1 & Ep & _). rewrite E in E1. injection E1 as <- <-. unfold cfgs. by rewrite Ep. Qed.

Ltac cfg_step :=
  first [ apply hoarep_for; intros ?
        | match goal with |- hoarep ?P _ _ => apply (hoarep_bind _ _ _ (λ _, P)); [|intros ?] end
        | apply hoarep_ret | apply hoarep_gets | apply hoarep_when
        | (apply hoarep_modify; intros ? Hs; try done)
        | case_match ].

Lemma cfgs_die {A} rest e : hoarep (cfgs rest) (die e : M bpst A) (λ _, cfgs rest).
Proof. intros ? ? ? ? [=]. Qed.

Lemma iface_destroy___cfgs rest n : hoarep (cfgs rest) (iface_destroy__ br_ofproto n) (λ _, cfgs rest).
Proof.
  unfold iface_destroy__. repeat first [apply cfgs_die | cfg_step]. by apply (cfgs_map_lists _ _ _ (filter (λ m, m ≠ n))).
Qed.

Lemma port_destroy_cfgs rest q : hoarep (cfgs rest) (port_destroy br_ofproto q) (λ _, cfgs rest).
Proof.
  unfold port_destroy. repeat first [apply cfgs_die | apply iface_destroy___cfgs | cfg_step].
  apply cfgs_sub; [|done]. intros x [_ Hx]%list_elem_of_filter. eauto.
Qed.

Lemma iface_destroy_cfgs rest n : hoarep (cfgs rest) (iface_destroy br_ofproto n) (λ _, cfgs rest).
Proof.
  unfold iface_destroy. repeat first [apply cfgs_die | apply iface_destroy___cfgs | apply port_destroy_cfgs | cfg_step].
Qed.

Lemma del_or_trim_port_cfgs vrf rest p :
  hoarep (cfgs (bp_name p :: rest)) (del_or_trim_port br_ofproto vrf wanted p) (λ _, cfgs rest).
Proof.
  unfold del_or_trim_port. apply (hoarep_bind _ _ _ (λ _, cfgs rest)).
  - intros s [] s' Hs [= <-] p' (x & -> & Hx)%list_elem_of_fmap. case_bool_decide as E; simpl; [right; congruence|].
    destruct (Hs x Hx) as [[?|?]%elem_of_cons|?]; auto. congruence.
  - intros _. unfold port_del_ifaces. repeat first [apply port_destroy_cfgs | apply iface_destroy_cfgs | cfg_step].
Qed.

Lemma del_ports_loop_cfgs vrf l rest :
  hoarep (cfgs ((bp_name <$> l) ++ rest)) (mfor l (del_or_trim_port br_ofproto vrf wanted)) (λ _, cfgs rest).
Proof.
  induction l as [|p l IH]; [apply hoarep_ret|]. simpl.
  apply (hoarep_bind _ _ _ (λ _, cfgs ((bp_name <$> l) ++ rest))); [apply del_or_trim_port_cfgs|]. intros _. exact IH.
Qed.

Lemma del_ports_cfgs vrf s s' :
  del_ports br_ofproto br_cfg vrf wanted s = Ok (tt, s') → cfgs [] s'.
Proof.
  intros (old & s1 & E0 & ([] & s2 & E1 & E2)%bind_Ok)%bind_Ok. injection E0 as <- <-.
  assert (cfgs [] s2) as H2.
  { eapply (del_ports_loop_cfgs vrf (ports s) []); [|exact E1]. rewrite app_nil_r. intros p Hp. left. by apply list_elem_of_fmap_2. }
  assert (hoarep (cfgs []) (mfor (shash_nodes wanted).*2 (λ row, mfor (pr_interfaces row) (update_iface br_cfg)))
    (λ _, cfgs [])) as Hu.
  { repeat first [progress unfold update_iface | cfg_step]. }
  by eapply Hu.
Qed.

(** The switch has the interface in the right form: its type agrees and it
    takes its options; a subinterface of a VRF takes its own settings. *)
Definition fits (vrf : bool) (d : ofproto_port) (f : iface) : Prop :=
  if vrf && bool_decide (ir_type (f_cfg f) = OVSREC_INTERFACE_TYPE_VLANSUBINT)
  then ∀ l, netdev_set_config l (f_name f) (get_subinterface_info (f_cfg f)) = 0
  else op_type d = f_type f ∧ ∀ l, netdev_set_config l (f_name f) (ir_options (f_cfg f)) = 0.

Definition still_good_of (vrf : bool) : ofproto_port → iface → M bpst bool :=
  if vrf then vrf_iface_still_good else iface_still_good.

Lemma reconfigure_netdev_log f config :
  log_only (error ← reconfigure_netdev f config; mret (error =? 0))
    (λ b, (∀ l, netdev_set_config l (f_name f) config = 0) → b = true).
Proof.
  eapply (log_only_bind _ _ (λ e, (∀ l, netdev_set_config l (f_name f) config = 0) → e = 0)).
  - unfold reconfigure_netdev. repeat create_step. apply log_only_ret. auto.
  - intros e He. apply log_only_ret. by intros ->%He.
Qed.

Lemma log_only_weaken {A} (c : M bpst A) (P Q : A → Prop) : log_only c P → (∀ x, P x → Q x) → log_only c Q.
Proof. intros Hc HPQ s. destruct (Hc s) as (x & s' & ? & ? & ? & ?). exists x, s'. auto. Qed.

Lemma still_good_log vrf d f : log_only (still_good_of vrf d f) (λ b, fits vrf d f → b = true).
Proof.
  assert (log_only (iface_still_good d f) (λ b, op_type d = f_type f ∧
    (∀ l, netdev_set_config l (f_name f) (ir_options (f_cfg f)) = 0) → b = true)) as Hb.
  { unfold iface_still_good. case_bool_decide; [apply log_only_ret; by intros [? _]|].
    eapply log_only_weaken; [apply reconfigure_netdev_log|]. naive_solver. }
  unfold fits, still_good_of. destruct vrf; [|exact Hb]. unfold vrf_iface_still_good. simpl.
  case_bool_decide; [apply reconfigure_netdev_log|exact Hb].
Qed.

Lemma mfold_cfgs {A B} rest (f : B → A → M bpst B) l b :
  (∀ b x, hoarep (cfgs rest) (f b x) (λ _, cfgs rest)) → hoarep (cfgs rest) (mfold f l b) (λ _, cfgs rest).
Proof.
  intros Hf. revert b. induction l as [|x l IH]; intros b; [apply hoarep_ret|].
  apply (hoarep_bind _ _ _ (λ _, cfgs rest)); [apply Hf|]. intros b'. apply IH.
Qed.

Lemma delete_or_reconfigure_ports_cfgs vrf rest dump :
  hoarep (cfgs rest) (delete_or_reconfigure_ports_with br_ofproto (still_good_of vrf) dump) (λ _, cfgs rest).
Proof.
  unfold delete_or_reconfigure_ports_with, check_ofproto_port, drop_vanished.
  repeat first [ apply cfgs_die | apply iface_destroy_cfgs | apply iface_destroy___cfgs | apply port_destroy_cfgs
               | eapply cfgs_log_only, still_good_log | apply mfold_cfgs; intros ? ? | cfg_step ].
Qed.

Lemma iface_create_cfgs rest pr row :
  wanted !! pr_name pr = Some pr → hoarep (cfgs rest) (iface_create br_cfg pr row) (λ _, cfgs rest).
Proof.
  intros Hpr. unfold iface_create, iface_clear_db_record, port_create, ovs_assert.
  repeat first [ apply cfgs_die | eapply cfgs_log_only, iface_do_create_log | cfg_step ].
  - intros p. simpl. rewrite elem_of_hmap_insert. intros [->|Hp]; [by right|by apply Hs].
  - by apply (cfgs_map_lists _ _ _ (λ l, l ++ [ir_name row])).
Qed.

Lemma bridge_add_ports_cfgs rest :
  wanted_ok → hoarep (cfgs rest) (bridge_add_ports br_cfg wanted) (λ _, cfgs rest).
Proof.
  intros Hok s [] s' Hs E. unfold bridge_add_ports in E. rewrite mfor_nested in E. fold wanted_pairs in E.
  assert (∀ l, (∀ x, x ∈ l → x ∈ wanted_pairs) →
    hoarep (cfgs rest) (mfor l (λ p, add_iface_if_new br_cfg p.1 p.2)) (λ _, cfgs rest)) as Hl.
  { induction l as [|[pr row] l IH]; intros Hin; [apply hoarep_ret|].
    apply (hoarep_bind _ _ _ (λ _, cfgs rest)); [|intros _; apply IH; intros; apply Hin; by right].
    unfold add_iface_if_new. repeat first [ eapply iface_create_cfgs | cfg_step ].
    destruct (proj1 (elem_of_wanted_pairs pr row)) as (q & Hq & _); [apply Hin; left|].
    simpl. by rewrite (wo_names Hok q pr Hq). }
  by eapply (Hl wanted_pairs).
Qed.

(** ** The three steps *)

(** The interface of [row] is reported by the switch in the right form. *)
Record still_fits (vrf : bool) (dump : list ofproto_port) (row : ovsrec_interface) : Prop := StillFits {
  sf_type : ir_type row ≠ "null";
  sf_here : ir_name row ∈ op_name <$> dump;
  sf_fits : ∀ d q o, d ∈ dump → op_name d = ir_name row →
    fits vrf d (Iface (ir_name row) q o (iface_get_type br_cfg row) row);
}.

(** C14: one reconfiguration of the ports of a bridge or VRF always returns, from any
    consistent state, and leaves consistent structures without empty ports.
    Every interface left is a wanted one, in its port, with its row and type;
    every port points to its wanted row; every wanted interface whose device
    works is there; and an interface that was there, is still wanted and that
    the switch reports in the right form keeps its OpenFlow port. *)
Theorem reconfigure_ports_converges vrf dump s :
  wanted_ok → bwf s → full s →
  ∃ s', reconfigure_ports br_ofproto br_cfg vrf dump wanted s = Ok (tt, s') ∧ bwf s' ∧ full s' ∧
    (∀ f, f ∈ ifaces s' →
       wanted_row (f_port f) (f_cfg f) ∧ ir_name (f_cfg f) = f_name f ∧ f_type f = iface_get_type br_cfg (f_cfg f)) ∧
    (∀ p, p ∈ ports s' → bp_cfg p = wanted !! bp_name p) ∧
    (∀ q row, wanted_row q row → device_works row → has s' (ir_name row) q) ∧
    (∀ f row, f ∈ ifaces s → wanted_row (f_port f) row → ir_name row = f_name f → still_fits vrf dump row →
       Iface (f_name f) (f_port f) (f_ofp_port f) (iface_get_type br_cfg row) row ∈ ifaces s').
Proof.
  intros Hok Hw Hf. destruct (del_ports_run vrf s Hok Hw Hf) as (s1 & E1 & Hw1 & Hf1 & Hfr1 & Hk1).
  destruct (delete_or_reconfigure_ports_with_run br_ofproto (still_good_of vrf) (fits vrf) (still_good_log vrf)
    dump s1 Hw1 Hf1) as (s2 & E2 & _ & Hw2 & Hf2 & Hs2 & Hm2).
  destruct (bridge_add_ports_run s2 Hok Hw2 Hf2) as (s3 & E3 & (Hw3 & Hf3 & Hfr3 & Hi3) & Hd3); [auto|].
  exists s3. split.
  { unfold reconfigure_ports. destruct vrf; step E1; by step E2. }
  split; [done|]. split; [done|]. split; [done|]. split; [|split; [done|]].
  - intros p Hp. assert (cfgs [] s3) as Hc.
    { eapply bridge_add_ports_cfgs; [done| |exact E3].
      eapply delete_or_reconfigure_ports_cfgs; [|exact E2]. by eapply del_ports_cfgs. }
    destruct (Hc p Hp) as [?%elem_of_nil|?]; done.
  - intros f row Hin Hwr En Hfit. apply Hi3, Hm2; simpl.
    + apply Hk1; [done| |done..]. destruct Hwr as (pr & Hpr & Hrow). exists pr. split; [done|].
      apply list_elem_of_fmap. exists row. split; [done|]. apply list_elem_of_filter. split; [apply Hfit|done].
    + rewrite <-En. split; [apply Hfit|]. intros d Hd Ed. by apply Hfit.
Qed.
End Reconf.

(** The ports collected from a row are under their names. *)
Lemma bridge_collect_wanted_ports_names br q pr :
  bridge_collect_wanted_ports br !! q = Some pr → pr_name pr = q.
Proof.
  unfold bridge_collect_wanted_ports. intros H.
  assert (∀ r, shash_collect pr_name (brr_ports br) !! q = Some r → pr_name r = q) as Hc.
  { intros r Hr. by apply shash_collect_Some in Hr as [_ ?]. }
  repeat case_match; auto. apply lookup_insert_Some in H as [[<- <-]|[_ H]]; auto.
Qed.

(** ** An example *)

Module PortsExample.
(** Every device works but [eth3]. *)
Definition dev : SwitchDev := {|
  OFPP_NONE := 65535;
  OVSREC_INTERFACE_TYPE_VLANSUBINT := "vlansubint";
  SPLIT_PARENT_KEY := "split_parent";
  netdev_is_reserved_name := λ n, bool_decide (n = "ovs-system");
  netdev_open := λ _ n _, if bool_decide (n = "eth3") then 19 else 0;
  netdev_set_etheraddr := λ _ _, 0;
  netdev_set_hw_intf_info := λ _ _ _, 0;
  netdev_set_config := λ _ _ _, 0;
  ofproto_port_add := λ l _ _, (0, Z.of_nat (length l));
  ofproto_port_open_type := λ _ t, t;
|}.

Definition if_row (u : Z) (n : string) : ovsrec_interface := IfaceRow u n "" ∅ None ∅ None false.

(** [eth1] stays, [eth2] and [eth3] come in a bond; [eth9] is no longer wanted. *)
Definition row : ovsrec_bridge :=
  BridgeRow "br0" "" [PortRow "p1" [if_row 1 "eth1"]; PortRow "lag1" [if_row 2 "eth2"; if_row 3 "eth3"]] [].
Definition wanted : shash ovsrec_port := bridge_collect_wanted_ports row.
Definition before : bpst :=
  BpSt [Port "p1" None ["eth1"]; Port "old" None ["eth9"]]
    [Iface "eth1" "p1" 1 "system" (if_row 1 "eth1"); Iface "eth9" "old" 9 "system" (if_row 9 "eth9")] [].
Definition dump : list ofproto_port := [OfprotoPort "eth1" "system" 1; OfprotoPort "eth9" "system" 9].

Lemma wanted_cases q r : wanted_row wanted q r →
  (q = "p1" ∧ r = if_row 1 "eth1") ∨ (q = "lag1" ∧ (r = if_row 2 "eth2" ∨ r = if_row 3 "eth3")).
Proof.
  intros (pr & Hpr & Hr). change wanted with (shash_collect pr_name (brr_ports row)) in Hpr.
  apply shash_collect_Some in Hpr as [Hpr <-]. cases_elem Hpr; cases_elem Hr; auto.
Qed.

Lemma wanted_is_ok : wanted_ok wanted.
Proof.
  split; [apply bridge_collect_wanted_ports_names|].
  intros q1 q2 r1 r2 H1%wanted_cases H2%wanted_cases. naive_solver.
Qed.

Lemma before_ok : bwf before ∧ full before.
Proof.
  split; [split|].
  - by_compute.
  - by_compute.
  - intros p Hp. cases_elem Hp; (split; [by_compute|]); intros n; simpl; (split;
      [ intros Hn; cases_elem Hn; eexists; first [(split; [left|done])|(split; [right; left|done])]
      | intros (f & Hf & <- & Ep); cases_elem Hf; first [discriminate Ep|left] ]).
  - intros f Hf. cases_elem Hf; by_compute.
  - intros q Hq. cases_elem Hq; [exists "eth1"|exists "eth9"]; eexists; [split; [left|done]|split; [right; left|done]].
Qed.

Lemma reconfigure_ports_converges_witness :
  ∃ s', reconfigure_ports (HL := ref_lib) (HD := dev) true (Some row) false dump wanted before = Ok (tt, s') ∧
    has s' "eth2" "lag1" ∧ Iface "eth1" "p1" 1 "system" (if_row 1 "eth1") ∈ ifaces s' ∧
    ¬ (∃ q, has s' "eth9" q).
Proof.
  destruct (reconfigure_ports_converges (HL := ref_lib) (HD := dev) true (Some row) wanted false dump before wanted_is_ok
    (proj1 before_ok) (proj2 before_ok)) as (s' & E & _ & _ & Hfr & _ & Hnew & Hold).
  exists s'. split; [exact E|]. clear E. split; [|split].
  - apply (Hnew "lag1" (if_row 2 "eth2")); [|by split].
    exists (PortRow "lag1" [if_row 2 "eth2"; if_row 3 "eth3"]). split; [vm_compute; reflexivity|left].
  - apply (Hold (Iface "eth1" "p1" 1 "system" (if_row 1 "eth1")) (if_row 1 "eth1")); [left| |done|].
    + exists (PortRow "p1" [if_row 1 "eth1"]). split; [vm_compute; reflexivity|left].
    + split; [done|left|]. intros d q o Hd. cases_elem Hd; done.
  - intros (q & f & Hin & En & Eq). destruct (Hfr f Hin) as (Hwr%wanted_cases & Hn & _).
    rewrite En in Hn. by destruct Hwr as [[_ Er]|[_ [Er|Er]]]; rewrite Er in Hn.
Defined.
End PortsExample.
