(* ===== verification/MacLearning.v ===== *)
(** * The MAC learning plugin: mac-learning-plugin.c

    The plugin writes the addresses the switch learned to the MAC table of the
    database, and asks the switch to forget addresses: those of deleted ports
    and VLANs, and those that requests in the Port and VLAN tables name. *)

From S2P Require Import Prelude OvsLib PluginExtensions Vlan BridgePorts.
Local Open Scope Z_scope.

(** ** Addresses *)

(** The bytes of [struct eth_addr]. *)
Definition eth_addr : Type := list Z.

Definition hex_digit (d : Z) : string :=
  String.substring (Z.to_nat d) 1 "0123456789abcdef".

(** [%02x] of a byte. *)
Definition hex_byte (b : Z) : string := (hex_digit (b / 16) +:+ hex_digit (b mod 16))%string.

(** [sprintf(str, ETH_ADDR_FMT, ETH_ADDR_ARGS(mac))] *)
Fixpoint eth_addr_str (mac : eth_addr) : string :=
  match mac with
  | [] => ""
  | [b] => hex_byte b
  | b :: mac' => hex_byte b +:+ ":" +:+ eth_addr_str mac'
  end%string.

(** ** Data *)

Inductive mac_event := MLEARN_UNDEFINED | MLEARN_ADD | MLEARN_DEL | MLEARN_MOVE.

Record mlearn_hmap_node := MlearnNode {
  mn_vlan : Z;
  mn_mac : eth_addr;
  mn_oper : mac_event;
  mn_port_name : string;
}.

Inductive mac_flush_options :=
| L2MAC_FLUSH_BY_VLAN | L2MAC_FLUSH_BY_PORT | L2MAC_FLUSH_BY_PORT_VLAN
| L2MAC_FLUSH_BY_TRUNK | L2MAC_FLUSH_BY_TRUNK_VLAN | L2MAC_FLUSH_ALL.

(** [mac_flush_params_t]; [fl_port_name] has the bytes before the first null,
    at most [PORT_NAME_SIZE]. *)
Record mac_flush_params := FlushParams {
  fl_vlan : Z;
  fl_port_name : string;
  fl_tgid : Z;
  fl_options : mac_flush_options;
}.

Definition PORT_NAME_SIZE : nat := 16.

(** [strncpy] into a zeroed [port_name]. *)
Definition copy_port_name (name : string) : string := String.substring 0 PORT_NAME_SIZE name.

(** A row of the MAC table, with its state in the open transaction. *)
Record ovsrec_mac := MacRow {
  mr_addr : string;
  mr_from : string;
  mr_vlan : option Z;            (* mac_vlan->id *)
  mr_bridge : string;
  mr_port : string;
  mr_inserted : bool;
  mr_deleted : bool;
}.

(** A request row of the Port table. *)
Record flush_port := FlushPort {
  fp_name : string;
  fp_status : smap;
  fp_macs_invalid : list bool;
  fp_macs_invalid_on_vlans : list (option Z);
  fp_modified : bool;
}.

(** A request row of the VLAN table. *)
Record flush_vlan := FlushVlan {
  fv_id : Z;
  fv_macs_invalid : list bool;
  fv_modified : bool;
}.

(** The two functions of [struct asic_plugin_interface] the plugin calls; null
    is [None].  The argument of the first is the number of earlier calls, that
    of the second the earlier requests. *)
Record asic_interface := Asic {
  get_mac_learning_hmap : option (nat → option (list mlearn_hmap_node));
  l2_addr_flush_fn : option (list mac_flush_params → mac_flush_params → Z);
}.

(** What a plugin can publish; the registry keeps untyped pointers, and the
    interface under the name of the switch plugin is one of it. *)
Inductive plugin_itf := AsicItf (a : asic_interface) | MacLearningItf | OtherItf.

Definition as_asic (i : plugin_itf) : option asic_interface :=
  match i with AsicItf a => Some a | _ => None end.

(** The file-scope variables of the plugin, the registry of extensions, the
    tables it writes and the requests it sent. *)
Record mlst := MlSt {
  idl : bool;                                       (* [idl] is not null *)
  p_asic_plugin_interface : option asic_interface;
  maclearn_seqno : Z;
  maclearn_idl_seqno : Z;
  extensions : registry plugin_itf;
  hmap_reads : nat;
  mac_table : list ovsrec_mac;
  port_requests : list flush_port;
  vlan_requests : list flush_vlan;
  flush_log : list mac_flush_params;
}.

Definition ASIC_PLUGIN_INTERFACE_NAME : string := "ASIC_PLUGIN".
Definition ASIC_PLUGIN_INTERFACE_MAJOR : Z := 1.
Definition ASIC_PLUGIN_INTERFACE_MINOR : Z := 1.
Definition MAC_LEARNING_PLUGIN_INTERFACE_NAME : string := "MAC_LEARNING_PLUGIN".
Definition MAC_LEARNING_PLUGIN_INTERFACE_MAJOR : Z := 1.
Definition MAC_LEARNING_PLUGIN_INTERFACE_MINOR : Z := 0.

(** Schema constants, and what the IDL does: which rows an index shows by
    whether they were inserted and deleted in the open transaction, the VLAN row
    that [ops_mac_set_vlan] finds for an identifier, and whether transactions
    are created and committed. *)
Class MacEnv := {
  OVSREC_MAC_FROM_DYNAMIC : string;
  LAG_PORT_NAME_PREFIX : string;
  LAG_PORT_NAME_PREFIX_LENGTH : nat;
  PORT_STATUS_BOND_HW_HANDLE_KEY : string;
  index_shows : bool → bool → bool;
  index_shows_committed : index_shows false false = true;
  ops_mac_set_vlan : Z → option Z;
  mac_txn_create : nat → bool;
  mac_txn_commit : nat → bool;
  port_txn_commit : string → bool;
  vlan_txn_commit : Z → bool;
}.

Section MacLearning.
Context `{HL : OvsLib, HM : MacEnv} (map_one : Z).

Definition set_asic (a : option asic_interface) (r : registry plugin_itf) (s : mlst) : mlst :=
  MlSt (idl s) a (maclearn_seqno s) (maclearn_idl_seqno s) r (hmap_reads s) (mac_table s)
    (port_requests s) (vlan_requests s) (flush_log s).
Definition set_mac_table (t : list ovsrec_mac) (s : mlst) : mlst :=
  MlSt (idl s) (p_asic_plugin_interface s) (maclearn_seqno s) (maclearn_idl_seqno s) (extensions s) (hmap_reads s) t
    (port_requests s) (vlan_requests s) (flush_log s).
Definition add_flush (p : mac_flush_params) (s : mlst) : mlst :=
  MlSt (idl s) (p_asic_plugin_interface s) (maclearn_seqno s) (maclearn_idl_seqno s) (extensions s) (hmap_reads s)
    (mac_table s) (port_requests s) (vlan_requests s) (flush_log s ++ [p]).
Definition count_read (s : mlst) : mlst :=
  MlSt (idl s) (p_asic_plugin_interface s) (maclearn_seqno s) (maclearn_idl_seqno s) (extensions s) (S (hmap_reads s))
    (mac_table s) (port_requests s) (vlan_requests s) (flush_log s).
Definition set_requests (ps : list flush_port) (vs : list flush_vlan) (s : mlst) : mlst :=
  MlSt (idl s) (p_asic_plugin_interface s) (maclearn_seqno s) (maclearn_idl_seqno s) (extensions s) (hmap_reads s)
    (mac_table s) ps vs (flush_log s).
Definition set_seqnos (m i : Z) (s : mlst) : mlst :=
  MlSt (idl s) (p_asic_plugin_interface s) m i (extensions s) (hmap_reads s)
    (mac_table s) (port_requests s) (vlan_requests s) (flush_log s).

(** ** Interfaces *)

Definition get_plugin_asic_interface : M mlst (option asic_interface) :=
  cached ← gets p_asic_plugin_interface;
  match cached with
  | Some a => mret (Some a)
  | None =>
    r ← gets extensions;
    let '(rc, p_extension, r) := find_plugin_extension map_one ASIC_PLUGIN_INTERFACE_NAME
      ASIC_PLUGIN_INTERFACE_MAJOR ASIC_PLUGIN_INTERFACE_MINOR r in
    match p_extension with
    | Some e =>
      if rc =? 0 then modify (set_asic (as_asic (plugin_interface e)) r) ;; mret (as_asic (plugin_interface e))
      else modify (set_asic None r) ;; mret None
    | None => modify (set_asic None r) ;; mret None
    end
  end.

(** [p_asic_interface->l2_addr_flush ? ... : -1] *)
Definition asic_flush (a : asic_interface) (p : mac_flush_params) : M mlst Z :=
  match l2_addr_flush_fn a with
  | Some f =>
    l ← gets flush_log;
    modify (add_flush p) ;; mret (f l p)
  | None => mret (-1)
  end.

(** ** Learned addresses *)

(** [bridges]: [all_bridges], each with its name and ports. *)
Definition get_bridge_from_port_name (bridges : list (string * bpst)) (name : string) : option (string * port) :=
  match List.find (λ b, match port_lookup name b.2 with Some _ => true | None => false end) bridges with
  | Some b => (b.1,.) <$> port_lookup name b.2
  | None => None
  end.

(** A row that [OVSREC_MAC_FOR_EACH_EQUAL] visits and whose VLAN matches. *)
Definition mac_matches (node : mlearn_hmap_node) (r : ovsrec_mac) : bool :=
  index_shows (mr_inserted r) (mr_deleted r) &&
  bool_decide (mr_addr r = eth_addr_str (mn_mac node)) && bool_decide (mr_from r = OVSREC_MAC_FROM_DYNAMIC) &&
  match mr_vlan r with Some v => mn_vlan node =? v | None => false end.

Definition mlearn_plugin_db_add_local_mac_entry (bridges : list (string * bpst)) (node : mlearn_hmap_node)
    : M mlst unit :=
  match get_bridge_from_port_name bridges (mn_port_name node) with
  | None => mret tt
  | Some (br, p) =>
    t ← gets mac_table;
    let found := existsb (mac_matches node) t in
    modify (set_mac_table ((λ r, if mac_matches node r
      then MacRow (mr_addr r) (mr_from r) (mr_vlan r) br (bp_name p) (mr_inserted r) (mr_deleted r) else r) <$> t)) ;;
    mwhen (negb found) (modify (λ s, set_mac_table (mac_table s ++
      [MacRow (eth_addr_str (mn_mac node)) OVSREC_MAC_FROM_DYNAMIC (ops_mac_set_vlan (mn_vlan node)) br (bp_name p)
         true false]) s))
  end.

Definition mlearn_plugin_db_del_local_mac_entry (node : mlearn_hmap_node) : M mlst unit :=
  modify (λ s, set_mac_table ((λ r, if mac_matches node r
    then MacRow (mr_addr r) (mr_from r) (mr_vlan r) (mr_bridge r) (mr_port r) (mr_inserted r) true else r)
    <$> mac_table s) s).

Definition update_mac_entry (bridges : list (string * bpst)) (node : mlearn_hmap_node) : M mlst unit :=
  match mn_oper node with
  | MLEARN_ADD | MLEARN_MOVE => mlearn_plugin_db_add_local_mac_entry bridges node
  | _ => mlearn_plugin_db_del_local_mac_entry node
  end.

(** The table after a commit. *)
Definition committed (t : list ovsrec_mac) : list ovsrec_mac :=
  (λ r, MacRow (mr_addr r) (mr_from r) (mr_vlan r) (mr_bridge r) (mr_port r) false false) <$>
  filter (λ r, mr_deleted r = false) t.

Definition mac_learning_update_db (bridges : list (string * bpst)) : M mlst unit :=
  ready ← gets idl;
  if negb ready then mret tt else
  a ← get_plugin_asic_interface;
  match a with
  | None => mret tt
  | Some a =>
    match get_mac_learning_hmap a with
    | None => mret tt
    | Some f =>
      n ← gets hmap_reads;
      modify count_read ;;
      match f n with
      | None => mret tt
      | Some nodes =>
        if negb (mac_txn_create n) then mret tt else
        before ← gets mac_table;
        mfor nodes (update_mac_entry bridges) ;;
        modify (λ s, set_mac_table (if mac_txn_commit n then committed (mac_table s) else before) s)
      end
    end
  end.

(** [seq]: what [seq_read] returns. *)
Definition mac_learning_reconfigure (bridges : list (string * bpst)) (seq : Z) : M mlst unit :=
  known ← gets maclearn_seqno;
  if seq =? known then mret tt else
  modify (λ s, set_seqnos seq (maclearn_idl_seqno s) s) ;;
  mac_learning_update_db bridges.

(** ** Requests to forget addresses *)

(** [strncmp(name, LAG_PORT_NAME_PREFIX, LAG_PORT_NAME_PREFIX_LENGTH) == 0] *)
Definition is_lag_name (name : string) : bool :=
  bool_decide (String.substring 0 LAG_PORT_NAME_PREFIX_LENGTH name =
               String.substring 0 LAG_PORT_NAME_PREFIX_LENGTH LAG_PORT_NAME_PREFIX).

(** The request for the port [name] whose bond handle is [handle]. *)
Definition port_flush_params (name : string) (handle : Z) : option mac_flush_params :=
  if is_lag_name name then
    if negb (handle =? -1) then Some (FlushParams 0 (copy_port_name name) handle L2MAC_FLUSH_BY_TRUNK) else None
  else Some (FlushParams 0 (copy_port_name name) 0 L2MAC_FLUSH_BY_PORT).

Definition port_vlan_flush_params (name : string) (handle vlan : Z) : option mac_flush_params :=
  if is_lag_name name then
    if negb (handle =? -1) then Some (FlushParams vlan (copy_port_name name) handle L2MAC_FLUSH_BY_TRUNK_VLAN) else None
  else Some (FlushParams vlan (copy_port_name name) 0 L2MAC_FLUSH_BY_PORT_VLAN).

Definition flush_if (a : asic_interface) (p : option mac_flush_params) : M mlst unit :=
  match p with Some p => asic_flush a p ;; mret tt | None => mret tt end.

(** [rows]: [br->cfg->vlans]; [vs]: [br->vlans]. *)
Definition mac_flush_deleted_vlans (br : option (list ovsrec_vlan * list vlan)) : M mlst unit :=
  a ← get_plugin_asic_interface;
  match a, br with
  | Some a, Some (rows, vs) =>
    let sh_idl_vlans := shash_collect vr_name rows in
    mfor vs (λ v, match sh_idl_vlans !! vl_name v with
                  | Some _ => mret tt
                  | None => flush_if a (Some (FlushParams (vid v) "" 0 L2MAC_FLUSH_BY_VLAN))
                  end)
  | _, _ => mret tt
  end.

(** [br]: the ports of the bridge, with their [bond_hw_handle]s, and its
    [wanted_ports]; the result has the new [cfg]s of the ports. *)
Definition mac_flush_deleted_ports (handle : string → Z) (br : option (list port * shash ovsrec_port))
    : M mlst (list port) :=
  a ← get_plugin_asic_interface;
  match a, br with
  | Some a, Some (ps, wanted) =>
    mfor ps (λ p, match wanted !! bp_name p with
                  | Some _ => mret tt
                  | None => flush_if a (port_flush_params (bp_name p) (handle (bp_name p)))
                  end) ;;
    mret ((λ p, Port (bp_name p) (wanted !! bp_name p) (bp_ifaces p)) <$> ps)
  | _, Some (ps, _) => mret ps
  | _, None => mret []
  end.

(** The row of a table the macros inspect, and whether they say that rows of
    its table were deleted. *)
Definition mac_flush_monitor (vlan_row port_row : option bool) (handle : string → Z)
    (br : option (list ovsrec_vlan * list vlan * list port * shash ovsrec_port)) : M mlst unit :=
  mwhen (default false vlan_row) (mac_flush_deleted_vlans ((λ b, (b.1.1.1, b.1.1.2)) <$> br)) ;;
  mwhen (default false port_row) (mac_flush_deleted_ports handle ((λ b, (b.1.2, b.2)) <$> br) ;; mret tt).

(** A write through the pointer to a row. *)
Definition put_port_request (row : flush_port) : M mlst unit :=
  modify (λ s, set_requests ((λ x, if bool_decide (fp_name x = fp_name row) then row else x) <$> port_requests s)
    (vlan_requests s) s).
Definition put_vlan_request (row : flush_vlan) : M mlst unit :=
  modify (λ s, set_requests (port_requests s)
    ((λ x, if bool_decide (fv_id x = fv_id row) then row else x) <$> vlan_requests s) s).

Definition mac_flush_on_vlan (row : flush_vlan) : M mlst unit :=
  a ← get_plugin_asic_interface;
  match a with
  | None => mret tt
  | Some a =>
    asic_flush a (FlushParams (to_signed 32 (fv_id row)) "" 0 L2MAC_FLUSH_BY_VLAN) ;;
    mwhen (vlan_txn_commit (fv_id row)) (put_vlan_request (FlushVlan (fv_id row) [] (fv_modified row)))
  end.

Definition mac_flush_on_port (row : flush_port) : M mlst unit :=
  a ← get_plugin_asic_interface;
  match a with
  | None => mret tt
  | Some a =>
    let handle := smap_get_int (fp_status row) PORT_STATUS_BOND_HW_HANDLE_KEY (-1) in
    mfor (fp_macs_invalid row) (λ b : bool, mwhen b (flush_if a (port_flush_params (fp_name row) handle))) ;;
    mfor (fp_macs_invalid_on_vlans row) (λ v, match v with
      | Some v => flush_if a (port_vlan_flush_params (fp_name row) handle (to_signed 32 v))
      | None => mret tt
      end) ;;
    let modified := existsb id (fp_macs_invalid row) ||
                    existsb (λ v, match v with Some _ => true | None => false end) (fp_macs_invalid_on_vlans row) in
    mwhen (modified && port_txn_commit (fp_name row))
      (put_port_request (FlushPort (fp_name row) (fp_status row) [] [] (fp_modified row)))
  end.

(** [port_cols], [vlan_col]: one of the request columns of the table changed. *)
Definition l2_addr_flush (port_cols vlan_col : bool) : M mlst unit :=
  mwhen port_cols (rows ← gets port_requests; mfor rows (λ row, mwhen (fp_modified row) (mac_flush_on_port row))) ;;
  mwhen vlan_col (rows ← gets vlan_requests; mfor rows (λ row, mwhen (fv_modified row) (mac_flush_on_vlan row))).

Definition mac_config_update (port_cols vlan_col : bool) : M mlst unit := l2_addr_flush port_cols vlan_col.

Definition run (bridges : list (string * bpst)) (seq new_idl_seqno : Z) (port_cols vlan_col : bool) : M mlst Z :=
  mac_learning_reconfigure bridges seq ;;
  known ← gets maclearn_idl_seqno;
  mwhen (negb (new_idl_seqno =? known))
    (mac_config_update port_cols vlan_col ;; modify (λ s, set_seqnos (maclearn_seqno s) new_idl_seqno s)) ;;
  mret 0.

Definition destroy : M mlst Z :=
  modify (λ s, set_asic (p_asic_plugin_interface s)
    (unregister_plugin_extension map_one MAC_LEARNING_PLUGIN_INTERFACE_NAME (extensions s)).2 s) ;;
  mret 0.
End MacLearning.
