(* ===== verification/MacLearningFacts.v ===== *)
(** * The MAC table follows the switch

    One round of the plugin applies to the MAC table what the switch learned,
    and sends the switch the requests of the Port and VLAN tables and of the
    ports and VLANs about to be deleted. *)

From S2P Require Import Prelude OvsLib PluginExtensions Vlan BridgePorts BridgePortsFacts BridgePortsReconf MacLearning.
Local Open Scope Z_scope.

(** ** Printed addresses *)

Definition valid_mac (mac : eth_addr) : Prop := length mac = 6%nat ∧ Forall (λ b, 0 ≤ b < 256) mac.

(** The value of a printed digit. *)
Definition hex_value (c : Ascii.ascii) : Z :=
  let n := Z.of_N (Ascii.N_of_ascii c) in if n <? 58 then n - 48 else n - 87.

Definition byte_of_hex (c1 c2 : Ascii.ascii) : Z := 16 * hex_value c1 + hex_value c2.

Lemma hex_byte_read b : 0 ≤ b < 256 →
  ∃ c1 c2, hex_byte b = String c1 (String c2 EmptyString) ∧ byte_of_hex c1 c2 = b.
Proof.
  intros Hb.
  assert (∀ d, 0 ≤ d < 16 → ∃ c, hex_digit d = String c EmptyString ∧ hex_value c = d) as Hd.
  { intros d Hd. assert (d ∈ seqZ 0 16) as Hin by (apply elem_of_seqZ; lia).
    change (seqZ 0 16) with [0;1;2;3;4;5;6;7;8;9;10;11;12;13;14;15] in Hin.
    cases_elem Hin; eexists; split; reflexivity. }
  destruct (Hd (b / 16)) as (c1 & E1 & V1); [split; [apply Z.div_pos; lia|apply Z.div_lt_upper_bound; lia]|].
  destruct (Hd (b mod 16)) as (c2 & E2 & V2); [apply Z.mod_pos_bound; lia|].
  exists c1, c2. unfold hex_byte, byte_of_hex. rewrite E1, E2, V1, V2. split; [done|].
  symmetry. apply Z.div_mod. lia.
Qed.

Lemma hex_byte_inj b b' s s' : 0 ≤ b < 256 → 0 ≤ b' < 256 →
  (hex_byte b +:+ s)%string = (hex_byte b' +:+ s')%string → b = b' ∧ s = s'.
Proof.
  intros (c1 & c2 & E & <-)%hex_byte_read (c1' & c2' & E' & <-)%hex_byte_read. rewrite E, E'.
  intros [= -> -> Es]. split; [done|exact Es].
Qed.

(** Two different addresses of six bytes are never printed as the same
    string, so the rows of the MAC table name one address each. *)
Theorem eth_addr_str_inj mac mac' :
  valid_mac mac → valid_mac mac' → eth_addr_str mac = eth_addr_str mac' → mac = mac'.
Proof.
  intros [Hl Hb] [Hl' Hb']. assert (length mac = length mac') as Hlen by congruence. clear Hl Hl'.
  revert mac' Hb' Hlen. induction Hb as [|b mac Hb Hm IH]; intros [|b' mac'] Hb' Hlen; try done.
  apply Forall_cons in Hb' as [Hb' Hm']. simpl in Hlen. injection Hlen as Hlen.
  destruct mac as [|c mac], mac' as [|c' mac']; try done.
  - simpl. destruct (hex_byte_read b Hb) as (c1 & c2 & -> & <-), (hex_byte_read b' Hb') as (c1' & c2' & -> & <-).
    by intros [= -> ->].
  - intros E. change (hex_byte b +:+ (":" +:+ eth_addr_str (c :: mac)) = hex_byte b' +:+ (":" +:+ eth_addr_str (c' :: mac')))%string in E.
    apply hex_byte_inj in E as [-> E]; [|done..]. injection E as E. f_equal. by apply IH.
Qed.

Lemma eth_addr_str_inj_witness :
  eth_addr_str [0;27;84;160;255;9] = "00:1b:54:a0:ff:09" ∧
  ([0;27;84;160;255;9] = [0;27;84;160;255;9]).
Proof.
  split; [reflexivity|].
  apply eth_addr_str_inj; [split; [done|repeat constructor; done]|split; [done|repeat constructor; done]|reflexivity].
Defined.

(** ** The MAC table as a map *)

Section Table.
Context `{HL : OvsLib, HM : MacEnv} (map_one : Z).

(** The dynamic row of an address in a VLAN. *)
Definition row_of (k : string * Z) (r : ovsrec_mac) : Prop :=
  mr_from r = OVSREC_MAC_FROM_DYNAMIC ∧ mr_addr r = k.1 ∧ mr_vlan r = Some k.2.
#[global] Instance row_of_dec k r : Decision (row_of k r).
Proof using Type. unfold row_of. apply _. Defined.

Definition rows_of (t : list ovsrec_mac) (k : string * Z) : list ovsrec_mac := filter (row_of k) t.

(** The rows that are not learned. *)
Definition other_rows (t : list ovsrec_mac) : list ovsrec_mac :=
  filter (λ r, mr_from r ≠ OVSREC_MAC_FROM_DYNAMIC ∨ mr_vlan r = None) t.

(** No transaction is open and an address is at most once in a VLAN. *)
Record mac_wf (t : list ovsrec_mac) : Prop := MacWf {
  mw_closed : ∀ r, r ∈ t → mr_inserted r = false ∧ mr_deleted r = false;
  mw_once : ∀ k, (length (rows_of t k) ≤ 1)%nat;
}.

(** Bridge and port of an address in a VLAN. *)
Definition mac_lookup (t : list ovsrec_mac) (k : string * Z) : option (string * string) :=
  (λ r, (mr_bridge r, mr_port r)) <$> head (rows_of t k).

Definition node_key (n : mlearn_hmap_node) : string * Z := (eth_addr_str (mn_mac n), mn_vlan n).

(** What the switch reports about an address, applied to its entry. *)
Definition learned (bridges : list (string * bpst)) (n : mlearn_hmap_node) (old : option (string * string))
    : option (string * string) :=
  match mn_oper n with
  | MLEARN_ADD | MLEARN_MOVE =>
    match get_bridge_from_port_name bridges (mn_port_name n) with
    | Some (br, p) => Some (br, bp_name p)
    | None => old
    end
  | _ => None
  end.

(** The reports about the address and VLAN [k], applied in their order. *)
Definition heard (bridges : list (string * bpst)) (nodes : list mlearn_hmap_node) (k : string * Z)
    (old : option (string * string)) : option (string * string) :=
  fold_left (λ e n, if decide (node_key n = k) then learned bridges n e else e) nodes old.

(** In an open transaction the index shows the rows it inserted and hides those
    it deleted. *)
Definition index_current : Prop := ∀ inserted deleted, index_shows inserted deleted = negb deleted.

(** The index shows the row exactly if it was not deleted. *)
Definition seen (r : ovsrec_mac) : Prop := index_shows (mr_inserted r) (mr_deleted r) = negb (mr_deleted r).

Lemma filter_fmap_keep {A} (P : A → Prop) `{∀ x, Decision (P x)} (h : A → A) (l : list A) :
  (∀ x, P (h x) ↔ P x) → filter P (h <$> l) = h <$> filter P l.
Proof using Type.
  intros Hh. induction l as [|x l IH]; [done|]. rewrite fmap_cons, !filter_cons, IH.
  destruct (decide (P x)), (decide (P (h x))); naive_solver.
Qed.

Lemma list_fmap_id_on {A} (h : A → A) (l : list A) : (∀ x, x ∈ l → h x = x) → h <$> l = l.
Proof using Type.
  induction l as [|x l IH]; intros Hh; [done|]. rewrite fmap_cons, IH, Hh; [done|left|]. intros; apply Hh. by right.
Qed.

Lemma mac_matches_row n r : mac_matches n r = true → row_of (node_key n) r.
Proof using Type.
  unfold mac_matches, row_of. rewrite !andb_true_iff, !bool_decide_eq_true. intros [[[_ Ha] Hf] Hv].
  destruct (mr_vlan r) as [v|]; [|done]. apply Z.eqb_eq in Hv. by simplify_eq/=.
Qed.

Lemma mac_matches_seen n r : row_of (node_key n) r → seen r → mac_matches n r = negb (mr_deleted r).
Proof using Type.
  intros (Hf & Ha & Hv) Hs. unfold mac_matches. rewrite Hs, Hv, !bool_decide_true, !andb_true_r by done.
  simpl. by rewrite Z.eqb_refl, andb_true_r.
Qed.

(** A loop over the matching rows. *)
Definition on_matching (n : mlearn_hmap_node) (g : ovsrec_mac → ovsrec_mac) (r : ovsrec_mac) : ovsrec_mac :=
  if mac_matches n r then g r else r.

Definition keeps_key (g : ovsrec_mac → ovsrec_mac) : Prop :=
  ∀ r, mr_from (g r) = mr_from r ∧ mr_addr (g r) = mr_addr r ∧ mr_vlan (g r) = mr_vlan r.

Lemma on_matching_row n g k r : keeps_key g → row_of k (on_matching n g r) ↔ row_of k r.
Proof using Type. intros Hg. unfold on_matching, row_of. case_match; [|done]. destruct (Hg r) as (-> & -> & ->). done. Qed.

Lemma rows_of_on_matching_other n g t k :
  keeps_key g → k ≠ node_key n → rows_of (on_matching n g <$> t) k = rows_of t k.
Proof using Type.
  intros Hg Hk. unfold rows_of. rewrite filter_fmap_keep by (intros; by apply on_matching_row).
  apply list_fmap_id_on. intros r [Hr _]%list_elem_of_filter. unfold on_matching.
  destruct (mac_matches n r) eqn:E; [|done]. apply mac_matches_row in E. destruct Hk, k as [a v], Hr as (_ & Ha & Hv), E as (_ & Ha' & Hv').
  unfold node_key in *. simpl in *. congruence.
Qed.

Lemma rows_of_on_matching n g t :
  keeps_key g → (∀ r, r ∈ rows_of t (node_key n) → seen r) →
  rows_of (on_matching n g <$> t) (node_key n) = (λ r, if mr_deleted r then r else g r) <$> rows_of t (node_key n).
Proof using Type.
  intros Hg Hc. unfold rows_of. rewrite filter_fmap_keep by (intros; by apply on_matching_row).
  apply list_fmap_ext. intros i r Hr%list_elem_of_lookup_2. pose proof (Hc r Hr) as Hs.
  apply list_elem_of_filter in Hr as [Hr _]. unfold on_matching. rewrite mac_matches_seen by done. by destruct (mr_deleted r).
Qed.

Lemma other_rows_on_matching n g t : keeps_key g → other_rows (on_matching n g <$> t) = other_rows t.
Proof using Type.
  intros Hg. unfold other_rows. rewrite filter_fmap_keep.
  - apply list_fmap_id_on. intros r [Hr _]%list_elem_of_filter. unfold on_matching.
    destruct (mac_matches n r) eqn:E; [|done]. apply mac_matches_row in E as (Ef & _ & Ev). destruct Hr; congruence.
  - intros r. unfold on_matching. case_match; [|done]. by destruct (Hg r) as (-> & _ & ->).
Qed.

(** ** One report of the switch *)

Definition entry (r : ovsrec_mac) : string * string := (mr_bridge r, mr_port r).
Definition closed (r : ovsrec_mac) : Prop := mr_inserted r = false ∧ mr_deleted r = false.
Definition live (v : list ovsrec_mac) : list ovsrec_mac := filter (λ r, mr_deleted r = false) v.

(** The entry of an address in the open transaction. *)
Definition entry_of (v : list ovsrec_mac) : option (string * string) := entry <$> head (live v).

(** The rows of the address of [n] before and after. *)
Definition applies (bridges : list (string * bpst)) (n : mlearn_hmap_node) (v v' : list ovsrec_mac) : Prop :=
  (∀ r, r ∈ v → seen r) → (length (live v) ≤ 1)%nat →
  (length (live v') ≤ 1)%nat ∧ entry_of v' = learned bridges n (entry_of v).

Lemma live_fmap (g : ovsrec_mac → ovsrec_mac) v :
  (∀ r, mr_deleted (g r) = mr_deleted r) → live ((λ r, if mr_deleted r then r else g r) <$> v) = g <$> live v.
Proof using Type.
  intros Hg. unfold live. induction v as [|r v IH]; [done|]. rewrite fmap_cons, !filter_cons, IH.
  destruct (mr_deleted r) eqn:E; [by rewrite E|]. by rewrite Hg, E.
Qed.

Lemma live_deleted (g : ovsrec_mac → ovsrec_mac) v :
  (∀ r, mr_deleted (g r) = true) → live ((λ r, if mr_deleted r then r else g r) <$> v) = [].
Proof using Type.
  intros Hg. unfold live. apply filter_none. intros x (r & -> & _)%list_elem_of_fmap. destruct (mr_deleted r) eqn:E; [by rewrite E|by rewrite Hg].
Qed.

(** The VLAN of a new address has a row. *)
Definition vlan_known (n : mlearn_hmap_node) : Prop := ops_mac_set_vlan (mn_vlan n) = Some (mn_vlan n).

Lemma set_mac_table_twice t t' s : set_mac_table t' (set_mac_table t s) = set_mac_table t' s.
Proof using Type. done. Qed.

Lemma rows_of_snoc t r k : rows_of (t ++ [r]) k = rows_of t k ++ if decide (row_of k r) then [r] else [].
Proof using Type. unfold rows_of. rewrite filter_app. by f_equal. Qed.

Lemma existsb_seen n t :
  (∀ r, r ∈ rows_of t (node_key n) → seen r) →
  existsb (mac_matches n) t = match live (rows_of t (node_key n)) with [] => false | _ => true end.
Proof using Type.
  intros Hc. assert (∀ r, r ∈ live (rows_of t (node_key n)) ↔ r ∈ t ∧ mac_matches n r = true) as Hin.
  { intros r. unfold live. rewrite list_elem_of_filter. split.
    - intros [Hd Hr]. pose proof (Hc r Hr) as Hs. apply list_elem_of_filter in Hr as [Hr Hin].
      split; [done|]. by rewrite mac_matches_seen, Hd.
    - intros [Hin Hm]. pose proof (mac_matches_row n r Hm) as Hr.
      assert (r ∈ rows_of t (node_key n)) as Hr' by by apply list_elem_of_filter. split; [|done].
      rewrite mac_matches_seen in Hm by auto. by destruct (mr_deleted r). }
  destruct (live (rows_of t (node_key n))) as [|r v].
  - apply not_true_is_false. intros (r & Hr%list_elem_of_In & Hm)%existsb_exists.
    apply (not_elem_of_nil r). by apply Hin.
  - apply existsb_exists. exists r. rewrite <-list_elem_of_In. apply Hin. left.
Qed.

Lemma head_fmap {A B} (f : A → B) (l : list A) : head (f <$> l) = f <$> head l.
Proof using Type. by destruct l. Qed.

Lemma short_cases {A} (v : list A) : (length v ≤ 1)%nat → v = [] ∨ ∃ x, v = [x].
Proof using Type. destruct v as [|x [|y v]]; simpl; [eauto|eauto|lia]. Qed.

(** What one report changes. *)
Definition reported (bridges : list (string * bpst)) (n : mlearn_hmap_node) (t t' : list ovsrec_mac) : Prop :=
  other_rows t' = other_rows t ∧ applies bridges n (rows_of t (node_key n)) (rows_of t' (node_key n)) ∧
  ∀ k, k ≠ node_key n → rows_of t' k = rows_of t k.

Lemma del_entry_run bridges n s :
  mn_oper n ≠ MLEARN_ADD → mn_oper n ≠ MLEARN_MOVE →
  ∃ t', mlearn_plugin_db_del_local_mac_entry n s = Ok (tt, set_mac_table t' s) ∧ reported bridges n (mac_table s) t'.
Proof using Type.
  intros Ha Hm. set (g r := MacRow (mr_addr r) (mr_from r) (mr_vlan r) (mr_bridge r) (mr_port r) (mr_inserted r) true).
  assert (keeps_key g) as Hk by done. exists (on_matching n g <$> mac_table s). split; [done|].
  split; [by apply other_rows_on_matching|]. split; [|intros; by apply rows_of_on_matching_other].
  intros Hc Hl. rewrite rows_of_on_matching by done. unfold entry_of at 1. rewrite live_deleted by done.
  simpl. split; [lia|]. unfold learned. by destruct (mn_oper n).
Qed.

Lemma add_entry_run bridges n s :
  vlan_known n → mn_oper n = MLEARN_ADD ∨ mn_oper n = MLEARN_MOVE →
  ∃ t', mlearn_plugin_db_add_local_mac_entry bridges n s = Ok (tt, set_mac_table t' s) ∧
    reported bridges n (mac_table s) t'.
Proof using Type.
  intros Hv Hop. unfold mlearn_plugin_db_add_local_mac_entry, reported, applies.
  assert (∀ old, learned bridges n old = match get_bridge_from_port_name bridges (mn_port_name n) with
    Some (br, p) => Some (br, bp_name p) | None => old end) as El by (intros; unfold learned; by destruct Hop as [-> | ->]).
  setoid_rewrite El. destruct (get_bridge_from_port_name bridges (mn_port_name n)) as [[br p]|].
  2: { exists (mac_table s). split; [by destruct s|]. split; [done|]. by split. }
  set (g r := MacRow (mr_addr r) (mr_from r) (mr_vlan r) br (bp_name p) (mr_inserted r) (mr_deleted r)).
  assert (keeps_key g) as Hk by done.
  set (new := MacRow (eth_addr_str (mn_mac n)) OVSREC_MAC_FROM_DYNAMIC (ops_mac_set_vlan (mn_vlan n)) br (bp_name p) true false).
  assert (row_of (node_key n) new) as Hnew by done.
  exists ((on_matching n g <$> mac_table s) ++ if existsb (mac_matches n) (mac_table s) then [] else [new]).
  split; [step; step; destruct (existsb _ _); simpl; [by rewrite app_nil_r|done]|].
  split; [|split].
  - unfold other_rows. rewrite filter_app. fold (other_rows (on_matching n g <$> mac_table s)).
    rewrite other_rows_on_matching by done. destruct (existsb _ _); [by rewrite app_nil_r|].
    rewrite filter_cons_False; [by rewrite app_nil_r|]. simpl. rewrite Hv. naive_solver.
  - intros Hc Hl. rewrite existsb_seen by done. unfold entry_of, rows_of at 1 3. rewrite filter_app.
    fold (rows_of (on_matching n g <$> mac_table s) (node_key n)). rewrite rows_of_on_matching by done.
    unfold live at 1 3. rewrite filter_app. fold (live ((λ r, if mr_deleted r then r else g r) <$> rows_of (mac_table s) (node_key n))).
    rewrite live_fmap by done. destruct (short_cases _ Hl) as [->|[r ->]]; simpl.
    + rewrite filter_cons_True by done. by rewrite filter_cons_True.
    + by split; [lia|].
  - intros k Hk'. unfold rows_of at 1. rewrite filter_app. fold (rows_of (on_matching n g <$> mac_table s) k).
    rewrite rows_of_on_matching_other by done. destruct (existsb _ _); [by rewrite app_nil_r|].
    rewrite filter_cons_False; [by rewrite app_nil_r|]. intros (_ & Ha & Hvl). destruct Hk', k as [a v]. simpl in *.
    rewrite Hv in Hvl. unfold node_key. congruence.
Qed.

Lemma update_mac_entry_run bridges n s :
  vlan_known n →
  ∃ t', update_mac_entry bridges n s = Ok (tt, set_mac_table t' s) ∧ reported bridges n (mac_table s) t'.
Proof using Type.
  intros Hv. unfold update_mac_entry. destruct (mn_oper n) eqn:E.
  1, 3: apply del_entry_run; congruence.
  all: apply add_entry_run; auto.
Qed.

(** ** One update of the table *)

Lemma update_loop_mac bridges nodes s :
  NoDup (node_key <$> nodes) ∨ index_current → (∀ n, n ∈ nodes → vlan_known n) →
  (∀ n r, n ∈ nodes → r ∈ rows_of (mac_table s) (node_key n) → seen r) →
  (∀ k, (length (live (rows_of (mac_table s) k)) ≤ 1)%nat) →
  ∃ t', mfor nodes (update_mac_entry bridges) s = Ok (tt, set_mac_table t' s) ∧
    other_rows t' = other_rows (mac_table s) ∧
    ∀ k, (length (live (rows_of t' k)) ≤ 1)%nat ∧
      entry_of (rows_of t' k) = heard bridges nodes k (entry_of (rows_of (mac_table s) k)).
Proof using Type.
  revert s. induction nodes as [|n nodes IH]; intros s Hord Hv Hs Hl.
  { exists (mac_table s). by destruct s. }
  destruct (update_mac_entry_run bridges n s) as (t1 & E1 & Ho1 & Ha & Hk); [apply Hv; left|].
  destruct (Ha (λ r, Hs n r (list_elem_of_here _ _)) (Hl _)) as [Hl1 Ee].
  destruct (IH (set_mac_table t1 s)) as (t' & E & Ho & Hall).
  - destruct Hord as [Hnd|?]; [left|by right]. by apply NoDup_cons in Hnd as [_ ?].
  - intros m Hm. apply Hv. by right.
  - intros m r Hm Hr. destruct Hord as [[Hn _]%NoDup_cons|Hc]; [|apply Hc].
    simpl in Hr. rewrite Hk in Hr; [by apply (Hs m); [right|]|].
    intros Em. destruct Hn. rewrite <-Em. by apply list_elem_of_fmap_2.
  - intros k. simpl. destruct (decide (k = node_key n)) as [->|Hne]; [done|]. by rewrite Hk.
  - exists t'. simpl. step E1. split; [exact E|]. split; [simpl in Ho; congruence|]. intros k.
    destruct (Hall k) as [Hlk ->]. split; [done|]. simpl. case_decide as Ek; [by subst k; rewrite Ee|by rewrite Hk].
Qed.

Lemma rows_of_committed t k : rows_of (committed t) k =
  (λ r, MacRow (mr_addr r) (mr_from r) (mr_vlan r) (mr_bridge r) (mr_port r) false false) <$> live (rows_of t k).
Proof using Type.
  unfold committed, rows_of, live. rewrite filter_fmap_keep by done. f_equal.
  rewrite !list_filter_filter. apply list_filter_iff. tauto.
Qed.

Lemma mac_lookup_committed t k : mac_lookup (committed t) k = entry_of (rows_of t k).
Proof using Type. unfold mac_lookup, entry_of. rewrite rows_of_committed, head_fmap, <-option_fmap_compose. by apply option_fmap_ext. Qed.

(** [get_plugin_asic_interface] finds [a]: it was found before, or a plugin
    published it with a version that fits. *)
Definition asic_available (s : mlst) (a : asic_interface) : Prop :=
  match p_asic_plugin_interface s with
  | Some b => b = a
  | None => map_one = 0 ∧ ∃ e, contents (extensions s) !! ASIC_PLUGIN_INTERFACE_NAME = Some e ∧
      serves e ASIC_PLUGIN_INTERFACE_MAJOR ASIC_PLUGIN_INTERFACE_MINOR ∧ as_asic (plugin_interface e) = Some a
  end.

Lemma get_asic_run s a :
  asic_available s a → ∃ r, get_plugin_asic_interface map_one s = Ok (Some a, set_asic (Some a) r s).
Proof using Type.
  unfold asic_available, get_plugin_asic_interface. step. destruct (p_asic_plugin_interface s) as [b|] eqn:Ea.
  - intros ->. exists (extensions s). destruct s. simpl in *. by rewrite Ea.
  - intros (Hone & e & He & [Hma Hmi] & Has). step. rewrite find_spec, He by done.
    rewrite bool_decide_true by done. rewrite (proj2 (Z.leb_le _ _) Hmi). simpl. rewrite Has. eexists. by step.
Qed.

(** A round in which the switch, the registry and the database work.  Either the
    reports are about different addresses, or the index of the table follows the
    open transaction. *)
Record round_ok (s : mlst) (a : asic_interface) (nodes : list mlearn_hmap_node) : Prop := RoundOk {
  ro_idl : idl s = true;
  ro_asic : asic_available s a;
  ro_nodes : ∃ f, get_mac_learning_hmap a = Some f ∧ f (hmap_reads s) = Some nodes;
  ro_txn : mac_txn_create (hmap_reads s) = true;
  ro_macs : ∀ n, n ∈ nodes → valid_mac (mn_mac n) ∧ vlan_known n;
  ro_order : NoDup ((λ n, (mn_mac n, mn_vlan n)) <$> nodes) ∨ index_current;
}.

Lemma node_keys_once s a nodes : round_ok s a nodes → NoDup (node_key <$> nodes) ∨ index_current.
Proof using Type.
  intros Hok. pose proof (ro_macs s a nodes Hok) as Hm. destruct (ro_order s a nodes Hok) as [Hnd|?]; [left|by right]. clear Hok.
  induction nodes as [|n l IH]; [constructor|]. rewrite !fmap_cons, !NoDup_cons in *. destruct Hnd as [Hn Hnd]. split.
  - intros (m & E & Hin)%list_elem_of_fmap. unfold node_key in E. injection E as E Ev. destruct Hn.
    apply eth_addr_str_inj in E; [|apply Hm; left|apply Hm; by right]. apply list_elem_of_fmap. exists m. by rewrite E, Ev.
  - apply IH; [|done]. intros m Hin. apply Hm. by right.
Qed.

Lemma wf_seen t : mac_wf t → ∀ k r, r ∈ rows_of t k → seen r.
Proof using Type.
  intros [Hc _] k r [_ Hr]%list_elem_of_filter. destruct (Hc r Hr) as [Hi Hd]. unfold seen.
  by rewrite Hi, Hd, index_shows_committed.
Qed.

Lemma wf_live t k : mac_wf t → live (rows_of t k) = rows_of t k.
Proof using Type. intros [Hc _]. apply filter_all. intros r [_ Hr]%list_elem_of_filter. by apply Hc. Qed.

Lemma mac_learning_update_db_run bridges s a nodes :
  round_ok s a nodes → mac_wf (mac_table s) →
  ∃ s', mac_learning_update_db map_one bridges s = Ok (tt, s') ∧
    (∃ t', mac_table s' = (if mac_txn_commit (hmap_reads s) then committed t' else mac_table s) ∧
      other_rows t' = other_rows (mac_table s) ∧
      ∀ k, (length (live (rows_of t' k)) ≤ 1)%nat ∧
        entry_of (rows_of t' k) = heard bridges nodes k (mac_lookup (mac_table s) k)) ∧
    maclearn_seqno s' = maclearn_seqno s.
Proof using Type.
  intros Hok Hwf. pose proof (node_keys_once s a nodes Hok) as Hnd. destruct Hok as [Hi Ha (f & Hf & Hn) Ht Hm _].
  destruct (get_asic_run s a Ha) as (r & Ea). unfold mac_learning_update_db. step. rewrite Hi. cbn [negb].
  step Ea. cbv iota. rewrite Hf. step. step. change (hmap_reads (set_asic (Some a) r s)) with (hmap_reads s).
  rewrite Hn, Ht. cbn [negb]. step.
  destruct (update_loop_mac bridges nodes (count_read (set_asic (Some a) r s)) Hnd) as (t' & E & Ho & Hall).
  { intros n ?. by apply Hm. }
  { intros n x _. by apply wf_seen. }
  { intros k. simpl. rewrite wf_live by done. apply Hwf. }
  step E. eexists. split; [reflexivity|]. split; [|done]. exists t'. split; [by destruct (mac_txn_commit _)|].
  split; [done|]. intros k. destruct (Hall k) as [? ->]. split; [done|]. unfold entry_of. simpl. by rewrite wf_live.
Qed.

Lemma other_rows_committed t t0 :
  (∀ r, r ∈ t0 → closed r) → other_rows t = other_rows t0 → other_rows (committed t) = other_rows t0.
Proof using Type.
  intros Hc Ho. unfold other_rows, committed. rewrite filter_fmap_keep by done. rewrite list_filter_filter.
  rewrite (list_filter_iff _ (λ r, (mr_deleted r = false) ∧ (mr_from r ≠ OVSREC_MAC_FROM_DYNAMIC ∨ mr_vlan r = None))) by (intros; tauto).
  rewrite <-list_filter_filter. fold (other_rows t). rewrite Ho.
  assert (∀ r, r ∈ other_rows t0 → closed r) as Hc' by (intros r [_ ?]%list_elem_of_filter; auto).
  rewrite filter_all by (intros r Hr; by apply Hc').
  apply list_fmap_id_on. intros r [Hi Hd]%Hc'. destruct r. simpl in *. by subst.
Qed.

(** C18: when the database takes the transaction, one update of the MAC table
    returns and applies the reports of the switch to the map of addresses in the
    order in which they are visited: each new or moved address goes to the bridge
    that has its port (a report on an unknown port is ignored), each deleted one
    goes, and later reports on an address see what earlier ones did.  For this
    the reports are about different addresses, or the index of the table
    follows the open transaction.  Every other address and all rows that
    were not learned stay as they were, and an address is at most once in a VLAN. *)
Theorem mac_learning_update_db_refines bridges s a nodes :
  round_ok s a nodes → mac_txn_commit (hmap_reads s) = true → mac_wf (mac_table s) →
  ∃ s', mac_learning_update_db map_one bridges s = Ok (tt, s') ∧ mac_wf (mac_table s') ∧
    other_rows (mac_table s') = other_rows (mac_table s) ∧
    ∀ k, mac_lookup (mac_table s') k = heard bridges nodes k (mac_lookup (mac_table s) k).
Proof using Type.
  intros Hok Hcm Hwf. destruct (mac_learning_update_db_run bridges s a nodes Hok Hwf)
    as (s' & E & (t' & Et & Ho & Hall) & _). rewrite Hcm in Et.
  exists s'. split; [done|]. rewrite Et. split; [split|split].
  - intros r (x & -> & _)%list_elem_of_fmap. done.
  - intros k. rewrite rows_of_committed, length_fmap. apply Hall.
  - apply other_rows_committed; [apply Hwf|done].
  - intros k. rewrite mac_lookup_committed. apply Hall.
Qed.

(** A transaction on the MAC table that is not taken is not retried: the
    table is as before, and the next rounds do nothing until the switch reports
    again, although the reports were read. *)
Theorem mac_learning_commit_lost bridges s a nodes seq :
  round_ok s a nodes → mac_wf (mac_table s) → mac_txn_commit (hmap_reads s) = false → seq ≠ maclearn_seqno s →
  ∃ s', mac_learning_reconfigure map_one bridges seq s = Ok (tt, s') ∧ mac_table s' = mac_table s ∧
    mac_learning_reconfigure map_one bridges seq s' = Ok (tt, s').
Proof using Type.
  intros Hok Hwf Hcm Hseq. unfold mac_learning_reconfigure at 1. step. rewrite (proj2 (Z.eqb_neq _ _) Hseq). step.
  destruct (mac_learning_update_db_run bridges (set_seqnos seq (maclearn_idl_seqno s) s) a nodes)
    as (s' & E & (t' & Et & _) & Es); [by destruct Hok|done|].
  exists s'. split; [done|]. change (hmap_reads (set_seqnos _ _ s)) with (hmap_reads s) in Et. rewrite Hcm in Et.
  split; [done|]. unfold mac_learning_reconfigure. step. rewrite Es. simpl. by rewrite Z.eqb_refl.
Qed.

(** ** Requests to the switch *)

Lemma omap_if {A B} (P : A → Prop) `{∀ x, Decision (P x)} (f g : A → option B) (l : list A) :
  (∀ x, P x → g x = f x) → (∀ x, ¬ P x → g x = None) → omap g l = omap f (filter P l).
Proof using Type.
  intros Hf Hn. induction l as [|x l IH]; [done|]. rewrite filter_cons. destruct (decide (P x)) as [Hx|Hx]; csimpl.
  - by rewrite Hf, IH.
  - by rewrite Hn, IH.
Qed.

Lemma omap_Some_fmap {A B} (f : A → B) (l : list A) : omap (λ x, Some (f x)) l = f <$> l.
Proof using Type. induction l as [|x l IH]; [done|]. csimpl. by rewrite IH. Qed.

Definition flushed (ps : list mac_flush_params) (s : mlst) : mlst :=
  MlSt (idl s) (p_asic_plugin_interface s) (maclearn_seqno s) (maclearn_idl_seqno s) (extensions s) (hmap_reads s)
    (mac_table s) (port_requests s) (vlan_requests s) (flush_log s ++ ps).

Lemma flushed_nil s : flushed [] s = s.
Proof using Type. destruct s. unfold flushed. simpl. by rewrite app_nil_r. Qed.

Lemma flushed_app ps ps' s : flushed ps' (flushed ps s) = flushed (ps ++ ps') s.
Proof using Type. destruct s. unfold flushed. simpl. by rewrite app_assoc. Qed.

Section Flush.
Context (a : asic_interface) (Hfn : l2_addr_flush_fn a ≠ None).

Lemma flush_if_run p s : flush_if a p s = Ok (tt, flushed (option_list p) s).
Proof using Hfn.
  destruct p as [p|]; [|by rewrite flushed_nil]. unfold flush_if, asic_flush. by destruct (l2_addr_flush_fn a).
Qed.

Lemma flush_loop_run {A} (P : A → option mac_flush_params) l s :
  mfor l (λ x, flush_if a (P x)) s = Ok (tt, flushed (omap P l) s).
Proof using Hfn.
  revert s. induction l as [|x l IH]; intros s; [by rewrite flushed_nil|]. cbn [mfor].
  erewrite bind_run by apply flush_if_run. rewrite IH, flushed_app. simpl. by destruct (P x).
Qed.

(** The request for a VLAN that has no row. *)
Definition vlan_flush (m : shash ovsrec_vlan) (v : vlan) : option mac_flush_params :=
  match m !! vl_name v with Some _ => None | None => Some (FlushParams (vid v) "" 0 L2MAC_FLUSH_BY_VLAN) end.

Lemma mac_flush_deleted_vlans_run rows vs s :
  asic_available s a →
  ∃ s', mac_flush_deleted_vlans map_one (Some (rows, vs)) s = Ok (tt, s') ∧
    flush_log s' = flush_log s ++ omap (vlan_flush (shash_collect vr_name rows)) vs.
Proof using Hfn.
  intros (r & Ea)%get_asic_run. unfold mac_flush_deleted_vlans. step Ea. cbv iota.
  rewrite (mfor_ext _ (λ v, flush_if a (vlan_flush (shash_collect vr_name rows) v)))
    by (intros v x; unfold vlan_flush; by case_match).
  rewrite flush_loop_run. eexists. by split.
Qed.

(** The request for a port that is not wanted. *)
Definition port_flush (handle : string → Z) (wanted : shash ovsrec_port) (p : port) : option mac_flush_params :=
  match wanted !! bp_name p with Some _ => None | None => port_flush_params (bp_name p) (handle (bp_name p)) end.

Lemma mac_flush_deleted_ports_run handle ps wanted s :
  asic_available s a →
  ∃ s', mac_flush_deleted_ports map_one handle (Some (ps, wanted)) s =
      Ok ((λ p, Port (bp_name p) (wanted !! bp_name p) (bp_ifaces p)) <$> ps, s') ∧
    flush_log s' = flush_log s ++ omap (port_flush handle wanted) ps.
Proof using Hfn.
  intros (r & Ea)%get_asic_run. unfold mac_flush_deleted_ports. step Ea. cbv iota.
  erewrite (bind_run (mfor _ _)).
  2: { rewrite (mfor_ext _ (λ p, flush_if a (port_flush handle wanted p)))
         by (intros p x; unfold port_flush; by case_match). apply flush_loop_run. }
  eexists. by split.
Qed.
End Flush.

(** the plugin asks the switch to forget the addresses of exactly the
    VLANs that the reconfiguration of the bridge then deletes, in the order of
    the structures. *)
Theorem vlan_flush_matches_deletion `{HV : VlanSchema} rows vs s a :
  l2_addr_flush_fn a ≠ None → asic_available s a → vlan_inv vs → vlan_rows_ok rows vs →
  ∃ s' vs', mac_flush_deleted_vlans map_one (Some (rows, vlans vs)) s = Ok (tt, s') ∧
    bridge_configure_vlans rows vs = Ok (tt, vs') ∧
    flush_log s' = flush_log s ++
      ((λ v, FlushParams (vid v) "" 0 L2MAC_FLUSH_BY_VLAN) <$>
       filter (λ v, vl_name v ∉ vl_name <$> vlans vs') (vlans vs)).
Proof using Type.
  intros Hfn Ha Hi Hr. destruct (mac_flush_deleted_vlans_run a Hfn rows (vlans vs) s Ha) as (s' & E & El).
  destruct (bridge_configure_vlans_run rows vs Hi Hr) as (vs' & Ev & _ & Hall & Hk).
  exists s', vs'. split; [done|]. split; [done|]. rewrite El. f_equal.
  assert (∀ v, vl_name v ∈ vl_name <$> vlans vs' ↔ is_Some (shash_collect vr_name rows !! vl_name v)) as Hn.
  { intros v. split; [|apply Hk]. intros (w & -> & Hw)%list_elem_of_fmap. destruct (Hall w Hw) as (r & ? & _). eauto. }
  rewrite <-omap_Some_fmap. apply omap_if; intros v; rewrite Hn; unfold vlan_flush;
    destruct (shash_collect vr_name rows !! vl_name v); naive_solver.
Qed.

(** The deletion of ports removes this port: it is not wanted, or it is but its
    row has none of its interfaces any more. *)
Definition port_goes (wanted : shash ovsrec_port) (p : port) : Prop :=
  match wanted !! bp_name p with
  | None => True
  | Some row => ∀ n, n ∈ bp_ifaces p → n ∉ new_ifaces row
  end.

(** C36: the plugin asks the switch to forget the addresses of exactly the
    ports that are not wanted (bonds by their hardware handle, the others by
    name; a bond without a handle is skipped), in the order of the structures.
    The deletion that follows destroys all of these, and besides them exactly the
    wanted ports all of whose interfaces were replaced in the row, which are not
    flushed ([replaced_port_not_flushed] shows one). *)
Theorem port_flush_precedes_deletion br_ofproto br_cfg handle wanted bs s a `{HD : SwitchDev} :
  l2_addr_flush_fn a ≠ None → asic_available s a → bwf bs → full bs →
  ∃ ps s' bs', mac_flush_deleted_ports map_one handle (Some (ports bs, wanted)) s = Ok (ps, s') ∧
    bridge_del_ports br_ofproto br_cfg wanted bs = Ok (tt, bs') ∧
    flush_log s' = flush_log s ++
      omap (λ p, port_flush_params (bp_name p) (handle (bp_name p))) (filter (λ p, wanted !! bp_name p = None) (ports bs)) ∧
    ∀ p, p ∈ ports bs → bp_name p ∉ port_names bs' ↔ port_goes wanted p.
Proof using Type.
  intros Hfn Ha Hw Hf. destruct (mac_flush_deleted_ports_run a Hfn handle (ports bs) wanted s Ha) as (s' & E & El).
  destruct (del_ports_loop br_ofproto false wanted bs Hw Hf) as (bs1 & Eb & Hf' & Hw' & Ho).
  destruct (update_loop_run br_cfg (wanted_pairs wanted) bs1) as (bs' & Eu & Ep & _).
  eexists _, s', bs'. split; [done|].
  split; [unfold bridge_del_ports, del_ports; step; step Eb; rewrite mfor_nested; exact Eu|]. split.
  - rewrite El. f_equal. apply omap_if; intros p; unfold port_flush; destruct (wanted !! bp_name p); naive_solver.
  - intros p Hp. unfold port_names at 1. rewrite Ep. fold (port_names bs1). unfold port_goes.
    assert (∀ n, n ∈ bp_ifaces p ↔ has bs n (bp_name p)) as Hhas by by apply Hw.
    destruct (wanted !! bp_name p) as [row|] eqn:Ew; split.
    + intros Hn n Hin Hnew. apply Hn. apply Hhas in Hin as (f & Hin & <- & Eq). rewrite <-Eq. apply Hw'.
      apply Ho. split; [done|]. exists row. by rewrite Eq.
    + intros Hn Hq. destruct (Hf' _ Hq) as (n & f & [Hin (row' & Hrow & Hnew)]%Ho & En & Eq).
      rewrite Eq, Ew in Hrow. injection Hrow as ->. apply (Hn (f_name f)); [|done]. apply Hhas. exists f. by split.
    + done.
    + intros _ Hq. destruct (Hf' _ Hq) as (n & f & [_ (row & Hrow & _)]%Ho & _ & Eq). congruence.
Qed.

(** ** Requests of the database *)

(** The requests of a port row. *)
Definition port_row_flushes (row : flush_port) : list mac_flush_params :=
  let handle := smap_get_int (fp_status row) PORT_STATUS_BOND_HW_HANDLE_KEY (-1) in
  omap (λ b : bool, if b then port_flush_params (fp_name row) handle else None) (fp_macs_invalid row) ++
  omap (λ v, v ← v; port_vlan_flush_params (fp_name row) handle (to_signed 32 v)) (fp_macs_invalid_on_vlans row).

(** The row has a request. *)
Definition port_row_pending (row : flush_port) : bool :=
  existsb id (fp_macs_invalid row) ||
  existsb (λ v, match v with Some _ => true | None => false end) (fp_macs_invalid_on_vlans row).

Definition port_row_served (row : flush_port) : flush_port :=
  if fp_modified row && port_row_pending row && port_txn_commit (fp_name row)
  then FlushPort (fp_name row) (fp_status row) [] [] (fp_modified row) else row.

Definition vlan_row_served (row : flush_vlan) : flush_vlan :=
  if fv_modified row && vlan_txn_commit (fv_id row) then FlushVlan (fv_id row) [] (fv_modified row) else row.

Definition vlan_row_flush (row : flush_vlan) : mac_flush_params :=
  FlushParams (to_signed 32 (fv_id row)) "" 0 L2MAC_FLUSH_BY_VLAN.

Definition asic_cached (a : asic_interface) (s : mlst) : Prop := p_asic_plugin_interface s = Some a.

Section Requests.
Context (a : asic_interface) (Hfn : l2_addr_flush_fn a ≠ None).

Lemma get_asic_cached s : asic_cached a s → get_plugin_asic_interface map_one s = Ok (Some a, s).
Proof using Type. unfold asic_cached, get_plugin_asic_interface. intros E. step. by rewrite E. Qed.

Lemma mac_flush_on_port_run row s :
  asic_cached a s →
  mac_flush_on_port map_one row s = Ok (tt,
    let s1 := flushed (port_row_flushes row) s in
    if port_row_pending row && port_txn_commit (fp_name row)
    then set_requests ((λ x, if bool_decide (fp_name x = fp_name row)
           then FlushPort (fp_name row) (fp_status row) [] [] (fp_modified row) else x) <$> port_requests s)
         (vlan_requests s) s1
    else s1).
Proof using Hfn.
  intros Ha. unfold mac_flush_on_port. erewrite bind_run by by apply get_asic_cached. cbv iota beta zeta.
  set (handle := smap_get_int _ _ _).
  erewrite (bind_run (mfor (fp_macs_invalid row) _)).
  2: { rewrite (mfor_ext _ (λ b : bool, flush_if a (if b then port_flush_params (fp_name row) handle else None)))
         by (intros [] x; done). by apply flush_loop_run. }
  erewrite (bind_run (mfor (fp_macs_invalid_on_vlans row) _)).
  2: { rewrite (mfor_ext _ (λ v : option Z, flush_if a (v ← v; port_vlan_flush_params (fp_name row) handle (to_signed 32 v))))
         by (intros [v|] x; done). by apply flush_loop_run. }
  rewrite flushed_app. fold (port_row_pending row). destruct (port_row_pending row && port_txn_commit (fp_name row)); done.
Qed.

Lemma mac_flush_on_vlan_run row s :
  asic_cached a s →
  mac_flush_on_vlan map_one row s = Ok (tt,
    let s1 := flushed [vlan_row_flush row] s in
    if vlan_txn_commit (fv_id row)
    then set_requests (port_requests s) ((λ x, if bool_decide (fv_id x = fv_id row)
           then FlushVlan (fv_id row) [] (fv_modified row) else x) <$> vlan_requests s) s1
    else s1).
Proof using Hfn.
  intros Ha. unfold mac_flush_on_vlan. erewrite bind_run by by apply get_asic_cached. cbv iota beta zeta.
  unfold asic_flush. destruct (l2_addr_flush_fn a) as [f|]; [|done].
  destruct (vlan_txn_commit (fv_id row)); done.
Qed.

(** A loop over the rows of a table that serves each of them. *)
Lemma request_loop {R K O} (rows : mlst → list R) (other : mlst → O) (name : R → K) (body : R → M mlst unit)
  (served : R → R) (flushes : R → list mac_flush_params) :
  (∀ row, name (served row) = name row) →
  (∀ d row r s, asic_cached a s → rows s = d ++ row :: r → NoDup (name <$> rows s) →
     ∃ s', body row s = Ok (tt, s') ∧ asic_cached a s' ∧ rows s' = d ++ served row :: r ∧ other s' = other s ∧
       flush_log s' = flush_log s ++ flushes row) →
  ∀ r d s, asic_cached a s → rows s = d ++ r → NoDup (name <$> rows s) →
  ∃ s', mfor r body s = Ok (tt, s') ∧ asic_cached a s' ∧ rows s' = d ++ (served <$> r) ∧ other s' = other s ∧
    flush_log s' = flush_log s ++ concat (flushes <$> r).
Proof using Type.
  intros Hn Hb. induction r as [|row r IH]; intros d s Ha El Hnd.
  { exists s. simpl. rewrite !app_nil_r in *. done. }
  destruct (Hb d row r s Ha El Hnd) as (s1 & E1 & Ha1 & El1 & Eo1 & Ef1).
  destruct (IH (d ++ [served row]) s1 Ha1) as (s' & E & Ha' & El' & Eo' & Ef').
  { by rewrite <-app_assoc. }
  { rewrite El in Hnd. rewrite El1. rewrite fmap_app in *. simpl in *. by rewrite Hn. }
  exists s'. cbn [mfor]. step E1. split; [done|]. split; [done|]. split; [by rewrite El', <-app_assoc|].
  split; [congruence|]. by rewrite Ef', Ef1, <-app_assoc.
Qed.

Lemma port_row_step d row r s :
  asic_cached a s → port_requests s = d ++ row :: r → NoDup (fp_name <$> port_requests s) →
  ∃ s', mwhen (fp_modified row) (mac_flush_on_port map_one row) s = Ok (tt, s') ∧ asic_cached a s' ∧
    port_requests s' = d ++ port_row_served row :: r ∧ vlan_requests s' = vlan_requests s ∧
    flush_log s' = flush_log s ++ if fp_modified row then port_row_flushes row else [].
Proof using Hfn.
  intros Ha El Hnd. unfold port_row_served. destruct (fp_modified row) eqn:Em.
  2: { exists s. by rewrite app_nil_r. }
  eexists. split; [by apply mac_flush_on_port_run|]. cbv zeta.
  destruct (port_row_pending row && port_txn_commit (fp_name row)) eqn:Ep; cbn [andb]; rewrite Ep; [|done].
  split; [done|]. split; [|done]. simpl. rewrite El in Hnd |- *. rewrite Em. by apply (replace_by_name fp_name).
Qed.

Lemma vlan_row_step d row r s :
  asic_cached a s → vlan_requests s = d ++ row :: r → NoDup (fv_id <$> vlan_requests s) →
  ∃ s', mwhen (fv_modified row) (mac_flush_on_vlan map_one row) s = Ok (tt, s') ∧ asic_cached a s' ∧
    vlan_requests s' = d ++ vlan_row_served row :: r ∧ port_requests s' = port_requests s ∧
    flush_log s' = flush_log s ++ if fv_modified row then [vlan_row_flush row] else [].
Proof using Hfn.
  intros Ha El Hnd. unfold vlan_row_served. destruct (fv_modified row) eqn:Em.
  2: { exists s. by rewrite app_nil_r. }
  eexists. split; [by apply mac_flush_on_vlan_run|]. cbv zeta. cbn [andb].
  destruct (vlan_txn_commit (fv_id row)); [|done].
  split; [done|]. split; [|done]. simpl. rewrite El in Hnd |- *. rewrite Em. by apply (replace_by_name fv_id).
Qed.
End Requests.

(** when request columns of both tables changed, the plugin sends the
    switch the requests of all modified rows, ports first, and clears the
    requests of the modified rows whose transaction is taken; the other rows
    keep theirs. *)
Theorem l2_addr_flush_serves a s :
  l2_addr_flush_fn a ≠ None → p_asic_plugin_interface s = Some a →
  NoDup (fp_name <$> port_requests s) → NoDup (fv_id <$> vlan_requests s) →
  ∃ s', l2_addr_flush map_one true true s = Ok (tt, s') ∧
    flush_log s' = flush_log s ++
      concat ((λ row, if fp_modified row then port_row_flushes row else []) <$> port_requests s) ++
      concat ((λ row, if fv_modified row then [vlan_row_flush row] else []) <$> vlan_requests s) ∧
    port_requests s' = port_row_served <$> port_requests s ∧
    vlan_requests s' = vlan_row_served <$> vlan_requests s.
Proof using Type.
  intros Hfn Ha Hp Hv.
  destruct (request_loop a port_requests vlan_requests fp_name _ port_row_served _
    (λ row, ltac:(unfold port_row_served; by case_match)) (port_row_step a Hfn) (port_requests s) [] s Ha eq_refl Hp)
    as (s1 & E1 & Ha1 & Ep1 & Ev1 & Ef1).
  destruct (request_loop a vlan_requests port_requests fv_id _ vlan_row_served _
    (λ row, ltac:(unfold vlan_row_served; by case_match)) (vlan_row_step a Hfn) (vlan_requests s1) [] s1 Ha1 eq_refl)
    as (s' & E & _ & Ev & Ep & Ef); [by rewrite Ev1|].
  exists s'. split; [|split; [|split]].
  - unfold l2_addr_flush. simpl. erewrite (bind_run (gets _ ≫= _)) by (step; exact E1). step. exact E.
  - by rewrite Ef, Ef1, Ev1, <-app_assoc.
  - by rewrite Ep, Ep1.
  - by rewrite Ev, Ev1.
Qed.

(** A request on a bond whose hardware handle is not in its status is cleared
    without any request to the switch. *)
Theorem bond_request_lost a row s :
  l2_addr_flush_fn a ≠ None → p_asic_plugin_interface s = Some a → port_requests s = [row] →
  is_lag_name (fp_name row) = true → fp_status row !! PORT_STATUS_BOND_HW_HANDLE_KEY = None →
  fp_macs_invalid row = [true] → fp_macs_invalid_on_vlans row = [] → port_txn_commit (fp_name row) = true →
  ∃ s', mac_flush_on_port map_one row s = Ok (tt, s') ∧ flush_log s' = flush_log s ∧
    fp_macs_invalid <$> port_requests s' = [[]].
Proof using Type.
  intros Hfn Ha Er Hl Hh Hm Hv Hc. eexists. split; [by apply (mac_flush_on_port_run a)|].
  unfold port_row_flushes, port_row_pending, port_flush_params. rewrite Hm, Hv, Hl, Hc, smap_get_int_default by done.
  simpl. rewrite app_nil_r, Er. simpl. by rewrite bool_decide_true.
Qed.

(** A VLAN row that was modified for another reason, without any request of its
    own, is flushed as well. *)
Theorem vlan_flushed_without_request a row s :
  l2_addr_flush_fn a ≠ None → p_asic_plugin_interface s = Some a → fv_macs_invalid row = [] →
  ∃ s', mac_flush_on_vlan map_one row s = Ok (tt, s') ∧ flush_log s' = flush_log s ++ [vlan_row_flush row].
Proof using Type.
  intros Hfn Ha _. eexists. split; [by apply (mac_flush_on_vlan_run a)|]. cbv zeta. by case_match.
Qed.
End Table.

(** ** Examples *)

Module MacExample.
Definition env (taken : bool) : MacEnv := {|
  OVSREC_MAC_FROM_DYNAMIC := "dynamic";
  LAG_PORT_NAME_PREFIX := "lag";
  LAG_PORT_NAME_PREFIX_LENGTH := 3;
  PORT_STATUS_BOND_HW_HANDLE_KEY := "bond_hw_handle";
  index_shows := λ inserted deleted, negb deleted;
  index_shows_committed := eq_refl;
  ops_mac_set_vlan := Some;
  mac_txn_create := λ _, true;
  mac_txn_commit := λ _, taken;
  port_txn_commit := λ _, taken;
  vlan_txn_commit := λ _, taken;
|}.

(** One address moved to [p1], one is gone; a third is added and goes at once, a
    fourth goes and comes back. *)
Definition nodes : list mlearn_hmap_node :=
  [MlearnNode 1 [0;1;2;3;4;5] MLEARN_MOVE "p1"; MlearnNode 1 [0;1;2;3;4;6] MLEARN_DEL "";
   MlearnNode 1 [0;1;2;3;4;8] MLEARN_ADD "p1"; MlearnNode 1 [0;1;2;3;4;8] MLEARN_DEL "";
   MlearnNode 1 [0;1;2;3;4;9] MLEARN_DEL ""; MlearnNode 1 [0;1;2;3;4;9] MLEARN_ADD "p1"].
Definition asic : asic_interface := Asic (Some (λ _, Some nodes)) (Some (λ _ _, 0)).
Definition bridges : list (string * bpst) := [("br0", PortsExample.before)].
Definition table : list ovsrec_mac :=
  [MacRow "00:01:02:03:04:05" "dynamic" (Some 1) "br0" "old" false false;
   MacRow "00:01:02:03:04:06" "dynamic" (Some 1) "br0" "old" false false;
   MacRow "00:01:02:03:04:09" "dynamic" (Some 1) "br0" "old" false false;
   MacRow "00:01:02:03:04:07" "hw-vtep" None "br0" "old" false false].
Definition start : mlst :=
  MlSt true (Some asic) 0 0 registry_start 0 table
    [FlushPort "eth1" ∅ [true] [Some 7] true; FlushPort "eth2" ∅ [true] [] false] [FlushVlan 9 [true] true] [].

Lemma table_wf taken : mac_wf (HM := env taken) table.
Proof.
  split.
  - intros r Hr. cases_elem Hr; done.
  - intros [a v]. unfold rows_of, table. rewrite !filter_cons, filter_nil.
    repeat case_decide; simpl; try lia; unfold row_of in *; simpl in *; naive_solver.
Qed.

Lemma round_is_ok taken : round_ok (HM := env taken) 0 start asic nodes.
Proof.
  split; [done|done|by exists (λ _, Some nodes)|done| |right; by intros [] []].
  intros n Hn. cases_elem Hn; (split; [split; [done|by_compute]|done]).
Qed.

Lemma mac_learning_update_db_refines_witness :
  ∃ s', mac_learning_update_db (HL := ref_lib) (HM := env true) 0 bridges start = Ok (tt, s') ∧
    mac_lookup (HM := env true) (mac_table s') ("00:01:02:03:04:05", 1) = Some ("br0", "p1") ∧
    mac_lookup (HM := env true) (mac_table s') ("00:01:02:03:04:06", 1) = None ∧
    mac_lookup (HM := env true) (mac_table s') ("00:01:02:03:04:08", 1) = None ∧
    mac_lookup (HM := env true) (mac_table s') ("00:01:02:03:04:09", 1) = Some ("br0", "p1").
Proof.
  destruct (mac_learning_update_db_refines (HL := ref_lib) (HM := env true) 0 bridges start asic nodes
    (round_is_ok true) eq_refl (table_wf true)) as (s' & E & _ & _ & Hk).
  exists s'. split; [exact E|]. clear E. rewrite !Hk. vm_compute. split_and!; reflexivity.
Defined.

Lemma mac_learning_commit_lost_witness :
  ∃ s', mac_learning_reconfigure (HL := ref_lib) (HM := env false) 0 bridges 1 start = Ok (tt, s') ∧
    mac_table s' = table.
Proof.
  destruct (mac_learning_commit_lost (HL := ref_lib) (HM := env false) 0 bridges start asic nodes 1
    (round_is_ok false) (table_wf false) eq_refl ltac:(done)) as (s' & E & Et & _). exists s'. split; [exact E|exact Et].
Defined.

Lemma l2_addr_flush_serves_witness :
  ∃ s', l2_addr_flush (HL := ref_lib) (HM := env true) 0 true true start = Ok (tt, s') ∧
    flush_log s' = [FlushParams 0 "eth1" 0 L2MAC_FLUSH_BY_PORT; FlushParams 7 "eth1" 0 L2MAC_FLUSH_BY_PORT_VLAN;
                    FlushParams 9 "" 0 L2MAC_FLUSH_BY_VLAN].
Proof.
  destruct (l2_addr_flush_serves (HL := ref_lib) (HM := env true) 0 asic start) as (s' & E & Ef & _);
    [done|done|by_compute|by_compute|]. exists s'. split; [exact E|]. rewrite Ef. vm_compute. reflexivity.
Defined.

Lemma port_flush_precedes_deletion_witness :
  ∃ ps s' bs', mac_flush_deleted_ports (HM := env true) 0 (λ _, -1)
      (Some (ports PortsExample.before, PortsExample.wanted)) start = Ok (ps, s') ∧
    bridge_del_ports (HL := ref_lib) (HD := PortsExample.dev) true (Some PortsExample.row) PortsExample.wanted
      PortsExample.before = Ok (tt, bs') ∧
    flush_log s' = [FlushParams 0 "old" 0 L2MAC_FLUSH_BY_PORT] ∧ "old" ∉ port_names bs'.
Proof.
  destruct (port_flush_precedes_deletion (HL := ref_lib) (HM := env true) 0 true (Some PortsExample.row) (λ _, -1)
    PortsExample.wanted PortsExample.before start asic (HD := PortsExample.dev))
    as (ps & s' & bs' & E & Eb & Ef & Hn); [done|done|apply PortsExample.before_ok|apply PortsExample.before_ok|].
  exists ps, s', bs'. split; [exact E|]. split; [exact Eb|]. clear E Eb. split; [rewrite Ef; vm_compute; reflexivity|].
  apply (Hn (Port "old" None ["eth9"])); [right; left|vm_compute; exact I].
Defined.

(** The row of port "old" now lists another interface: the structure of the port
    is destroyed and made anew, but its addresses are not forgotten. *)
Example replaced_port_not_flushed :
  let wanted := <["old" := PortRow "old" [PortsExample.if_row 8 "eth8"]]> PortsExample.wanted in
  (∃ ps s', mac_flush_deleted_ports (HM := env true) 0 (λ _, -1) (Some (ports PortsExample.before, wanted)) start =
     Ok (ps, s') ∧ flush_log s' = []) ∧
  ∃ bs', bridge_del_ports (HL := ref_lib) (HD := PortsExample.dev) true (Some PortsExample.row) wanted
    PortsExample.before = Ok (tt, bs') ∧ port_names bs' = ["p1"].
Proof.
  split; [eexists _, _|eexists]; (split; [vm_compute; reflexivity|reflexivity]).
Qed.

Lemma vlan_flush_matches_deletion_witness :
  ∃ s' vs', mac_flush_deleted_vlans 0 (Some (ex_vlan_rows, vlans ex_vlans)) start = Ok (tt, s') ∧
    bridge_configure_vlans (HL := ref_lib) (HV := ref_vlan_schema) ex_vlan_rows ex_vlans = Ok (tt, vs') ∧
    flush_log s' = ((λ v, FlushParams (vid v) "" 0 L2MAC_FLUSH_BY_VLAN) <$>
      filter (λ v, vl_name v ∉ vl_name <$> vlans vs') (vlans ex_vlans)).
Proof.
  destruct (vlan_flush_matches_deletion (HL := ref_lib) 0 (HV := ref_vlan_schema) ex_vlan_rows ex_vlans
    start asic) as (s' & vs' & E & Ev & Ef); [done|done|apply ex_vlans_inv|apply ex_vlan_rows_ok|].
  exists s', vs'. split; [exact E|]. split; [exact Ev|exact Ef].
Defined.
End MacExample.
