(* ===== verification/Sflow.v ===== *)
(** * sFlow: configuration of the switch and command line

    [bridge_configure_sflow] of bridge.c with its helpers, and the commands of
    sflow_vty.c that write and show the configuration. *)

From Stdlib Require Import Ascii.
From stdpp Require Import pretty.
From S2P Require Import Prelude OvsLib.
Local Open Scope Z_scope.

(** ** Rows *)

Record ovsrec_sflow := SflowRow {
  sf_targets : list string;
  sf_agent : option string;
  sf_agent_addr_family : option string;
  sf_sampling : option Z;
  sf_polling : option Z;
  sf_header : option Z;
  sf_max_datagram : option Z;
}.

(** What the code reads of a row of the Port table. *)
Record sflow_port := SflowPort {
  sp_name : string;
  sp_ip4_address : option string;
  sp_ip6_address : option string;
  sp_other_config : smap;
}.

(** [struct ofproto_sflow_options] *)
Record ofproto_sflow_options := SflowOptions {
  so_targets : gset string;
  so_sampling_rate : Z;
  so_polling_interval : Z;
  so_header_len : Z;
  so_sub_id : Z;
  so_agent_device : option string;
  so_agent_ip : string;
  so_max_datagram : Z;
  so_ports : gset string;
}.

(** Constants of sflow.h and openswitch-idl.h. *)
Class SflowDefs := {
  SFL_DEFAULT_SAMPLING_RATE : Z;
  SFL_DEFAULT_POLLING_INTERVAL : Z;
  SFL_DEFAULT_HEADER_SIZE : Z;
  SFL_DEFAULT_DATAGRAM_SIZE : Z;
  SFL_DEFAULT_COLLECTOR_PORT : Z;
  DEFAULT_VRF_NAME : string;
  DEFAULT_BRIDGE_NAME : string;
  SFLOW_PER_INTERFACE_KEY : string;
  SFLOW_PER_INTERFACE_TRUE : string;
  SFLOW_PER_INTERFACE_FALSE : string;
}.

Definition INET_ADDRSTRLEN : nat := 16.
Definition INET6_ADDRSTRLEN : nat := 46.

(** The part of a string before the first slash, and what follows the slash. *)
Fixpoint break_slash (s : string) : string * string :=
  match s with
  | EmptyString => (EmptyString, EmptyString)
  | String c s' =>
    if Ascii.eqb c "/"%char then (EmptyString, s')
    else let '(a, b) := break_slash s' in (String c a, b)
  end.

(** ** The switch *)

Section Switch.
Context `{HL : OvsLib, HS : SflowDefs}.

(** The address of the first port with an IPv4 address; [addr] is zeroed. *)
Definition sflow_agent_address_default (ports : list sflow_port) : string :=
  match List.find (λ p, bool_decide (is_Some (sp_ip4_address p))) ports with
  | Some p => String.substring 0 INET_ADDRSTRLEN (default "" (sp_ip4_address p))
  | None => ""
  end.

Inductive af := AF_UNSPEC | AF_INET | AF_INET6.

Definition sflow_agent_address (ports : list sflow_port) (intf_name family : option string) : string :=
  let AF := match family with
            | None => AF_UNSPEC
            | Some f => if bool_decide (f = "ipv4") then AF_INET
                        else if bool_decide (f = "ipv6") then AF_INET6 else AF_UNSPEC
            end in
  let addr :=
    match intf_name with
    | None => sflow_agent_address_default ports
    | Some name =>
      match List.find (λ p, bool_decide (sp_name p = name)) ports with
      | None => sflow_agent_address_default ports
      | Some p =>
        match AF with
        | AF_UNSPEC | AF_INET =>
          match sp_ip4_address p with
          | Some a => String.substring 0 INET_ADDRSTRLEN a
          | None => sflow_agent_address_default ports
          end
        | AF_INET6 =>
          match sp_ip6_address p with
          | Some a => String.substring 0 INET6_ADDRSTRLEN a
          | None => sflow_agent_address_default ports
          end
        end
      end
    end in
  (break_slash addr).1.

Definition sflow_ports_disabled (ports : list sflow_port) : gset string :=
  list_to_set (sp_name <$> filter (λ p,
    String.substring 0 (String.length DEFAULT_BRIDGE_NAME) (sp_name p) ≠ DEFAULT_BRIDGE_NAME ∧
    sp_other_config p ≠ ∅ ∧
    smap_get_bool (sp_other_config p) SFLOW_PER_INTERFACE_KEY true = false) ports).

(** The argument of [ofproto_set_sflow], and the next bridge number. *)
Definition bridge_configure_sflow (ports : list sflow_port) (cfg : option ovsrec_sflow) (sflow_bridge_number : Z)
    : option ofproto_sflow_options * Z :=
  match cfg with
  | None => (None, sflow_bridge_number)
  | Some cfg =>
    (Some (SflowOptions (list_to_set (sf_targets cfg))
       (default SFL_DEFAULT_SAMPLING_RATE (sf_sampling cfg))
       (default SFL_DEFAULT_POLLING_INTERVAL (sf_polling cfg))
       (default SFL_DEFAULT_HEADER_SIZE (sf_header cfg))
       sflow_bridge_number (sf_agent cfg)
       (sflow_agent_address ports (sf_agent cfg) (sf_agent_addr_family cfg))
       (default SFL_DEFAULT_DATAGRAM_SIZE (sf_max_datagram cfg))
       (sflow_ports_disabled ports)),
     sflow_bridge_number + 1)
  end.

(** The calls that [bridge_reconfigure] makes for its bridges and VRFs;
    [system_sflow]: the System row exists and refers to the configuration. *)
Fixpoint configure_sflow_all (ports : list sflow_port) (system_sflow : option ovsrec_sflow) (names : list string)
    (sflow_bridge_number : Z) : list (string * option ofproto_sflow_options) :=
  match names with
  | [] => []
  | name :: names' =>
    let '(oso, n) := match system_sflow with
                     | Some cfg => bridge_configure_sflow ports (Some cfg) sflow_bridge_number
                     | None => (None, sflow_bridge_number)
                     end in
    (name, oso) :: configure_sflow_all ports system_sflow names' n
  end.
End Switch.
