(* ===== verification/SflowCli.v ===== *)
(** * The sFlow commands: sflow_vty.c

    Each command opens a transaction, checks its arguments against the
    configuration, writes the row and commits, or aborts.  [show sflow] prints
    the configuration. *)

From Stdlib Require Import Ascii.
From stdpp Require Import pretty.
From S2P Require Import Prelude OvsLib Sflow.
Local Open Scope Z_scope.

(** The rows the commands read and write: [db_system] is the System row, with
    whether it refers to the sFlow row; the Port rows by name; the names of the
    Interface rows with their statistics. *)
Record sflow_db := SflowDb {
  db_system : option bool;
  db_sflow : option ovsrec_sflow;
  db_ports : gmap string smap;
  db_interfaces : list (string * option (gmap string Z));
}.

(** The database, and what the terminal showed. *)
Record cli := Cli {
  cli_db : sflow_db;
  vty_out_log : list string;
}.

Inductive cmd_result := CMD_SUCCESS | CMD_WARNING | CMD_OVSDB_FAILURE.

(** [cli_do_config_start] returns a transaction; [cli_do_config_finish] says
    that it was taken; the text that [prefix2str] prints for an address that
    [str2prefix] accepts. *)
Class CliEnv := {
  config_start : sflow_db → bool;
  config_finish : sflow_db → sflow_db → bool;
  str2prefix2str : string → option string;
}.

Definition MAX_COLLECTOR_LENGTH : nat := 89.

(** ** Strings *)

(** [strtok(s, "/")] and, on the rest of the string, [strtok(NULL, "/")]: the
    token and the rest. *)
Fixpoint strtok_slash (s : string) : option (string * string) :=
  match s with
  | EmptyString => None
  | String c s' => if Ascii.eqb c "/"%char then strtok_slash s' else Some (break_slash s)
  end.

(** [strtok(NULL, "\0")] *)
Definition strtok_rest (s : string) : option string := if bool_decide (s = "") then None else Some s.

(** The text of a collector. *)
Definition collector_text (ip : string) (port vrf : option string) : string :=
  match port, vrf with
  | None, None => ip
  | Some port, None => ip +:+ "/" +:+ port
  | None, Some vrf => ip +:+ "/" +:+ vrf
  | Some port, Some vrf => ip +:+ "/" +:+ port +:+ "/" +:+ vrf
  end%string.

(** [snprintf(collector, MAX_COLLECTOR_LENGTH, ...)] *)
Definition collector_str (ip : string) (port vrf : option string) : string :=
  String.substring 0 (MAX_COLLECTOR_LENGTH - 1) (collector_text ip port vrf).

Definition empty_row : ovsrec_sflow := SflowRow [] None None None None None None.

Section Cli.
Context `{HL : OvsLib, HS : SflowDefs, HC : CliEnv}.

Definition vty_out (msg : string) : M cli unit :=
  modify (λ s, Cli (cli_db s) (vty_out_log s ++ [msg])).

(** ** Transactions *)

(** [cli_do_config_finish] on the new database, and the result of the command. *)
Definition finish (db' : sflow_db) : M cli cmd_result :=
  s ← get;
  if config_finish (cli_db s) db'
  then modify (λ s, Cli db' (vty_out_log s)) ;; mret CMD_SUCCESS
  else mret CMD_OVSDB_FAILURE.

Definition with_row (db : sflow_db) (row : ovsrec_sflow) : sflow_db :=
  SflowDb (db_system db) (Some row) (db_ports db) (db_interfaces db).

Definition with_txn (body : sflow_db → M cli cmd_result) : M cli cmd_result :=
  s ← get;
  if config_start (cli_db s) then body (cli_db s) else mret CMD_OVSDB_FAILURE.

(** [sflow_insert] *)
Definition sflow_insert : ovsrec_sflow := empty_row.

(** ** Numbers *)

(** The commands for a number differ in the column they write. *)
Definition set_number (write : ovsrec_sflow → ovsrec_sflow) (given : bool) : M cli cmd_result :=
  with_txn (λ db,
    match db_sflow db with
    | None => if given then finish (with_row db (write sflow_insert))
              else vty_out "No sFlow configuration present." ;; mret CMD_SUCCESS
    | Some row => finish (with_row db (write row))
    end).

Definition sflow_set_sampling_rate (rate : option Z) : M cli cmd_result :=
  set_number (λ r, SflowRow (sf_targets r) (sf_agent r) (sf_agent_addr_family r) rate (sf_polling r) (sf_header r)
    (sf_max_datagram r)) (bool_decide (is_Some rate)).
Definition sflow_set_polling (interval : option Z) : M cli cmd_result :=
  set_number (λ r, SflowRow (sf_targets r) (sf_agent r) (sf_agent_addr_family r) (sf_sampling r) interval (sf_header r)
    (sf_max_datagram r)) (bool_decide (is_Some interval)).
Definition sflow_set_header_size (size : option Z) : M cli cmd_result :=
  set_number (λ r, SflowRow (sf_targets r) (sf_agent r) (sf_agent_addr_family r) (sf_sampling r) (sf_polling r) size
    (sf_max_datagram r)) (bool_decide (is_Some size)).
Definition sflow_set_max_datagram_size (size : option Z) : M cli cmd_result :=
  set_number (λ r, SflowRow (sf_targets r) (sf_agent r) (sf_agent_addr_family r) (sf_sampling r) (sf_polling r)
    (sf_header r) size) (bool_decide (is_Some size)).

(** ** Status *)

Definition sflow_set_port_config (port : string) (set : bool) : M cli cmd_result :=
  with_txn (λ db,
    match db_system db, db_ports db !! port with
    | None, _ | _, None => mret CMD_SUCCESS
    | Some _, Some other_config =>
      let value := if set then SFLOW_PER_INTERFACE_TRUE else SFLOW_PER_INTERFACE_FALSE in
      finish (SflowDb (db_system db) (db_sflow db)
        (<[port := <[SFLOW_PER_INTERFACE_KEY := value]> other_config]> (db_ports db)) (db_interfaces db))
    end).

Definition sflow_set_global_status (status : bool) : M cli cmd_result :=
  with_txn (λ db,
    match db_system db with
    | None => mret CMD_SUCCESS
    | Some enabled =>
      if status then
        if enabled then vty_out "sFlow already enabled." ;; mret CMD_SUCCESS
        else finish (SflowDb (Some true) (Some (default sflow_insert (db_sflow db))) (db_ports db) (db_interfaces db))
      else
        if bool_decide (is_Some (db_sflow db)) && enabled
        then finish (SflowDb (Some false) (db_sflow db) (db_ports db) (db_interfaces db))
        else vty_out "sFlow already disabled." ;; mret CMD_SUCCESS
    end).

(** ** Collectors *)

(** The copy of a target in [temp_collector]: the text before the null byte. *)
Definition copy_target (target : string) : M cli string :=
  if (String.length target <? MAX_COLLECTOR_LENGTH)%nat then mret target else die BufferOverflow.

Inductive collector_check := Refused (msg : string) | Accepted.

(** One iteration of the loop of [sflow_collector_add]: a message when the new
    collector is refused. *)
Definition check_collector (n_targets : nat) (ip : string) (port : option string) (target : string)
    : M cli collector_check :=
  temp_collector ← copy_target target;
  let tok := strtok_slash temp_collector in
  collector_ip ← deref (fst <$> tok);
  let collector_port := fst <$> (tok ≫= λ t, strtok_slash t.2) in
  if bool_decide (ip = collector_ip) then
    match collector_port, port with
    | Some collector_port, Some port =>
      if bool_decide (port = collector_port) then mret (Refused "sFlow collector already present.")
      else if (n_targets =? 3)%nat then mret (Refused "Maximum of 3 sFlow collectors allowed.")
      else mret Accepted
    | None, None => mret (Refused "sFlow collector already present.")
    | _, _ => mret Accepted
    end
  else mret Accepted.

Fixpoint check_collectors (n_targets : nat) (ip : string) (port : option string) (targets : list string)
    : M cli collector_check :=
  match targets with
  | [] => mret Accepted
  | t :: targets' =>
    r ← check_collector n_targets ip port t;
    match r with
    | Refused msg => mret (Refused msg)
    | Accepted => check_collectors n_targets ip port targets'
    end
  end.

(** The new targets, or nothing after a message. *)
Definition sflow_collector_add (row : ovsrec_sflow) (collector ip : string) (port : option string)
    : M cli (option (list string)) :=
  r ← check_collectors (length (sf_targets row)) ip port (sf_targets row);
  match r with
  | Refused msg => vty_out msg ;; mret None
  | Accepted =>
    if (length (sf_targets row) =? 3)%nat then vty_out "Maximum of 3 sFlow collectors allowed." ;; mret None
    else mret (Some (sf_targets row ++ [collector]))
  end.

(** The pointers that fit in [target], of 8 bytes each. *)
Definition target_slots (n : nat) : nat := MAX_COLLECTOR_LENGTH * n / 8.

Definition sflow_collector_remove (row : ovsrec_sflow) (collector : string) : M cli (option (list string)) :=
  let targets := sf_targets row in
  if (length targets =? 0)%nat then vty_out "No sFlow collector present." ;; mret None
  else if negb (bool_decide (collector ∈ targets)) then vty_out "sFlow collector not found." ;; mret None
  else
    let kept := filter (λ t, collector ≠ t) targets in
    if (length kept <=? target_slots (length targets - 1))%nat then mret (Some kept) else die BufferOverflow.

Definition with_targets (row : ovsrec_sflow) (targets : list string) : ovsrec_sflow :=
  SflowRow targets (sf_agent row) (sf_agent_addr_family row) (sf_sampling row) (sf_polling row) (sf_header row)
    (sf_max_datagram row).

(** The checks of the arguments before the row is looked up. *)
Definition check_address (ip : string) (vrf : option string) : M cli (option cmd_result) :=
  match str2prefix2str ip with
  | None => vty_out "Malformed address format" ;; mret (Some CMD_WARNING)
  | Some prefix_str =>
    prefix_copy ← deref (fst <$> strtok_slash prefix_str);
    if negb (bool_decide (prefix_copy = ip))
    then vty_out ("Invalid IP address. Valid address: " +:+ prefix_copy)%string ;; mret (Some CMD_OVSDB_FAILURE)
    else match vrf with
         | Some v => if bool_decide (v = DEFAULT_VRF_NAME) then mret None
                     else vty_out "Only vrf_default is permitted." ;; mret (Some CMD_SUCCESS)
         | None => mret None
         end
  end.

Definition sflow_set_collector (ip : string) (port vrf : option string) (set : bool) : M cli cmd_result :=
  with_txn (λ db,
    stop ← check_address ip vrf;
    match stop with
    | Some r => mret r
    | None =>
      match db_sflow db, set with
      | None, false => vty_out "No sFlow configuration present." ;; mret CMD_SUCCESS
      | row, _ =>
        let row := default sflow_insert row in
        let collector := collector_str ip port vrf in
        r ← (if set then sflow_collector_add row collector ip port else sflow_collector_remove row collector);
        match r with
        | None => mret CMD_SUCCESS
        | Some targets => finish (with_row db (with_targets row targets))
        end
      end
    end).

(** ** Agent interface *)

Definition with_agent (row : ovsrec_sflow) (interface family : option string) : ovsrec_sflow :=
  SflowRow (sf_targets row) interface family (sf_sampling row) (sf_polling row) (sf_header row) (sf_max_datagram row).

Definition sflow_set_agent_interface (interface family : option string) (set : bool) : M cli cmd_result :=
  with_txn (λ db,
    if set then
      match interface with
      | Some n =>
        if bool_decide (n ∈ (db_interfaces db).*1)
        then finish (with_row db (with_agent (default sflow_insert (db_sflow db)) interface family))
        else vty_out "Invalid interface" ;; mret CMD_SUCCESS
      | None => vty_out "Invalid interface" ;; mret CMD_SUCCESS
      end
    else
      match db_sflow db with
      | None => vty_out "No sFlow configuration present." ;; mret CMD_SUCCESS
      | Some row => finish (with_row db (with_agent row interface family))
      end).

(** ** Show *)

(** The count of one interface; [None]: no statistics. *)
Definition packet_counts (stats : option (gmap string Z)) : Z :=
  match stats with
  | Some m => to_unsigned 64 (default 0 (m !! "sflow_ingress_packets") + default 0 (m !! "sflow_egress_packets"))
  | None => 0
  end.

Definition sflow_aggregate_sample_count (db : sflow_db) : Z :=
  fold_left (λ total i,
    match i.2 with
    | Some m =>
      let total := to_unsigned 64 (total + to_unsigned 64 (default 0 (m !! "sflow_ingress_packets"))) in
      to_unsigned 64 (total + to_unsigned 64 (default 0 (m !! "sflow_egress_packets")))
    | None => total
    end) (db_interfaces db) 0.

(** The text printed for one target: nothing when it has no address. *)
Definition show_collector (target : string) : M cli (option string) :=
  temp_ip ← copy_target target;
  let tok := strtok_slash temp_ip in
  let collector_ip := fst <$> tok in
  let tok2 := tok ≫= λ t, strtok_slash t.2 in
  let collector_port := fst <$> tok2 in
  let collector_vrf := tok2 ≫= λ t, strtok_rest t.2 in
  let '(collector_port, collector_vrf) :=
    match collector_vrf, collector_port with
    | None, Some p => if atoi p =? 0 then (None, Some p) else (Some p, None)
    | v, p => (p, v)
    end in
  mret match collector_ip, collector_port, collector_vrf with
       | Some _, Some _, Some _ => Some target
       | Some _, Some _, None => Some (target +:+ "/" +:+ DEFAULT_VRF_NAME)
       | Some ip, None, Some vrf => Some (ip +:+ "/" +:+ pretty SFL_DEFAULT_COLLECTOR_PORT +:+ "/" +:+ vrf)
       | Some _, None, None => Some (target +:+ "/" +:+ pretty SFL_DEFAULT_COLLECTOR_PORT +:+ "/" +:+ DEFAULT_VRF_NAME)
       | None, _, _ => None
       end%string.

(** The lines of [show sflow]: label and value. *)
Definition show_number (o : option Z) (d : Z) : string :=
  match o with Some v => pretty (to_unsigned 64 v) | None => pretty d end.

Fixpoint show_collectors (targets : list string) : M cli (list (string * string)) :=
  match targets with
  | [] => mret []
  | t :: targets' =>
    line ← show_collector t;
    lines ← show_collectors targets';
    mret (((λ l, ("Collector IP/Port/Vrf", l)) <$> option_list line) ++ lines)
  end.

Definition sflow_show : M cli (list (string * string)) :=
  s ← get;
  let db := cli_db s in
  match db_sflow db, db_system db with
  | None, _ => mret [("sFlow not yet configured.", "")]
  | _, None => mret []
  | Some row, Some enabled =>
    collectors ← (if bool_decide (sf_targets row = []) then mret [("Collector IP/Port/Vrf", "Not set")]
                  else show_collectors (sf_targets row));
    mret ([("sFlow", if enabled then "enabled" else "disabled")] ++ collectors ++
      [("Agent Interface", default "Not set" (sf_agent row));
       ("Agent Address Family", default "ipv4" (sf_agent_addr_family row));
       ("Sampling Rate", show_number (sf_sampling row) SFL_DEFAULT_SAMPLING_RATE);
       ("Polling Interval", show_number (sf_polling row) SFL_DEFAULT_POLLING_INTERVAL);
       ("Header Size", show_number (sf_header row) SFL_DEFAULT_HEADER_SIZE);
       ("Max Datagram Size", show_number (sf_max_datagram row) SFL_DEFAULT_DATAGRAM_SIZE);
       ("Number of Samples", pretty (sflow_aggregate_sample_count db))])
  end.

(** [show sflow interface]; [strncmp] compares the length of the constant. *)
Definition sflow_show_intf_statistics (interface : string) : M cli (list (string * string)) :=
  s ← get;
  let db := cli_db s in
  match db_sflow db, db_system db with
  | None, _ => mret [("sFlow not yet configured.", "")]
  | _, None => mret []
  | Some row, Some enabled =>
    match List.find (λ i, bool_decide (i.1 = interface)) (db_interfaces db) with
    | None => mret [("Invalid interface.", "")]
    | Some i =>
      m ← deref i.2;
      let on := if enabled then
                  match db_ports db !! interface ≫= lookup SFLOW_PER_INTERFACE_KEY with
                  | Some value => bool_decide (String.substring 0 (String.length SFLOW_PER_INTERFACE_TRUE) value =
                                               SFLOW_PER_INTERFACE_TRUE)
                  | None => true
                  end
                else false in
      mret [("sFlow", if on : bool then "enabled" else "disabled");
            ("Sampling Rate", show_number (sf_sampling row) SFL_DEFAULT_SAMPLING_RATE);
            ("Number of Samples", pretty (packet_counts (Some m)))]
    end
  end.

(** ** Commands *)

(** Where the command is typed; a port for the interface and LAG contexts. *)
Inductive vty_node := CONFIG_NODE | PORT_NODE (index : string).

Inductive command :=
| SflowEnable (node : vty_node) (yes : bool)
| SflowSampling (arg : option string)
| SflowPolling (arg : option string)
| SflowHeaderSize (arg : option string)
| SflowMaxDatagramSize (arg : option string)
| SflowCollector (ip : string) (port vrf : option string) (yes : bool)
| SflowAgentInterface (interface family : option string) (yes : bool).

Definition run_command (c : command) : M cli cmd_result :=
  match c with
  | SflowEnable (PORT_NODE p) yes => sflow_set_port_config p yes
  | SflowEnable CONFIG_NODE yes => sflow_set_global_status yes
  | SflowSampling arg => sflow_set_sampling_rate (atoi <$> arg)
  | SflowPolling arg => sflow_set_polling (atoi <$> arg)
  | SflowHeaderSize arg => sflow_set_header_size (atoi <$> arg)
  | SflowMaxDatagramSize arg => sflow_set_max_datagram_size (atoi <$> arg)
  | SflowCollector ip port vrf yes => sflow_set_collector ip port vrf yes
  | SflowAgentInterface interface family yes => sflow_set_agent_interface interface family yes
  end.

Fixpoint run_commands (cs : list command) : M cli unit :=
  match cs with
  | [] => mret tt
  | c :: cs' => run_command c ;; run_commands cs'
  end.
End Cli.
