(* ===== verification/SflowFacts.v ===== *)
(** * sFlow: what the commands write is what the switch gets and the terminal shows *)

From Stdlib Require Import Ascii.
From stdpp Require Import pretty.
From S2P Require Import Prelude OvsLib Sflow SflowCli.
Local Open Scope Z_scope.

(** ** Strings *)

Fixpoint has_slash (s : string) : bool :=
  match s with
  | EmptyString => false
  | String c s' => Ascii.eqb c "/"%char || has_slash s'
  end.

Lemma break_slash_none s : has_slash s = false → break_slash s = (s, EmptyString).
Proof.
  induction s as [|c s IH]; [done|]. simpl. intros [-> Hs]%orb_false_iff. by rewrite IH.
Qed.

Lemma break_slash_app a b : has_slash a = false → break_slash (a +:+ "/" +:+ b)%string = (a, b).
Proof.
  induction a as [|c a IH]; [done|]. rewrite string_cons_app. simpl. intros [-> Ha]%orb_false_iff. by rewrite IH.
Qed.

Lemma break_slash_fst s : has_slash (break_slash s).1 = false.
Proof.
  induction s as [|c s IH]; [done|]. simpl. destruct (Ascii.eqb c "/"%char) eqn:E; [done|].
  destruct (break_slash s) as [a b]. simpl in *. by rewrite E, IH.
Qed.

(** A string that starts a token. *)
Definition starts_token (s : string) : Prop :=
  match s with EmptyString => False | String c _ => Ascii.eqb c "/"%char = false end.

Lemma starts_token_app a b : starts_token a → starts_token (a +:+ b)%string.
Proof. by destruct a. Qed.

Lemma strtok_starts s : starts_token s → strtok_slash s = Some (break_slash s).
Proof. destruct s as [|c s]; [done|]. simpl. by intros ->. Qed.

Lemma strtok_slash_token s a b : strtok_slash s = Some (a, b) → starts_token a ∧ has_slash a = false.
Proof.
  induction s as [|c s IH]; [done|]. simpl. destruct (Ascii.eqb c "/"%char) eqn:E; [apply IH|].
  pose proof (break_slash_fst s) as Hs. destruct (break_slash s) as [x y]. intros [= <- <-]. simpl in *. by rewrite E, Hs.
Qed.

Lemma substring_length n s : (String.length (String.substring 0 n s) ≤ n)%nat.
Proof. revert n. induction s as [|c s IH]; intros [|n]; simpl; try lia. specialize (IH n). lia. Qed.

Lemma substring_starts n s : starts_token s → starts_token (String.substring 0 (S n) s).
Proof. by destruct s. Qed.

(** ** Runs *)

Section Facts.
Context `{HL : OvsLib, HS : SflowDefs, HC : CliEnv}.

Lemma vty_out_run msg s : vty_out msg s = Ok (tt, Cli (cli_db s) (vty_out_log s ++ [msg])).
Proof using Type. done. Qed.

(** A target that the code can read back. *)
Definition good_target (t : string) : Prop := (String.length t < MAX_COLLECTOR_LENGTH)%nat ∧ starts_token t.

(** At most three targets, each of which fits the buffers of the code. *)
Definition db_inv (db : sflow_db) : Prop :=
  match db_sflow db with
  | Some row => (length (sf_targets row) ≤ 3)%nat ∧ Forall good_target (sf_targets row)
  | None => True
  end.

(** A command that returns, whose only effects are messages and a new
    database that satisfies the invariant. *)
Definition safe (c : M cli cmd_result) : Prop :=
  hoare (λ s, db_inv (cli_db s)) c (λ _ s, db_inv (cli_db s)).

Lemma finish_safe db' s : db_inv (cli_db s) → db_inv db' → ∃ r s', finish db' s = Ok (r, s') ∧ db_inv (cli_db s').
Proof using Type.
  intros Hs Hd. unfold finish. step. destruct (config_finish (cli_db s) db'); [step|]; eexists _, _; done.
Qed.

Lemma message_safe msg (r : cmd_result) s :
  db_inv (cli_db s) → ∃ r' s', (vty_out msg ;; mret r) s = Ok (r', s') ∧ db_inv (cli_db s').
Proof using Type. intros Hs. exists r. eexists. split; [by step|done]. Qed.

Lemma with_txn_safe body :
  (∀ s, db_inv (cli_db s) → ∃ r s', body (cli_db s) s = Ok (r, s') ∧ db_inv (cli_db s')) → safe (with_txn body).
Proof using Type.
  intros Hb s Hs. unfold with_txn. step. destruct (config_start (cli_db s)); [by apply Hb|by eexists _, _].
Qed.

Lemma set_number_safe write given :
  (∀ r, sf_targets (write r) = sf_targets r) → safe (set_number write given).
Proof using Type.
  intros Hw. apply with_txn_safe. intros s Hs. unfold db_inv in Hs. destruct (db_sflow (cli_db s)) as [row|] eqn:E.
  - apply finish_safe; unfold db_inv; [by rewrite E|]. simpl. by rewrite Hw.
  - destruct given; [|apply message_safe; unfold db_inv; by rewrite E].
    apply finish_safe; unfold db_inv; [by rewrite E|]. simpl. rewrite Hw. simpl. split; [lia|constructor].
Qed.

(** ** Collectors *)

(** Address and second part of a target. *)
Definition target_ip (t : string) : string := (break_slash t).1.
Definition target_port (t : string) : option string := fst <$> strtok_slash (break_slash t).2.

(** The new collector is refused because of the target [t]. *)
Definition clash (n_targets : nat) (ip : string) (port : option string) (t : string) : collector_check :=
  if bool_decide (ip = target_ip t) then
    match target_port t, port with
    | Some p, Some port =>
      if bool_decide (port = p) then Refused "sFlow collector already present."
      else if (n_targets =? 3)%nat then Refused "Maximum of 3 sFlow collectors allowed." else Accepted
    | None, None => Refused "sFlow collector already present."
    | _, _ => Accepted
    end
  else Accepted.

Fixpoint clashes (n_targets : nat) (ip : string) (port : option string) (ts : list string) : collector_check :=
  match ts with
  | [] => Accepted
  | t :: ts' => match clash n_targets ip port t with Refused msg => Refused msg | Accepted => clashes n_targets ip port ts' end
  end.

Lemma check_collector_run n ip port t s : good_target t → check_collector n ip port t s = Ok (clash n ip port t, s).
Proof using Type.
  intros [Hl Ht]. unfold check_collector, copy_target, clash, target_ip, target_port.
  rewrite (proj2 (Nat.ltb_lt _ _) Hl). step. rewrite strtok_starts by done. simpl.
  unfold deref. step. destruct (break_slash t) as [a b]. simpl. repeat case_match; done.
Qed.

Lemma check_collectors_run n ip port ts s : Forall good_target ts → check_collectors n ip port ts s = Ok (clashes n ip port ts, s).
Proof using Type.
  induction 1 as [|t ts Ht _ IH]; [done|]. simpl. erewrite bind_run by by apply check_collector_run.
  destruct (clash n ip port t); done.
Qed.

Lemma collector_str_good ip port vrf : starts_token ip → good_target (collector_str ip port vrf).
Proof using Type.
  intros Hip. split.
  - unfold collector_str. eapply Nat.le_lt_trans; [apply substring_length|]. unfold MAX_COLLECTOR_LENGTH. lia.
  - apply (substring_starts 87). destruct port, vrf; by repeat apply starts_token_app.
Qed.

Lemma kept_fits collector (ts : list string) :
  collector ∈ ts → (length (filter (λ t, collector ≠ t) ts) ≤ target_slots (length ts - 1))%nat.
Proof using Type.
  intros Hin. transitivity (length ts - 1)%nat.
  - assert (length (filter (λ t, collector ≠ t) ts) < length ts)%nat; [|lia].
    by apply (length_filter_lt _ _ collector); [done|naive_solver].
  - unfold target_slots, MAX_COLLECTOR_LENGTH. apply Nat.div_le_lower_bound; lia.
Qed.

Lemma sflow_collector_add_run row collector ip port s :
  Forall good_target (sf_targets row) →
  ∃ r s', sflow_collector_add row collector ip port s = Ok (r, s') ∧ cli_db s' = cli_db s ∧
    match r with
    | Some ts => ts = sf_targets row ++ [collector] ∧ (length (sf_targets row) ≠ 3)%nat
    | None => True
    end.
Proof using Type.
  intros Hg. unfold sflow_collector_add. erewrite bind_run by by apply check_collectors_run.
  destruct (clashes _ _ _ _).
  - eexists None, _. split; [by step|done].
  - destruct (Nat.eqb_spec (length (sf_targets row)) 3).
    + eexists None, _. split; [by step|done].
    + by eexists (Some _), s.
Qed.

Lemma sflow_collector_remove_run row collector s :
  ∃ r s', sflow_collector_remove row collector s = Ok (r, s') ∧ cli_db s' = cli_db s ∧
    match r with
    | Some ts => ts = filter (λ t, collector ≠ t) (sf_targets row) ∧ collector ∈ sf_targets row
    | None => collector ∉ sf_targets row
    end.
Proof using Type.
  unfold sflow_collector_remove. destruct (Nat.eqb_spec (length (sf_targets row)) 0) as [El|El].
  { eexists None, _. split; [by step|]. split; [done|]. apply nil_length_inv in El. rewrite El. apply not_elem_of_nil. }
  case_bool_decide as Hin; simpl.
  - rewrite (proj2 (Nat.leb_le _ _)) by by apply kept_fits. by eexists (Some _), s.
  - eexists None, _. split; [by step|done].
Qed.

(** What [prefix2str] prints starts with an address. *)
Context (prefix_printed : ∀ ip p, str2prefix2str ip = Some p → strtok_slash p ≠ None).

Lemma check_address_run ip vrf s :
  ∃ r s', check_address ip vrf s = Ok (r, s') ∧ cli_db s' = cli_db s ∧
    (r = None → starts_token ip ∧ has_slash ip = false).
Proof using prefix_printed.
  unfold check_address. destruct (str2prefix2str ip) as [p|] eqn:Ep; [|by eexists _, _].
  apply prefix_printed in Ep. destruct (strtok_slash p) as [[a b]|] eqn:Et; [|done]. unfold deref. simpl. step.
  apply strtok_slash_token in Et as [Ha Hs].
  destruct (bool_decide_reflect (a = ip)) as [->|]; simpl; [|by eexists _, _].
  destruct vrf as [v|]; [|by eexists _, _]. case_bool_decide; by eexists _, _.
Qed.

Lemma sflow_set_collector_safe ip port vrf set : safe (sflow_set_collector ip port vrf set).
Proof using prefix_printed.
  apply with_txn_safe. intros s Hs. destruct (check_address_run ip vrf s) as (stop & s1 & E1 & Ed1 & Hip).
  step E1. destruct stop as [r|]; [by eexists _, _; split; [done|rewrite Ed1]|]. destruct (Hip eq_refl) as [Hst Hsl].
  assert (∀ row, (length (sf_targets row) ≤ 3)%nat ∧ Forall good_target (sf_targets row) → ∃ r s',
    (r ← (if set then sflow_collector_add row (collector_str ip port vrf) ip port
          else sflow_collector_remove row (collector_str ip port vrf));
     match r with None => mret CMD_SUCCESS | Some targets => finish (with_row (cli_db s) (with_targets row targets)) end) s1
    = Ok (r, s') ∧ db_inv (cli_db s')) as Hrow.
  { intros row [Hl Hg]. destruct set.
    - destruct (sflow_collector_add_run row (collector_str ip port vrf) ip port s1 Hg) as (r & s2 & E2 & Ed2 & Hr).
      step E2. destruct r as [ts|]; [|by eexists _, _; split; [done|rewrite Ed2, Ed1]]. destruct Hr as [-> Hn].
      apply finish_safe; [by rewrite Ed2, Ed1|]. unfold db_inv. simpl. rewrite length_app. simpl. split; [lia|].
      apply Forall_app. split; [done|]. constructor; [by apply collector_str_good|done].
    - destruct (sflow_collector_remove_run row (collector_str ip port vrf) s1) as (r & s2 & E2 & Ed2 & Hr).
      step E2. destruct r as [ts|]; [|by eexists _, _; split; [done|rewrite Ed2, Ed1]]. destruct Hr as [-> _].
      apply finish_safe; [by rewrite Ed2, Ed1|]. unfold db_inv. simpl. split; [etrans; [apply length_filter|done]|].
      by apply Forall_filter_sub. }
  unfold db_inv in Hs. destruct (db_sflow (cli_db s)) as [row|] eqn:Er; [by apply Hrow|].
  destruct set; [apply Hrow; split; [simpl; lia|constructor]|].
  apply message_safe. unfold db_inv. by rewrite Ed1, Er.
Qed.

Lemma keeps_row_safe (db db' : sflow_db) :
  db_inv db → (db_sflow db' = db_sflow db ∨ db_sflow db' = Some (default sflow_insert (db_sflow db))) → db_inv db'.
Proof using Type.
  unfold db_inv. intros Hd [-> | ->]; [done|]. destruct (db_sflow db); [done|]. simpl. split; [lia|constructor].
Qed.

Lemma sflow_set_port_config_safe port set : safe (sflow_set_port_config port set).
Proof using Type.
  apply with_txn_safe. intros s Hs. destruct (db_system (cli_db s)), (db_ports (cli_db s) !! port); try by eexists _, _.
  apply finish_safe; [done|]. by apply (keeps_row_safe (cli_db s)); [|left].
Qed.

Lemma sflow_set_global_status_safe status : safe (sflow_set_global_status status).
Proof using Type.
  apply with_txn_safe. intros s Hs. destruct (db_system (cli_db s)) as [enabled|]; [|by eexists _, _].
  destruct status; [destruct enabled|destruct (bool_decide _ && enabled)]; try by apply message_safe.
  - apply finish_safe; [done|]. by apply (keeps_row_safe (cli_db s)); [|right].
  - apply finish_safe; [done|]. by apply (keeps_row_safe (cli_db s)); [|left].
Qed.

Lemma with_agent_safe (db : sflow_db) interface family :
  db_inv db → db_inv (with_row db (with_agent (default sflow_insert (db_sflow db)) interface family)).
Proof using Type.
  unfold db_inv. simpl. destruct (db_sflow db); [done|]. simpl. intros _. split; [lia|constructor].
Qed.

Lemma sflow_set_agent_interface_safe interface family set : safe (sflow_set_agent_interface interface family set).
Proof using Type.
  apply with_txn_safe. intros s Hs. destruct set.
  - destruct interface as [n|]; [case_bool_decide|]; try by apply message_safe.
    apply finish_safe; [done|]. by apply with_agent_safe.
  - pose proof (with_agent_safe (cli_db s) interface family Hs) as Hw.
    destruct (db_sflow (cli_db s)) as [row|]; [by apply finish_safe|by apply message_safe].
Qed.

Lemma run_command_safe c : safe (run_command c).
Proof using prefix_printed.
  destruct c as [[|p] yes|arg|arg|arg|arg|ip port vrf yes|interface family yes]; simpl;
    first [ apply sflow_set_global_status_safe | apply sflow_set_port_config_safe | by apply set_number_safe
          | apply sflow_set_collector_safe | apply sflow_set_agent_interface_safe ].
Qed.

(** C19: from a database that satisfies the invariant, any sequence of sFlow
    commands, accepted or not, runs without leaving the bounds of a buffer or
    dereferencing null, and keeps at most three collectors, each short enough to
    be copied and read back. *)
Theorem sflow_commands_safe cs s :
  db_inv (cli_db s) → ∃ s', run_commands cs s = Ok (tt, s') ∧ db_inv (cli_db s').
Proof using prefix_printed.
  revert s. induction cs as [|c cs IH]; intros s Hs; [by exists s|].
  destruct (run_command_safe c s Hs) as (r & s1 & E1 & Hs1). destruct (IH s1 Hs1) as (s' & E & Hs').
  exists s'. simpl. by step E1.
Qed.

(** ** Round trips *)

Section RoundTrips.
(** Transactions are opened and taken. *)
Context (starts : ∀ db, config_start db = true) (finishes : ∀ db db', config_finish db db' = true).

Lemma finish_run db' s : finish db' s = Ok (CMD_SUCCESS, Cli db' (vty_out_log s)).
Proof using finishes. unfold finish. step. rewrite finishes. by step. Qed.

Lemma check_address_good ip vrf s :
  (∃ p rest, str2prefix2str ip = Some p ∧ strtok_slash p = Some (ip, rest)) →
  (vrf = None ∨ vrf = Some DEFAULT_VRF_NAME) → check_address ip vrf s = Ok (None, s).
Proof using Type.
  intros (p & rest & Ep & Et) Hv. unfold check_address. rewrite Ep, Et. unfold deref. simpl. step.
  rewrite bool_decide_true by done. simpl. destruct Hv as [-> | ->]; [done|]. by rewrite bool_decide_true.
Qed.

(** C35: a collector that is added (its address is valid, it is not there yet,
    none of the others clashes with it and there are fewer than three) and then
    removed by the same arguments leaves the database exactly as it was. *)
Theorem collector_add_remove ip port vrf row s :
  (∃ p rest, str2prefix2str ip = Some p ∧ strtok_slash p = Some (ip, rest)) →
  (vrf = None ∨ vrf = Some DEFAULT_VRF_NAME) →
  db_sflow (cli_db s) = Some row → Forall good_target (sf_targets row) → (length (sf_targets row) < 3)%nat →
  clashes (length (sf_targets row)) ip port (sf_targets row) = Accepted →
  collector_str ip port vrf ∉ sf_targets row →
  ∃ s1 s2, sflow_set_collector ip port vrf true s = Ok (CMD_SUCCESS, s1) ∧
    sf_targets <$> db_sflow (cli_db s1) = Some (sf_targets row ++ [collector_str ip port vrf]) ∧
    sflow_set_collector ip port vrf false s1 = Ok (CMD_SUCCESS, s2) ∧ cli_db s2 = cli_db s.
Proof using starts finishes.
  intros Hip Hv Hrow Hg Hn Hc Hnew. set (c := collector_str ip port vrf) in *.
  set (s1 := Cli (with_row (cli_db s) (with_targets row (sf_targets row ++ [c]))) (vty_out_log s)).
  destruct (sflow_collector_remove_run (with_targets row (sf_targets row ++ [c])) c s1) as (r & s2 & E & Ed & Hr).
  destruct r as [ts|]; [destruct Hr as [-> _]|destruct Hr; apply elem_of_app; right; left].
  exists s1. eexists. split; [|split; [done|split]].
  - unfold sflow_set_collector, with_txn. step. rewrite starts. erewrite bind_run by by apply check_address_good.
    rewrite Hrow. simpl. unfold sflow_collector_add.
    erewrite (bind_run (check_collectors _ _ _ _ ≫= _)).
    2: { erewrite bind_run by by apply check_collectors_run. rewrite Hc.
         rewrite (proj2 (Nat.eqb_neq _ _)) by lia. reflexivity. }
    apply finish_run.
  - unfold sflow_set_collector, with_txn. step. rewrite starts. erewrite bind_run by by apply check_address_good.
    simpl. fold c. step E. apply finish_run.
  - simpl. rewrite filter_app, filter_all, filter_cons_False, filter_nil, app_nil_r by naive_solver.
    destruct (cli_db s). simpl in *. subst. by destruct row.
Qed.
End RoundTrips.

(** ** Show *)

(** A word of a collector: not empty, without slashes. *)
Definition word (w : string) : Prop := starts_token w ∧ has_slash w = false.

Lemma strtok_word w : word w → strtok_slash w = Some (w, EmptyString).
Proof using Type. intros [Hw Hs]. by rewrite strtok_starts, break_slash_none. Qed.

Lemma strtok_word_app w rest : word w → strtok_slash (w +:+ "/" +:+ rest)%string = Some (w, rest).
Proof using Type. intros [Hw Hs]. rewrite strtok_starts by by apply starts_token_app. by rewrite break_slash_app. Qed.

Lemma word_nonempty w : word w → w ≠ EmptyString.
Proof using Type. by intros [Hw _] ->. Qed.

(** [show sflow] prints a collector as address, port and VRF, with the
    default port and VRF where the command did not give one, provided the port
    is a number other than 0 and the VRF is not a number. *)
Theorem show_collector_text ip port vrf s :
  word ip → match port with Some p => word p ∧ atoi p ≠ 0 | None => True end →
  match vrf with Some v => word v ∧ atoi v = 0 | None => True end →
  (String.length (collector_text ip port vrf) < MAX_COLLECTOR_LENGTH)%nat →
  show_collector (collector_str ip port vrf) s =
  Ok (Some (ip +:+ "/" +:+ default (pretty SFL_DEFAULT_COLLECTOR_PORT) port +:+ "/" +:+ default DEFAULT_VRF_NAME vrf)%string, s).
Proof using Type.
  intros Hip Hp Hv Hlen. unfold collector_str.
  rewrite substring_all by (unfold MAX_COLLECTOR_LENGTH in *; lia). unfold show_collector, copy_target.
  rewrite (proj2 (Nat.ltb_lt _ _) Hlen). step. unfold collector_text.
  destruct port as [p|], vrf as [v|]; simpl.
  - destruct Hp as [Hp Ha], Hv as [Hv _]. rewrite strtok_word_app by done. simpl. rewrite strtok_word_app by done. simpl.
    unfold strtok_rest. rewrite bool_decide_false by by apply word_nonempty. done.
  - destruct Hp as [Hp Ha]. rewrite strtok_word_app by done. simpl. rewrite strtok_word by done. simpl.
    rewrite (proj2 (Z.eqb_neq _ _) Ha). by rewrite !string_app_assoc.
  - destruct Hv as [Hv Ha]. rewrite strtok_word_app by done. simpl. rewrite strtok_word by done. simpl.
    rewrite (proj2 (Z.eqb_eq _ _) Ha). done.
  - rewrite strtok_word by done. done.
Qed.

(** The collector port 0, which the command accepts, is shown as a VRF named 0
    on the default port. *)
Theorem show_port_zero ip s :
  word ip → (String.length ip < 80)%nat →
  show_collector (collector_str ip (Some "0") None) s =
  Ok (Some (ip +:+ "/" +:+ pretty SFL_DEFAULT_COLLECTOR_PORT +:+ "/0")%string, s).
Proof using Type.
  intros Hip Hl. assert (String.length (collector_text ip (Some "0") None) < MAX_COLLECTOR_LENGTH)%nat as Hl'
    by (unfold collector_text, MAX_COLLECTOR_LENGTH; rewrite !string_length_app; simpl; lia).
  unfold collector_str. rewrite substring_all by (unfold MAX_COLLECTOR_LENGTH in *; lia). unfold show_collector, copy_target.
  rewrite (proj2 (Nat.ltb_lt _ _) Hl'). step. unfold collector_text. rewrite strtok_word_app by done. done.
Qed.

(** A collector given by address and VRF is not recognised when it is already
    there: the command adds it a second time. *)
Theorem collector_vrf_twice ip :
  word ip → (String.length (collector_text ip None (Some DEFAULT_VRF_NAME)) < MAX_COLLECTOR_LENGTH)%nat →
  word DEFAULT_VRF_NAME →
  clashes 1 ip None [collector_str ip None (Some DEFAULT_VRF_NAME)] = Accepted.
Proof using Type.
  intros [Hip Hs] Hl Hv. unfold collector_str. rewrite substring_all by (unfold MAX_COLLECTOR_LENGTH in *; lia).
  simpl. unfold clash, target_port, target_ip. rewrite break_slash_app by done. simpl.
  rewrite strtok_word by done. simpl. by case_bool_decide.
Qed.

(** ** The switch *)

Lemma configure_sflow_all_spec ports cfg names n :
  configure_sflow_all ports (Some cfg) names n =
  imap (λ i name, (name, (bridge_configure_sflow ports (Some cfg) (n + Z.of_nat i)).1)) names.
Proof using Type.
  revert n. induction names as [|name names IH]; intros n; [done|]. simpl. rewrite IH. f_equal.
  - by rewrite Z.add_0_r.
  - apply imap_ext. intros i x _. simpl. do 3 f_equal. lia.
Qed.

Lemma configure_sflow_all_names ports cfg names n : (configure_sflow_all ports cfg names n).*1 = names.
Proof using Type.
  revert n. induction names as [|name names IH]; intros n; [done|]. destruct cfg; simpl; by rewrite IH.
Qed.

Lemma configure_sflow_all_off ports names n i name oso :
  configure_sflow_all ports None names n !! i = Some (name, oso) → oso = None.
Proof using Type.
  revert i. induction names as [|x names IH]; intros [|i]; [done..|by intros [= _ <-]|apply IH].
Qed.

(** The values that [show sflow] prints under a label. *)
Definition values (label : string) (lines : list (string * string)) : list string :=
  (filter (λ l, l.1 = label) lines).*2.

Definition collector_label : string := "Collector IP/Port/Vrf".

(** The conditions under which [show_collector] reads a collector back. *)
Definition readable (ip : string) (port vrf : option string) : Prop :=
  word ip ∧ match port with Some p => word p ∧ atoi p ≠ 0 | None => True end ∧
  match vrf with Some v => word v ∧ atoi v = 0 | None => True end ∧
  (String.length (collector_text ip port vrf) < MAX_COLLECTOR_LENGTH)%nat.

(** The lines of the terminal say what the options say, at position [i] of the
    bridges and VRFs. *)
Record told (ports : list sflow_port) (st : cli) (lines : list (string * string)) (i : nat)
    (o : ofproto_sflow_options) : Prop := {
  td_sub_id : so_sub_id o = Z.of_nat i;
  td_sampling : values "Sampling Rate" lines = [pretty (to_unsigned 64 (so_sampling_rate o))];
  td_polling : values "Polling Interval" lines = [pretty (to_unsigned 64 (so_polling_interval o))];
  td_header : values "Header Size" lines = [pretty (to_unsigned 64 (so_header_len o))];
  td_datagram : values "Max Datagram Size" lines = [pretty (to_unsigned 64 (so_max_datagram o))];
  td_agent : values "Agent Interface" lines = [default "Not set" (so_agent_device o)];
  td_family : ∃ f, values "Agent Address Family" lines = [f] ∧
    so_agent_ip o = sflow_agent_address ports (so_agent_device o) (Some f);
  td_collectors : ∀ l, l ∈ values collector_label lines ↔
    (so_targets o = ∅ ∧ l = "Not set") ∨ ∃ t, t ∈ so_targets o ∧ show_collector t st = Ok (Some l, st);
  td_readable : ∀ ip port vrf, readable ip port vrf → collector_str ip port vrf ∈ so_targets o →
    (ip +:+ "/" +:+ default (pretty SFL_DEFAULT_COLLECTOR_PORT) port +:+ "/" +:+ default DEFAULT_VRF_NAME vrf)%string
      ∈ values collector_label lines;
}.

Lemma show_collector_run t :
  (String.length t < MAX_COLLECTOR_LENGTH)%nat → ∃ l, ∀ s', show_collector t s' = Ok (l, s').
Proof using Type.
  intros Hl. unfold show_collector, copy_target. rewrite (proj2 (Nat.ltb_lt _ _) Hl).
  destruct (fst <$> (strtok_slash t ≫= λ t, strtok_slash t.2)) as [p|] eqn:Ep,
    ((strtok_slash t ≫= λ t, strtok_slash t.2) ≫= λ t, strtok_rest t.2) as [v|] eqn:Ev;
    [| destruct (atoi p =? 0) eqn:Ea | |]; eexists; intros s'; step; cbv zeta; rewrite Ep, Ev; rewrite ?Ea; reflexivity.
Qed.

Lemma show_collectors_run ts s :
  Forall good_target ts →
  ∃ cs, show_collectors ts s = Ok (cs, s) ∧ (∀ x, x ∈ cs → x.1 = collector_label) ∧
    ∀ l, (collector_label, l) ∈ cs ↔ ∃ t, t ∈ ts ∧ show_collector t s = Ok (Some l, s).
Proof using Type.
  induction 1 as [|t ts [Hl _] _ (cs & E & Hlab & Hcs)].
  { exists []. split; [done|]. split; [by intros ? ?%elem_of_nil|]. intros l. split; [by intros ?%elem_of_nil|].
    by intros (? & ?%elem_of_nil & _). }
  destruct (show_collector_run t Hl) as [line Et]. eexists. simpl. step (Et s). step E. split; [done|]. split.
  - intros x. rewrite elem_of_app. intros [(l & -> & _)%list_elem_of_fmap|Hx]; [done|by apply Hlab].
  - intros l. rewrite elem_of_app, Hcs. split.
    + intros [(l' & [= ->] & Hin)%list_elem_of_fmap|(t' & Ht' & E')].
      * exists t. split; [left|]. destruct line as [x|]; simpl in Hin; [|by apply elem_of_nil in Hin].
        apply list_elem_of_singleton in Hin as ->. apply Et.
      * exists t'. split; [by right|done].
    + intros (t' & [->|Ht']%elem_of_cons & E'); [left|right; eauto].
      rewrite Et in E'. injection E' as ->. apply list_elem_of_fmap_2. left.
Qed.

(** The other lines. *)
Definition other_lines (on : bool) (row : ovsrec_sflow) (db : sflow_db) : list (string * string) :=
  [("sFlow", if on then "enabled" else "disabled");
   ("Agent Interface", default "Not set" (sf_agent row));
   ("Agent Address Family", default "ipv4" (sf_agent_addr_family row));
   ("Sampling Rate", show_number (sf_sampling row) SFL_DEFAULT_SAMPLING_RATE);
   ("Polling Interval", show_number (sf_polling row) SFL_DEFAULT_POLLING_INTERVAL);
   ("Header Size", show_number (sf_header row) SFL_DEFAULT_HEADER_SIZE);
   ("Max Datagram Size", show_number (sf_max_datagram row) SFL_DEFAULT_DATAGRAM_SIZE);
   ("Number of Samples", pretty (sflow_aggregate_sample_count db))].

Lemma values_app label l1 l2 : values label (l1 ++ l2) = values label l1 ++ values label l2.
Proof using Type. unfold values. by rewrite filter_app, fmap_app. Qed.

Lemma sflow_show_run (on : bool) row db log :
  db_system db = Some on → db_sflow db = Some row → Forall good_target (sf_targets row) →
  ∃ lines, sflow_show (Cli db log) = Ok (lines, Cli db log) ∧
    (∀ label, label ≠ collector_label → values label lines = values label (other_lines on row db)) ∧
    ∀ l, l ∈ values collector_label lines ↔
      (sf_targets row = [] ∧ l = "Not set") ∨
      ∃ t, t ∈ sf_targets row ∧ show_collector t (Cli db log) = Ok (Some l, Cli db log).
Proof using Type.
  intros Hsys Hrow Hg. destruct (show_collectors_run (sf_targets row) (Cli db log) Hg) as (cs0 & E & Hlab0 & Hcs0).
  set (cs := if bool_decide (sf_targets row = []) then [(collector_label, "Not set")] else cs0).
  assert (∀ x, x ∈ cs → x.1 = collector_label) as Hlab.
  { unfold cs. case_bool_decide; [|done]. by intros x ->%list_elem_of_singleton. }
  exists (firstn 1 (other_lines on row db) ++ cs ++ skipn 1 (other_lines on row db)). split; [|split].
  - unfold sflow_show. step. simpl. rewrite Hrow, Hsys. rewrite (bind_run _ _ (Cli db log) cs (Cli db log)); [done|].
    unfold cs. by case_bool_decide.
  - intros label Hne. rewrite !values_app. assert (values label cs = []) as ->.
    { unfold values. rewrite filter_none; [done|]. intros x Hx El. apply Hne. by rewrite <-El, (Hlab x Hx). }
    by rewrite <-(firstn_skipn 1 (other_lines on row db)), values_app.
  - intros l. rewrite !values_app.
    assert (values collector_label (firstn 1 (other_lines on row db)) = []) as -> by reflexivity.
    assert (values collector_label (skipn 1 (other_lines on row db)) = []) as -> by reflexivity.
    rewrite app_nil_r. simpl. unfold values. rewrite filter_all by done.
    trans ((collector_label, l) ∈ cs).
    { rewrite list_elem_of_fmap. split; [|by exists (collector_label, l)]. intros ([a b] & -> & Hin). by rewrite <-(Hlab _ Hin). }
    unfold cs. case_bool_decide as En.
    + rewrite list_elem_of_singleton. rewrite En. split; [intros [= ->]; by left|].
      intros [[_ ->]|(t & ?%elem_of_nil & _)]; done.
    + rewrite Hcs0. split; [by right|]. by intros [[? _]|?].
Qed.

Lemma number_shown o d : 0 ≤ d < 2 ^ 64 → show_number o d = pretty (to_unsigned 64 (default d o)).
Proof using Type. destruct o as [v|]; [done|]. intros Hd. simpl. unfold to_unsigned. by rewrite Z.mod_small. Qed.

Lemma row_told ports row db log lines i o n :
  0 ≤ SFL_DEFAULT_SAMPLING_RATE < 2 ^ 64 → 0 ≤ SFL_DEFAULT_POLLING_INTERVAL < 2 ^ 64 →
  0 ≤ SFL_DEFAULT_HEADER_SIZE < 2 ^ 64 → 0 ≤ SFL_DEFAULT_DATAGRAM_SIZE < 2 ^ 64 →
  (∀ label, label ≠ collector_label → values label lines = values label (other_lines true row db)) →
  (∀ l, l ∈ values collector_label lines ↔
      (sf_targets row = [] ∧ l = "Not set") ∨
      ∃ t, t ∈ sf_targets row ∧ show_collector t (Cli db log) = Ok (Some l, Cli db log)) →
  bridge_configure_sflow ports (Some row) (Z.of_nat i) = (Some o, n) → told ports (Cli db log) lines i o.
Proof using Type.
  intros H1 H2 H3 H4 Ho Hc. intros [= <- _]. constructor; cbn [so_sub_id so_sampling_rate so_polling_interval so_header_len
    so_max_datagram so_agent_device so_agent_ip so_targets]; [done|by rewrite Ho, <-number_shown by done..|by rewrite Ho| | |].
  - exists (default "ipv4" (sf_agent_addr_family row)). split; [by rewrite Ho|]. by destruct (sf_agent_addr_family row).
  - intros l. rewrite Hc. setoid_rewrite elem_of_list_to_set. f_equiv. f_equiv.
    destruct (sf_targets row) as [|t ts]; [done|]. split; [done|]. clear. set_solver.
  - intros ip port vrf (Hip & Hp & Hv & Hl). rewrite elem_of_list_to_set, Hc. intros Hin. right.
    eexists. split; [exact Hin|]. by apply show_collector_text.
Qed.

(** C34: [show sflow] agrees with the switch.  With a System row and an sFlow
    row within the limits of the commands, the command prints one status.  When
    it is enabled every bridge and VRF is configured, in order, with
    sub-identifiers that count them, and the terminal shows what each was given:
    the numbers, the agent interface, a family under which the agent address is
    the one given, and a collector line for each target that has an address (as
    address, port and VRF with the defaults filled in, when the port is not 0
    and the VRF is not a number) or "Not set" for none.  When it is disabled
    every one of them is told to stop. *)
Theorem sflow_show_agrees_with_switch ports names row db log (on : bool) :
  0 ≤ SFL_DEFAULT_SAMPLING_RATE < 2 ^ 64 → 0 ≤ SFL_DEFAULT_POLLING_INTERVAL < 2 ^ 64 →
  0 ≤ SFL_DEFAULT_HEADER_SIZE < 2 ^ 64 → 0 ≤ SFL_DEFAULT_DATAGRAM_SIZE < 2 ^ 64 →
  db_system db = Some on → db_sflow db = Some row → db_inv db →
  ∃ lines, sflow_show (Cli db log) = Ok (lines, Cli db log) ∧
    values "sFlow" lines = [if on then "enabled" else "disabled"] ∧
    let calls := configure_sflow_all ports (if on then Some row else None) names 0 in
    calls.*1 = names ∧
    ∀ i name oso, calls !! i = Some (name, oso) →
      if on then ∃ o, oso = Some o ∧ told ports (Cli db log) lines i o else oso = None.
Proof using Type.
  intros H1 H2 H3 H4 Hsys Hrow Hinv. unfold db_inv in Hinv. rewrite Hrow in Hinv. destruct Hinv as [_ Hg].
  destruct (sflow_show_run on row db log Hsys Hrow Hg) as (lines & E & Ho & Hc).
  exists lines. split; [done|]. split; [by rewrite Ho|]. cbv zeta. split.
  { apply configure_sflow_all_names. }
  intros i name oso. destruct on.
  - rewrite configure_sflow_all_spec, list_lookup_imap. intros (n & _ & [= -> ->])%fmap_Some.
    eexists. split; [done|]. rewrite Z.add_0_l. by eapply row_told.
  - apply configure_sflow_all_off.
Qed.

(** The rows of the Port table as the switch side reads them. *)
Definition port_rows (db : sflow_db) : list sflow_port :=
  (λ x, SflowPort x.1 None None x.2) <$> map_to_list (db_ports db).

Lemma elem_of_disabled db n :
  n ∈ sflow_ports_disabled (port_rows db) ↔
  ∃ oc, db_ports db !! n = Some oc ∧
    String.substring 0 (String.length DEFAULT_BRIDGE_NAME) n ≠ DEFAULT_BRIDGE_NAME ∧
    oc ≠ ∅ ∧ smap_get_bool oc SFLOW_PER_INTERFACE_KEY true = false.
Proof using Type.
  unfold sflow_ports_disabled, port_rows. rewrite elem_of_list_to_set, list_elem_of_fmap.
  setoid_rewrite list_elem_of_filter. setoid_rewrite list_elem_of_fmap. split.
  - intros (? & -> & (H1 & H2 & H3) & [k oc] & -> & Hin%elem_of_map_to_list). simpl in *. eauto.
  - intros (oc & Hoc & H1 & H2 & H3). exists (SflowPort n None None oc). split; [done|]. split; [done|].
    exists (n, oc). split; [done|]. by apply elem_of_map_to_list.
Qed.

(** Disabling or enabling sFlow in the context of a port adds the port to,
    or removes it from, the set of ports the switch is told to leave out, and
    changes no other port. *)
Theorem port_command_reaches_switch p (set : bool) oc s :
  (∀ db, config_start db = true) → (∀ db db', config_finish db db' = true) →
  SFLOW_PER_INTERFACE_TRUE = "true" → SFLOW_PER_INTERFACE_FALSE = "false" →
  db_system (cli_db s) ≠ None → db_ports (cli_db s) !! p = Some oc →
  String.substring 0 (String.length DEFAULT_BRIDGE_NAME) p ≠ DEFAULT_BRIDGE_NAME →
  ∃ s', run_command (SflowEnable (PORT_NODE p) set) s = Ok (CMD_SUCCESS, s') ∧
    ∀ q, q ∈ sflow_ports_disabled (port_rows (cli_db s')) ↔
      if decide (q = p) then set = false else q ∈ sflow_ports_disabled (port_rows (cli_db s)).
Proof using Type.
  intros Hst Hfi Ht Hf Hsys Hoc Hname. simpl. unfold sflow_set_port_config, with_txn. step. rewrite Hst.
  destruct (db_system (cli_db s)) as [b|]; [|done]. rewrite Hoc. rewrite finish_run by done. eexists. split; [done|].
  intros q. rewrite elem_of_disabled. cbn [cli_db db_ports]. destruct (decide (q = p)) as [->|Hne].
  2: { rewrite elem_of_disabled. by rewrite lookup_insert_ne. }
  rewrite lookup_insert_eq. split.
  - intros (oc' & [= <-] & _ & _ & Hb). destruct set; [|done].
    rewrite (smap_get_bool_true _ _ _) in Hb; [done|]. by rewrite lookup_insert_eq, Ht.
  - intros ->. eexists. split; [done|]. split; [done|]. split; [apply insert_non_empty|].
    apply smap_get_bool_false. by rewrite lookup_insert_eq, Hf.
Qed.

(** the agent address is the whole address of the agent's port, without
    its prefix length: an IPv4 address is never cut by the buffer. *)
Theorem sflow_agent_address_whole ports name p a mask family :
  List.find (λ p, bool_decide (sp_name p = name)) ports = Some p →
  sp_ip4_address p = Some (a +:+ "/" +:+ mask)%string → has_slash a = false →
  (String.length a < INET_ADDRSTRLEN)%nat → family ≠ Some "ipv6" →
  sflow_agent_address ports (Some name) family = a.
Proof using Type.
  intros Hp Ha Hs Hl Hf. unfold sflow_agent_address. rewrite Hp, Ha.
  assert (∀ n, String.length a < n → break_slash (String.substring 0 n (a +:+ "/" +:+ mask)) =
    (a, (break_slash (String.substring 0 n (a +:+ "/" +:+ mask))).2))%nat as Hcut.
  { clear -Hs. induction a as [|c a IH]; intros [|n] Hn; try (simpl in Hn; lia).
    - done.
    - rewrite string_cons_app. simpl in *. apply orb_false_iff in Hs as [-> Hs]. rewrite IH by (done || lia).
      by destruct (break_slash _). }
  destruct family as [f|]; [|by rewrite Hcut].
  repeat case_bool_decide; try by rewrite Hcut. congruence.
Qed.
End Facts.

(** ** Examples *)

Module SflowExample.
Definition defs : SflowDefs := {|
  SFL_DEFAULT_SAMPLING_RATE := 4096;
  SFL_DEFAULT_POLLING_INTERVAL := 30;
  SFL_DEFAULT_HEADER_SIZE := 128;
  SFL_DEFAULT_DATAGRAM_SIZE := 1400;
  SFL_DEFAULT_COLLECTOR_PORT := 6343;
  DEFAULT_VRF_NAME := "vrf_default";
  DEFAULT_BRIDGE_NAME := "bridge_normal";
  SFLOW_PER_INTERFACE_KEY := "sflow_enabled";
  SFLOW_PER_INTERFACE_TRUE := "true";
  SFLOW_PER_INTERFACE_FALSE := "false";
|}.

(** Two addresses are valid. *)
Definition env : CliEnv := {|
  config_start := λ _, true;
  config_finish := λ _ _, true;
  str2prefix2str := λ ip, if bool_decide (ip ∈ ["10.0.0.1"; "10.0.0.2"]) then Some (ip +:+ "/32")%string else None;
|}.
#[local] Existing Instances ref_lib defs env.

Definition row : ovsrec_sflow := SflowRow ["10.0.0.1/6343"] (Some "eth1") None (Some 1000) None None None.
Definition db : sflow_db :=
  SflowDb (Some true) (Some row) {[ "eth1" := ∅; "eth2" := {[ "sflow_enabled" := "false" ]} ]} [("eth1", Some ∅)].
Definition start : cli := Cli db [].

Lemma env_prints ip p : str2prefix2str ip = Some p → strtok_slash p ≠ None.
Proof.
  simpl. case_bool_decide as H; [|done]. intros [= <-]. cases_elem H; done.
Qed.

Lemma sflow_commands_safe_witness :
  ∃ s', run_commands
      [SflowCollector "10.0.0.2" (Some "99") None true; SflowCollector "10.0.0.1" None None true;
       SflowCollector "10.0.0.1" (Some "7") None true; SflowSampling (Some "2000");
       SflowCollector "10.0.0.2" (Some "99") None false] start = Ok (tt, s') ∧ db_inv (cli_db s').
Proof.
  apply (sflow_commands_safe env_prints). split; [simpl; lia|].
  constructor; [|constructor]. split; [simpl; unfold MAX_COLLECTOR_LENGTH; lia|reflexivity].
Defined.

Lemma collector_add_remove_witness :
  ∃ s1 s2, sflow_set_collector "10.0.0.2" (Some "99") None true start = Ok (CMD_SUCCESS, s1) ∧
    sf_targets <$> db_sflow (cli_db s1) = Some ["10.0.0.1/6343"; "10.0.0.2/99"] ∧
    sflow_set_collector "10.0.0.2" (Some "99") None false s1 = Ok (CMD_SUCCESS, s2) ∧ cli_db s2 = db.
Proof.
  apply (collector_add_remove (HS := defs) (HC := env) (λ _, eq_refl) (λ _ _, eq_refl) "10.0.0.2" (Some "99") None row start).
  - exists "10.0.0.2/32", "32". split; reflexivity.
  - by left.
  - reflexivity.
  - constructor; [|constructor]. split; [simpl; unfold MAX_COLLECTOR_LENGTH; lia|reflexivity].
  - simpl. lia.
  - reflexivity.
  - simpl. by_compute.
Defined.

Lemma show_collector_text_witness :
  show_collector "10.0.0.1/vrf_default" start = Ok (Some "10.0.0.1/6343/vrf_default", start).
Proof.
  assert (word "10.0.0.1" ∧ word "vrf_default") as [H1 H2] by done.
  assert (String.length (collector_text "10.0.0.1" None (Some "vrf_default")) < MAX_COLLECTOR_LENGTH)%nat as Hl
    by (unfold MAX_COLLECTOR_LENGTH; simpl; lia).
  refine (eq_trans (show_collector_text "10.0.0.1" None (Some "vrf_default") start H1 I (conj H2 eq_refl) Hl) _).
  vm_compute. reflexivity.
Defined.

Lemma start_inv : db_inv db.
Proof. split; [simpl; lia|]. constructor; [|constructor]. split; [simpl; unfold MAX_COLLECTOR_LENGTH; lia|reflexivity]. Qed.

Lemma sflow_show_agrees_with_switch_witness :
  ∃ lines o, sflow_show start = Ok (lines, start) ∧ values "sFlow" lines = ["enabled"] ∧
    configure_sflow_all [SflowPort "eth1" (Some "10.0.0.9/24") None ∅] (Some row) ["br0"; "vrf_default"] 0 !! 1%nat =
      Some ("vrf_default", Some o) ∧
    so_agent_ip o = "10.0.0.9" ∧ told [SflowPort "eth1" (Some "10.0.0.9/24") None ∅] start lines 1 o.
Proof.
  destruct (sflow_show_agrees_with_switch [SflowPort "eth1" (Some "10.0.0.9/24") None ∅] ["br0"; "vrf_default"] row db [] true)
    as (lines & E & Es & _ & H); [simpl; lia|simpl; lia|simpl; lia|simpl; lia|reflexivity|reflexivity|exact start_inv|].
  destruct (H 1%nat "vrf_default" _ eq_refl) as (o & [= <-] & Ht).
  exists lines. eexists. split; [exact E|]. split; [exact Es|]. split; [reflexivity|]. split; [vm_compute; reflexivity|exact Ht].
Defined.

Lemma port_command_reaches_switch_witness :
  ∃ s', run_command (SflowEnable (PORT_NODE "eth1") false) start = Ok (CMD_SUCCESS, s') ∧
    "eth1" ∈ sflow_ports_disabled (port_rows (cli_db s')).
Proof.
  destruct (port_command_reaches_switch (HS := defs) (HC := env) "eth1" false ∅ start (λ _, eq_refl) (λ _ _, eq_refl) eq_refl eq_refl)
    as (s' & E & H); [done|reflexivity|done|]. exists s'. split; [exact E|]. by apply (H "eth1").
Defined.

Lemma sflow_agent_address_whole_witness :
  sflow_agent_address [SflowPort "eth1" (Some "192.168.100.200/24") None ∅] (Some "eth1") None = "192.168.100.200".
Proof.
  apply (sflow_agent_address_whole _ _ (SflowPort "eth1" (Some "192.168.100.200/24") None ∅) "192.168.100.200" "24");
    [reflexivity|reflexivity|reflexivity|simpl; unfold INET_ADDRSTRLEN; lia|done].
Defined.
End SflowExample.
