(* ===== verification/Lifecycle.v ===== *)
(** * Life cycle of bridges and VRFs: bridge.c

    [add_del_bridges] and [add_del_vrfs] make the structures of bridges and
    VRFs follow the rows of the database; the switches of bridges that have none
    are created, and those without a bridge or VRF deleted. *)

From S2P Require Import Prelude OvsLib BridgePorts BridgePortsFacts Sflow SflowFacts.
Local Open Scope Z_scope.

(** ** Structures *)

Record ovsrec_vrf := VrfRow {
  vrr_name : string;
  vrr_ports : list ovsrec_port;
}.

(** [struct bridge]; [b_mirrors]: the names of its mirrors. *)
Record bridge := Bridge {
  b_name : string;
  b_type : string;
  b_cfg : option ovsrec_bridge;
  b_default_ea : string;
  b_ofproto : bool;
  b_ports : bpst;
  b_mirrors : list string;
}.

(** [struct vrf] *)
Record vrf := Vrf {
  up : bridge;
  v_cfg : option ovsrec_vrf;
}.

Definition v_name (v : vrf) : string := b_name (up v).

(** Calls made on the way: the device and port calls of a destroyed bridge, the
    destruction of its mirrors, of the neighbors of a VRF, and of switches. *)
Inductive lc_event :=
| PortsDestroyed (name : string) (calls : list bp_event)
| MirrorDestroyed (bridge mirror : string)
| NeighborsDeleted (vrf : string)
| OfprotoDestroy (name : string)
| OfprotoCreate (name type : string)
| OfprotoDelete (name type : string).

(** [all_bridges] or [all_vrfs]. *)
Record coll (X : Type) := Coll {
  members : list X;
  lc_log : list lc_event;
}.
Arguments Coll {X} _ _.
Arguments members {X} _.
Arguments lc_log {X} _.

(** ** Following the rows

    The two functions have the same shape; they differ in the structures, in
    what destroys them, and in that a bridge whose type changed is destroyed. *)

Section AddDel.
Context `{HL : OvsLib} {X R : Type}.
Context (xname : X → string) (rname : R → string).
Context (set_cfg : option R → X → X) (outdated : X → R → bool).
Context (destroy : X → M (coll X) unit) (create : R → M (coll X) unit).

(** [bridge_lookup], [vrf_lookup] *)
Definition coll_lookup (name : string) (s : coll X) : option X :=
  hmap_first_with_hash (λ x, hash_string (xname x)) (hash_string name) (λ x, bool_decide (xname x = name)) (members s).

(** The rows whose names have no slash, the first of each name. *)
Definition collect_rows (rows : list R) : shash R :=
  shash_collect rname (filter (λ r, has_slash (rname r) = false) rows).

Definition put_member (x : X) (s : coll X) : coll X :=
  Coll ((λ y, if bool_decide (xname y = xname x) then x else y) <$> members s) (lc_log s).

Definition remove_member (name : string) (s : coll X) : coll X :=
  Coll (filter (λ y, xname y ≠ name) (members s)) (lc_log s).

Definition delete_old (new : shash R) (x : X) : M (coll X) unit :=
  let cfg := new !! xname x in
  modify (put_member (set_cfg cfg x)) ;;
  match cfg with
  | Some r => if outdated x r then destroy (set_cfg cfg x) else mret tt
  | None => destroy (set_cfg cfg x)
  end.

Definition add_new (r : R) : M (coll X) unit :=
  known ← gets (coll_lookup (rname r));
  match known with None => create r | Some _ => mret tt end.

Definition add_del (rows : list R) : M (coll X) unit :=
  old ← gets members;
  mfor old (delete_old (collect_rows rows)) ;;
  mfor rows add_new.
End AddDel.

(** ** Bridges and VRFs *)

Class SwitchTypes := {
  ofproto_normalize_type : string → string;
  ofproto_create : list lc_event → string → string → Z;
}.

Section Bridges.
Context `{HL : OvsLib, HD : SwitchDev, HP : Posix, HT : SwitchTypes}.
(** [system_mac] of the first row of the Open_vSwitch table. *)
Context (system_mac : option string).

Definition log_event {X} (e : lc_event) (s : coll X) : coll X := Coll (members s) (lc_log s ++ [e]).

(** Code on the ports of one bridge, whose new calls are logged. *)
Definition destroy_ports {X} (name : string) (ofproto : bool) (s : bpst) : M (coll X) unit := λ c,
  match mfor (ports s) (λ p, port_destroy ofproto (bp_name p)) s with
  | Ok (_, s') => Ok (tt, log_event (PortsDestroyed name (drop (length (bp_log s)) (bp_log s'))) c)
  | Fault e => Fault e
  end.

Definition bridge_lookup (name : string) (s : coll bridge) : option bridge := coll_lookup b_name name s.
Definition vrf_lookup (name : string) (s : coll vrf) : option vrf := coll_lookup v_name name s.

(** [memcpy(&default_ea, ether_aton(ovs->system_mac), ETH_ADDR_LEN)] *)
Definition copy_system_mac {X} : M (coll X) string :=
  mac ← deref system_mac;
  if ether_aton mac then mret mac else die NullDereference.

Definition bridge_create (row : ovsrec_bridge) : M (coll bridge) unit :=
  known ← gets (bridge_lookup (brr_name row));
  ovs_assert (match known with None => true | Some _ => false end) ;;
  ea ← copy_system_mac;
  modify (λ s, Coll (hmap_insert (hash_string (brr_name row))
    (Bridge (brr_name row) (ofproto_normalize_type (brr_datapath_type row)) (Some row) ea false (BpSt [] [] []) [])
    (members s)) (lc_log s)).

Definition vrf_create (row : ovsrec_vrf) : M (coll vrf) unit :=
  known ← gets (vrf_lookup (vrr_name row));
  ovs_assert (match known with None => true | Some _ => false end) ;;
  ea ← copy_system_mac;
  modify (λ s, Coll (hmap_insert (hash_string (vrr_name row))
    (Vrf (Bridge (vrr_name row) "vrf" None ea false (BpSt [] [] []) []) (Some row)) (members s)) (lc_log s)).

(** [ofproto_destroy]: nothing on a null pointer. *)
Definition ofproto_destroy {X} (name : string) (ofproto : bool) : M (coll X) unit :=
  mwhen ofproto (modify (log_event (OfprotoDestroy name))).

Definition bridge_destroy (b : bridge) : M (coll bridge) unit :=
  destroy_ports (b_name b) (b_ofproto b) (b_ports b) ;;
  mfor (b_mirrors b) (λ m, modify (log_event (MirrorDestroyed (b_name b) m))) ;;
  modify (remove_member b_name (b_name b)) ;;
  ofproto_destroy (b_name b) (b_ofproto b).

Definition vrf_destroy (v : vrf) : M (coll vrf) unit :=
  modify (log_event (NeighborsDeleted (v_name v))) ;;
  destroy_ports (v_name v) (b_ofproto (up v)) (b_ports (up v)) ;;
  modify (remove_member v_name (v_name v)) ;;
  ofproto_destroy (v_name v) (b_ofproto (up v)).

Definition set_bridge_cfg (cfg : option ovsrec_bridge) (b : bridge) : bridge :=
  Bridge (b_name b) (b_type b) cfg (b_default_ea b) (b_ofproto b) (b_ports b) (b_mirrors b).
Definition set_vrf_cfg (cfg : option ovsrec_vrf) (v : vrf) : vrf := Vrf (up v) cfg.

Definition add_del_bridges (rows : list ovsrec_bridge) : M (coll bridge) unit :=
  add_del b_name brr_name set_bridge_cfg
    (λ b r, bool_decide (b_type b ≠ ofproto_normalize_type (brr_datapath_type r))) bridge_destroy bridge_create rows.

Definition add_del_vrfs (rows : list ovsrec_vrf) : M (coll vrf) unit :=
  add_del v_name vrr_name set_vrf_cfg (λ _ _, false) vrf_destroy vrf_create rows.

(** ** Switches *)

(** [existing]: names and types of the switches; the calls of [ofproto_delete]. *)
Definition bridge_delete_ofprotos (existing : list (string * string)) (bs : coll bridge) (vs : coll vrf)
    : list (string * string) :=
  filter (λ e, b_type <$> bridge_lookup e.1 bs ≠ Some e.2 ∧ (λ _, "vrf") <$> vrf_lookup e.1 vs ≠ Some e.2) existing.

Definition with_switch (b : bridge) : bridge :=
  Bridge (b_name b) (b_type b) (b_cfg b) (b_default_ea b) true (b_ports b) (b_mirrors b).

(** "Create ofprotos that are missing": one structure, the bridge in it and the
    type of its switch. *)
Definition create_missing {X} (xname : X → string) (br : X → bridge) (set_br : bridge → X → X) (type : X → string)
    (destroy : X → M (coll X) unit) (x : X) : M (coll X) unit :=
  if b_ofproto (br x) then mret tt else
  l ← gets lc_log;
  modify (log_event (OfprotoCreate (b_name (br x)) (type x))) ;;
  if negb (ofproto_create l (b_name (br x)) (type x) =? 0) then destroy x
  else modify (put_member xname (set_br (with_switch (br x)) x)).

Definition set_up (b : bridge) (v : vrf) : vrf := Vrf b (v_cfg v).

Definition create_ofproto : bridge → M (coll bridge) unit :=
  create_missing b_name (λ b, b) (λ b _, b) b_type bridge_destroy.
Definition create_vrf_ofproto : vrf → M (coll vrf) unit :=
  create_missing v_name up set_up (λ _, "vrf") vrf_destroy.

Definition create_ofprotos : M (coll bridge) unit :=
  old ← gets members;
  mfor old create_ofproto.
Definition create_vrf_ofprotos : M (coll vrf) unit :=
  old ← gets members;
  mfor old create_vrf_ofproto.
End Bridges.

(** ** The loops *)

Section AddDelFacts.
Context `{HL : OvsLib} {X R : Type}.
Context (xname : X → string) (rname : R → string).
Context (set_cfg : option R → X → X) (outdated : X → R → bool).
Context (destroy : X → M (coll X) unit) (create : R → M (coll X) unit).
Context (fresh_member : R → X) (good : X → Prop).
Context (set_cfg_name : ∀ cfg x, xname (set_cfg cfg x) = xname x).
Context (fresh_name : ∀ r, xname (fresh_member r) = rname r).
Context (destroy_run : ∀ d x r cfg log, good x → NoDup (xname <$> d ++ x :: r) →
  ∃ log', destroy (set_cfg cfg x) (Coll (d ++ set_cfg cfg x :: r) log) = Ok (tt, Coll (d ++ r) log')).
Context (create_run : ∀ r l log, rname r ∉ xname <$> l →
  create r (Coll l log) = Ok (tt, Coll (hmap_insert (hash_string (rname r)) (fresh_member r) l) log)).

(** What the first loop leaves of a structure. *)
Definition keep_member (new : shash R) (x : X) : option X :=
  r ← new !! xname x; if outdated x r then None else Some (set_cfg (Some r) x).

Lemma delete_old_loop new r d log :
  NoDup (xname <$> d ++ r) → (∀ x, x ∈ r → good x) →
  ∃ log', mfor r (delete_old xname set_cfg outdated destroy new) (Coll (d ++ r) log) =
    Ok (tt, Coll (d ++ omap (keep_member new) r) log').
Proof using set_cfg_name destroy_run.
  revert d log. induction r as [|x r IH]; intros d log Hnd Hg; [by exists log|].
  assert (put_member xname (set_cfg (new !! xname x) x) (Coll (d ++ x :: r) log) =
    Coll (d ++ set_cfg (new !! xname x) x :: r) log) as Eput.
  { unfold put_member. simpl. rewrite set_cfg_name. f_equal. by apply (replace_by_name xname). }
  assert (∀ log, ∃ log', destroy (set_cfg (new !! xname x) x) (Coll (d ++ set_cfg (new !! xname x) x :: r) log) =
    Ok (tt, Coll (d ++ r) log')) as Hd by (intros; apply destroy_run; [apply Hg; left|done]).
  assert (NoDup (xname <$> d ++ r)) as Hnd'.
  { rewrite fmap_app, fmap_cons in Hnd. rewrite fmap_app. apply NoDup_app in Hnd as (H1 & H2 & H3).
    apply NoDup_cons in H3 as [_ H3]. apply NoDup_app. split; [done|]. split; [|done]. intros y Hy Hy'. apply (H2 y Hy). by right. }
  assert (∃ log1, delete_old xname set_cfg outdated destroy new x (Coll (d ++ x :: r) log) =
    Ok (tt, Coll (d ++ option_list (keep_member new x) ++ r) log1)) as (log1 & E1).
  { unfold delete_old, keep_member. step. rewrite Eput. destruct (new !! xname x) as [row|] eqn:Er; simpl.
    - destruct (outdated x row); simpl; [apply Hd|by exists log].
    - apply Hd. }
  cbn [mfor]. erewrite bind_run by exact E1. csimpl. destruct (keep_member new x) as [x'|] eqn:Ek; simpl.
  - destruct (IH (d ++ [x']) log1) as (log' & E).
    { unfold keep_member in Ek. destruct (new !! xname x) as [row|]; [|done]. simpl in Ek.
      destruct (outdated x row); [done|]. injection Ek as <-. rewrite <-app_assoc. simpl.
      rewrite fmap_app, fmap_cons in *. by rewrite set_cfg_name. }
    { intros; apply Hg; by right. }
    exists log'. by rewrite <-!app_assoc in E.
  - apply IH; [done|]. intros; apply Hg; by right.
Qed.

Lemma add_new_loop rows l log :
  NoDup (xname <$> l) →
  ∃ l', mfor rows (add_new xname rname create) (Coll l log) = Ok (tt, Coll l' log) ∧ NoDup (xname <$> l') ∧
    (∀ x, x ∈ l → x ∈ l') ∧ (∀ x, x ∈ l' → x ∈ l ∨ ∃ r, r ∈ rows ∧ x = fresh_member r) ∧
    ∀ r, r ∈ rows → rname r ∈ xname <$> l'.
Proof using create_run fresh_name outdated.
  revert l. induction rows as [|r rows IH]; intros l Hnd.
  { exists l. split; [done|]. split; [done|]. split; [done|]. split; [auto|]. by intros ? ?%elem_of_nil. }
  assert (∃ l1, add_new xname rname create r (Coll l log) = Ok (tt, Coll l1 log) ∧ NoDup (xname <$> l1) ∧
    (∀ x, x ∈ l → x ∈ l1) ∧ (∀ x, x ∈ l1 → x ∈ l ∨ x = fresh_member r) ∧ rname r ∈ xname <$> l1)
    as (l1 & E1 & Hnd1 & H1 & H2 & H3).
  { unfold add_new, coll_lookup. step. simpl. destruct (hmap_first_with_hash _ _ _ l) as [x|] eqn:El.
    - apply (find_by_name xname) in El as [Hx En]; [|done]. exists l. split; [done|]. split; [done|]. split; [done|].
      split; [auto|]. rewrite <-En. by apply list_elem_of_fmap_2.
    - apply (find_by_name_None xname) in El. eexists. split; [by apply create_run|].
      pose proof (hmap_insert_perm (hash_string (rname r)) (fresh_member r) l) as Ep. split; [|split; [|split]].
      + rewrite Ep. simpl. rewrite fresh_name. by apply NoDup_cons.
      + intros x Hx. rewrite Ep. by right.
      + intros x. rewrite Ep, elem_of_cons. tauto.
      + rewrite Ep. simpl. rewrite fresh_name. left. }
  destruct (IH l1 Hnd1) as (l' & E & Hnd' & G1 & G2 & G3). exists l'. cbn [mfor]. erewrite bind_run by exact E1.
  split; [done|]. split; [done|]. split; [auto|]. split.
  - intros x [Hx|(r' & Hr' & ->)]%G2; [|right; exists r'; split; [by right|done]].
    apply H2 in Hx as [Hx| ->]; [auto|]. right. exists r. split; [left|done].
  - intros r' [->|Hr']%elem_of_cons; [|auto]. apply list_elem_of_fmap in H3 as (x & Ex & Hx).
    rewrite Ex. apply list_elem_of_fmap_2. auto.
Qed.

Lemma add_del_run rows s :
  NoDup (xname <$> members s) → (∀ x, x ∈ members s → good x) →
  ∃ s', add_del xname rname set_cfg outdated destroy create rows s = Ok (tt, s') ∧ NoDup (xname <$> members s') ∧
    (∀ n, n ∈ xname <$> members s' ↔ n ∈ rname <$> rows) ∧
    (∀ x x', x ∈ members s → keep_member (collect_rows rname rows) x = Some x' → x' ∈ members s') ∧
    (∀ x', x' ∈ members s' →
       (∃ x, x ∈ members s ∧ keep_member (collect_rows rname rows) x = Some x') ∨ ∃ r, r ∈ rows ∧ x' = fresh_member r).
Proof using create_run destroy_run fresh_name set_cfg_name.
  destruct s as [l log]. simpl. intros Hnd Hg. set (new := collect_rows rname rows).
  destruct (delete_old_loop new l [] log Hnd Hg) as (log1 & E1). simpl in E1.
  assert (∀ x x', keep_member new x = Some x' → xname x' = xname x ∧ ∃ r, r ∈ rows ∧ rname r = xname x) as Hkeep.
  { unfold keep_member. intros x x'. destruct (new !! xname x) as [r|] eqn:Er; [|done]. simpl.
    destruct (outdated x r); [done|]. intros [= <-]. split; [apply set_cfg_name|]. unfold new, collect_rows in Er.
    apply shash_collect_Some in Er as [[_ Hr]%list_elem_of_filter <-]. eauto. }
  assert (NoDup (xname <$> omap (keep_member new) l)) as Hnd1.
  { clear E1 Hg. induction l as [|x l IH]; [constructor|]. apply NoDup_cons in Hnd as [Hx Hnd]. csimpl.
    destruct (keep_member new x) as [x'|] eqn:Ek; [|by apply IH]. simpl. apply NoDup_cons. split; [|by apply IH].
    destruct (Hkeep x x' Ek) as [-> _]. intros (y & Ey & (z & Hz & Ekz)%list_elem_of_omap)%list_elem_of_fmap.
    apply Hx. destruct (Hkeep z y Ekz) as [Ez _]. rewrite Ey, Ez. by apply list_elem_of_fmap_2. }
  destruct (add_new_loop rows (omap (keep_member new) l) log1 Hnd1) as (l' & E & Hnd' & H1 & H2 & H3).
  exists (Coll l' log1). split; [unfold add_del; step; by step E1|]. simpl. split; [done|]. split; [|split].
  - intros n. split.
    + intros (x & -> & [(y & Hy & Ek)%list_elem_of_omap|(r & Hr & ->)]%H2)%list_elem_of_fmap.
      * destruct (Hkeep y x Ek) as (-> & r & Hr & <-). by apply list_elem_of_fmap_2.
      * rewrite fresh_name. by apply list_elem_of_fmap_2.
    + intros (r & -> & Hr)%list_elem_of_fmap. auto.
  - intros x x' Hx Ek. apply H1, list_elem_of_omap. eauto.
  - intros x' [(x & Hx & Ek)%list_elem_of_omap|?]%H2; eauto.
Qed.
End AddDelFacts.

(** ** Bridges, VRFs and switches *)

Section BridgeFacts.
Context `{HL : OvsLib, HD : SwitchDev, HP : Posix, HT : SwitchTypes}.
Context (system_mac : option string).

(** The ports of a structure are consistent. *)
Definition ports_good (b : bridge) : Prop := bwf (b_ports b) ∧ full (b_ports b).

Lemma empty_ports_good : bwf (BpSt [] [] []) ∧ full (BpSt [] [] []).
Proof.
  split; [split; simpl|].
  - constructor.
  - constructor.
  - by intros p ?%elem_of_nil.
  - by intros f ?%elem_of_nil.
  - by intros q ?%elem_of_nil.
Qed.

Lemma destroy_ports_run {X} name ofproto s (c : coll X) :
  bwf s → full s → ∃ l, destroy_ports name ofproto s c = Ok (tt, log_event (PortsDestroyed name l) c).
Proof using Type.
  intros Hw Hf. unfold destroy_ports.
  destruct (ports_loop (λ p, port_destroy ofproto (bp_name p)) (λ _, False)) with (s := s) as (s' & E & _); [|done|done|].
  - intros p x Hwx Hfx Hl. destruct (port_destroy_run ofproto x (bp_name p) Hwx) as (x' & E & Hn & Ht); [by apply listed_port|].
    exists x'. split; [done|]. split; [|by apply (trimmed_ext x x x' _ _ eq_refl Ht)].
    apply (full_trimmed_other x x' (bp_name p) Hwx Hfx); [|intros f ? ?; by apply Ht]. intros r [? ?]%Hn. done.
  - rewrite E. eauto.
Qed.

Lemma log_loop_run {X A} (e : A → lc_event) l (c : coll X) :
  mfor l (λ a, modify (log_event (e a))) c = Ok (tt, Coll (members c) (lc_log c ++ (e <$> l))).
Proof using Type.
  revert c. induction l as [|a l IH]; intros c; simpl; [by destruct c; rewrite app_nil_r|]. step. rewrite IH. simpl.
  by rewrite <-app_assoc.
Qed.

Lemma remove_member_mid {X} (name : X → string) d x y r log :
  name y = name x → NoDup (name <$> d ++ x :: r) →
  remove_member name (name x) (Coll (d ++ y :: r) log) = Coll (d ++ r) log.
Proof using Type. intros En Hnd. unfold remove_member. simpl. f_equal. by apply filter_by_name. Qed.

Lemma ofproto_destroy_run {X} name ofproto (c : coll X) :
  ∃ log, ofproto_destroy name ofproto c = Ok (tt, Coll (members c) log).
Proof using Type. destruct ofproto; [eexists; done|exists (lc_log c); by destruct c]. Qed.

Lemma bridge_destroy_run d b b' r log :
  ports_good b' → b_name b' = b_name b → NoDup (b_name <$> d ++ b :: r) →
  ∃ log', bridge_destroy b' (Coll (d ++ b' :: r) log) = Ok (tt, Coll (d ++ r) log').
Proof using Type.
  intros [Hw Hf] En Hnd. unfold bridge_destroy.
  destruct (destroy_ports_run (b_name b') (b_ofproto b') (b_ports b') (Coll (d ++ b' :: r) log) Hw Hf) as (l & E1).
  step E1. erewrite bind_run by apply log_loop_run. step. simpl. rewrite En, (remove_member_mid b_name) by done.
  apply ofproto_destroy_run.
Qed.

Lemma vrf_destroy_run d v v' r log :
  ports_good (up v') → v_name v' = v_name v → NoDup (v_name <$> d ++ v :: r) →
  ∃ log', vrf_destroy v' (Coll (d ++ v' :: r) log) = Ok (tt, Coll (d ++ r) log').
Proof using Type.
  intros [Hw Hf] En Hnd. unfold vrf_destroy. step.
  match goal with |- context [log_event ?e ?c] =>
    destruct (destroy_ports_run (v_name v') (b_ofproto (up v')) (b_ports (up v')) (log_event e c) Hw Hf) as (l & E1) end.
  step E1. step. unfold log_event. simpl. rewrite En, (remove_member_mid v_name) by done. apply ofproto_destroy_run.
Qed.

(** A new structure. *)
Definition new_bridge (mac : string) (row : ovsrec_bridge) : bridge :=
  Bridge (brr_name row) (ofproto_normalize_type (brr_datapath_type row)) (Some row) mac false (BpSt [] [] []) [].
Definition new_vrf (mac : string) (row : ovsrec_vrf) : vrf :=
  Vrf (Bridge (vrr_name row) "vrf" None mac false (BpSt [] [] []) []) (Some row).

Lemma bridge_create_run mac row l log :
  system_mac = Some mac → ether_aton mac = true → brr_name row ∉ b_name <$> l →
  bridge_create system_mac row (Coll l log) =
  Ok (tt, Coll (hmap_insert (hash_string (brr_name row)) (new_bridge mac row) l) log).
Proof using Type.
  intros Hm Ha Hn. unfold bridge_create, bridge_lookup, coll_lookup. step.
  rewrite (proj2 (find_by_name_None b_name l _)) by done. step.
  assert (copy_system_mac system_mac (Coll l log) = Ok (mac, Coll l log)) as Em
    by (unfold copy_system_mac; rewrite Hm; step; by rewrite Ha).
  by step Em.
Qed.

Lemma vrf_create_run mac row l log :
  system_mac = Some mac → ether_aton mac = true → vrr_name row ∉ v_name <$> l →
  vrf_create system_mac row (Coll l log) =
  Ok (tt, Coll (hmap_insert (hash_string (vrr_name row)) (new_vrf mac row) l) log).
Proof using Type.
  intros Hm Ha Hn. unfold vrf_create, vrf_lookup, coll_lookup. step.
  rewrite (proj2 (find_by_name_None v_name l _)) by done. step.
  assert (copy_system_mac system_mac (Coll l log) = Ok (mac, Coll l log)) as Em
    by (unfold copy_system_mac; rewrite Hm; step; by rewrite Ha).
  by step Em.
Qed.

Lemma add_del_bridges_run mac rows s :
  system_mac = Some mac → ether_aton mac = true →
  NoDup (b_name <$> members s) → (∀ b, b ∈ members s → ports_good b) →
  ∃ s', add_del_bridges system_mac rows s = Ok (tt, s') ∧ NoDup (b_name <$> members s') ∧
    (∀ n, n ∈ b_name <$> members s' ↔ n ∈ brr_name <$> rows) ∧
    (∀ b, b ∈ members s' → ports_good b ∧ ∃ r, r ∈ rows ∧ brr_name r = b_name b ∧ b_cfg b = Some r ∧
       b_type b = ofproto_normalize_type (brr_datapath_type r)) ∧
    (∀ b r, b ∈ members s → collect_rows brr_name rows !! b_name b = Some r →
       b_type b = ofproto_normalize_type (brr_datapath_type r) → set_bridge_cfg (Some r) b ∈ members s').
Proof using Type.
  intros Hm Ha Hnd Hg. unfold add_del_bridges.
  destruct (add_del_run b_name brr_name set_bridge_cfg
    (λ b r, bool_decide (b_type b ≠ ofproto_normalize_type (brr_datapath_type r))) bridge_destroy
    (bridge_create system_mac) (new_bridge mac) ports_good (λ _ _, eq_refl) (λ _, eq_refl)
    (λ d b r cfg log Hb, bridge_destroy_run d b (set_bridge_cfg cfg b) r log Hb eq_refl)
    (λ r l log, bridge_create_run mac r l log Hm Ha) rows s Hnd Hg) as (s' & E & Hnd' & Hn & Hk & Hall).
  exists s'. split; [exact E|]. split; [done|]. split; [done|]. split.
  - intros b' [(b & Hb & Ek)|(r & Hr & ->)]%Hall; [|by split; [apply empty_ports_good|exists r]]. unfold keep_member in Ek.
    destruct (collect_rows brr_name rows !! b_name b) as [r|] eqn:Er; [|done]. simpl in Ek.
    case_bool_decide as Ht; [done|]. injection Ek as <-. apply shash_collect_Some in Er as [[_ Hr]%list_elem_of_filter Er].
    split; [exact (Hg b Hb)|]. exists r. split; [done|]. split; [done|]. split; [done|].
    by destruct (decide (b_type b = ofproto_normalize_type (brr_datapath_type r))).
  - intros b r Hb Er Ht. apply (Hk b); [done|]. unfold keep_member. rewrite Er. simpl. by rewrite bool_decide_false by auto.
Qed.

Lemma add_del_vrfs_run mac rows s :
  system_mac = Some mac → ether_aton mac = true →
  NoDup (v_name <$> members s) → (∀ v, v ∈ members s → ports_good (up v)) →
  ∃ s', add_del_vrfs system_mac rows s = Ok (tt, s') ∧ NoDup (v_name <$> members s') ∧
    (∀ n, n ∈ v_name <$> members s' ↔ n ∈ vrr_name <$> rows) ∧
    (∀ v, v ∈ members s' → (ports_good (up v) ∧ ((∃ v0, v0 ∈ members s ∧ up v = up v0) ∨ b_cfg (up v) = None)) ∧
       ∃ r, r ∈ rows ∧ vrr_name r = v_name v ∧ v_cfg v = Some r) ∧
    (∀ v r, v ∈ members s → collect_rows vrr_name rows !! v_name v = Some r → Vrf (up v) (Some r) ∈ members s').
Proof using Type.
  intros Hm Ha Hnd Hg. unfold add_del_vrfs.
  destruct (add_del_run v_name vrr_name set_vrf_cfg (λ _ _, false) vrf_destroy
    (vrf_create system_mac) (new_vrf mac) (λ v, ports_good (up v)) (λ _ _, eq_refl) (λ _, eq_refl)
    (λ d v r cfg log Hv, vrf_destroy_run d v (set_vrf_cfg cfg v) r log Hv eq_refl)
    (λ r l log, vrf_create_run mac r l log Hm Ha) rows s Hnd Hg) as (s' & E & Hnd' & Hn & Hk & Hall).
  exists s'. split; [exact E|]. split; [done|]. split; [done|]. split.
  - intros v' [(v & Hv & Ek)|(r & Hr & ->)]%Hall; [|by split; [split; [apply empty_ports_good|by right]|exists r]]. unfold keep_member in Ek.
    destruct (collect_rows vrr_name rows !! v_name v) as [r|] eqn:Er; [|done]. simpl in Ek.
    injection Ek as <-. apply shash_collect_Some in Er as [[_ Hr]%list_elem_of_filter Er].
    split; [split; [exact (Hg v Hv)|left; by exists v]|]. by exists r.
  - intros v r Hv Er. apply (Hk v); [done|]. unfold keep_member. by rewrite Er.
Qed.

(** with a valid system address, [add_del_bridges] returns and leaves one
    bridge for every name in the rows, with a row of that name and the type of
    that row; a bridge that was there and whose row still has its type keeps its
    ports, mirrors and switch. *)
Theorem add_del_bridges_converges mac rows s :
  system_mac = Some mac → ether_aton mac = true →
  NoDup (b_name <$> members s) → (∀ b, b ∈ members s → ports_good b) →
  ∃ s', add_del_bridges system_mac rows s = Ok (tt, s') ∧ NoDup (b_name <$> members s') ∧
    (∀ n, n ∈ b_name <$> members s' ↔ n ∈ brr_name <$> rows) ∧
    (∀ b, b ∈ members s' → ∃ r, r ∈ rows ∧ brr_name r = b_name b ∧ b_cfg b = Some r ∧
       b_type b = ofproto_normalize_type (brr_datapath_type r)) ∧
    (∀ b r, b ∈ members s → collect_rows brr_name rows !! b_name b = Some r →
       b_type b = ofproto_normalize_type (brr_datapath_type r) → set_bridge_cfg (Some r) b ∈ members s').
Proof using Type.
  intros Hm Ha Hnd Hg. destruct (add_del_bridges_run mac rows s Hm Ha Hnd Hg) as (s' & E & Hnd' & Hn & Hall & Hk).
  exists s'. split; [done|]. split; [done|]. split; [done|]. split; [|done]. intros b Hb. by apply Hall.
Qed.

(** [add_del_vrfs] returns and leaves one VRF for every name in the rows,
    with a row of that name; a VRF that was there keeps its ports and switch. *)
Theorem add_del_vrfs_converges mac rows s :
  system_mac = Some mac → ether_aton mac = true →
  NoDup (v_name <$> members s) → (∀ v, v ∈ members s → ports_good (up v)) →
  ∃ s', add_del_vrfs system_mac rows s = Ok (tt, s') ∧ NoDup (v_name <$> members s') ∧
    (∀ n, n ∈ v_name <$> members s' ↔ n ∈ vrr_name <$> rows) ∧
    (∀ v, v ∈ members s' → ∃ r, r ∈ rows ∧ vrr_name r = v_name v ∧ v_cfg v = Some r) ∧
    (∀ v r, v ∈ members s → collect_rows vrr_name rows !! v_name v = Some r → Vrf (up v) (Some r) ∈ members s').
Proof using Type.
  intros Hm Ha Hnd Hg. destruct (add_del_vrfs_run mac rows s Hm Ha Hnd Hg) as (s' & E & Hnd' & Hn & Hall & Hk).
  exists s'. split; [done|]. split; [done|]. split; [done|]. split; [|done]. intros v Hv. by apply Hall.
Qed.

(** A bridge whose name has a slash, which the code says it ignores, is created. *)
Theorem bridge_with_slash_created mac row :
  system_mac = Some mac → ether_aton mac = true → has_slash (brr_name row) = true →
  ∃ s', add_del_bridges system_mac [row] (Coll [] []) = Ok (tt, s') ∧ members s' = [new_bridge mac row].
Proof using Type.
  intros Hm Ha _. exists (Coll [new_bridge mac row] []). split; [|done].
  assert (add_new b_name brr_name (bridge_create system_mac) row (Coll [] []) =
    Ok (tt, Coll [new_bridge mac row] [])) as E.
  { unfold add_new. erewrite (bind_run (gets _) _ _ None) by reflexivity. cbv iota.
    rewrite (bridge_create_run mac); [|done|done|apply not_elem_of_nil]. do 3 f_equal.
    apply Permutation_singleton_r, hmap_insert_perm. }
  unfold add_del_bridges, add_del. step. step. cbn [mfor]. by step E.
Qed.

(** What one iteration leaves of a structure: nothing, or it has a switch. *)
Section CreateSwitch.
Context {X : Type} (xname : X → string) (br : X → bridge) (set_br : bridge → X → X) (type : X → string).
Context (destroy : X → M (coll X) unit).
Context (set_br_name : ∀ x, xname (set_br (with_switch (br x)) x) = xname x).
Context (set_br_same : ∀ x, set_br (br x) x = x).
Context (destroy_run : ∀ d x r log, ports_good (br x) → NoDup (xname <$> d ++ x :: r) →
  ∃ log', destroy x (Coll (d ++ x :: r) log) = Ok (tt, Coll (d ++ r) log')).

Definition switched (x : X) (k : option X) : Prop :=
  (k = None ∨ k = Some (set_br (with_switch (br x)) x)) ∧
  (b_ofproto (br x) = true ∨ (∀ l, ofproto_create l (b_name (br x)) (type x) = 0) → k ≠ None).

Lemma create_missing_run x d r log :
  NoDup (xname <$> d ++ x :: r) → ports_good (br x) →
  ∃ k log', create_missing xname br set_br type destroy x (Coll (d ++ x :: r) log) =
      Ok (tt, Coll (d ++ option_list k ++ r) log') ∧ switched x k.
Proof using set_br_name set_br_same destroy_run.
  intros Hnd Hg. unfold create_missing. destruct (b_ofproto (br x)) eqn:Eo.
  { exists (Some x), log. split; [done|]. split; [|done]. right. f_equal. rewrite <-(set_br_same x) at 1. f_equal.
    unfold with_switch. rewrite <-Eo. by destruct (br x). }
  step. step. unfold log_event. simpl.
  destruct (Z.eqb_spec (ofproto_create log (b_name (br x)) (type x)) 0) as [Ec|Ec]; simpl.
  - exists (Some (set_br (with_switch (br x)) x)). eexists. split; [|split; [by right|done]].
    unfold put_member, modify. simpl. do 3 f_equal. rewrite set_br_name. by apply (replace_by_name xname).
  - destruct (destroy_run d x r (log ++ [OfprotoCreate (b_name (br x)) (type x)]) Hg Hnd) as (log' & E).
    exists None, log'. split; [exact E|]. split; [by left|]. intros [|Hc]; [congruence|]. by rewrite Hc in Ec.
Qed.

Lemma create_missing_loop r d log :
  NoDup (xname <$> d ++ r) → (∀ x, x ∈ r → ports_good (br x)) →
  ∃ ks log', mfor r (create_missing xname br set_br type destroy) (Coll (d ++ r) log) =
      Ok (tt, Coll (d ++ omap id ks) log') ∧ Forall2 switched r ks.
Proof using set_br_name set_br_same destroy_run.
  revert d log. induction r as [|x r IH]; intros d log Hnd Hg; [exists [], log; by split; [|constructor]|].
  destruct (create_missing_run x d r log Hnd) as (k & log1 & E1 & Hk); [apply Hg; left|].
  destruct (IH (d ++ option_list k) log1) as (ks & log' & E & HF).
  { rewrite fmap_app, fmap_cons in Hnd. rewrite !fmap_app, <-app_assoc. destruct Hk as [[-> | ->] _]; simpl.
    - apply NoDup_app in Hnd as (G1 & G2 & G3). apply NoDup_cons in G3 as [_ G3]. apply NoDup_app. split; [done|].
      split; [|done]. intros y Hy Hy'. apply (G2 y Hy). by right.
    - by rewrite set_br_name. }
  { intros; apply Hg; by right. }
  exists (k :: ks), log'. cbn [mfor]. erewrite bind_run by exact E1. rewrite <-!app_assoc in E.
  split; [|by constructor]. rewrite E. by destruct k.
Qed.
End CreateSwitch.

Lemma create_ofprotos_run s :
  NoDup (b_name <$> members s) → (∀ b, b ∈ members s → ports_good b) →
  ∃ ks log', create_ofprotos s = Ok (tt, Coll (omap id ks) log') ∧
    Forall2 (switched (λ b, b) (λ b _, b) b_type) (members s) ks.
Proof using Type.
  destruct s as [l log]. simpl. intros Hnd Hg.
  destruct (create_missing_loop b_name (λ b, b) (λ b _, b) b_type bridge_destroy (λ _, eq_refl) (λ _, eq_refl)
    (λ d b r log Hb, bridge_destroy_run d b b r log Hb eq_refl) l [] log Hnd Hg) as (ks & log' & E & HF).
  exists ks, log'. split; [|done]. unfold create_ofprotos. by step.
Qed.

Lemma create_vrf_ofprotos_run s :
  NoDup (v_name <$> members s) → (∀ v, v ∈ members s → ports_good (up v)) →
  ∃ ks log', create_vrf_ofprotos s = Ok (tt, Coll (omap id ks) log') ∧
    Forall2 (switched up set_up (λ _, "vrf")) (members s) ks.
Proof using Type.
  destruct s as [l log]. simpl. intros Hnd Hg.
  destruct (create_missing_loop v_name up set_up (λ _, "vrf") vrf_destroy (λ _, eq_refl)
    (λ v, match v with Vrf _ _ => eq_refl end)
    (λ d v r log Hv, vrf_destroy_run d v v r log Hv eq_refl) l [] log Hnd Hg) as (ks & log' & E & HF).
  exists ks, log'. split; [|done]. unfold create_vrf_ofprotos. by step.
Qed.

(** The step that creates missing switches returns; after it every bridge
    that is left has a switch, a bridge that had one is unchanged, and a bridge
    for which the creation works is kept with its ports. *)
Theorem create_ofprotos_complete s :
  NoDup (b_name <$> members s) → (∀ b, b ∈ members s → ports_good b) →
  ∃ s', create_ofprotos s = Ok (tt, s') ∧ (∀ b, b ∈ members s' → b_ofproto b = true) ∧
    (∀ b, b ∈ members s → b_ofproto b = true → b ∈ members s') ∧
    (∀ b, b ∈ members s → (∀ l, ofproto_create l (b_name b) (b_type b) = 0) → with_switch b ∈ members s').
Proof using Type.
  intros Hnd Hg. destruct (create_ofprotos_run s Hnd Hg) as (ks & log' & E & HF). exists (Coll (omap id ks) log').
  split; [done|]. simpl. split; [|split].
  - intros b (k & Hk & Eb)%list_elem_of_omap. simpl in Eb. subst k. apply list_elem_of_lookup in Hk as (i & Hi).
    destruct (Forall2_lookup_r _ _ _ _ _ HF Hi) as (b0 & _ & [[?|[= ->]] _]); done.
  - intros b [i Hi]%list_elem_of_lookup Ho. destruct (Forall2_lookup_l _ _ _ _ _ HF Hi) as (k & Hk & [[->| ->] Hn]).
    + by destruct Hn; auto.
    + apply list_elem_of_omap. exists (Some (with_switch b)). split; [by eapply list_elem_of_lookup_2|]. simpl.
      unfold with_switch. rewrite <-Ho. by destruct b.
  - intros b [i Hi]%list_elem_of_lookup Hc. destruct (Forall2_lookup_l _ _ _ _ _ HF Hi) as (k & Hk & [[->| ->] Hn]).
    + by destruct Hn; auto.
    + apply list_elem_of_omap. exists (Some (with_switch b)). split; [by eapply list_elem_of_lookup_2|done].
Qed.
End BridgeFacts.

(** ** Examples *)

Module LifecycleExample.
(** No device is opened when bridges are destroyed. *)
Definition dev : SwitchDev := {|
  OFPP_NONE := 65535;
  OVSREC_INTERFACE_TYPE_VLANSUBINT := "vlansubint";
  SPLIT_PARENT_KEY := "split_parent";
  netdev_is_reserved_name := λ _, false;
  netdev_open := λ _ _ _, 0;
  netdev_set_etheraddr := λ _ _, 0;
  netdev_set_hw_intf_info := λ _ _ _, 0;
  netdev_set_config := λ _ _ _, 0;
  ofproto_port_add := λ l _ _, (0, Z.of_nat (length l));
  ofproto_port_open_type := λ _ t, t;
|}.

Definition types : SwitchTypes := {|
  ofproto_normalize_type := λ t, if bool_decide (t = "") then "system" else t;
  ofproto_create := λ _ name _, if bool_decide (name = "bad") then 5 else 0;
|}.

#[local] Existing Instances ref_lib ref_posix dev types.

Definition mac : string := "00:01:02:03:04:05".
Definition br (name type : string) : bridge := Bridge name type None mac false (BpSt [] [] []) [].
Definition row (name type : string) : ovsrec_bridge := BridgeRow name type [] [].

(** [br1] stays, [br2] changes its type, [br3] goes and [br4] comes. *)
Definition before : coll bridge := Coll [br "br1" "system"; br "br2" "system"; br "br3" "system"] [].
Definition rows : list ovsrec_bridge := [row "br1" ""; row "br2" "netdev"; row "br4" ""].

Lemma before_good b : b ∈ members before → ports_good b.
Proof. intros Hb. unfold before in Hb. simpl in Hb. cases_elem Hb; apply empty_ports_good. Qed.

Lemma add_del_bridges_converges_witness :
  ∃ s', add_del_bridges (Some mac) rows before = Ok (tt, s') ∧
    set_bridge_cfg (Some (row "br1" "")) (br "br1" "system") ∈ members s' ∧ "br4" ∈ b_name <$> members s' ∧
    "br3" ∉ b_name <$> members s'.
Proof.
  destruct (add_del_bridges_converges (HP := ref_posix) (HT := types) (Some mac) mac rows before eq_refl eq_refl ltac:(by_compute) before_good)
    as (s' & E & _ & Hn & _ & Hk). exists s'. split; [exact E|]. clear E. split; [|split].
  - apply Hk; [left|vm_compute; reflexivity|reflexivity].
  - apply Hn. right; right; left.
  - rewrite Hn. by_compute.
Defined.

Lemma add_del_vrfs_converges_witness :
  ∃ s', add_del_vrfs (Some mac) [VrfRow "blue" []] (Coll [Vrf (br "red" "vrf") None] []) = Ok (tt, s') ∧
    "blue" ∈ v_name <$> members s' ∧ "red" ∉ v_name <$> members s'.
Proof.
  destruct (add_del_vrfs_converges (HP := ref_posix) (Some mac) mac [VrfRow "blue" []] (Coll [Vrf (br "red" "vrf") None] [])
    eq_refl eq_refl ltac:(by_compute)) as (s' & E & _ & Hn & _).
  { intros v Hv. simpl in Hv. cases_elem Hv. apply empty_ports_good. }
  exists s'. split; [exact E|]. clear E. split; [apply Hn; left|]. rewrite Hn. by_compute.
Defined.

Lemma create_ofprotos_complete_witness :
  ∃ s', create_ofprotos (Coll [br "br1" "system"; br "bad" "system"] []) = Ok (tt, s') ∧
    with_switch (br "br1" "system") ∈ members s' ∧ ∀ b, b ∈ members s' → b_ofproto b = true.
Proof.
  destruct (create_ofprotos_complete (Coll [br "br1" "system"; br "bad" "system"] [])) as (s' & E & Ho & _ & Hc).
  { by_compute. }
  { intros b Hb. simpl in Hb. cases_elem Hb; apply empty_ports_good. }
  exists s'. split; [exact E|]. clear E. split; [|exact Ho]. apply Hc; [left|reflexivity].
Defined.
End LifecycleExample.
