(* ===== verification/Remotes.v ===== *)
(** * OpenFlow configuration of a bridge: bridge.c

    Managers and controllers ([collect_in_band_managers],
    [bridge_configure_remotes] with [equal_pathnames]), flow tables, and the
    size and aging time of the MAC table. *)

From Stdlib Require Import Ascii.
From S2P Require Import Prelude OvsLib.
Local Open Scope Z_scope.

(** ** Rows and settings *)

Record ovsrec_manager := ManagerRow {
  mg_target : string;
  mg_connection_mode : option string;
}.

Record ovsrec_controller := ControllerRow {
  ct_target : string;
  ct_max_backoff : option Z;
  ct_inactivity_probe : option Z;
  ct_connection_mode : option string;
  ct_rate_limit : option Z;
  ct_burst_limit : option Z;
  ct_enable_async_messages : option bool;
  ct_other_config : smap;
  ct_local_ip : option string;
  ct_local_netmask : option string;
  ct_local_gateway : option string;
}.

Inductive ofproto_band := OFPROTO_IN_BAND | OFPROTO_OUT_OF_BAND.
Inductive ofproto_fail_mode := OFPROTO_FAIL_STANDALONE | OFPROTO_FAIL_SECURE.

Record ofproto_controller := OfController {
  oc_target : string;
  oc_max_backoff : Z;
  oc_probe_interval : Z;
  oc_band : ofproto_band;
  oc_rate_limit : Z;
  oc_burst_limit : Z;
  oc_enable_async_msgs : bool;
  oc_dscp : Z;
}.

(** Calls to the device and the switch. *)
Inductive rm_event :=
| SetInBandQueue (queue : Z)
| SetExtraInBandRemotes (managers : list Z)
| TurnFlagsOn
| SetIn4 (ip mask : Z)
| AddRouter (gateway : Z)
| SetControllers (ocs : list ofproto_controller) (versions : Z)
| SetFailMode (mode : ofproto_fail_mode)
| SetSnoops (target : string).

(** Constants, and functions of the libraries: the address of a target (if it
    is an IPv4 address), the parser of IPv4 addresses, the netmask guessed from
    an address, and the directory of the daemon. *)
Class RemoteLib := {
  DSCP_DEFAULT : Z;
  MAC_ENTRY_DEFAULT_IDLE_TIME : Z;
  MAC_DEFAULT_MAX : Z;
  stream_parse_target : string → option Z;
  inet_pton4 : string → option Z;
  guess_netmask : Z → Z;
  ovs_rundir : string;
}.

Definition SIZE_MAX : Z := 2 ^ 64 - 1.

(** ** Path names *)

(** [s + strspn(s, "/")] *)
Fixpoint skip_slashes (s : string) : string :=
  match s with
  | String c s' => if Ascii.eqb c "/"%char then skip_slashes s' else s
  | EmptyString => EmptyString
  end.

(** The loop of [equal_pathnames]; [pos] is [b - b_start]. *)
Fixpoint equal_pathnames_loop (fuel : nat) (a b : string) (pos b_stoplen : Z) : option bool :=
  match fuel with
  | O => None
  | S fuel =>
    if b_stoplen <=? pos then Some true else
    match a, b with
    | EmptyString, EmptyString => Some true
    | String c a', String d b' =>
      if negb (Ascii.eqb c d) then Some false
      else if Ascii.eqb c "/"%char then
        let b2 := skip_slashes b in
        equal_pathnames_loop fuel (skip_slashes a) b2
          (pos + Z.of_nat (String.length b) - Z.of_nat (String.length b2)) b_stoplen
      else equal_pathnames_loop fuel a' b' (pos + 1) b_stoplen
    | _, _ => Some false
    end
  end.

Definition equal_pathnames (a b : string) (b_stoplen : Z) : bool :=
  default false (equal_pathnames_loop (S (String.length a)) a b 0 b_stoplen).

Section Remotes.
Context `{HL : OvsLib, HR : RemoteLib}.

(** ** Managers *)

(** The targets of the managers, in the order of the set. *)
Definition manager_targets (rows : list ovsrec_manager) : gset string :=
  fold_left (λ targets m,
    if bool_decide (mg_connection_mode m = Some "out-of-band") then targets ∖ {[ mg_target m ]}
    else targets ∪ {[ mg_target m ]}) rows ∅.

Definition collect_in_band_managers (rows : list ovsrec_manager) : list Z :=
  omap stream_parse_target (elements (manager_targets rows)).

(** ** Controllers *)

Definition bridge_ofproto_controller_for_mgmt (br_name : string) : ofproto_controller :=
  OfController ("punix:" +:+ ovs_rundir +:+ "/" +:+ br_name +:+ ".mgmt")%string 0 60 OFPROTO_OUT_OF_BAND 0 0 true 0.

Definition bridge_ofproto_controller_from_ovsrec (c : ovsrec_controller) : ofproto_controller :=
  let dscp := smap_get_int (ct_other_config c) "dscp" DSCP_DEFAULT in
  let dscp := if (dscp <? 0) || (63 <? dscp) then DSCP_DEFAULT else dscp in
  OfController (ct_target c)
    (match ct_max_backoff c with Some v => to_signed 32 (Z.quot v 1000) | None => 8 end)
    (match ct_inactivity_probe c with Some v => to_signed 32 (Z.quot v 1000) | None => 5 end)
    (match ct_connection_mode c with
     | None => OFPROTO_IN_BAND
     | Some m => if bool_decide (m = "in-band") then OFPROTO_IN_BAND else OFPROTO_OUT_OF_BAND
     end)
    (match ct_rate_limit c with Some v => to_signed 32 v | None => 0 end)
    (match ct_burst_limit c with Some v => to_signed 32 v | None => 0 end)
    (match ct_enable_async_messages c with Some b => b | None => true end)
    dscp.

(** [local]: the bridge has a local interface. *)
Definition bridge_configure_local_iface_netdev (local : bool) (c : ovsrec_controller) : list rm_event :=
  if negb local then [] else
  match ct_local_ip c ≫= inet_pton4 with
  | None => []
  | Some ip =>
    let mask := match ct_local_netmask c ≫= inet_pton4 with
                | Some m => if m =? 0 then guess_netmask ip else m
                | None => guess_netmask ip
                end in
    TurnFlagsOn :: SetIn4 ip mask ::
    match ct_local_gateway c ≫= inet_pton4 with
    | Some g => if g =? 0 then [] else [AddRouter g]
    | None => []
    end
  end.

Definition starts_with (prefix s : string) : bool :=
  bool_decide (String.substring 0 (String.length prefix) s = prefix).

Fixpoint contains_slash (s : string) : bool :=
  match s with EmptyString => false | String c s' => Ascii.eqb c "/"%char || contains_slash s' end.

Definition unix_whitelist : string := ("unix:" +:+ ovs_rundir +:+ "/")%string.
Definition punix_whitelist (br_name : string) : string :=
  ("punix:" +:+ ovs_rundir +:+ "/" +:+ br_name +:+ ".controller")%string.

(** The controller is not skipped. *)
Definition controller_allowed (br_name target : string) : bool :=
  if starts_with "punix:" target || starts_with "unix:" target then
    if starts_with "unix:" target then
      negb (contains_slash target &&
            negb (equal_pathnames target unix_whitelist (Z.of_nat (String.length unix_whitelist))))
    else equal_pathnames target (punix_whitelist br_name) SIZE_MAX
  else true.

(** [controllers]: the result of [bridge_get_controllers]; [has_snoops]: that of
    [ofproto_has_snoops]. *)
Definition bridge_configure_remotes (br_name : string) (other_config : smap) (fail_mode : option string)
    (versions : Z) (local has_snoops : bool) (managers : list Z) (controllers : list ovsrec_controller)
    : list rm_event :=
  let disable_in_band := smap_get_bool other_config "disable-in-band" false in
  let allowed := filter (λ c, controller_allowed br_name (ct_target c) = true) controllers in
  let ocs := bridge_ofproto_controller_for_mgmt br_name ::
    ((λ c, let oc := bridge_ofproto_controller_from_ovsrec c in
           if disable_in_band
           then OfController (oc_target oc) (oc_max_backoff oc) (oc_probe_interval oc) OFPROTO_OUT_OF_BAND
                  (oc_rate_limit oc) (oc_burst_limit oc) (oc_enable_async_msgs oc) (oc_dscp oc)
           else oc) <$> allowed) in
  [SetInBandQueue (smap_get_int other_config "in-band-queue" (-1));
   SetExtraInBandRemotes (if disable_in_band then [] else managers)] ++
  (allowed ≫= bridge_configure_local_iface_netdev local) ++
  [SetControllers ocs versions;
   SetFailMode (match fail_mode with
                | None => OFPROTO_FAIL_STANDALONE
                | Some m => if bool_decide (m = "standalone") then OFPROTO_FAIL_STANDALONE else OFPROTO_FAIL_SECURE
                end)] ++
  (if has_snoops then [] else [SetSnoops ("punix:" +:+ ovs_rundir +:+ "/" +:+ br_name +:+ ".snoop")%string]).

(** ** MAC table *)

(** The arguments of [ofproto_set_mac_table_config]. *)
Definition bridge_configure_mac_table (other_config : smap) : Z * Z :=
  let number key d := match other_config !! key with
                      | Some v => if atoi v =? 0 then d else atoi v
                      | None => d
                      end in
  (number "mac-aging-time" MAC_ENTRY_DEFAULT_IDLE_TIME, number "mac-table-size" MAC_DEFAULT_MAX).
End Remotes.

(** ** Flow tables *)

Record ovsrec_flow_table := FlowTableRow {
  ft_name : option string;
  ft_flow_limit : option Z;
  ft_overflow_policy : option string;
  ft_groups : list string;
}.

(** [struct ofproto_table_settings]; the groups the switch reads are the first
    [n_groups] slots of the array, some of which may never have been written. *)
Record table_settings (F : Type) := TableSettings {
  ts_name : option string;
  ts_max_flows : Z;
  ts_groups : list (option F);
}.
Arguments TableSettings {F} _ _ _.
Arguments ts_name {F} _.
Arguments ts_max_flows {F} _.
Arguments ts_groups {F} _.

Section Tables.
(** [mf_parse_subfield__]: the field and the rest of the string, or an error.
    What a slot holds after an error is not specified: it is modelled as [None]. *)
Context {F : Type} (parse_subfield : string → option (F * string)).

(** Parsed to the end of the string. *)
Definition parsed_whole (s : string) : bool :=
  match parse_subfield s with Some (_, rest) => bool_decide (rest = EmptyString) | None => false end.

(** The slots of [s.groups] and [s.n_groups]. *)
Definition parse_groups (groups : list string) : list (option F) * nat :=
  ((λ s, fst <$> parse_subfield s) <$> groups, length (filter (λ s, parsed_whole s = true) groups)).

Definition table_default : table_settings F := TableSettings None UINT_MAX [].

Definition table_of_row (cfg : ovsrec_flow_table) : table_settings F :=
  TableSettings (ft_name cfg)
    (match ft_flow_limit cfg with Some l => if l <? UINT_MAX then to_unsigned 32 l else UINT_MAX | None => UINT_MAX end)
    (if bool_decide (ft_overflow_policy cfg = Some "evict")
     then let '(slots, n) := parse_groups (ft_groups cfg) in take n slots else []).

(** The settings of tables [i], [i + 1], ... and the rows that are left. *)
Fixpoint configure_tables (n : nat) (i : Z) (rows : list (Z * ovsrec_flow_table))
    : list (table_settings F) * list (Z * ovsrec_flow_table) :=
  match n with
  | O => ([], rows)
  | S n =>
    match rows with
    | (key, cfg) :: rows' =>
      if i =? key then let '(l, r) := configure_tables n (i + 1) rows' in (table_of_row cfg :: l, r)
      else let '(l, r) := configure_tables n (i + 1) rows in (table_default :: l, r)
    | [] => let '(l, r) := configure_tables n (i + 1) [] in (table_default :: l, r)
    end
  end.

Definition bridge_configure_tables (n_tables : nat) (rows : list (Z * ovsrec_flow_table)) : list (table_settings F) :=
  (configure_tables n_tables 0 rows).1.
End Tables.
