(* ===== verification/RemotesFacts.v ===== *)
(** * Facts about the OpenFlow configuration of a bridge

    [equal_pathnames] against a reference that squeezes runs of slashes, the
    controllers and managers a bridge is given, and its flow tables. *)

From Stdlib Require Import Ascii.
From S2P Require Import Prelude OvsLib Remotes.
Local Open Scope Z_scope.

(** ** Path names *)

(** [s] with every run of slashes replaced by one; [after]: the character
    before [s] is a slash. *)
Fixpoint squeeze_from (after : bool) (s : string) : string :=
  match s with
  | EmptyString => EmptyString
  | String c s' =>
    if Ascii.eqb c "/"%char
    then if after then squeeze_from true s' else String c (squeeze_from true s')
    else String c (squeeze_from false s')
  end.

Definition squeeze (s : string) : string := squeeze_from false s.

Lemma squeeze_after s : squeeze_from true s = squeeze (skip_slashes s).
Proof.
  induction s as [|c s IH]; [done|]. simpl.
  destruct (Ascii.eqb c "/"%char) eqn:E; [exact IH|]. unfold squeeze; simpl. by rewrite E.
Qed.

Lemma squeeze_slash s : squeeze (String "/"%char s) = String "/"%char (squeeze (skip_slashes s)).
Proof. unfold squeeze at 1; simpl. by rewrite squeeze_after. Qed.

Lemma squeeze_other c s : Ascii.eqb c "/"%char = false → squeeze (String c s) = String c (squeeze s).
Proof. unfold squeeze; simpl. by intros ->. Qed.

Lemma squeeze_cons c s : ∃ s', squeeze (String c s) = String c s'.
Proof.
  destruct (Ascii.eqb c "/"%char) eqn:E.
  - apply Ascii.eqb_eq in E as ->. rewrite squeeze_slash. eauto.
  - rewrite squeeze_other by done. eauto.
Qed.

Lemma skip_slashes_length s : (String.length (skip_slashes s) ≤ String.length s)%nat.
Proof. induction s as [|c s IH]; simpl; [done|]. destruct (Ascii.eqb c _); simpl; lia. Qed.

(** The two ways the loop is used: the whole of [b] with a stop beyond its end,
    or a stop at its end. *)
Lemma equal_pathnames_loop_whole n a b pos stop :
  (String.length a < n)%nat → pos + Z.of_nat (String.length b) < stop →
  equal_pathnames_loop n a b pos stop = Some (bool_decide (squeeze a = squeeze b)).
Proof.
  revert a b pos; induction n as [|n IH]; intros a b pos Hn Hs; [lia|]. simpl.
  replace (stop <=? pos) with false by lia.
  destruct a as [|c a], b as [|d b]; simpl in Hn, Hs.
  - done.
  - destruct (squeeze_cons d b) as [s ->]. done.
  - destruct (squeeze_cons c a) as [s ->]. done.
  - destruct (Ascii.eqb c d) eqn:E; simpl; cycle 1.
    + apply Ascii.eqb_neq in E.
      destruct (squeeze_cons c a) as [s ->], (squeeze_cons d b) as [s' ->].
      rewrite bool_decide_false by congruence. done.
    + apply Ascii.eqb_eq in E as <-. destruct (Ascii.eqb c "/"%char) eqn:E; simpl.
      * apply Ascii.eqb_eq in E as ->. pose proof (skip_slashes_length a). pose proof (skip_slashes_length b).
        rewrite IH by lia. rewrite !squeeze_slash. f_equal. apply bool_decide_ext. split; congruence.
      * rewrite IH by lia. rewrite !squeeze_other by done. f_equal. apply bool_decide_ext. split; congruence.
Qed.

Lemma equal_pathnames_loop_prefix n a b pos stop :
  (String.length a < n)%nat → pos + Z.of_nat (String.length b) = stop →
  equal_pathnames_loop n a b pos stop = Some (String.prefix (squeeze b) (squeeze a)).
Proof.
  revert a b pos; induction n as [|n IH]; intros a b pos Hn Hs; [lia|]. simpl.
  destruct b as [|d b]; simpl in Hs.
  { replace (stop <=? pos) with true by lia. by destruct (squeeze a). }
  replace (stop <=? pos) with false by lia. destruct a as [|c a]; simpl in Hn.
  { destruct (squeeze_cons d b) as [s ->]. done. }
  destruct (Ascii.eqb c d) eqn:E; simpl; cycle 1.
  - apply Ascii.eqb_neq in E.
    destruct (squeeze_cons c a) as [s ->], (squeeze_cons d b) as [s' ->]. simpl.
    destruct (ascii_dec d c); [congruence|done].
  - apply Ascii.eqb_eq in E as <-. destruct (Ascii.eqb c "/"%char) eqn:E; simpl.
    + apply Ascii.eqb_eq in E as ->. pose proof (skip_slashes_length a). pose proof (skip_slashes_length b).
      rewrite IH by lia. rewrite !squeeze_slash. simpl. done.
    + rewrite IH by lia. rewrite !squeeze_other by done. simpl.
      destruct (ascii_dec c c); [done|congruence].
Qed.

Lemma equal_pathnames_whole a b :
  Z.of_nat (String.length b) < SIZE_MAX → equal_pathnames a b SIZE_MAX = bool_decide (squeeze a = squeeze b).
Proof. intros Hb. unfold equal_pathnames. by rewrite equal_pathnames_loop_whole by lia. Qed.

Lemma equal_pathnames_prefix a b :
  equal_pathnames a b (Z.of_nat (String.length b)) = String.prefix (squeeze b) (squeeze a).
Proof. unfold equal_pathnames. by rewrite equal_pathnames_loop_prefix by lia. Qed.

(** [equal_pathnames] terminates on all inputs, whatever the stop: its
    loop returns within one iteration more than the characters of the first
    path, and the result is that of every longer run. *)
Theorem equal_pathnames_terminates a b stop n :
  (String.length a < n)%nat → equal_pathnames_loop n a b 0 stop = Some (equal_pathnames a b stop).
Proof.
  intros Hn. unfold equal_pathnames.
  assert (∀ m n a b pos, (String.length a < m)%nat → (String.length a < n)%nat →
    ∃ r, equal_pathnames_loop m a b pos stop = Some r ∧ equal_pathnames_loop n a b pos stop = Some r) as Hrun.
  { clear. induction m as [|m IH]; intros [|n] a b pos Hm Hn; [lia..|]. simpl.
    destruct (stop <=? pos); [eauto|]. destruct a as [|c a], b as [|d b]; simpl in Hm, Hn; eauto.
    destruct (negb _); [eauto|]. pose proof (skip_slashes_length a).
    destruct (Ascii.eqb c "/"%char) eqn:E; simpl; rewrite ?E; apply IH; lia. }
  destruct (Hrun n (S (String.length a)) a b 0 ltac:(lia) ltac:(lia)) as (r & -> & ->). done.
Qed.

(** C32: [equal_pathnames] is equality of paths up to repeated slashes: with no
    stop it holds exactly when the two paths become the same string once every
    run of slashes is squeezed to one, and with the length of the second path as
    its stop exactly when the second, squeezed, is a prefix of the first,
    squeezed. *)
Theorem equal_pathnames_squeezes a b :
  (Z.of_nat (String.length b) < SIZE_MAX →
   equal_pathnames a b SIZE_MAX = bool_decide (squeeze a = squeeze b)) ∧
  equal_pathnames a b (Z.of_nat (String.length b)) = String.prefix (squeeze b) (squeeze a).
Proof. split; [apply equal_pathnames_whole | apply equal_pathnames_prefix]. Qed.

(** ** Controllers and managers *)

Section Remotes.
Context `{HL : OvsLib, HR : RemoteLib}.

(** What a target must be for the bridge to use it as a controller. *)
Definition target_whitelisted (br_name target : string) : Prop :=
  if starts_with "unix:" target then
    contains_slash target = true → String.prefix (squeeze unix_whitelist) (squeeze target) = true
  else if starts_with "punix:" target then squeeze target = squeeze (punix_whitelist br_name)
  else True.

Lemma controller_allowed_spec br_name target :
  Z.of_nat (String.length (punix_whitelist br_name)) < SIZE_MAX →
  controller_allowed br_name target = true ↔ target_whitelisted br_name target.
Proof.
  intros Hlen. unfold controller_allowed, target_whitelisted.
  rewrite equal_pathnames_prefix, equal_pathnames_whole by done.
  destruct (starts_with "unix:" target), (starts_with "punix:" target); simpl;
    try destruct (contains_slash target); try destruct (String.prefix _ _); simpl;
    rewrite ?bool_decide_eq_true; naive_solver.
Qed.

(** C33: the controllers the switch is given are the management socket of the
    bridge followed by the configured ones in their order, without those whose
    target is a Unix socket outside of the allowed places: a listening socket
    must be [<rundir>/<bridge>.controller] up to repeated slashes, a socket to
    connect to must have no slash or start, up to repeated slashes, with the run
    directory.  Every DSCP is in 0..63, and no controller of a bridge with
    in-band control disabled is in-band. *)
Theorem bridge_controllers_whitelisted br_name other_config fail_mode versions local has_snoops managers controllers :
  0 ≤ DSCP_DEFAULT ≤ 63 → Z.of_nat (String.length (punix_whitelist br_name)) < SIZE_MAX →
  ∃ ocs, SetControllers ocs versions ∈
      bridge_configure_remotes br_name other_config fail_mode versions local has_snoops managers controllers ∧
    (∃ rows, sublist rows controllers ∧ oc_target <$> ocs = oc_target (bridge_ofproto_controller_for_mgmt br_name) :: (ct_target <$> rows) ∧
             ∀ c, c ∈ rows ↔ c ∈ controllers ∧ target_whitelisted br_name (ct_target c)) ∧
    Forall (λ oc, 0 ≤ oc_dscp oc ≤ 63 ∧
                  (smap_get_bool other_config "disable-in-band" false = true → oc_band oc = OFPROTO_OUT_OF_BAND)) ocs.
Proof.
  intros Hd Hlen. eexists; split; [|split].
  - unfold bridge_configure_remotes. rewrite !elem_of_app. right; right; left. apply list_elem_of_here.
  - exists (filter (λ c, controller_allowed br_name (ct_target c) = true) controllers). split_and!.
    + apply sublist_filter.
    + csimpl. f_equal. rewrite <-list_fmap_compose. apply list_fmap_ext; intros i c _; simpl.
      by destruct (smap_get_bool _ _ _).
    + intros c. rewrite list_elem_of_filter, controller_allowed_spec by done. tauto.
  - constructor; [by simpl; split; [lia|]|]. apply Forall_fmap, Forall_true. intros c; simpl.
    destruct (smap_get_bool other_config _ _); simpl; case_match; split; (lia || done).
Qed.

Lemma manager_targets_spec rows t :
  t ∈ manager_targets rows ↔
  ∃ m, last (filter (λ m, mg_target m = t) rows) = Some m ∧ mg_connection_mode m ≠ Some "out-of-band"%string.
Proof.
  unfold manager_targets. induction rows as [|m rows IH] using rev_ind.
  { simpl. split; [set_solver|by intros (?&?&?)]. }
  rewrite fold_left_app, filter_app. simpl. rewrite filter_cons, filter_nil.
  destruct (decide (mg_target m = t)) as [<-|Hne].
  - rewrite last_snoc. case_bool_decide; [set_solver|].
    split; [intros _; eauto|set_solver].
  - rewrite app_nil_r, <-IH. case_bool_decide; set_solver.
Qed.

(** The managers given to in-band control are the IPv4 addresses of the
    targets whose last row in the configuration is not out-of-band. *)
Theorem collect_in_band_managers_spec rows a :
  a ∈ collect_in_band_managers rows ↔
  ∃ t m, stream_parse_target t = Some a ∧ last (filter (λ m, mg_target m = t) rows) = Some m ∧
         mg_connection_mode m ≠ Some "out-of-band"%string.
Proof.
  unfold collect_in_band_managers. rewrite list_elem_of_omap.
  setoid_rewrite elem_of_elements. setoid_rewrite manager_targets_spec. naive_solver.
Qed.
End Remotes.

(** ** Flow tables *)

Section Tables.
Context {F : Type} (parse_subfield : string → option (F * string)).
Implicit Types rows : list (Z * ovsrec_flow_table).

Lemma configure_tables_lookup n i rows k :
  StronglySorted Z.lt rows.*1 → Forall (λ key, i ≤ key) rows.*1 → (k < n)%nat →
  (configure_tables parse_subfield n i rows).1 !! k =
    Some (match list_find (λ r, r.1 = i + Z.of_nat k) rows with
          | Some (_, r) => table_of_row parse_subfield r.2 | None => table_default end).
Proof.
  revert i rows k; induction n as [|n IH]; intros i rows k Hs Hi Hk; [lia|]. simpl.
  destruct rows as [|[key cfg] rows].
  - specialize (IH (i + 1) []). destruct (configure_tables _ n (i + 1) []) as [l r] eqn:E. simpl in *.
    destruct k as [|k]; [done|]. simpl. rewrite IH; [done|constructor..|lia].
  - apply StronglySorted_inv in Hs as [Hs Hkey]. apply Forall_cons in Hi as [Hik Hi].
    assert (Forall (λ k', i + 1 ≤ k') rows.*1) as Hi1 by (eapply Forall_impl; [exact Hkey|]; simpl in *; lia).
    simpl in Hik, Hkey.
    assert (∀ j, j < key → list_find (λ r, r.1 = j) rows = None) as Hnone.
    { intros j Hj. apply list_find_None, Forall_forall. intros r Hr Hrj.
      rewrite Forall_forall in Hkey. pose proof (Hkey r.1 (list_elem_of_fmap_2 fst _ _ Hr)). lia. }
    destruct (i =? key) eqn:Ek.
    + apply Z.eqb_eq in Ek as <-. specialize (IH (i + 1) rows).
      destruct (configure_tables _ n (i + 1) rows) as [l r] eqn:E. simpl in IH |- *. destruct k as [|k].
      * rewrite decide_True by lia. done.
      * rewrite decide_False by (simpl; lia). simpl. rewrite IH by (done || lia).
        replace (i + Z.of_nat (S k)) with (i + 1 + Z.of_nat k) by lia. by destruct (list_find _ _) as [[]|].
    + specialize (IH (i + 1) ((key, cfg) :: rows)).
      destruct (configure_tables _ n (i + 1) _) as [l r] eqn:E. simpl in IH |- *. destruct k as [|k].
      * rewrite decide_False by lia. rewrite Hnone by lia. done.
      * simpl. rewrite IH; [|by constructor|constructor; [simpl in *; lia|done]|lia].
        replace (i + Z.of_nat (S k)) with (i + 1 + Z.of_nat k) by lia. done.
Qed.

(** every table of the switch is configured, table [i] from the row of
    key [i] when the configuration has one and with the defaults otherwise; a
    limit beyond 32 bits means no limit, and when all the groups of a table that
    evicts parse, the switch reads all of them in their order. *)
Theorem bridge_configure_tables_spec n_tables rows :
  StronglySorted Z.lt rows.*1 → Forall (λ key, 0 ≤ key) rows.*1 →
  (∀ i, (i < n_tables)%nat →
     bridge_configure_tables parse_subfield n_tables rows !! i =
       Some (match list_find (λ r, r.1 = Z.of_nat i) rows with
             | Some (_, r) => table_of_row parse_subfield r.2 | None => table_default end)) ∧
  (∀ cfg fields, ft_overflow_policy cfg = Some "evict"%string →
     Forall2 (λ g f, parse_subfield g = Some (f, EmptyString)) (ft_groups cfg) fields →
     ts_groups (table_of_row parse_subfield cfg) = Some <$> fields).
Proof.
  intros Hs H0. split.
  - intros i Hi. unfold bridge_configure_tables. by rewrite configure_tables_lookup.
  - intros cfg fields Hev Hall. unfold table_of_row. rewrite bool_decide_true by done. simpl.
    assert (filter (λ s, parsed_whole parse_subfield s = true) (ft_groups cfg) = ft_groups cfg) as ->.
    { apply filter_all. intros s [i Hl]%list_elem_of_lookup. eapply Forall2_lookup_l in Hl as (f & _ & Hp); [|done].
      unfold parsed_whole. rewrite Hp. done. }
    rewrite firstn_all2 by (rewrite length_fmap; done).
    induction Hall as [|g f gs fs Hg _ IH]; [done|]. csimpl. rewrite Hg, IH. done.
Qed.
End Tables.

(** ** Concrete configurations *)

Module RemotesExample.
Local Open Scope string_scope.

#[local] Instance lib : OvsLib := ref_lib.
#[local] Instance rl : RemoteLib := {|
  DSCP_DEFAULT := 48; MAC_ENTRY_DEFAULT_IDLE_TIME := 300; MAC_DEFAULT_MAX := 8192;
  stream_parse_target t := if bool_decide (t = "tcp:10.0.0.1") then Some 167772161%Z else None;
  inet_pton4 _ := None; guess_netmask _ := 0%Z; ovs_rundir := "/run" |}.

Definition controller (target : string) : ovsrec_controller :=
  ControllerRow target None None None None None None ∅ None None None.

Lemma equal_pathnames_terminates_witness :
  equal_pathnames_loop 6 "a//b" "a/b" 0 SIZE_MAX = Some (equal_pathnames "a//b" "a/b" SIZE_MAX) ∧
  equal_pathnames "a//b" "a/b" SIZE_MAX = true.
Proof. split; [apply equal_pathnames_terminates; simpl; lia | reflexivity]. Defined.

Lemma equal_pathnames_squeezes_witness :
  equal_pathnames "a//b" "a/b" SIZE_MAX = bool_decide (squeeze "a//b" = squeeze "a/b").
Proof. apply (proj1 (equal_pathnames_squeezes "a//b" "a/b")). reflexivity. Defined.

Definition controllers : list ovsrec_controller :=
  [controller "tcp:1.1.1.1"; controller "punix:/etc/passwd"; controller "punix://run/br0.controller"].

Lemma bridge_controllers_whitelisted_witness :
  ∃ ocs, SetControllers ocs 2 ∈ bridge_configure_remotes "br0" ∅ None 2 false true [] controllers ∧
    (∃ rows, sublist rows controllers ∧
       oc_target <$> ocs = oc_target (bridge_ofproto_controller_for_mgmt "br0") :: (ct_target <$> rows) ∧
       ∀ c, c ∈ rows ↔ c ∈ controllers ∧
                       target_whitelisted "br0" (ct_target c)) ∧
    Forall (λ oc, (0 ≤ oc_dscp oc ≤ 63)%Z ∧
                  (smap_get_bool ∅ "disable-in-band" false = true → oc_band oc = OFPROTO_OUT_OF_BAND)) ocs.
Proof. apply (bridge_controllers_whitelisted "br0" ∅ None 2 false true [] controllers); [simpl; lia | reflexivity]. Defined.

Definition row (groups : list string) : ovsrec_flow_table := FlowTableRow None (Some 100%Z) (Some "evict") groups.
Definition parse (s : string) : option (string * string) :=
  if bool_decide (s = "bad") then None else Some (s, "").

Lemma bridge_configure_tables_spec_witness :
  bridge_configure_tables parse 3 [(1%Z, row ["reg0"; "reg1"])] !! 1%nat = Some (table_of_row parse (row ["reg0"; "reg1"])) ∧
  ts_groups (table_of_row parse (row ["reg0"; "reg1"])) = [Some "reg0"; Some "reg1"].
Proof.
  destruct (bridge_configure_tables_spec parse 3 [(1%Z, row ["reg0"; "reg1"])]) as [Ht Hg].
  - repeat constructor.
  - constructor; [simpl; lia | constructor].
  - split; [apply (Ht 1%nat); lia | apply (Hg _ ["reg0"; "reg1"]); [done | repeat constructor]].
Defined.

(** A group that does not parse leaves its slot among the [n_groups] slots the
    switch reads and pushes the last group that parsed out of them. *)
Example unparsed_group_read :
  ts_groups (table_of_row parse (row ["bad"; "reg0"; "reg1"])) = [None; Some "reg0"].
Proof. reflexivity. Qed.

(** The run directory is compared as text: a target that leaves it with ".."
    is accepted. *)
Example unix_target_leaves_rundir :
  controller_allowed "br0" "unix:/run/../etc/sock" = true ∧ controller_allowed "br0" "unix:/etc/sock" = false.
Proof. split; reflexivity. Qed.
End RemotesExample.
