(* ===== verification/Reconfigure.v ===== *)
(** * The reconfiguration of the daemon: [bridge_reconfigure] of bridge.c

    The steps that make the structures of bridges, VRFs, ports and interfaces
    and the switches follow the database, up to "Complete the configuration",
    which is the subject of [VrfConfigure] and [BridgeConfigure].  The two
    collections go through the same steps; what differs between a bridge and a
    VRF is the class [Member]. *)

From S2P Require Import Prelude OvsLib Blocks BridgePorts Lifecycle.
Local Open Scope Z_scope.
Import ReconfigureBlocks.

(** ** State *)

(** What [bridge_reconfigure] does, in its order: plugin blocks with the name of
    the bridge or VRF (and of the port), calls for the structures and switches,
    and calls for the ports of a bridge or VRF. *)
Inductive rc_event :=
| Block (id : block_id) (owner port : option string)
| Life (e : lc_event)
| PortCall (owner : string) (e : bp_event).

(** [all_bridges], [all_vrfs] *)
Record swst := SwSt {
  all_bridges : coll bridge;
  all_vrfs : coll vrf;
  trace : list rc_event;
}.

Definition add_trace (l : list rc_event) (s : swst) : swst := SwSt (all_bridges s) (all_vrfs s) (trace s ++ l).

Definition set_b_ports (p : bpst) (b : bridge) : bridge :=
  Bridge (b_name b) (b_type b) (b_cfg b) (b_default_ea b) (b_ofproto b) p (b_mirrors b).

(** A bridge or a VRF: its collection, the bridge in it ([vrf->up]), what
    [br->cfg] is for the code on ports (null in a VRF), the ports its row wants,
    and the plugin blocks. *)
Class Member (X : Type) := {
  coll_of : swst → coll X;
  set_coll : coll X → swst → swst;
  member_name : X → string;
  member_bridge : X → bridge;
  set_member_bridge : bridge → X → X;
  is_vrf : bool;
  ports_cfg : X → option ovsrec_bridge;
  collect_wanted_ports : X → option (shash ovsrec_port);
  blk_delete : block_id;
  blk_reconfigure : block_id;
  blk_add : block_id;
}.

#[export] Instance bridge_member : Member bridge := {|
  coll_of := all_bridges;
  set_coll := λ c s, SwSt c (all_vrfs s) (trace s);
  member_name := b_name;
  member_bridge := λ b, b;
  set_member_bridge := λ b _, b;
  is_vrf := false;
  ports_cfg := b_cfg;
  collect_wanted_ports := λ b, bridge_collect_wanted_ports <$> b_cfg b;
  blk_delete := BLK_BR_DELETE_PORTS;
  blk_reconfigure := BLK_BR_RECONFIGURE_PORTS;
  blk_add := BLK_BR_ADD_PORTS;
|}.

#[export] Instance vrf_member : Member vrf := {|
  coll_of := all_vrfs;
  set_coll := λ c s, SwSt (all_bridges s) c (trace s);
  member_name := v_name;
  member_bridge := up;
  set_member_bridge := set_up;
  is_vrf := true;
  ports_cfg := λ v, b_cfg (up v);
  collect_wanted_ports := λ v, (λ r, vrf_collect_wanted_ports (vrr_ports r)) <$> v_cfg v;
  blk_delete := BLK_VRF_DELETE_PORTS;
  blk_reconfigure := BLK_VRF_RECONFIGURE_PORTS;
  blk_add := BLK_VRF_ADD_PORTS;
|}.

(** ** Steps *)

Section Reconfigure.
Context `{HL : OvsLib, HD : SwitchDev, HP : Posix, HT : SwitchTypes}.
(** [system_mac] of the first System row; the switches there are; the ports each
    switch reports. *)
Context (system_mac : option string) (existing : list (string * string)) (dump : string → list ofproto_port).

Definition block (id : block_id) (owner : option string) : M swst unit :=
  modify (add_trace [Block id owner None]).

Section Steps.
Context {X : Type} {HM : Member X}.

(** Code on the collection; the new calls are appended to the trace. *)
Definition on_coll {A} (c : M (coll X) A) : M swst A := λ s,
  match c (coll_of s) with
  | Ok (a, k) => Ok (a, add_trace (Life <$> drop (length (lc_log (coll_of s))) (lc_log k)) (set_coll k s))
  | Fault e => Fault e
  end.

(** Code on the ports of [x]. *)
Definition on_ports (x : X) (c : M bpst unit) : M swst unit := λ s,
  match c (b_ports (member_bridge x)) with
  | Ok (_, p) =>
    Ok (tt, add_trace (PortCall (member_name x) <$> drop (length (bp_log (b_ports (member_bridge x)))) (bp_log p))
      (set_coll (put_member member_name (set_member_bridge (set_b_ports p (member_bridge x)) x) (coll_of s)) s))
  | Fault e => Fault e
  end.

(** [HMAP_FOR_EACH] over the collection. *)
Definition for_each (body : X → M swst unit) : M swst unit :=
  l ← gets (λ s, members (coll_of s)); mfor l body.

(** [wanted_ports] is collected here from the row of [x], which does not change
    before the ports are added. *)
Definition delete_ports_of (x : X) : M swst unit :=
  wanted ← deref (collect_wanted_ports x);
  block blk_delete (Some (member_name x)) ;;
  on_ports x (del_ports (b_ofproto (member_bridge x)) (ports_cfg x) is_vrf wanted).

Definition reconfigure_ports_of (x : X) : M swst unit :=
  mwhen (b_ofproto (member_bridge x))
    (on_ports x (if is_vrf then vrf_delete_or_reconfigure_ports (b_ofproto (member_bridge x)) (dump (member_name x))
                 else bridge_delete_or_reconfigure_ports (b_ofproto (member_bridge x)) (dump (member_name x))) ;;
     block blk_reconfigure (Some (member_name x))).

Definition add_ports_of (x : X) : M swst unit :=
  wanted ← deref (collect_wanted_ports x);
  on_ports x (bridge_add_ports (ports_cfg x) wanted) ;;
  block blk_add (Some (member_name x)).
End Steps.

Definition delete_ofprotos : M swst unit :=
  modify (λ s, add_trace ((λ e, Life (OfprotoDelete e.1 e.2)) <$>
    bridge_delete_ofprotos existing (all_bridges s) (all_vrfs s)) s).

(** The deletions, up to "Finish pushing configuration changes". *)
Definition reconfigure_delete (bridges : list ovsrec_bridge) (vrfs : list ovsrec_vrf) : M swst unit :=
  on_coll (add_del_bridges system_mac bridges) ;;
  on_coll (add_del_vrfs system_mac vrfs) ;;
  block BLK_INIT_RECONFIGURE None ;;
  for_each (X := bridge) delete_ports_of ;;
  for_each (X := vrf) delete_ports_of ;;
  delete_ofprotos ;;
  for_each (X := bridge) reconfigure_ports_of ;;
  for_each (X := vrf) reconfigure_ports_of.

(** The additions, up to [reconfigure_system_stats]. *)
Definition reconfigure_add : M swst unit :=
  on_coll create_ofprotos ;;
  on_coll create_vrf_ofprotos ;;
  for_each (X := bridge) add_ports_of ;;
  for_each (X := vrf) add_ports_of.

Definition reconfigure_structures (bridges : list ovsrec_bridge) (vrfs : list ovsrec_vrf) : M swst unit :=
  reconfigure_delete bridges vrfs ;; reconfigure_add.
End Reconfigure.
