(* ===== verification/ReconfigureFacts.v ===== *)
(** * Facts about the reconfiguration of the daemon

    The steps of [bridge_reconfigure] on all bridges and VRFs together: they
    return, every structure that is left follows the database, interfaces that
    still fit are not touched, and nothing is added to a switch before the last
    deletion. *)

From S2P Require Import Prelude OvsLib Blocks BridgePorts BridgePortsFacts BridgePortsReconf Lifecycle Reconfigure.
Local Open Scope Z_scope.

(** ** Loops over a collection *)

(** Laws of [Member]; [frame] relates states with the same other collection. *)
Class MemberLaws (X : Type) {HM : Member X} := {
  frame : swst → swst → Prop;
  frame_refl : ∀ s, frame s s;
  frame_trans : ∀ s1 s2 s3, frame s1 s2 → frame s2 s3 → frame s1 s3;
  frame_set : ∀ c l s, frame s (add_trace l (set_coll c s));
  frame_trace : ∀ l s, frame s (add_trace l s);
  coll_set : ∀ c l s, coll_of (add_trace l (set_coll c s)) = c;
  coll_trace : ∀ l s, coll_of (add_trace l s) = coll_of s;
  name_bridge : ∀ x, member_name x = b_name (member_bridge x);
  bridge_set : ∀ b x, member_bridge (set_member_bridge b x) = b;
  set_bridge : ∀ x, set_member_bridge (member_bridge x) x = x;
  ports_cfg_set : ∀ p x, ports_cfg (set_member_bridge (set_b_ports p (member_bridge x)) x) = ports_cfg x;
  wanted_set : ∀ p x,
    collect_wanted_ports (set_member_bridge (set_b_ports p (member_bridge x)) x) = collect_wanted_ports x;
  ports_cfg_switch : ∀ x, ports_cfg (set_member_bridge (with_switch (member_bridge x)) x) = ports_cfg x;
  wanted_switch : ∀ x,
    collect_wanted_ports (set_member_bridge (with_switch (member_bridge x)) x) = collect_wanted_ports x;
}.

#[export] Instance bridge_laws : MemberLaws bridge.
Proof. unshelve econstructor; [exact (λ s s', all_vrfs s' = all_vrfs s)|..]; simpl; congruence. Defined.

#[export] Instance vrf_laws : MemberLaws vrf.
Proof.
  unshelve econstructor; [exact (λ s s', all_bridges s' = all_bridges s)|..]; simpl; first [congruence | by intros [] | by intros ? []].
Defined.

Lemma set_b_ports_same b : set_b_ports (b_ports b) b = b.
Proof. by destruct b. Qed.

Section Loops.
Context `{HL : OvsLib, HD : SwitchDev, HP : Posix, HT : SwitchTypes}.
Context {X : Type} {HM : Member X} {HX : MemberLaws X}.

Definition names (s : swst) : list string := member_name <$> members (coll_of s).

(** [x] with other ports. *)
Definition with_ports (p : bpst) (x : X) : X := set_member_bridge (set_b_ports p (member_bridge x)) x.

Lemma with_ports_name p x : member_name (with_ports p x) = member_name x.
Proof. unfold with_ports. by rewrite !name_bridge, bridge_set. Qed.

(** A body that replaces the structure it is called on by a related one. *)
Definition replaces (P : X → Prop) (Q : X → X → Prop) (body : X → M swst unit) : Prop :=
  ∀ d x r s, members (coll_of s) = d ++ x :: r → NoDup (names s) → P x →
  ∃ y s', body x s = Ok (tt, s') ∧ members (coll_of s') = d ++ y :: r ∧ member_name y = member_name x ∧ Q x y ∧ frame s s'.

Lemma for_each_run P Q body s :
  replaces P Q body → NoDup (names s) → (∀ x, x ∈ members (coll_of s) → P x) →
  ∃ s', for_each body s = Ok (tt, s') ∧ Forall2 Q (members (coll_of s)) (members (coll_of s')) ∧
    names s' = names s ∧ frame s s'.
Proof.
  intros Hb. unfold for_each, names.
  assert (∀ r d d0 s, members (coll_of s) = d ++ r → NoDup (member_name <$> d ++ r) → (∀ x, x ∈ r → P x) →
    Forall2 Q d0 d →
    ∃ s', mfor r body s = Ok (tt, s') ∧ Forall2 Q (d0 ++ r) (members (coll_of s')) ∧
      member_name <$> members (coll_of s') = member_name <$> d ++ r ∧ frame s s') as Hloop.
  { clear s. induction r as [|x r IH]; intros d d0 s El Hnd Hpre HF.
    { exists s. rewrite !app_nil_r in *. rewrite El. split; [done|]. split; [done|]. split; [done|apply frame_refl]. }
    destruct (Hb d x r s El) as (y & s1 & E1 & El1 & Hn & Hq & Hf1); [unfold names; by rewrite El|apply Hpre; left|].
    destruct (IH (d ++ [y]) (d0 ++ [x]) s1) as (s' & E & HF' & Hnames & Hf).
    - by rewrite <-app_assoc.
    - rewrite <-app_assoc. simpl. rewrite fmap_app, fmap_cons in *. by rewrite Hn.
    - intros; apply Hpre; by right.
    - apply Forall2_app; [done|by constructor].
    - exists s'. cbn [mfor]. erewrite bind_run by exact E1. rewrite <-!app_assoc in *. simpl in *.
      split; [done|]. split; [done|]. split; [|by eapply frame_trans].
      rewrite Hnames, !fmap_app, !fmap_cons, Hn. done. }
  intros Hnd Hpre. destruct (Hloop (members (coll_of s)) [] [] s) as (s' & E & HF & Hn & Hf); [done..|constructor|].
  exists s'. step. auto.
Qed.

(** Code on the ports of a structure. *)
Lemma on_ports_run d x r s c p :
  members (coll_of s) = d ++ x :: r → NoDup (names s) → c (b_ports (member_bridge x)) = Ok (tt, p) →
  ∃ s', on_ports x c s = Ok (tt, s') ∧ members (coll_of s') = d ++ with_ports p x :: r ∧ frame s s'.
Proof.
  intros El Hnd E. unfold on_ports. rewrite E. eexists. split; [done|]. split; [|apply frame_set].
  rewrite coll_set. unfold put_member. simpl. fold (with_ports p x). rewrite with_ports_name, El.
  unfold names in Hnd. rewrite El in Hnd. by apply (replace_by_name member_name).
Qed.

Lemma block_run id owner s :
  ∃ s', block id owner s = Ok (tt, s') ∧ members (coll_of s') = members (coll_of s) ∧ frame s s'.
Proof. eexists. split; [done|]. split; [by rewrite coll_trace|apply frame_trace]. Qed.

(** ** One structure *)

(** The structure is consistent and its row wants consistent ports. *)
Record proper (x : X) (w : shash ovsrec_port) : Prop := Proper {
  pp_wanted : collect_wanted_ports x = Some w;
  pp_ok : wanted_ok w;
  pp_ports : ports_good (member_bridge x);
}.

(** In addition, every interface follows a wanted row. *)
Definition tidy (x : X) : Prop :=
  ∃ w, proper x w ∧ ∀ f, f ∈ ifaces (b_ports (member_bridge x)) → fresh (ports_cfg x) w f.

(** The ports [p] follow the wanted ports [w]: every interface follows a wanted
    row, and every wanted interface whose device works is there. *)
Definition follows (p : bpst) (cfg : option ovsrec_bridge) (w : shash ovsrec_port) : Prop :=
  (∀ f, f ∈ ifaces p → fresh cfg w f) ∧
  ∀ q row, wanted_row w q row → device_works cfg row → has p (ir_name row) q.

Definition complete (x : X) : Prop :=
  ∃ w, proper x w ∧ follows (b_ports (member_bridge x)) (ports_cfg x) w.

Lemma proper_with_ports x w p : proper x w → bwf p → full p → proper (with_ports p x) w.
Proof.
  intros [Hw Hok _] Hp Hf. constructor; [unfold with_ports; by rewrite wanted_set|done|].
  unfold with_ports. rewrite bridge_set. by split.
Qed.

(** The ports of [y] instead of those of [x]. *)
Definition same_but_ports (x y : X) : Prop := ∃ p, y = with_ports p x.

Definition ifaces_of (x : X) : list iface := ifaces (b_ports (member_bridge x)).

(** After the deletion of ports: an interface that is still wanted stays, with
    its new row. *)
Definition deleted (x y : X) : Prop :=
  same_but_ports x y ∧ tidy y ∧
  ∀ w f row, collect_wanted_ports x = Some w → f ∈ ifaces_of x → kept w f → wanted_row w (f_port f) row →
    ir_name row = f_name f →
    Iface (f_name f) (f_port f) (f_ofp_port f) (iface_get_type (ports_cfg x) row) row ∈ ifaces_of y.

(** After the comparison with the switch. *)
Definition checked (dump : string → list ofproto_port) (x y : X) : Prop :=
  same_but_ports x y ∧ tidy y ∧
  ∀ f, f ∈ ifaces_of x → f_name f ∈ op_name <$> dump (member_name x) →
    (∀ d, d ∈ dump (member_name x) → op_name d = f_name f → fits is_vrf d f) → f ∈ ifaces_of y.

(** After the addition of ports. *)
Definition added (x y : X) : Prop :=
  same_but_ports x y ∧ complete y ∧ ∀ f, f ∈ ifaces_of x → f ∈ ifaces_of y.

Lemma delete_ports_of_replaces : replaces (λ x, ∃ w, proper x w) deleted delete_ports_of.
Proof.
  intros d x r s El Hnd (w & Hx). destruct Hx as [Hw Hok [Hb Hf]] eqn:Ex. clear Ex.
  destruct (block_run blk_delete (Some (member_name x)) s) as (s1 & E1 & El1 & Hf1).
  destruct (del_ports_run (b_ofproto (member_bridge x)) (ports_cfg x) w is_vrf _ Hok Hb Hf) as (p & Ep & Hpb & Hpf & Hfr & Hk).
  destruct (on_ports_run d x r s1 (del_ports (b_ofproto (member_bridge x)) (ports_cfg x) is_vrf w) p) as (s' & E & El' & Hf'); [by rewrite El1|unfold names; by rewrite El1|exact Ep|].
  exists (with_ports p x), s'. split.
  { unfold delete_ports_of. rewrite Hw. unfold deref. step. step E1. exact E. }
  split; [done|]. split; [apply with_ports_name|]. split; [|by eapply frame_trans].
  split; [by exists p|]. split.
  - exists w. split; [by apply proper_with_ports|]. unfold with_ports. rewrite bridge_set, ports_cfg_set. exact Hfr.
  - intros w' f row Hw' Hin Hkf Hrow En. rewrite Hw in Hw'. injection Hw' as <-. unfold ifaces_of, with_ports.
    rewrite bridge_set. by apply Hk.
Qed.

Lemma reconfigure_ports_of_replaces dump : replaces tidy (checked dump) (reconfigure_ports_of dump).
Proof.
  intros d x r s El Hnd (w & Hx & Hfr). unfold reconfigure_ports_of.
  destruct (b_ofproto (member_bridge x)) eqn:Eo.
  - destruct Hx as [Hw Hok [Hb Hf]] eqn:Ex. clear Ex.
    destruct (delete_or_reconfigure_ports_with_run true (still_good_of is_vrf) (fits is_vrf) (still_good_log is_vrf)
      (dump (member_name x)) _ Hb Hf) as (p & Ep & _ & Hpb & Hpf & Hs & Hm).
    destruct (on_ports_run d x r s (delete_or_reconfigure_ports_with true (still_good_of is_vrf) (dump (member_name x)))
      p El Hnd Ep) as (s1 & E1 & El1 & Hf1).
    destruct (block_run blk_reconfigure (Some (member_name x)) s1) as (s' & E & El' & Hf').
    exists (with_ports p x), s'. split.
    { simpl. assert ((if is_vrf then vrf_delete_or_reconfigure_ports true (dump (member_name x))
        else bridge_delete_or_reconfigure_ports true (dump (member_name x))) =
        delete_or_reconfigure_ports_with true (still_good_of is_vrf) (dump (member_name x))) as -> by (by destruct is_vrf).
      step E1. exact E. }
    split; [by rewrite El'|]. split; [apply with_ports_name|]. split; [|by eapply frame_trans].
    split; [by exists p|]. split.
    + exists w. split; [by apply proper_with_ports|]. unfold with_ports. rewrite bridge_set, ports_cfg_set. intros f Hin%Hs. auto.
    + intros f Hin Hn Hfit. unfold ifaces_of, with_ports. rewrite bridge_set. simpl. by apply Hm.
  - exists x, s. split; [done|]. split; [done|]. split; [done|]. split; [|apply frame_refl].
    split; [|split; [by exists w|auto]]. exists (b_ports (member_bridge x)). unfold with_ports.
    rewrite set_b_ports_same. by rewrite set_bridge.
Qed.

Lemma add_ports_of_replaces : replaces tidy added add_ports_of.
Proof.
  intros d x r s El Hnd (w & Hx & Hfr). destruct Hx as [Hw Hok [Hb Hf]] eqn:Ex. clear Ex.
  destruct (bridge_add_ports_run (ports_cfg x) w _ Hok Hb Hf Hfr) as (p & Ep & (Hpb & Hpf & Hpr & Hi) & Hd).
  destruct (on_ports_run d x r s (bridge_add_ports (ports_cfg x) w) p El Hnd Ep) as (s1 & E1 & El1 & Hf1).
  destruct (block_run blk_add (Some (member_name x)) s1) as (s' & E & El' & Hf').
  exists (with_ports p x), s'. split.
  { unfold add_ports_of. rewrite Hw. unfold deref. step. step E1. exact E. }
  split; [by rewrite El'|]. split; [apply with_ports_name|]. split; [|by eapply frame_trans].
  split; [by exists p|]. split.
  - exists w. split; [by apply proper_with_ports|]. unfold with_ports. rewrite bridge_set, ports_cfg_set. done.
  - intros f Hin. unfold ifaces_of, with_ports. rewrite bridge_set. by apply Hi.
Qed.

Lemma on_coll_run {A} (c : M (coll X) A) s a k :
  c (coll_of s) = Ok (a, k) → ∃ s', on_coll c s = Ok (a, s') ∧ coll_of s' = k ∧ frame s s'.
Proof.
  intros E. unfold on_coll. rewrite E. eexists. split; [done|]. split; [apply coll_set|apply frame_set].
Qed.

(** ** All the steps on one structure *)

Definition switch_on (x : X) : X := set_member_bridge (with_switch (member_bridge x)) x.

Definition reworked (dump : string → list ofproto_port) (x y : X) : Prop :=
  ∃ x1 x2, deleted x x1 ∧ checked dump x1 x2 ∧ added (switch_on x2) y.

Lemma tidy_switch_on x : tidy x → tidy (switch_on x).
Proof.
  intros (w & [Hw Hok Hp] & Hfr). exists w. unfold switch_on. rewrite bridge_set, ports_cfg_switch.
  split; [|exact Hfr]. constructor; [by rewrite wanted_switch|done|by rewrite bridge_set].
Qed.

(** The structures before and after: every one that is left was reworked, and
    one is lost only if its switch cannot be created. *)
Lemma reworked_all dump stype (l0 l1 l2 l4 : list X) ks :
  Forall2 deleted l0 l1 → Forall2 (checked dump) l1 l2 →
  Forall2 (switched member_bridge set_member_bridge stype) l2 ks → Forall2 added (omap id ks) l4 →
  (∀ y, y ∈ l4 → ∃ x, x ∈ l0 ∧ reworked dump x y) ∧
  (∀ x, x ∈ l0 → ∃ x2, (∃ x1, deleted x x1 ∧ checked dump x1 x2) ∧
     (b_ofproto (member_bridge x2) = true ∨
        (∀ l, ofproto_create l (b_name (member_bridge x2)) (stype x2) = 0) → ∃ y, y ∈ l4 ∧ reworked dump x y)).
Proof.
  intros H01 H12 H2k H4. split.
  - intros y [i Hy]%list_elem_of_lookup. destruct (Forall2_lookup_r _ _ _ _ _ H4 Hy) as (x3 & H3 & Ha).
    apply list_elem_of_lookup_2, list_elem_of_omap in H3 as (k & [j Hk]%list_elem_of_lookup & E3). simpl in E3. subst k.
    destruct (Forall2_lookup_r _ _ _ _ _ H2k Hk) as (x2 & H2 & [[?|[= ->]] _]); [done|].
    destruct (Forall2_lookup_r _ _ _ _ _ H12 H2) as (x1 & H1 & Hc).
    destruct (Forall2_lookup_r _ _ _ _ _ H01 H1) as (x & H0 & Hd).
    exists x. split; [by eapply list_elem_of_lookup_2|]. by exists x1, x2.
  - intros x [i Hx]%list_elem_of_lookup. destruct (Forall2_lookup_l _ _ _ _ _ H01 Hx) as (x1 & H1 & Hd).
    destruct (Forall2_lookup_l _ _ _ _ _ H12 H1) as (x2 & H2 & Hc).
    destruct (Forall2_lookup_l _ _ _ _ _ H2k H2) as (k & Hk & [Hor Hn]). exists x2. split; [by exists x1|].
    intros Hs%Hn. destruct Hor as [->|Ek]; [done|]. subst k.
    assert (switch_on x2 ∈ omap id ks) as [j Hj]%list_elem_of_lookup.
    { apply list_elem_of_omap. eexists. split; [by eapply list_elem_of_lookup_2|done]. }
    destruct (Forall2_lookup_l _ _ _ _ _ H4 Hj) as (y & Hy & Ha). exists y.
    split; [by eapply list_elem_of_lookup_2|]. by exists x1, x2.
Qed.

Lemma reworked_complete dump x y : reworked dump x y → complete y.
Proof. by intros (x1 & x2 & _ & _ & _ & ? & _). Qed.

Lemma same_but_ports_bridge x y : same_but_ports x y → ∃ p, member_bridge y = set_b_ports p (member_bridge x).
Proof. intros (p & ->). exists p. unfold with_ports. by rewrite bridge_set. Qed.

Lemma reworked_switch dump x y : reworked dump x y → b_ofproto (member_bridge y) = true.
Proof.
  intros (x1 & x2 & _ & _ & (p & E)%same_but_ports_bridge & _). rewrite E. unfold switch_on. by rewrite bridge_set.
Qed.

(** The name and the switch up to the addition of ports. *)
Lemma chain_bridge dump x x1 x2 :
  deleted x x1 → checked dump x1 x2 → ∃ p, member_bridge x2 = set_b_ports p (member_bridge x).
Proof.
  intros [(p1 & E1)%same_but_ports_bridge _] [(p2 & E2)%same_but_ports_bridge _]. exists p2. rewrite E2, E1. done.
Qed.

Lemma chain_name dump x x1 x2 : deleted x x1 → checked dump x1 x2 → b_name (member_bridge x2) = b_name (member_bridge x).
Proof. intros Hd Hc. destruct (chain_bridge dump x x1 x2 Hd Hc) as (p & ->). done. Qed.

(** An interface that is still wanted and that the switch reports in the right
    form keeps its OpenFlow port. *)
Lemma reworked_keeps dump x y w f row :
  reworked dump x y → collect_wanted_ports x = Some w → f ∈ ifaces_of x → wanted_row w (f_port f) row →
  ir_name row = f_name f → still_fits (ports_cfg x) is_vrf (dump (member_name x)) row →
  Iface (f_name f) (f_port f) (f_ofp_port f) (iface_get_type (ports_cfg x) row) row ∈ ifaces_of y.
Proof.
  intros (x1 & x2 & (Hs1 & _ & Hd) & (_ & _ & Hc) & (_ & _ & Ha)) Hw Hin (pr & Hpr & Hrow) En Hfit.
  assert (member_name x1 = member_name x) as E1 by (destruct Hs1 as (p & ->); apply with_ports_name).
  assert (ifaces_of (switch_on x2) = ifaces_of x2) as E2 by (unfold ifaces_of, switch_on; by rewrite bridge_set).
  apply Ha. rewrite E2. apply Hc; simpl; rewrite ?E1, <-?En.
  - rewrite En. apply (Hd w); [done|done| |by exists pr|done]. exists pr. split; [done|].
    apply list_elem_of_fmap. exists row. split; [done|]. apply list_elem_of_filter. split; [apply Hfit|done].
  - apply Hfit.
  - intros d Hdd Ed. by apply Hfit.
Qed.
End Loops.

Section Kinds.
Context `{HL : OvsLib, HD : SwitchDev, HP : Posix, HT : SwitchTypes}.

Lemma reworked_bridge dump (x y : bridge) :
  reworked dump x y → b_name y = b_name x ∧ b_cfg y = b_cfg x ∧ b_type y = b_type x.
Proof. by intros (x1 & x2 & [(p1 & ->) _] & [(p2 & ->) _] & [(p3 & ->) _]). Qed.

Lemma reworked_vrf dump (x y : vrf) : reworked dump x y → v_name y = v_name x ∧ v_cfg y = v_cfg x ∧ b_cfg (up y) = b_cfg (up x).
Proof. by intros (x1 & x2 & [(p1 & ->) _] & [(p2 & ->) _] & [(p3 & ->) _]). Qed.
End Kinds.

Section Stages.
Context `{HL : OvsLib, HD : SwitchDev, HP : Posix, HT : SwitchTypes}.
Context {X : Type} {HM : Member X} {HX : MemberLaws X}.

(** The loops of the reconfiguration, one collection at a time. *)
Lemma delete_stage s :
  NoDup (names (X := X) s) → (∀ x, x ∈ members (coll_of s) → ∃ w, proper x w) →
  ∃ s', for_each (X := X) delete_ports_of s = Ok (tt, s') ∧ Forall2 deleted (members (coll_of s)) (members (coll_of s')) ∧
    NoDup (names (X := X) s') ∧ (∀ x, x ∈ members (coll_of s') → tidy x) ∧ frame s s'.
Proof.
  intros Hnd Hp. destruct (for_each_run _ _ _ s delete_ports_of_replaces Hnd Hp) as (s' & E & HF & Hn & Hf).
  exists s'. split; [done|]. split; [done|]. split; [by rewrite Hn|]. split; [|done].
  intros y [i Hy]%list_elem_of_lookup. by destruct (Forall2_lookup_r _ _ _ _ _ HF Hy) as (x & _ & _ & Ht & _).
Qed.

Lemma check_stage dump s :
  NoDup (names (X := X) s) → (∀ x, x ∈ members (coll_of s) → tidy x) →
  ∃ s', for_each (X := X) (reconfigure_ports_of dump) s = Ok (tt, s') ∧
    Forall2 (checked dump) (members (coll_of s)) (members (coll_of s')) ∧
    NoDup (names (X := X) s') ∧ (∀ x, x ∈ members (coll_of s') → tidy x) ∧ frame s s'.
Proof.
  intros Hnd Hp. destruct (for_each_run _ _ _ s (reconfigure_ports_of_replaces dump) Hnd Hp) as (s' & E & HF & Hn & Hf).
  exists s'. split; [done|]. split; [done|]. split; [by rewrite Hn|]. split; [|done].
  intros y [i Hy]%list_elem_of_lookup. by destruct (Forall2_lookup_r _ _ _ _ _ HF Hy) as (x & _ & _ & Ht & _).
Qed.

Lemma switched_left stype (l : list X) ks :
  Forall2 (switched member_bridge set_member_bridge stype) l ks →
  NoDup (member_name <$> l) → (∀ x, x ∈ l → tidy x) →
  NoDup (member_name <$> omap id ks) ∧ (∀ x, x ∈ omap id ks → tidy x).
Proof.
  induction 1 as [|x k l ks [Hk _] HF IH]; intros Hnd Ht; [by split; [constructor|intros ? ?%elem_of_nil]|].
  apply NoDup_cons in Hnd as [Hx Hnd]. destruct IH as [IH1 IH2]; [done|intros; apply Ht; by right|].
  destruct Hk as [->| ->]; [done|]. csimpl. split.
  - apply NoDup_cons. split; [|done]. rewrite name_bridge, bridge_set. simpl. rewrite <-name_bridge.
    intros (y & Ey & (k & Hk & Ek)%list_elem_of_omap)%list_elem_of_fmap. simpl in Ek. subst k. apply Hx. rewrite Ey.
    apply list_elem_of_lookup in Hk as (i & Hi). destruct (Forall2_lookup_r _ _ _ _ _ HF Hi) as (z & Hz & [[?|[= ->]] _]); [done|].
    rewrite (name_bridge (set_member_bridge _ _)), bridge_set. simpl. rewrite <-name_bridge.
    apply list_elem_of_fmap_2. by eapply list_elem_of_lookup_2.
  - intros y [->|Hy]%elem_of_cons; [|auto]. apply tidy_switch_on, Ht. left.
Qed.

Lemma create_stage stype create s ks log :
  create (coll_of s) = Ok (tt, Coll (omap id ks) log) →
  Forall2 (switched member_bridge set_member_bridge stype) (members (coll_of s)) ks →
  NoDup (names (X := X) s) → (∀ x, x ∈ members (coll_of s) → tidy x) →
  ∃ s', on_coll (X := X) create s = Ok (tt, s') ∧ members (coll_of s') = omap id ks ∧
    NoDup (names (X := X) s') ∧ (∀ x, x ∈ members (coll_of s') → tidy x) ∧ frame s s'.
Proof.
  intros E HF Hnd Ht. destruct (on_coll_run create s tt _ E) as (s' & E' & Ec & Hf). exists s'.
  destruct (switched_left stype _ _ HF Hnd Ht) as [H1 H2].
  unfold names. rewrite Ec. done.
Qed.

Lemma add_stage s :
  NoDup (names (X := X) s) → (∀ x, x ∈ members (coll_of s) → tidy x) →
  ∃ s', for_each (X := X) add_ports_of s = Ok (tt, s') ∧ Forall2 added (members (coll_of s)) (members (coll_of s')) ∧
    NoDup (names (X := X) s') ∧ frame s s'.
Proof.
  intros Hnd Hp. destruct (for_each_run _ _ _ s add_ports_of_replaces Hnd Hp) as (s' & E & HF & Hn & Hf).
  exists s'. split; [done|]. split; [done|]. by rewrite Hn.
Qed.
End Stages.

(** ** The whole reconfiguration *)

Lemma frame_bridge s s' : frame (X := bridge) s s' → all_vrfs s' = all_vrfs s.
Proof. done. Qed.
Lemma frame_vrf s s' : frame (X := vrf) s s' → all_bridges s' = all_bridges s.
Proof. done. Qed.

Section Whole.
Context `{HL : OvsLib, HD : SwitchDev, HP : Posix, HT : SwitchTypes}.
Context (system_mac : option string) (existing : list (string * string)) (dump : string → list ofproto_port).
Context (bridges : list ovsrec_bridge) (vrfs : list ovsrec_vrf).

(** The structures are consistent. *)
Record state_ok (s : swst) : Prop := StateOk {
  so_bridge_names : NoDup (b_name <$> members (all_bridges s));
  so_vrf_names : NoDup (v_name <$> members (all_vrfs s));
  so_bridges : ∀ b, b ∈ members (all_bridges s) → ports_good b;
  so_vrfs : ∀ v, v ∈ members (all_vrfs s) → ports_good (up v);
  so_vrf_cfgs : ∀ v, v ∈ members (all_vrfs s) → b_cfg (up v) = None;
}.

(** The daemon has an address, and the ports of every row are consistent. *)
Record rows_ok : Prop := RowsOk {
  ro_mac : ∃ mac, system_mac = Some mac ∧ ether_aton mac = true;
  ro_bridges : ∀ r, r ∈ bridges → wanted_ok (bridge_collect_wanted_ports r);
  ro_vrfs : ∀ r, r ∈ vrfs → wanted_ok (vrf_collect_wanted_ports (vrr_ports r));
}.

(** After [add_del_bridges] and [add_del_vrfs]. *)
Lemma reconfigure_delete_run s :
  rows_ok → state_ok s →
  ∃ s' cb cv lb lv, reconfigure_delete system_mac existing dump bridges vrfs s = Ok (tt, s') ∧
    add_del_bridges system_mac bridges (all_bridges s) = Ok (tt, cb) ∧
    add_del_vrfs system_mac vrfs (all_vrfs s) = Ok (tt, cv) ∧
    Forall2 deleted (members cb) lb ∧ Forall2 (checked dump) lb (members (all_bridges s')) ∧
    Forall2 deleted (members cv) lv ∧ Forall2 (checked dump) lv (members (all_vrfs s')) ∧
    NoDup (b_name <$> members (all_bridges s')) ∧ NoDup (v_name <$> members (all_vrfs s')) ∧
    (∀ b, b ∈ members (all_bridges s') → tidy b) ∧ (∀ v, v ∈ members (all_vrfs s') → tidy v).
Proof.
  intros [(mac & Hm & Ha) Hrb Hrv] [Hnb Hnv Hgb Hgv Hcv].
  destruct (add_del_bridges_run system_mac mac bridges (all_bridges s) Hm Ha Hnb Hgb) as (cb & Eb & Hnb0 & _ & Hb0 & _).
  destruct (add_del_vrfs_run system_mac mac vrfs (all_vrfs s) Hm Ha Hnv Hgv) as (cv & Ev & Hnv0 & _ & Hv0 & _).
  destruct (on_coll_run (HM := bridge_member) (add_del_bridges system_mac bridges) s tt cb Eb) as (s1 & E1 & C1 & F1%frame_bridge).
  destruct (on_coll_run (HM := vrf_member) (add_del_vrfs system_mac vrfs) s1 tt cv) as (s2 & E2 & C2 & F2%frame_vrf);
    [simpl; by rewrite F1|].
  set (s3 := add_trace [Block ReconfigureBlocks.BLK_INIT_RECONFIGURE None None] s2).
  destruct (delete_stage (HM := bridge_member) s3) as (s4 & E4 & Q4 & N4 & T4 & F4%frame_bridge).
  { unfold names. simpl. simpl in C1. by rewrite F2, C1. }
  { simpl. rewrite F2. simpl in C1. rewrite C1. intros b Hb. destruct (Hb0 b Hb) as (Hp & r & Hr & _ & Hc & _).
    exists (bridge_collect_wanted_ports r). constructor; [simpl; by rewrite Hc|by apply Hrb|done]. }
  destruct (delete_stage (HM := vrf_member) s4) as (s5 & E5 & Q5 & N5 & T5 & F5%frame_vrf).
  { unfold names. simpl. rewrite F4. simpl in *. by rewrite C2. }
  { simpl. rewrite F4. simpl in *. rewrite C2. intros v Hv. destruct (Hv0 v Hv) as ((Hp & _) & r & Hr & _ & Hc).
    exists (vrf_collect_wanted_ports (vrr_ports r)). constructor; [simpl; by rewrite Hc|by apply Hrv|done]. }
  set (s6 := add_trace ((λ e, Life (OfprotoDelete e.1 e.2)) <$>
    bridge_delete_ofprotos existing (all_bridges s5) (all_vrfs s5)) s5).
  destruct (check_stage (HM := bridge_member) dump s6) as (s7 & E7 & Q7 & N7 & T7 & F7%frame_bridge).
  { unfold names in *. simpl in *. by rewrite F5. }
  { simpl in *. by rewrite F5. }
  destruct (check_stage (HM := vrf_member) dump s7) as (s8 & E8 & Q8 & N8 & T8 & F8%frame_vrf).
  { unfold names in *. simpl in *. by rewrite F7. }
  { simpl in *. by rewrite F7. }
  simpl in *. rewrite F2, C1 in Q4. rewrite F4, C2 in Q5. rewrite F5 in Q7. rewrite F7 in Q8.
  exists s8, cb, cv, (members (all_bridges s4)), (members (all_vrfs s5)).
  split; [|rewrite !F8; done].
  unfold reconfigure_delete, block, delete_ofprotos. step E1. step E2. step. fold s3. step E4. step E5. step. fold s6.
  step E7. exact E8.
Qed.

(** What is left of the structures after the two loops over the rows. *)
Lemma reconfigure_structures_run s :
  rows_ok → state_ok s →
  ∃ s' cb cv, reconfigure_structures system_mac existing dump bridges vrfs s = Ok (tt, s') ∧
    add_del_bridges system_mac bridges (all_bridges s) = Ok (tt, cb) ∧
    add_del_vrfs system_mac vrfs (all_vrfs s) = Ok (tt, cv) ∧
    NoDup (b_name <$> members (all_bridges s')) ∧ NoDup (v_name <$> members (all_vrfs s')) ∧
    (∀ y, y ∈ members (all_bridges s') → ∃ x, x ∈ members cb ∧ reworked dump x y) ∧
    (∀ x, x ∈ members cb → ∃ x2, (∃ x1, deleted x x1 ∧ checked dump x1 x2) ∧
       (b_ofproto x2 = true ∨ (∀ l, ofproto_create l (b_name x2) (b_type x2) = 0) →
        ∃ y, y ∈ members (all_bridges s') ∧ reworked dump x y)) ∧
    (∀ y, y ∈ members (all_vrfs s') → ∃ x, x ∈ members cv ∧ reworked dump x y) ∧
    (∀ x, x ∈ members cv → ∃ x2, (∃ x1, deleted x x1 ∧ checked dump x1 x2) ∧
       (b_ofproto (up x2) = true ∨ (∀ l, ofproto_create l (v_name x2) "vrf" = 0) →
        ∃ y, y ∈ members (all_vrfs s') ∧ reworked dump x y)).
Proof.
  intros Hr Hs. destruct (reconfigure_delete_run s Hr Hs) as
    (s1 & cb & cv & lb & lv & E1 & Eb & Ev & Qb1 & Qb2 & Qv1 & Qv2 & Nb & Nv & Tb & Tv).
  destruct (create_ofprotos_run (all_bridges s1) Nb) as (kb & logb & Ekb & Fb).
  { intros b (w & [_ _ ?] & _)%Tb. done. }
  destruct (create_stage (HM := bridge_member) b_type create_ofprotos s1 kb logb Ekb Fb Nb Tb)
    as (s2 & E2 & C2 & N2 & T2 & F2%frame_bridge).
  destruct (create_vrf_ofprotos_run (all_vrfs s2)) as (kv & logv & Ekv & Fv).
  { by rewrite F2. }
  { rewrite F2. intros v (w & [_ _ ?] & _)%Tv. done. }
  destruct (create_stage (HM := vrf_member) (λ _, "vrf"%string) create_vrf_ofprotos s2 kv logv Ekv Fv)
    as (s3 & E3 & C3 & N3 & T3 & F3%frame_vrf).
  { unfold names. simpl. by rewrite F2. }
  { simpl. by rewrite F2. }
  destruct (add_stage (HM := bridge_member) s3) as (s4 & E4 & Q4 & N4 & F4%frame_bridge).
  { unfold names in *. simpl in *. by rewrite F3. }
  { simpl in *. by rewrite F3. }
  destruct (add_stage (HM := vrf_member) s4) as (s5 & E5 & Q5 & N5 & F5%frame_vrf).
  { unfold names in *. simpl in *. by rewrite F4. }
  { simpl in *. by rewrite F4. }
  simpl in *. rewrite F3, C2 in Q4. rewrite F4, C3 in Q5. rewrite F2 in Fv.
  destruct (reworked_all dump b_type _ _ _ _ kb Qb1 Qb2 Fb Q4) as [Hb1 Hb2].
  destruct (reworked_all dump (λ _, "vrf"%string) _ _ _ _ kv Qv1 Qv2 Fv Q5) as [Hv1 Hv2].
  exists s5, cb, cv. rewrite !F5. split; [|done].
  unfold reconfigure_structures, reconfigure_add. step E1. step E2. step E3. step E4. exact E5.
Qed.

(** Every bridge and VRF has a switch, belongs to a row of its name (a bridge
    with the type of that row), all its interfaces follow wanted rows, and every
    wanted interface whose device works is there; a row is without a bridge or
    VRF only if the switch could not be created. *)
Definition structures_follow (s' : swst) : Prop :=
  (∀ b, b ∈ members (all_bridges s') → b_ofproto b = true ∧
     ∃ r, r ∈ bridges ∧ b_cfg b = Some r ∧ brr_name r = b_name b ∧
       b_type b = ofproto_normalize_type (brr_datapath_type r) ∧
       follows (b_ports b) (Some r) (bridge_collect_wanted_ports r)) ∧
  (∀ v, v ∈ members (all_vrfs s') → b_ofproto (up v) = true ∧
     ∃ r, r ∈ vrfs ∧ v_cfg v = Some r ∧ vrr_name r = v_name v ∧
       follows (b_ports (up v)) None (vrf_collect_wanted_ports (vrr_ports r))) ∧
  (∀ r, r ∈ bridges → (∀ l t, ofproto_create l (brr_name r) t = 0) → brr_name r ∈ b_name <$> members (all_bridges s')) ∧
  (∀ r, r ∈ vrfs → (∀ l, ofproto_create l (vrr_name r) "vrf" = 0) → vrr_name r ∈ v_name <$> members (all_vrfs s')).

Lemma reconfigure_structures_follow s :
  rows_ok → state_ok s →
  ∃ s', reconfigure_structures system_mac existing dump bridges vrfs s = Ok (tt, s') ∧ state_ok s' ∧ structures_follow s'.
Proof.
  intros Hr Hs. destruct (reconfigure_structures_run s Hr Hs) as (s' & cb & cv & E & Eb & Ev & Nb & Nv & B1 & B2 & V1 & V2).
  destruct Hr as [(mac & Hm & Ha) Hrb Hrv], Hs as [Hnb Hnv Hgb Hgv Hcv].
  destruct (add_del_bridges_run system_mac mac bridges (all_bridges s) Hm Ha Hnb Hgb) as (cb' & Eb' & _ & Hbn & Hb0 & _).
  destruct (add_del_vrfs_run system_mac mac vrfs (all_vrfs s) Hm Ha Hnv Hgv) as (cv' & Ev' & _ & Hvn & Hv0 & _).
  rewrite Eb in Eb'. injection Eb' as <-. rewrite Ev in Ev'. injection Ev' as <-.
  assert (∀ v, v ∈ members (all_vrfs s') → b_cfg (up v) = None) as Hcv'.
  { intros v (x & Hx & Hw)%V1. destruct (reworked_vrf dump x v Hw) as (_ & _ & ->).
    destruct (Hv0 x Hx) as ((_ & [(v0 & Hv & ->)|?]) & _); [by apply Hcv|done]. }
  exists s'. split; [done|]. split; [|split; [|split; [|split]]].
  - constructor; [done|done| | |done].
    + intros b (x & _ & (w & [_ _ ?] & _)%reworked_complete)%B1. done.
    + intros v (x & _ & (w & [_ _ ?] & _)%reworked_complete)%V1. done.
  - intros b (x & Hx & Hw)%B1. destruct (Hb0 x Hx) as (_ & r & Hr & En & Ec & Et).
    split; [exact (reworked_switch dump x b Hw)|]. destruct (reworked_bridge dump x b Hw) as (En' & Ec' & Et').
    exists r. split; [done|]. split; [congruence|]. split; [congruence|]. split; [congruence|].
    destruct (reworked_complete dump x b Hw) as (w & [Hwp _ _] & Hf). simpl in Hwp, Hf. rewrite Ec', Ec in Hwp, Hf.
    by injection Hwp as <-.
  - intros v Hv. pose proof (Hcv' v Hv) as Hcfg. apply V1 in Hv as (x & Hx & Hw).
    destruct (Hv0 x Hx) as (_ & r & Hr & En & Ec).
    split; [exact (reworked_switch dump x v Hw)|]. destruct (reworked_vrf dump x v Hw) as (En' & Ec' & _).
    exists r. split; [done|]. split; [congruence|]. split; [congruence|].
    destruct (reworked_complete dump x v Hw) as (w & [Hwp _ _] & Hf). simpl in Hwp, Hf. rewrite Ec', Ec in Hwp.
    rewrite Hcfg in Hf. by injection Hwp as <-.
  - intros r Hr Hc. apply (list_elem_of_fmap_2 brr_name) in Hr. rewrite <-Hbn in Hr.
    apply list_elem_of_fmap in Hr as (x & En & Hx). destruct (B2 x Hx) as (x2 & (x1 & Hd & Hck) & Hy).
    destruct Hy as (y & Hy & Hw).
    { right. intros l. pose proof (chain_name dump x x1 x2 Hd Hck : b_name x2 = b_name x) as ->. rewrite <-En. apply Hc. }
    destruct (reworked_bridge dump x y Hw) as (En' & _). rewrite En, <-En'. by apply list_elem_of_fmap_2.
  - intros r Hr Hc. apply (list_elem_of_fmap_2 vrr_name) in Hr. rewrite <-Hvn in Hr.
    apply list_elem_of_fmap in Hr as (x & En & Hx). destruct (V2 x Hx) as (x2 & (x1 & Hd & Hck) & Hy).
    destruct Hy as (y & Hy & Hw).
    { right. intros l. pose proof (chain_name dump x x1 x2 Hd Hck : v_name x2 = v_name x) as ->. rewrite <-En. apply Hc. }
    destruct (reworked_vrf dump x y Hw) as (En' & _). rewrite En, <-En'. by apply list_elem_of_fmap_2.
Qed.

(** C11: one reconfiguration of the structures returns from any consistent state
    and leaves a consistent one.  Every bridge and VRF that is left has a switch,
    belongs to a row of its name (a bridge with the type of that row), all its
    interfaces follow wanted rows, and every wanted interface whose device works
    is there; a row is without a bridge or VRF only if the switch could not be
    created. *)
Theorem reconfigure_structures_converges s :
  rows_ok → state_ok s →
  ∃ s', reconfigure_structures system_mac existing dump bridges vrfs s = Ok (tt, s') ∧ state_ok s' ∧
    (∀ b, b ∈ members (all_bridges s') → b_ofproto b = true ∧
       ∃ r, r ∈ bridges ∧ b_cfg b = Some r ∧ brr_name r = b_name b ∧
         b_type b = ofproto_normalize_type (brr_datapath_type r) ∧
         follows (b_ports b) (Some r) (bridge_collect_wanted_ports r)) ∧
    (∀ v, v ∈ members (all_vrfs s') → b_ofproto (up v) = true ∧
       ∃ r, r ∈ vrfs ∧ v_cfg v = Some r ∧ vrr_name r = v_name v ∧
         follows (b_ports (up v)) None (vrf_collect_wanted_ports (vrr_ports r))) ∧
    (∀ r, r ∈ bridges → (∀ l t, ofproto_create l (brr_name r) t = 0) → brr_name r ∈ b_name <$> members (all_bridges s')) ∧
    (∀ r, r ∈ vrfs → (∀ l, ofproto_create l (vrr_name r) "vrf" = 0) → vrr_name r ∈ v_name <$> members (all_vrfs s')).
Proof. exact (reconfigure_structures_follow s). Qed.

(** C12: a reconfiguration does not disturb what still works.  An interface of a
    bridge or VRF that keeps its switch, whose row is still in the port it was in
    and which the switch reports in the form the row asks for, is still there
    afterwards, with the same OpenFlow port and its new row. *)
Theorem reconfigure_keeps_interfaces s :
  rows_ok → state_ok s →
  ∃ s', reconfigure_structures system_mac existing dump bridges vrfs s = Ok (tt, s') ∧
    (∀ b r f row, b ∈ members (all_bridges s) → b_ofproto b = true →
       collect_rows brr_name bridges !! b_name b = Some r → b_type b = ofproto_normalize_type (brr_datapath_type r) →
       f ∈ ifaces (b_ports b) → wanted_row (bridge_collect_wanted_ports r) (f_port f) row → ir_name row = f_name f →
       still_fits (Some r) false (dump (b_name b)) row →
       ∃ b', b' ∈ members (all_bridges s') ∧ b_name b' = b_name b ∧
         Iface (f_name f) (f_port f) (f_ofp_port f) (iface_get_type (Some r) row) row ∈ ifaces (b_ports b')) ∧
    (∀ v r f row, v ∈ members (all_vrfs s) → b_ofproto (up v) = true →
       collect_rows vrr_name vrfs !! v_name v = Some r →
       f ∈ ifaces (b_ports (up v)) → wanted_row (vrf_collect_wanted_ports (vrr_ports r)) (f_port f) row →
       ir_name row = f_name f → still_fits None true (dump (v_name v)) row →
       ∃ v', v' ∈ members (all_vrfs s') ∧ v_name v' = v_name v ∧
         Iface (f_name f) (f_port f) (f_ofp_port f) (iface_get_type None row) row ∈ ifaces (b_ports (up v'))).
Proof.
  intros Hr Hs. destruct (reconfigure_structures_run s Hr Hs) as (s' & cb & cv & E & Eb & Ev & _ & _ & _ & B2 & _ & V2).
  destruct Hr as [(mac & Hm & Ha) Hrb Hrv], Hs as [Hnb Hnv Hgb Hgv Hcv].
  destruct (add_del_bridges_run system_mac mac bridges (all_bridges s) Hm Ha Hnb Hgb) as (cb' & Eb' & _ & _ & _ & Hkb).
  destruct (add_del_vrfs_run system_mac mac vrfs (all_vrfs s) Hm Ha Hnv Hgv) as (cv' & Ev' & _ & _ & _ & Hkv).
  rewrite Eb in Eb'. injection Eb' as <-. rewrite Ev in Ev'. injection Ev' as <-.
  exists s'. split; [done|]. split.
  - intros b r f row Hb Ho Hrow Ht Hf Hw En Hfit. destruct (B2 _ (Hkb b r Hb Hrow Ht)) as (x2 & (x1 & Hd & Hc) & Hy).
    destruct Hy as (y & Hy & Hrw).
    { left. destruct (chain_bridge dump _ x1 x2 Hd Hc) as (p & Ep). simpl in Ep. by rewrite Ep. }
    exists y. split; [done|]. split; [apply (reworked_bridge dump _ y Hrw)|].
    by apply (reworked_keeps dump _ y (bridge_collect_wanted_ports r) f row Hrw).
  - intros v r f row Hv Ho Hrow Hf Hw En Hfit. destruct (V2 _ (Hkv v r Hv Hrow)) as (x2 & (x1 & Hd & Hc) & Hy).
    destruct Hy as (y & Hy & Hrw).
    { left. destruct (chain_bridge dump _ x1 x2 Hd Hc) as (p & Ep). simpl in Ep. by rewrite Ep. }
    exists y. split; [done|]. split; [apply (reworked_vrf dump _ y Hrw)|].
    pose proof (Hcv v Hv) as Hcfg.
    pose proof (reworked_keeps dump _ y (vrf_collect_wanted_ports (vrr_ports r)) f row Hrw) as Hk. simpl in Hk.
    rewrite Hcfg in Hk. by apply Hk.
Qed.
End Whole.
