(* ===== verification/ReconfigureOrder.v ===== *)
(** * The order of the reconfiguration

    "We have to do all the deletions before we can do any additions": what the
    steps of [bridge_reconfigure] send to the switches. *)

From S2P Require Import Prelude OvsLib Blocks BridgePorts Lifecycle Reconfigure ReconfigureFacts.
Local Open Scope Z_scope.

(** ** Code that only appends events of a kind to a log *)

Definition grows {S E A} (log : S → list E) (P : E → Prop) (c : M S A) : Prop :=
  ∀ s a s', c s = Ok (a, s') → ∃ l, log s' = log s ++ l ∧ Forall P l.

Section Grows.
Context {S E : Type} (log : S → list E) (P : E → Prop).

Lemma grows_same {A} (c : M S A) : (∀ s a s', c s = Ok (a, s') → log s' = log s) → grows log P c.
Proof. intros H s a s' Es. exists []. rewrite app_nil_r. split; [by eapply H|constructor]. Qed.

Lemma grows_ret {A} (a : A) : grows log P (mret a).
Proof. apply grows_same. by intros s b s' [= <- <-]. Qed.

Lemma grows_gets {A} (g : S → A) : grows log P (gets g).
Proof. apply grows_same. by intros s b s' [= <- <-]. Qed.

Lemma grows_die {A} e : grows log P (die e : M S A).
Proof. by intros s b s'. Qed.

Lemma grows_deref {A} (o : option A) : grows log P (deref o).
Proof. destruct o; [apply grows_ret|apply grows_die]. Qed.

Lemma grows_modify (f : S → S) : (∀ s, log (f s) = log s) → grows log P (modify f).
Proof. intros Hf. apply grows_same. intros s [] s' [= <-]. apply Hf. Qed.

Lemma grows_append (f : S → S) l : (∀ s, log (f s) = log s ++ l) → Forall P l → grows log P (modify f).
Proof. intros Hf HP s [] s' [= <-]. exists l. by rewrite Hf. Qed.

Lemma grows_bind {A B} (c : M S A) (f : A → M S B) : grows log P c → (∀ a, grows log P (f a)) → grows log P (c ≫= f).
Proof.
  intros Hc Hf s b s'' (a & s' & E1 & E2)%bind_Ok. destruct (Hc _ _ _ E1) as (l1 & El1 & H1), (Hf _ _ _ _ E2) as (l2 & El2 & H2).
  exists (l1 ++ l2). rewrite El2, El1, app_assoc. split; [done|by apply Forall_app].
Qed.

Lemma grows_when b (c : M S unit) : (b = true → grows log P c) → grows log P (mwhen b c).
Proof. destruct b; [auto|intros _; apply grows_ret]. Qed.

Lemma grows_for {A} (l : list A) (f : A → M S unit) : (∀ x, grows log P (f x)) → grows log P (mfor l f).
Proof. intros Hf. induction l as [|x l IH]; [apply grows_ret|]. apply grows_bind; [apply Hf|intros _; apply IH]. Qed.

Lemma grows_fold {A B} (f : B → A → M S B) l b : (∀ b x, grows log P (f b x)) → grows log P (mfold f l b).
Proof. intros Hf. revert b. induction l as [|x l IH]; intros b; [apply grows_ret|]. apply grows_bind; [apply Hf|apply IH]. Qed.

Lemma grows_assert b : grows log P (ovs_assert b).
Proof. destruct b; [apply grows_ret|apply grows_die]. Qed.
End Grows.

(** Walk through a definition. *)
Ltac grow :=
  repeat first
    [ assumption | match goal with H : context [grows] |- _ => apply H end | apply grows_ret | apply grows_gets | apply grows_die | apply grows_deref | apply grows_assert
    | apply grows_modify; reflexivity
    | eapply grows_append; [intros ?; reflexivity | constructor; [exact I | constructor]]
    | apply grows_bind; [|intros ?] | apply grows_when; intros ? | apply grows_for; intros ?
    | apply grows_fold; intros ? ? | case_match ].

(** ** Calls for ports *)

(** The call neither takes a port from a switch, nor opens a device or adds a
    port. *)
Definition no_removal (e : bp_event) : Prop :=
  match e with OfPortUnregister _ | OfPortDel _ | BundleUnregister _ => False | _ => True end.
Definition no_addition (e : bp_event) : Prop :=
  match e with OfPortAdd _ _ | DevOpen _ _ => False | _ => True end.

Section Ports.
Context `{HL : OvsLib, HD : SwitchDev}.
Context (br_ofproto : bool) (br_cfg : option ovsrec_bridge).
Abbreviation quiet := (grows bp_log no_addition).

Lemma iface_destroy___quiet n : quiet (iface_destroy__ br_ofproto n).
Proof. unfold iface_destroy__. grow. Qed.

Lemma port_destroy_quiet q : quiet (port_destroy br_ofproto q).
Proof. unfold port_destroy. pose proof iface_destroy___quiet. grow. Qed.

Lemma iface_destroy_quiet n : quiet (iface_destroy br_ofproto n).
Proof. unfold iface_destroy. pose proof iface_destroy___quiet. pose proof port_destroy_quiet. grow; auto. Qed.

Lemma del_ports_quiet vrf wanted : quiet (del_ports br_ofproto br_cfg vrf wanted).
Proof.
  unfold del_ports, del_or_trim_port, port_del_ifaces, update_iface.
  pose proof iface_destroy_quiet. pose proof port_destroy_quiet. grow; auto.
Qed.

Lemma delete_or_reconfigure_quiet vrf dump :
  quiet (if vrf : bool then vrf_delete_or_reconfigure_ports br_ofproto dump
         else bridge_delete_or_reconfigure_ports br_ofproto dump).
Proof.
  unfold vrf_delete_or_reconfigure_ports, bridge_delete_or_reconfigure_ports, delete_or_reconfigure_ports_with,
    check_ofproto_port, drop_vanished, vrf_iface_still_good, iface_still_good, reconfigure_netdev.
  pose proof iface_destroy_quiet. pose proof iface_destroy___quiet. pose proof port_destroy_quiet. grow; auto.
Qed.

Lemma bridge_add_ports_keeps wanted : grows bp_log no_removal (bridge_add_ports br_cfg wanted).
Proof.
  unfold bridge_add_ports, add_iface_if_new, iface_create, iface_do_create, iface_set_netdev_config,
    iface_clear_db_record, port_create. grow.
Qed.

(** Ports without a switch are only forgotten. *)
Lemma port_destroy_keeps q : grows bp_log no_removal (port_destroy false q).
Proof. unfold port_destroy, iface_destroy__. simpl. grow. Qed.
End Ports.

(** ** Calls for structures and switches *)

Definition lc_no_removal (e : lc_event) : Prop :=
  match e with
  | PortsDestroyed _ calls => Forall no_removal calls
  | OfprotoDestroy _ | OfprotoDelete _ _ => False
  | _ => True
  end.
Definition lc_no_addition (e : lc_event) : Prop :=
  match e with
  | PortsDestroyed _ calls => Forall no_addition calls
  | OfprotoCreate _ _ => False
  | _ => True
  end.

Section Structures.
Context `{HL : OvsLib, HD : SwitchDev, HP : Posix, HT : SwitchTypes}.
Context (system_mac : option string).

Lemma destroy_ports_grows {X} (P : bp_event → Prop) (Q : lc_event → Prop) name ofproto s :
  (∀ q, grows bp_log P (port_destroy ofproto q)) → (∀ calls, Forall P calls → Q (PortsDestroyed name calls)) →
  grows lc_log Q (destroy_ports (X := X) name ofproto s).
Proof.
  intros Hp HQ c [] c' E. unfold destroy_ports in E. destruct (mfor _ _ s) as [[[] s']|] eqn:Em; [|done].
  injection E as <-. apply (grows_for bp_log P) in Em as (l & El & Hl); [|intros p; apply Hp].
  eexists. split; [done|]. constructor; [|constructor]. apply HQ. by rewrite El, drop_app_length.
Qed.

Lemma bridge_destroy_quiet b : grows lc_log lc_no_addition (bridge_destroy b).
Proof.
  unfold bridge_destroy, ofproto_destroy. apply grows_bind; [|intros ?; grow].
  apply (destroy_ports_grows no_addition); [intros; apply port_destroy_quiet|done].
Qed.

Lemma vrf_destroy_quiet v : grows lc_log lc_no_addition (vrf_destroy v).
Proof.
  unfold vrf_destroy, ofproto_destroy. apply grows_bind; [grow|intros ?]. apply grows_bind; [|intros ?; grow].
  apply (destroy_ports_grows no_addition); [intros; apply port_destroy_quiet|done].
Qed.

Lemma add_del_bridges_quiet rows : grows lc_log lc_no_addition (add_del_bridges system_mac rows).
Proof.
  unfold add_del_bridges, add_del, delete_old, add_new, bridge_create, copy_system_mac.
  pose proof bridge_destroy_quiet. grow; auto.
Qed.

Lemma add_del_vrfs_quiet rows : grows lc_log lc_no_addition (add_del_vrfs system_mac rows).
Proof.
  unfold add_del_vrfs, add_del, delete_old, add_new, vrf_create, copy_system_mac.
  pose proof vrf_destroy_quiet. grow; auto.
Qed.

(** A structure is only destroyed here when it has no switch. *)
Lemma create_ofprotos_keeps : grows lc_log lc_no_removal create_ofprotos.
Proof.
  unfold create_ofprotos, create_ofproto, create_missing. apply grows_bind; [grow|intros l]. apply grows_for. intros b.
  destruct (b_ofproto b) eqn:Eo; [grow|]. apply grows_bind; [grow|intros log]. apply grows_bind; [grow|intros _].
  destruct (negb _); [|grow]. unfold bridge_destroy. rewrite Eo. unfold ofproto_destroy. apply grows_bind; [|intros ?; grow].
  apply (destroy_ports_grows no_removal); [apply port_destroy_keeps|done].
Qed.

Lemma create_vrf_ofprotos_keeps : grows lc_log lc_no_removal create_vrf_ofprotos.
Proof.
  unfold create_vrf_ofprotos, create_vrf_ofproto, create_missing. apply grows_bind; [grow|intros l]. apply grows_for. intros v.
  destruct (b_ofproto (up v)) eqn:Eo; [grow|]. apply grows_bind; [grow|intros log]. apply grows_bind; [grow|intros _].
  destruct (negb _); [|grow]. unfold vrf_destroy. rewrite Eo. unfold ofproto_destroy. apply grows_bind; [grow|intros ?].
  apply grows_bind; [|intros ?; grow]. apply (destroy_ports_grows no_removal); [apply port_destroy_keeps|done].
Qed.
End Structures.

(** ** The trace *)

Definition rc_no_removal (e : rc_event) : Prop :=
  match e with Block _ _ _ => True | Life e => lc_no_removal e | PortCall _ e => no_removal e end.
Definition rc_no_addition (e : rc_event) : Prop :=
  match e with Block _ _ _ => True | Life e => lc_no_addition e | PortCall _ e => no_addition e end.

Section Trace.
Context `{HL : OvsLib, HD : SwitchDev, HP : Posix, HT : SwitchTypes}.

Section Lift.
Context {X : Type} {HM : Member X} (set_coll_trace : ∀ (c : coll X) s, trace (set_coll c s) = trace s).

Lemma on_coll_grows {A} (P : lc_event → Prop) (Q : rc_event → Prop) (c : M (coll X) A) :
  grows lc_log P c → (∀ e, P e → Q (Life e)) → grows trace Q (on_coll c).
Proof using set_coll_trace.
  intros Hc HQ s a s' E. unfold on_coll in E. destruct (c (coll_of s)) as [[a' k]|] eqn:Ec; [|done].
  injection E as <- <-. destruct (Hc _ _ _ Ec) as (l & El & Hl). eexists. simpl. rewrite set_coll_trace. split; [done|].
  rewrite El, drop_app_length. apply Forall_fmap. eapply Forall_impl; [exact Hl|]. auto.
Qed.

Lemma on_ports_grows (P : bp_event → Prop) (Q : rc_event → Prop) x c :
  grows bp_log P c → (∀ e, P e → Q (PortCall (member_name x) e)) → grows trace Q (on_ports x c).
Proof using set_coll_trace.
  intros Hc HQ s a s' E. unfold on_ports in E. destruct (c _) as [[a' p]|] eqn:Ec; [|done].
  injection E as <- <-. destruct (Hc _ _ _ Ec) as (l & El & Hl). eexists. simpl. rewrite set_coll_trace. split; [done|].
  rewrite El, drop_app_length. apply Forall_fmap. eapply Forall_impl; [exact Hl|]. auto.
Qed.

Lemma delete_ports_of_quiet x : grows trace rc_no_addition (delete_ports_of x).
Proof using set_coll_trace.
  unfold delete_ports_of, block. grow. apply (on_ports_grows no_addition); [apply del_ports_quiet|done].
Qed.

Lemma reconfigure_ports_of_quiet dump x : grows trace rc_no_addition (reconfigure_ports_of dump x).
Proof using set_coll_trace.
  unfold reconfigure_ports_of, block. apply grows_when. intros _. apply grows_bind; [|intros ?; grow].
  apply (on_ports_grows no_addition); [apply delete_or_reconfigure_quiet|done].
Qed.

Lemma add_ports_of_keeps x : grows trace rc_no_removal (add_ports_of x).
Proof using set_coll_trace.
  unfold add_ports_of, block. apply grows_bind; [grow|intros w]. apply grows_bind; [|intros ?; grow].
  apply (on_ports_grows no_removal); [apply bridge_add_ports_keeps|done].
Qed.
End Lift.

Context (system_mac : option string) (existing : list (string * string)) (dump : string → list ofproto_port).

Lemma delete_ofprotos_quiet : grows trace rc_no_addition (delete_ofprotos existing).
Proof.
  intros s [] s' [= <-]. eexists. split; [done|]. apply Forall_fmap, Forall_true. done.
Qed.

Lemma reconfigure_delete_quiet bridges vrfs :
  grows trace rc_no_addition (reconfigure_delete system_mac existing dump bridges vrfs).
Proof.
  unfold reconfigure_delete, for_each, block.
  pose proof (on_coll_grows (HM := bridge_member) (λ _ _, eq_refl) lc_no_addition rc_no_addition _
    (add_del_bridges_quiet system_mac bridges) (λ _ H, H)).
  pose proof (on_coll_grows (HM := vrf_member) (λ _ _, eq_refl) lc_no_addition rc_no_addition _
    (add_del_vrfs_quiet system_mac vrfs) (λ _ H, H)).
  pose proof (delete_ports_of_quiet (HM := bridge_member) (λ _ _, eq_refl)).
  pose proof (delete_ports_of_quiet (HM := vrf_member) (λ _ _, eq_refl)).
  pose proof (reconfigure_ports_of_quiet (HM := bridge_member) (λ _ _, eq_refl) dump).
  pose proof (reconfigure_ports_of_quiet (HM := vrf_member) (λ _ _, eq_refl) dump).
  pose proof delete_ofprotos_quiet. grow; auto.
Qed.

Lemma reconfigure_add_keeps : grows trace rc_no_removal reconfigure_add.
Proof.
  unfold reconfigure_add, for_each.
  pose proof (on_coll_grows (HM := bridge_member) (λ _ _, eq_refl) lc_no_removal rc_no_removal _
    create_ofprotos_keeps (λ _ H, H)).
  pose proof (on_coll_grows (HM := vrf_member) (λ _ _, eq_refl) lc_no_removal rc_no_removal _
    create_vrf_ofprotos_keeps (λ _ H, H)).
  pose proof (add_ports_of_keeps (HM := bridge_member) (λ _ _, eq_refl)).
  pose proof (add_ports_of_keeps (HM := vrf_member) (λ _ _, eq_refl)). grow; auto.
Qed.

(** C13: all deletions come before all additions.  What one reconfiguration of
    the structures sends to the switches of all bridges and VRFs falls into two
    parts: in the first nothing is added (no device is opened, no port added and
    no switch created), and in the second nothing is taken from a switch (no port
    is removed or unregistered and no switch deleted), also when the creation of
    a switch fails and its bridge is destroyed. *)
Theorem deletions_precede_additions bridges vrfs s s' :
  reconfigure_structures system_mac existing dump bridges vrfs s = Ok (tt, s') →
  ∃ t1 t2, trace s' = trace s ++ t1 ++ t2 ∧ Forall rc_no_addition t1 ∧ Forall rc_no_removal t2.
Proof.
  unfold reconfigure_structures. intros (a & s1 & E1 & E2)%bind_Ok.
  apply reconfigure_delete_quiet in E1 as (t1 & T1 & H1). apply reconfigure_add_keeps in E2 as (t2 & T2 & H2).
  exists t1, t2. by rewrite T2, T1, <-app_assoc.
Qed.
End Trace.

(** ** An example *)

Module ReconfigureExample.
#[local] Existing Instances ref_lib ref_posix BridgePortsReconf.PortsExample.dev LifecycleExample.types.
Import BridgePortsReconf BridgePortsReconf.PortsExample.

Definition mac : option string := Some LifecycleExample.mac.

(** Bridge [br0] with the ports of [PortsExample], a bridge that goes and a VRF that comes. *)
Definition br0 : bridge := Bridge "br0" "system" None LifecycleExample.mac true before [].
Definition start : swst := SwSt (Coll [br0; LifecycleExample.br "gone" "system"] []) (Coll [] []) [].
Definition vrf_rows : list ovsrec_vrf := [VrfRow "red" []].
Definition switches : list (string * string) := [("br0", "system"); ("stale", "system")].

Lemma start_ok : state_ok start.
Proof.
  split; [by_compute|constructor| | |by intros v ?%elem_of_nil].
  - intros b Hb. simpl in Hb. cases_elem Hb; [apply before_ok|apply empty_ports_good].
  - by intros v ?%elem_of_nil.
Qed.

Lemma rows_are_ok : rows_ok mac [row] vrf_rows.
Proof.
  split; [by exists LifecycleExample.mac| |].
  - intros r Hr. cases_elem Hr. apply wanted_is_ok.
  - intros r Hr. cases_elem Hr. split; [by intros q pr|]. by intros q1 q2 r1 r2 (pr & ? & _).
Qed.

Lemma reconfigure_structures_converges_witness :
  ∃ s', reconfigure_structures mac switches (λ _, dump) [row] vrf_rows start = Ok (tt, s') ∧
    "br0" ∈ b_name <$> members (all_bridges s') ∧ "red" ∈ v_name <$> members (all_vrfs s').
Proof.
  destruct (reconfigure_structures_converges mac switches (λ _, dump) [row] vrf_rows start rows_are_ok start_ok)
    as (s' & E & _ & _ & _ & Hb & Hv).
  exists s'. split; [exact E|]. clear E. split.
  - apply (Hb row); [left|done].
  - apply (Hv (VrfRow "red" [])); [left|done].
Defined.

Lemma reconfigure_keeps_interfaces_witness :
  ∃ s', reconfigure_structures mac switches (λ _, dump) [row] vrf_rows start = Ok (tt, s') ∧
    ∃ b', b' ∈ members (all_bridges s') ∧ Iface "eth1" "p1" 1 "system" (if_row 1 "eth1") ∈ ifaces (b_ports b').
Proof.
  destruct (reconfigure_keeps_interfaces mac switches (λ _, dump) [row] vrf_rows start rows_are_ok start_ok)
    as (s' & E & Hb & _). exists s'. split; [exact E|]. clear E.
  destruct (Hb br0 row (Iface "eth1" "p1" 1 "system" (if_row 1 "eth1")) (if_row 1 "eth1")) as (b' & Hin & _ & Hf).
  - left.
  - done.
  - vm_compute. reflexivity.
  - reflexivity.
  - left.
  - exists (PortRow "p1" [if_row 1 "eth1"]). split; [vm_compute; reflexivity|left].
  - done.
  - split; [done|left|]. intros d q o Hd. cases_elem Hd; done.
  - by exists b'.
Defined.

Definition finish : swst :=
  match reconfigure_structures mac switches (λ _, dump) [row] vrf_rows start with Ok (_, s) => s | Fault _ => start end.

Lemma deletions_precede_additions_witness :
  ∃ t1 t2, trace finish = t1 ++ t2 ∧ Forall rc_no_addition t1 ∧ Forall rc_no_removal t2 ∧
    PortCall "br0" (OfPortDel 9) ∈ trace finish ∧ Life (OfprotoDelete "stale" "system") ∈ trace finish.
Proof.
  destruct (deletions_precede_additions mac switches (λ _, dump) [row] vrf_rows start finish) as (t1 & t2 & E & H1 & H2).
  - vm_compute. reflexivity.
  - exists t1, t2. split; [exact E|]. split; [done|]. split; [done|].
    split; vm_compute; repeat (first [left|right]).
Defined.
End ReconfigureExample.
