(* ===== verification/DatapathId.v ===== *)
(** * Address and datapath identifier of a bridge: bridge.c

    [find_local_hw_addr], [bridge_pick_local_hw_addr], [bridge_pick_datapath_id]
    and [bridge_configure_datapath_id].  The hash map of ports is a list in any
    order: the facts show that the choice does not depend on it. *)

From Stdlib Require Import Ascii String.
From S2P Require Import Prelude OvsLib.
Local Open Scope Z_scope.

(** Ethernet addresses and datapath identifiers of the Open vSwitch library. *)
Class EthLib := {
  eth_addr : Type;
  eth_addr_from_string : string → option eth_addr;
  eth_addr_is_multicast : eth_addr → bool;
  eth_addr_is_local : eth_addr → bool;
  eth_addr_is_reserved : eth_addr → bool;
  eth_addr_is_zero : eth_addr → bool;
  (** [memcmp] of the bytes. *)
  eth_addr_compare_3way : eth_addr → eth_addr → Z;
  eth_compare_eq : ∀ a b, eth_addr_compare_3way a b = 0 ↔ a = b;
  eth_compare_sym : ∀ a b, eth_addr_compare_3way a b < 0 → 0 < eth_addr_compare_3way b a;
  eth_compare_sym' : ∀ a b, 0 < eth_addr_compare_3way a b → eth_addr_compare_3way b a < 0;
  eth_compare_trans : ∀ a b c,
    eth_addr_compare_3way a b < 0 → eth_addr_compare_3way b c < 0 → eth_addr_compare_3way a c < 0;
  eth_addr_to_uint64 : eth_addr → Z;
  dpid_from_string : string → option Z;
  OFPP_LOCAL : Z;
}.

Definition eth_addr_equals `{EthLib} (a b : eth_addr) : bool := eth_addr_compare_3way a b =? 0.

(** What the code reads of ports and interfaces; [hi_etheraddr] is the answer of
    [netdev_get_etheraddr], [None] for an error. *)
Record hw_iface `{EthLib} := HwIface {
  hi_name : string;
  hi_ofp_port : Z;
  hi_etheraddr : option eth_addr;
}.

Record hw_port `{EthLib} := HwPort {
  hp_mac : option string;
  hp_vlan_tag : option Z;
  hp_ifaces : list hw_iface;
}.
Arguments HwIface {_} _ _ _.
Arguments HwPort {_} _ _ _.

Inductive dp_event `{EthLib} :=
| SetEtheraddr (ea : eth_addr)        (* of the local interface *)
| SetDatapathId (dpid : Z)
| WriteDatapathId (text : string).    (* the column of the Bridge row *)

Section DatapathId.
Context `{HE : EthLib}.
Implicit Types (p : hw_port) (ps : list hw_port) (ea : eth_addr).

(** The last interface with the address. *)
Definition iface_with_addr (ifs : list hw_iface) ea : option hw_iface :=
  fold_left (λ found c, match hi_etheraddr c with
                        | Some a => if eth_addr_equals ea a then Some c else found
                        | None => found
                        end) ifs None.

(** The interface whose name comes first. *)
Definition first_iface (ifs : list hw_iface) : option hw_iface :=
  fold_left (λ found c, match found with
                        | Some i => match String.compare (hi_name c) (hi_name i) with Lt => Some c | _ => found end
                        | None => Some c
                        end) ifs None.

(** "For fake bridges we only choose from ports with the same tag". *)
Definition tag_matches (fake_tag : option Z) p : bool :=
  match fake_tag with
  | None => true
  | Some t => match hp_vlan_tag p with Some t' => t' =? t | None => false end
  end.

(** The address that represents a port and its interface; [None]: [continue]. *)
Definition port_hw_addr {S} (fake_tag : option Z) p : M S (option (eth_addr * option hw_iface)) :=
  match hp_mac p ≫= eth_addr_from_string with
  | Some ea => mret (Some (ea, iface_with_addr (hp_ifaces p) ea))
  | None =>
    i ← deref (first_iface (hp_ifaces p));
    mret (if hi_ofp_port i =? OFPP_LOCAL then None
          else if negb (tag_matches fake_tag p) then None
          else (λ ea, (ea, Some i)) <$> hi_etheraddr i)
  end.

Definition eth_addr_usable ea : bool :=
  negb (eth_addr_is_multicast ea) && negb (eth_addr_is_local ea) &&
  negb (eth_addr_is_reserved ea) && negb (eth_addr_is_zero ea).

(** One iteration: the choice so far, if there is one. *)
Definition compare_choice {S} (fake_tag : option Z) (best : option (eth_addr * option hw_iface)) p
    : M S (option (eth_addr * option hw_iface)) :=
  c ← port_hw_addr fake_tag p;
  mret match c with
       | None => best
       | Some (ea, i) =>
         if eth_addr_usable ea &&
            match best with None => true | Some (b, _) => eth_addr_compare_3way ea b <? 0 end
         then Some (ea, i) else best
       end.

Definition find_local_hw_addr {S} (default_ea : eth_addr) (fake_tag : option Z) ps
    : M S (eth_addr * option hw_iface) :=
  best ← mfold (compare_choice fake_tag) ps None;
  mret (default (default_ea, None) best).

Definition bridge_pick_local_hw_addr {S} (other_config : smap) (default_ea : eth_addr) ps
    : M S (eth_addr * option hw_iface) :=
  match other_config !! "hwaddr" ≫= eth_addr_from_string with
  | Some ea =>
    if eth_addr_is_multicast ea || eth_addr_is_zero ea then find_local_hw_addr default_ea None ps
    else mret (ea, None)
  | None => find_local_hw_addr default_ea None ps
  end.

(** The interface is not used in this build. *)
Definition bridge_pick_datapath_id (other_config : smap) (bridge_ea : eth_addr) (hw_addr_iface : option hw_iface) : Z :=
  match other_config !! "datapath-id" ≫= dpid_from_string with
  | Some dpid => dpid
  | None => eth_addr_to_uint64 bridge_ea
  end.

(** [%016"PRIx64"] *)
Definition hex_char (d : Z) : ascii :=
  ascii_of_nat (Z.to_nat (if d <? 10 then 48 + d else 87 + d)).
Fixpoint hex_text (digits : nat) (z : Z) : string :=
  match digits with
  | O => EmptyString
  | Datatypes.S n => String (hex_char (z / 16 ^ Z.of_nat n mod 16)) (hex_text n z)
  end.

(** [has_local]: the bridge has an interface on [OFPP_LOCAL]; [dpid_now]: what
    [ofproto_get_datapath_id] returns.  The result is the new [br->ea]. *)
Definition bridge_configure_datapath_id (other_config : smap) (default_ea : eth_addr) ps (has_local : bool) (dpid_now : Z)
    : M (list dp_event) eth_addr :=
  '(ea, hw_addr_iface) ← bridge_pick_local_hw_addr other_config default_ea ps;
  mwhen has_local (modify (λ l, l ++ [SetEtheraddr ea])) ;;
  let dpid := bridge_pick_datapath_id other_config ea hw_addr_iface in
  mwhen (negb (dpid =? dpid_now)) (modify (λ l, l ++ [SetDatapathId dpid])) ;;
  modify (λ l, l ++ [WriteDatapathId (hex_text 16 dpid)]) ;;
  mret ea.

(** ** Facts *)

(** The address a port offers, if it has one that is usable. *)
Definition offer p : option eth_addr :=
  ea ← match hp_mac p ≫= eth_addr_from_string with
       | Some ea => Some ea
       | None => i ← first_iface (hp_ifaces p);
                 if hi_ofp_port i =? OFPP_LOCAL then None else hi_etheraddr i
       end;
  if eth_addr_usable ea then Some ea else None.

(** The port has an interface or an address of its own. *)
Definition port_ok p : Prop := hp_ifaces p ≠ [] ∨ is_Some (hp_mac p ≫= eth_addr_from_string).

Lemma first_iface_Some ifs : ifs ≠ [] → is_Some (first_iface ifs).
Proof.
  unfold first_iface. destruct ifs as [|i ifs]; [done|]. intros _. simpl. generalize i. clear i.
  induction ifs as [|c ifs IH]; intros i; simpl; [eauto|]. by destruct (String.compare _ _).
Qed.

Lemma port_hw_addr_run {S} p (s : S) :
  port_ok p → ∃ c, port_hw_addr None p s = Ok (c, s) ∧
    (c ≫= λ c, if eth_addr_usable c.1 then Some c.1 else None) = offer p.
Proof.
  intros Hp. unfold port_hw_addr, offer. destruct (hp_mac p ≫= eth_addr_from_string) as [ea|] eqn:Em.
  { eexists. split; [done|]. done. }
  destruct Hp as [[i Hi]%first_iface_Some|[? ?]]; [|congruence]. rewrite Hi. unfold deref. step. simpl.
  eexists. split; [done|]. destruct (hi_ofp_port i =? OFPP_LOCAL); [done|]. by destruct (hi_etheraddr i).
Qed.

Definition is_min (ea : eth_addr) (l : list eth_addr) : Prop :=
  ea ∈ l ∧ ∀ b, b ∈ l → eth_addr_compare_3way ea b ≤ 0.

Lemma is_min_unique a b l : is_min a l → is_min b l → a = b.
Proof.
  intros [Ha Hla] [Hb Hlb]. apply eth_compare_eq. specialize (Hla b Hb). specialize (Hlb a Ha).
  destruct (Z.lt_total (eth_addr_compare_3way a b) 0) as [H|[H|H]]; [|done|lia].
  apply eth_compare_sym in H. lia.
Qed.

Lemma compare_le_trans a b c :
  eth_addr_compare_3way a b < 0 → eth_addr_compare_3way b c ≤ 0 → eth_addr_compare_3way a c ≤ 0.
Proof.
  intros H1 H2. destruct (Z.eq_dec (eth_addr_compare_3way b c) 0) as [E|E].
  - apply eth_compare_eq in E as ->. lia.
  - pose proof (eth_compare_trans a b c H1). lia.
Qed.

(** What the loop has chosen after the ports with the offers [l]. *)
Definition chosen (best : option (eth_addr * option hw_iface)) (l : list eth_addr) : Prop :=
  match best with Some (ea, _) => is_min ea l | None => l = [] end.

Lemma compare_choice_run {S} best p l (s : S) :
  port_ok p → chosen best l →
  ∃ best', compare_choice None best p s = Ok (best', s) ∧ chosen best' (l ++ option_list (offer p)).
Proof.
  intros Hp Hb. unfold compare_choice. destruct (port_hw_addr_run p s Hp) as (c & E & Ec). step E. rewrite <-Ec.
  eexists. split; [done|]. destruct c as [[ea i]|]; simpl; [|by rewrite app_nil_r].
  destruct (eth_addr_usable ea); simpl; [|by rewrite app_nil_r].
  destruct best as [[b j]|]; simpl in *.
  - destruct Hb as [Hin Hmin]. destruct (Z.ltb_spec (eth_addr_compare_3way ea b) 0) as [Hlt|Hge].
    + split; [set_solver|]. intros x [Hx|Hx%list_elem_of_singleton]%elem_of_app.
      * eapply compare_le_trans; [exact Hlt|auto].
      * subst x. by rewrite (proj2 (eth_compare_eq ea ea)).
    + split; [set_solver|]. intros x [Hx|Hx%list_elem_of_singleton]%elem_of_app; [auto|subst x].
      destruct (Z.eq_dec (eth_addr_compare_3way ea b) 0) as [E0|E0].
      * apply eth_compare_eq in E0 as ->. by rewrite (proj2 (eth_compare_eq b b)).
      * assert (0 < eth_addr_compare_3way ea b) as ?%eth_compare_sym' by lia. lia.
  - subst l. split; [left|]. intros x Hx%list_elem_of_singleton. subst x. by rewrite (proj2 (eth_compare_eq ea ea)).
Qed.

Lemma compare_choices_run {S} ps best l (s : S) :
  Forall port_ok ps → chosen best l →
  ∃ best', mfold (compare_choice None) ps best s = Ok (best', s) ∧ chosen best' (l ++ omap offer ps).
Proof.
  intros Hps. revert best l. induction Hps as [|p ps Hp _ IH]; intros best l Hb; [exists best; by rewrite app_nil_r|].
  destruct (compare_choice_run best p l s Hp Hb) as (best1 & E1 & H1).
  destruct (IH best1 _ H1) as (best' & E & H'). exists best'. simpl. step E1. split; [done|].
  rewrite <-app_assoc in H'. csimpl. destruct (offer p); done.
Qed.

(** The reference: the smallest of the offered addresses, or the default. *)
Definition local_hw_addr (default_ea ea : eth_addr) ps : Prop :=
  match omap offer ps with [] => ea = default_ea | l => is_min ea l end.

Lemma find_local_hw_addr_run {S} default_ea ps (s : S) :
  Forall port_ok ps → ∃ ea i, find_local_hw_addr default_ea None ps s = Ok ((ea, i), s) ∧ local_hw_addr default_ea ea ps.
Proof.
  intros Hps. destruct (compare_choices_run ps None [] s Hps eq_refl) as (best & E & Hb). simpl in Hb.
  unfold find_local_hw_addr, local_hw_addr. destruct best as [[ea i]|]; simpl in Hb.
  - exists ea, i. step E. split; [done|]. destruct (omap offer ps); [|done]. by destruct Hb as [?%elem_of_nil _].
  - exists default_ea, None. step E. split; [done|]. by rewrite Hb.
Qed.

Lemma local_hw_addr_perm default_ea ps1 ps2 ea1 ea2 :
  ps1 ≡ₚ ps2 → local_hw_addr default_ea ea1 ps1 → local_hw_addr default_ea ea2 ps2 → ea1 = ea2.
Proof.
  intros Hp. unfold local_hw_addr. assert (omap offer ps1 ≡ₚ omap offer ps2) as Ho by by rewrite Hp.
  destruct (omap offer ps1) as [|a l1] eqn:E1.
  - apply Permutation_nil in Ho. rewrite Ho. congruence.
  - destruct (omap offer ps2) as [|b l2] eqn:E2; [by apply symmetry, Permutation_nil in Ho|].
    intros [Hin Hmin] H2. apply (is_min_unique ea1 ea2 (b :: l2)); [|done].
    split; [by rewrite <-Ho|]. intros x Hx. apply Hmin. by rewrite Ho.
Qed.

(** [find_local_hw_addr] agrees with its specification: it returns, when
    every port has an interface, the smallest usable address that the ports
    offer, and the default address when they offer none, whatever the order of
    the ports in the hash map. *)
Theorem find_local_hw_addr_smallest {S} default_ea ps (s : S) :
  Forall port_ok ps →
  ∃ ea i, find_local_hw_addr default_ea None ps s = Ok ((ea, i), s) ∧ local_hw_addr default_ea ea ps ∧
    ∀ ps', ps ≡ₚ ps' → ∃ i', find_local_hw_addr default_ea None ps' s = Ok ((ea, i'), s).
Proof.
  intros Hps. destruct (find_local_hw_addr_run default_ea ps s Hps) as (ea & i & E & Hl).
  exists ea, i. split; [done|]. split; [done|]. intros ps' Hp.
  destruct (find_local_hw_addr_run default_ea ps' s) as (ea' & i' & E' & Hl'); [by rewrite <-Hp|].
  exists i'. by rewrite (local_hw_addr_perm default_ea ps ps' ea ea' Hp Hl Hl').
Qed.

(** The address a configuration asks for. *)
Definition requested_addr (other_config : smap) : option eth_addr :=
  ea ← other_config !! "hwaddr" ≫= eth_addr_from_string;
  if eth_addr_is_multicast ea || eth_addr_is_zero ea then None else Some ea.

Lemma bridge_pick_local_hw_addr_run {S} other_config default_ea ps (s : S) :
  Forall port_ok ps →
  ∃ ea i, bridge_pick_local_hw_addr other_config default_ea ps s = Ok ((ea, i), s) ∧
    match requested_addr other_config with Some ea0 => ea = ea0 | None => local_hw_addr default_ea ea ps end.
Proof.
  intros Hps. unfold bridge_pick_local_hw_addr, requested_addr.
  destruct (other_config !! "hwaddr" ≫= eth_addr_from_string) as [ea|]; simpl; [|by apply find_local_hw_addr_run].
  destruct (_ || _); [by apply find_local_hw_addr_run|]. by exists ea, None.
Qed.

(** the address and the datapath identifier of a bridge are stable.  They
    are the configured ones if these are valid, otherwise the address is the
    smallest usable one of the ports (or the default) and the identifier is that
    address; the order of the ports does not matter, the switch is told only
    when the identifier changed, and the row always gets its 16 digits. *)
Theorem bridge_configure_datapath_id_stable other_config default_ea ps has_local dpid_now l :
  Forall port_ok ps →
  ∃ ea, let dpid := default (eth_addr_to_uint64 ea) (other_config !! "datapath-id" ≫= dpid_from_string) in
    match requested_addr other_config with Some ea0 => ea = ea0 | None => local_hw_addr default_ea ea ps end ∧
    ∀ ps', ps ≡ₚ ps' →
      bridge_configure_datapath_id other_config default_ea ps' has_local dpid_now l =
      Ok (ea, l ++ (if has_local : bool then [SetEtheraddr ea] else []) ++
                   (if dpid =? dpid_now then [] else [SetDatapathId dpid]) ++ [WriteDatapathId (hex_text 16 dpid)]).
Proof.
  intros Hps. destruct (bridge_pick_local_hw_addr_run other_config default_ea ps l Hps) as (ea & i & E & Hl).
  exists ea. split; [done|]. intros ps' Hp.
  destruct (bridge_pick_local_hw_addr_run other_config default_ea ps' l) as (ea' & i' & E' & Hl'); [by rewrite <-Hp|].
  assert (ea' = ea) as ->.
  { destruct (requested_addr other_config); [congruence|]. by apply (local_hw_addr_perm default_ea ps' ps). }
  unfold bridge_configure_datapath_id. step E'. unfold bridge_pick_datapath_id.
  destruct has_local, (other_config !! "datapath-id" ≫= dpid_from_string); simpl; unfold mwhen; simpl;
    destruct (_ =? dpid_now); simpl; unfold modify, mret, M_ret; simpl;
    repeat (step; cbv beta); rewrite <-?app_assoc; done.
Qed.
End DatapathId.

(** ** An example *)

Module DatapathExample.
(** Addresses are numbers; 0 is the zero address and those from 100 on are local. *)
#[local] Instance eth : EthLib := {|
  eth_addr := Z;
  eth_addr_from_string s := if bool_decide (s = "ten") then Some 10 else None;
  eth_addr_is_multicast _ := false;
  eth_addr_is_local a := 100 <=? a;
  eth_addr_is_reserved _ := false;
  eth_addr_is_zero a := a =? 0;
  eth_addr_compare_3way a b := a - b;
  eth_compare_eq a b := Z.sub_move_0_r a b;
  eth_compare_sym a b H := proj2 (Z.lt_0_sub a b) (proj1 (Z.lt_sub_0 a b) H);
  eth_compare_sym' a b H := proj2 (Z.lt_sub_0 b a) (proj1 (Z.lt_0_sub b a) H);
  eth_compare_trans a b c H1 H2 :=
    proj2 (Z.lt_sub_0 a c) (Z.lt_trans a b c (proj1 (Z.lt_sub_0 a b) H1) (proj1 (Z.lt_sub_0 b c) H2));
  eth_addr_to_uint64 a := a;
  dpid_from_string _ := None;
  OFPP_LOCAL := 65534;
|}.

Definition if_of (name : string) (a : Z) : hw_iface := HwIface name 1 (Some a).
Definition p1 : hw_port := HwPort None None [if_of "eth2" 5; if_of "eth1" 20].
Definition p2 : hw_port := HwPort (Some "ten") None [].
Definition p3 : hw_port := HwPort None None [if_of "veth" 100].

Lemma all_ok : Forall port_ok [p1; p2; p3].
Proof. repeat apply Forall_cons_2; [by left|right; by eexists|by left|constructor]. Qed.

Definition system_addr : eth_addr := 7.
Definition ten : eth_addr := 10.

Lemma find_local_hw_addr_smallest_witness :
  ∃ ea i, find_local_hw_addr system_addr None [p1; p2; p3] tt = Ok ((ea, i), tt) ∧ local_hw_addr system_addr ea [p1; p2; p3] ∧
    ∀ ps', [p1; p2; p3] ≡ₚ ps' → ∃ i', find_local_hw_addr system_addr None ps' tt = Ok ((ea, i'), tt).
Proof. apply (find_local_hw_addr_smallest system_addr [p1; p2; p3] tt all_ok). Defined.

Lemma bridge_configure_datapath_id_stable_witness :
  ∃ ea, local_hw_addr system_addr ea [p1; p2; p3] ∧
    ∀ ps', [p1; p2; p3] ≡ₚ ps' →
      bridge_configure_datapath_id ∅ system_addr ps' true 10 [] =
      Ok (ea, [SetEtheraddr ea] ++ (if ea =? 10 then [] else [SetDatapathId ea]) ++ [WriteDatapathId (hex_text 16 ea)]).
Proof.
  destruct (bridge_configure_datapath_id_stable ∅ system_addr [p1; p2; p3] true 10 [] all_ok) as (ea & Hl & H).
  exists ea. split; [exact Hl|exact H].
Defined.

Example smallest_is_ten :
  bridge_configure_datapath_id ∅ system_addr [p1; p2; p3] true 3 [] =
  Ok (ten, [SetEtheraddr ten; SetDatapathId 10; WriteDatapathId "000000000000000a"]).
Proof. vm_compute. reflexivity. Qed.
End DatapathExample.

Section SharedId.
Context `{HE : EthLib}.

(** All bridges without usable addresses of their own get the address of the
    system, and with it the same datapath identifier. *)
Theorem internal_bridges_share_datapath_id other_config1 other_config2 default_ea l1 l2 :
  other_config1 !! "hwaddr" = None → other_config2 !! "hwaddr" = None →
  other_config1 !! "datapath-id" = None → other_config2 !! "datapath-id" = None →
  let text := WriteDatapathId (hex_text 16 (eth_addr_to_uint64 default_ea)) in
  bridge_configure_datapath_id other_config1 default_ea [] false (eth_addr_to_uint64 default_ea) l1 =
    Ok (default_ea, l1 ++ [text]) ∧
  bridge_configure_datapath_id other_config2 default_ea [] false (eth_addr_to_uint64 default_ea) l2 =
    Ok (default_ea, l2 ++ [text]).
Proof.
  intros H1 H2 D1 D2. unfold bridge_configure_datapath_id, bridge_pick_local_hw_addr, bridge_pick_datapath_id.
  rewrite H1, H2. split; step; rewrite ?D1, ?D2; simpl; rewrite Z.eqb_refl; by repeat step.
Qed.
End SharedId.
