(* ===== verification/Status.v ===== *)
(** * Status of interfaces: [run_status_update] of bridge.c

    The status columns of the interfaces that the subsystems do not handle.  The
    daemon writes them in a transaction that may still be in progress when it is
    next asked, and may fail. *)

From S2P Require Import Prelude OvsLib MacLearning.
Local Open Scope Z_scope.

(** ** Interfaces and columns *)

(** What the functions of a network device answer; an error is [None].
    [na_features]: the speed in bits per second and whether it is full duplex. *)
Record netdev_status := NetdevStatus {
  na_change_seq : Z;
  na_status : option smap;
  na_up : option bool;
  na_carrier : bool;
  na_carrier_resets : Z;
  na_features : option (Z * bool);
  na_mtu : option Z;
  na_etheraddr : option eth_addr;
}.

Record st_iface := StIface {
  si_name : string;
  si_type : option string;
  si_synthetic : bool;
  si_change_seq : Z;
}.

(** The columns of an Interface row. *)
Record status_columns := StatusColumns {
  sc_status : option smap;
  sc_admin_state : option string;
  sc_link_state : string;
  sc_link_resets : Z;
  sc_duplex : option string;
  sc_link_speed : option Z;
  sc_mtu : option Z;
  sc_mac_in_use : option string;
}.

(** Writes of a transaction, and the rows they go to: columns of interfaces, and
    the datapath versions of bridges. *)
Record rows := Rows {
  interfaces : gmap string status_columns;
  versions : gmap string string;
}.

Class StatusSchema := {
  OVSREC_INTERFACE_TYPE_SYSTEM : string;
  OVSREC_INTERFACE_TYPE_LOOPBACK : string;
  OVSREC_INTERFACE_TYPE_INTERNAL : string;
}.

(** [st_ifaces]: the interfaces of all bridges and VRFs; [st_bridges]: the names
    of the bridges and what their switches answer for a version. *)
Record ststate := StState {
  st_ifaces : list st_iface;
  st_bridges : list (string * option string);
  connectivity_seqno : Z;
  status_txn_try_again : bool;
  status_txn : option rows;
  database : rows;
}.

Definition set_st_ifaces (l : list st_iface) (s : ststate) : ststate :=
  StState l (st_bridges s) (connectivity_seqno s) (status_txn_try_again s) (status_txn s) (database s).
Definition set_txn (t : option rows) (s : ststate) : ststate :=
  StState (st_ifaces s) (st_bridges s) (connectivity_seqno s) (status_txn_try_again s) t (database s).
Definition set_connectivity_seqno (c : Z) (s : ststate) : ststate :=
  StState (st_ifaces s) (st_bridges s) c (status_txn_try_again s) (status_txn s) (database s).
Definition set_try_again (b : bool) (s : ststate) : ststate :=
  StState (st_ifaces s) (st_bridges s) (connectivity_seqno s) b (status_txn s) (database s).
Definition set_database (d : rows) (s : ststate) : ststate :=
  StState (st_ifaces s) (st_bridges s) (connectivity_seqno s) (status_txn_try_again s) (status_txn s) d.

(** The rows after the writes [w]. *)
Definition written (w d : rows) : rows := Rows (interfaces w ∪ interfaces d) (versions w ∪ versions d).

(** A write of the transaction in progress. *)
Definition put_columns (n : string) (c : status_columns) (s : ststate) : ststate :=
  set_txn ((λ w, Rows (<[n := c]> (interfaces w)) (versions w)) <$> status_txn s) s.
Definition put_version (n v : string) (s : ststate) : ststate :=
  set_txn ((λ w, Rows (interfaces w) (<[n := v]> (versions w))) <$> status_txn s) s.

Section Status.
Context `{HS : StatusSchema}.
(** The devices, and for every bridge its VLANs with their operational states. *)
Context (devices : string → netdev_status) (bridge_vlans : list (list (Z * option string))).

(** ** Refreshing *)

(** [vlan_lookup_by_vid] in each bridge. *)
Definition is_vlan_up (vid : string) : bool :=
  existsb (λ vlans, match List.find (λ v, v.1 =? atoi vid) vlans with
                    | Some (_, Some state) => bool_decide (state = "up")
                    | _ => false
                    end) bridge_vlans.

(** Interfaces that subsystem.c updates, and synthetic ones. *)
Definition status_skipped (i : st_iface) : bool :=
  si_synthetic i ||
  match si_type i with
  | None => true
  | Some t => bool_decide (t = OVSREC_INTERFACE_TYPE_SYSTEM) || bool_decide (t = OVSREC_INTERFACE_TYPE_LOOPBACK)
  end.

Definition is_internal (i : st_iface) : bool := bool_decide (si_type i = Some OVSREC_INTERFACE_TYPE_INTERNAL).

(** [iface->name + strlen("vlan")] *)
Definition after_vlan (name : string) : string := String.substring 4 (String.length name - 4) name.

Definition columns_of (i : st_iface) : status_columns :=
  let a := devices (si_name i) in
  let vlan_state := if is_internal i then is_vlan_up (after_vlan (si_name i)) else true in
  let bps := match na_features a with Some (bps, _) => bps | None => 0 end in
  StatusColumns (na_status a)
    ((λ up : bool, if up then "up" else "down") <$> na_up a)
    (if na_carrier a && vlan_state then "up" else "down")
    (na_carrier_resets a)
    (if bps =? 0 then None else (λ f : Z * bool, if f.2 then "full" else "half") <$> na_features a)
    (if bps =? 0 then None else Some bps)
    (na_mtu a)
    (eth_addr_str <$> na_etheraddr a).

(** The structure is returned with the change number seen; the name of an
    internal interface is read from its fifth character on. *)
Definition iface_refresh_netdev_status (i : st_iface) : M ststate st_iface :=
  if status_skipped i then mret i else
  again ← gets status_txn_try_again;
  let seq := na_change_seq (devices (si_name i)) in
  if (si_change_seq i =? seq) && negb again then mret i else
  if is_internal i && (String.length (si_name i) <? 4)%nat then die BufferOverflow else
  modify (put_columns (si_name i) (columns_of i)) ;;
  mret (StIface (si_name i) (si_type i) (si_synthetic i) seq).

Definition br_refresh_datapath_info (b : string * option string) : M ststate unit :=
  modify (put_version b.1 (default "<unknown>" b.2)).

Fixpoint refresh_all (l : list st_iface) : M ststate (list st_iface) :=
  match l with
  | [] => mret []
  | i :: l => i' ← iface_refresh_netdev_status i; l' ← refresh_all l; mret (i' :: l')
  end.

(** ** The update *)

(** [seq]: the connectivity sequence number. *)
Definition start_status_update (seq : Z) : M ststate unit :=
  s ← get;
  if bool_decide (is_Some (status_txn s)) then mret tt
  else if negb (seq =? connectivity_seqno s) || status_txn_try_again s then
    modify (set_connectivity_seqno seq) ;;
    modify (set_txn (Some (Rows ∅ ∅))) ;;
    mfor (st_bridges s) br_refresh_datapath_info ;;
    l ← refresh_all (st_ifaces s);
    modify (set_st_ifaces l)
  else mret tt.

(** [status]: what the commit returns. *)
Definition commit_status_update (status : txn_status) : M ststate unit :=
  s ← get;
  match status_txn s with
  | None => mret tt
  | Some w =>
    if bool_decide (status = TXN_INCOMPLETE) then mret tt else
    modify (set_txn None) ;;
    if txn_succeeded status
    then modify (set_database (written w (database s))) ;; modify (set_try_again false)
    else modify (set_try_again true)
  end.

Definition run_status_update (seq : Z) (status : txn_status) : M ststate unit :=
  start_status_update seq ;; commit_status_update status.
End Status.
