(* ===== verification/StatusFacts.v ===== *)
(** * Theorems on the status of interfaces

    A run refreshes the interfaces whose device changed; the database is up to
    date whenever nothing is pending, and two successful transactions make it
    so. *)

From S2P Require Import Prelude OvsLib MacLearning Status.
From stdpp Require Import functions list.
Local Open Scope Z_scope.

Section StatusFacts.
Context `{HS : StatusSchema}.

(** ** The daemon and its devices *)

(** [conn] is the connectivity sequence number, [vlans] the VLANs of the bridges. *)
Record system := System {
  daemon : ststate;
  devs : string → netdev_status;
  conn : Z;
  vlans : list (list (Z * option string));
}.

(** What happens to it.
    - A device changes: its change number grows and so does the connectivity
      sequence number.
    - The daemon runs, and its transaction ends with [status].
    - The daemon reconfigures: its interfaces change, and the rows of the
      database are whatever is there after the transaction of the
      reconfiguration, which may have failed.  In a [strict] history no status
      transaction is in progress then. *)
Inductive step (strict : bool) (y : system) : system → Prop :=
| DeviceChanges n d :
    na_change_seq (devs y n) < na_change_seq d →
    step strict y (System (daemon y) (<[n := d]> (devs y)) (conn y + 1) (vlans y))
| Runs status u s' :
    run_status_update (devs y) (vlans y) (conn y) status (daemon y) = Ok (u, s') →
    step strict y (System s' (devs y) (conn y) (vlans y))
| Reconfigures l brs db vls :
    (strict = true → status_txn (daemon y) = None) →
    NoDup (si_name <$> l) →
    (∀ i, i ∈ l → si_change_seq i ≤ na_change_seq (devs y (si_name i))) →
    step strict y (System (StState l brs (connectivity_seqno (daemon y)) true (status_txn (daemon y)) db)
                     (devs y) (conn y) vls).

Inductive reachable (strict : bool) : system → Prop :=
| Starts dv c vls db : 0 < c → reachable strict (System (StState [] [] 0 false None db) dv c vls)
| Continues y y' : reachable strict y → step strict y y' → reachable strict y'.

(** No status transaction is in progress or has to be repeated, and no device
    changed since the last one. *)
Definition quiet (y : system) : Prop :=
  status_txn (daemon y) = None ∧ status_txn_try_again (daemon y) = false ∧
  connectivity_seqno (daemon y) = conn y.

(** The row of every interface that is not left to others has the columns of its
    device. *)
Definition up_to_date (y : system) : Prop :=
  ∀ i, i ∈ st_ifaces (daemon y) → status_skipped i = false →
  interfaces (database (daemon y)) !! si_name i = Some (columns_of (devs y) (vlans y) i).

Definition names_ok (y : system) : Prop :=
  ∀ i, i ∈ st_ifaces (daemon y) → status_skipped i = false → is_internal i = true → (4 ≤ String.length (si_name i))%nat.

(** ** One run *)

Section Run.
Context (devices : string → netdev_status) (bridge_vlans : list (list (Z * option string))).

Definition seq_of (i : st_iface) : Z := na_change_seq (devices (si_name i)).
Definition needs (again : bool) (i : st_iface) : bool :=
  negb (status_skipped i) && (again || negb (si_change_seq i =? seq_of i)).
Definition refreshed (again : bool) (i : st_iface) : st_iface :=
  if needs again i then StIface (si_name i) (si_type i) (si_synthetic i) (seq_of i) else i.
Definition put1 (again : bool) (i : st_iface) (w : rows) : rows :=
  if needs again i then Rows (<[si_name i := columns_of devices bridge_vlans i]> (interfaces w)) (versions w) else w.
Definition short (i : st_iface) : bool := negb (status_skipped i) && (is_internal i && (String.length (si_name i) <? 4)%nat).

Fixpoint puts (again : bool) (l : list st_iface) (w : rows) : rows :=
  match l with [] => w | i :: l => puts again l (put1 again i w) end.

Lemma refreshed_name again i : si_name (refreshed again i) = si_name i.
Proof. unfold refreshed. by destruct (needs again i). Qed.

Lemma refreshed_skipped again i : status_skipped (refreshed again i) = status_skipped i.
Proof. unfold refreshed. by destruct (needs again i). Qed.

Lemma refreshed_columns again i :
  columns_of devices bridge_vlans (refreshed again i) = columns_of devices bridge_vlans i.
Proof. unfold refreshed. by destruct (needs again i). Qed.

Lemma refreshed_seq again i :
  status_skipped i = false → si_change_seq (refreshed again i) = seq_of i.
Proof.
  unfold refreshed, needs. intros ->. simpl.
  destruct again; simpl; [done|]. by destruct (Z.eqb_spec (si_change_seq i) (seq_of i)).
Qed.

Lemma refreshed_seq_le again i : si_change_seq i ≤ seq_of i → si_change_seq (refreshed again i) ≤ seq_of i.
Proof. unfold refreshed. destruct (needs again i); simpl; lia. Qed.

Lemma iface_refresh_run i s w :
  status_txn s = Some w →
  iface_refresh_netdev_status devices bridge_vlans i s =
  if needs (status_txn_try_again s) i && short i then Fault BufferOverflow
  else Ok (refreshed (status_txn_try_again s) i, set_txn (Some (put1 (status_txn_try_again s) i w)) s).
Proof.
  intros Ew. destruct s as [l b c again txn db]; simpl in Ew; subst txn.
  unfold iface_refresh_netdev_status, refreshed, put1, needs, short.
  destruct (status_skipped i); simpl; [done|]. unfold seq_of.
  destruct (_ =? na_change_seq _), again; simpl; try done;
    by destruct (is_internal i && _).
Qed.

Lemma refresh_all_run l s w a s' :
  status_txn s = Some w → refresh_all devices bridge_vlans l s = Ok (a, s') →
  let again := status_txn_try_again s in
  a = refreshed again <$> l ∧ s' = set_txn (Some (puts again l w)) s.
Proof.
  revert s w a s'. induction l as [|i l IH]; intros s w a s' Ew E; simpl in *.
  { injection E as <- <-. destruct s; simpl in *. by subst. }
  apply bind_Ok in E as (i' & s1 & Ei & (l' & s2 & El & [= <- <-])%bind_Ok).
  rewrite (iface_refresh_run i s w Ew) in Ei.
  destruct (needs _ _ && short i); [done|]. injection Ei as <- <-.
  eapply IH in El as [-> ->]; [|done]. by destruct s.
Qed.

Lemma refresh_all_ok l s w :
  status_txn s = Some w → (∀ i, i ∈ l → short i = false) →
  ∃ r, refresh_all devices bridge_vlans l s = Ok r.
Proof.
  revert s w. induction l as [|i l IH]; intros s w Ew Hl; simpl; [by eexists|].
  unfold mbind, M_bind. rewrite (iface_refresh_run i s w Ew), (Hl i), andb_false_r by set_solver.
  edestruct IH as ([r s'] & ->); [done|set_solver|]. by eexists.
Qed.

Lemma puts_other again l w n : n ∉ si_name <$> l → interfaces (puts again l w) !! n = interfaces w !! n.
Proof.
  revert w. induction l as [|i l IH]; intros w Hn; simpl; [done|].
  rewrite IH by set_solver. unfold put1. destruct (needs again i); simpl; [|done].
  apply lookup_insert_ne. set_solver.
Qed.

Lemma puts_lookup again l w i :
  NoDup (si_name <$> l) → i ∈ l →
  interfaces (puts again l w) !! si_name i =
  if needs again i then Some (columns_of devices bridge_vlans i) else interfaces w !! si_name i.
Proof.
  revert w. induction l as [|j l IH]; intros w Hnd Hi; [by apply not_elem_of_nil in Hi|].
  apply NoDup_cons in Hnd as [Hj Hnd]. simpl.
  apply elem_of_cons in Hi as [->|Hi].
  - rewrite puts_other by done. unfold put1. destruct (needs again j); simpl; [|done].
    apply lookup_insert_eq.
  - rewrite IH by done. destruct (needs again i); [done|]. unfold put1.
    destruct (needs again j); simpl; [|done]. apply lookup_insert_ne.
    intros Hji. apply Hj. rewrite Hji. by apply list_elem_of_fmap_2.
Qed.

(** The state in which the interfaces are refreshed. *)
Definition refresh_state (seq : Z) (s : ststate) : ststate :=
  set_txn (Some (Rows ∅ (foldl (λ m b, <[b.1 := default "<unknown>" b.2]> m) ∅ (st_bridges s))))
    (set_connectivity_seqno seq s).

Lemma br_refresh_run bs s w :
  status_txn s = Some w →
  mfor bs br_refresh_datapath_info s =
  Ok (tt, set_txn (Some (Rows (interfaces w)
            (foldl (λ m b, <[b.1 := default "<unknown>" b.2]> m) (versions w) bs))) s).
Proof.
  revert s w. induction bs as [|b bs IH]; intros s w Ew.
  { destruct s, w; simpl in *. by subst. }
  simpl. erewrite bind_run by reflexivity. erewrite IH; [|destruct s; simpl in *; by subst]. by destruct s.
Qed.

(** What starting an update does: nothing, or a new transaction. *)
Definition starts (seq : Z) (s : ststate) : bool :=
  bool_decide (status_txn s = None) && (negb (seq =? connectivity_seqno s) || status_txn_try_again s).

Lemma start_status_update_run seq s :
  start_status_update devices bridge_vlans seq s =
  if starts seq s
  then (l ← refresh_all devices bridge_vlans (st_ifaces s); modify (set_st_ifaces l)) (refresh_state seq s)
  else Ok (tt, s).
Proof.
  unfold start_status_update, starts. step.
  destruct s as [l b c again [w|] db]; simpl; [done|].
  destruct (negb (seq =? c) || again); simpl; [|done].
  do 2 step. by step (br_refresh_run _ _ (Rows ∅ ∅)).
Qed.

Lemma start_status_update_ok seq s u s' :
  start_status_update devices bridge_vlans seq s = Ok (u, s') →
  s' = if starts seq s
       then let again := status_txn_try_again s in
            StState (refreshed again <$> st_ifaces s) (st_bridges s) seq again
              (puts again (st_ifaces s) <$> status_txn (refresh_state seq s)) (database s)
       else s.
Proof.
  rewrite start_status_update_run. destruct (starts seq s).
  - intros (l & s1 & E & E')%bind_Ok. pose proof (λ w Hw, refresh_all_run _ _ w _ _ Hw E) as H. destruct (H _ (eq_refl _)) as [-> ->]. clear H E.
    injection E' as _ <-. by destruct s.
  - by intros [= _ <-].
Qed.
End Run.

(** ** The invariant *)

(** The columns of the interfaces after the writes in progress. *)
Definition pending (s : ststate) : gmap string status_columns :=
  from_option interfaces ∅ (status_txn s) ∪ interfaces (database s).

(** Failed writes are not waiting to be repeated. *)
Definition settled (s : ststate) : Prop := is_Some (status_txn s) ∨ status_txn_try_again s = false.

Record coherent (dv : string → netdev_status) (vls : list (list (Z * option string))) (c : Z)
    (s : ststate) : Prop := {
  co_names : NoDup (si_name <$> st_ifaces s);
  co_seen : ∀ i, i ∈ st_ifaces s → si_change_seq i ≤ seq_of dv i;
  co_seqno : connectivity_seqno s ≤ c;
  co_pending : settled s → ∀ i, i ∈ st_ifaces s → status_skipped i = false →
    si_change_seq i = seq_of dv i → pending s !! si_name i = Some (columns_of dv vls i);
  co_conn : settled s → connectivity_seqno s = c → ∀ i, i ∈ st_ifaces s →
    status_skipped i = false → si_change_seq i = seq_of dv i;
}.

Definition coherent_system (y : system) : Prop := coherent (devs y) (vlans y) (conn y) (daemon y).

Lemma coherent_device dv vls c s n d :
  na_change_seq (dv n) < na_change_seq d → coherent dv vls c s →
  coherent (<[n := d]> dv) vls (c + 1) s.
Proof.
  intros Hd [Hnd Hseen Hc Hp Hconn].
  assert (∀ i, si_name i ≠ n → <[n := d]> dv (si_name i) = dv (si_name i)) as Hne.
  { intros i Hi. by apply fn_lookup_insert_ne. }
  split; [done| |lia| |lia].
  - intros i Hi. specialize (Hseen i Hi). unfold seq_of in *.
    destruct (decide (si_name i = n)) as [<-|Hn]; [rewrite fn_lookup_insert; lia|by rewrite Hne].
  - intros Hs i Hi Hk E. specialize (Hseen i Hi). unfold seq_of in *.
    destruct (decide (si_name i = n)) as [<-|Hn]; [rewrite fn_lookup_insert in E; lia|].
    rewrite Hne in E by done. rewrite (Hp Hs i Hi Hk E). unfold columns_of. by rewrite Hne.
Qed.

Lemma needs_false dv again i :
  status_skipped i = false → needs dv again i = false → again = false ∧ si_change_seq i = seq_of dv i.
Proof.
  unfold needs. intros ->. simpl. destruct again; simpl; [done|].
  by destruct (Z.eqb_spec (si_change_seq i) (seq_of dv i)).
Qed.

(** A refresh of all interfaces writes, or finds in the database, the columns of
    each of them. *)
Lemma pending_refreshed dv vls c s w i :
  coherent dv vls c s → status_txn s = None → interfaces w = ∅ → i ∈ st_ifaces s → status_skipped i = false →
  (interfaces (puts dv vls (status_txn_try_again s) (st_ifaces s) w) ∪ interfaces (database s)) !! si_name i =
  Some (columns_of dv vls i).
Proof.
  intros [Hnd _ _ Hp _] Et Ew Hi Hk. rewrite lookup_union, puts_lookup, Ew by done.
  destruct (needs dv _ i) eqn:En; [by destruct (interfaces (database s) !! si_name i)|].
  apply needs_false in En as [Ea Es]; [|done].
  specialize (Hp (or_intror Ea) i Hi Hk Es). unfold pending in Hp. rewrite Et in Hp. simpl in Hp.
  by rewrite lookup_union in Hp.
Qed.

Lemma coherent_start dv vls c s u s' :
  coherent dv vls c s → start_status_update dv vls c s = Ok (u, s') →
  coherent dv vls c s' ∧
  (is_Some (status_txn s') ∨ status_txn_try_again s' = false ∧ connectivity_seqno s' = c).
Proof.
  intros H ->%start_status_update_ok. destruct (starts c s) eqn:Est.
  - unfold starts in Est. apply andb_prop in Est as [Et%bool_decide_eq_true _].
    split; [|left; by eexists]. split; unfold settled, pending; simpl.
    + rewrite <-list_fmap_compose. erewrite list_fmap_ext; [apply H|]. intros. apply refreshed_name.
    + intros i (j & -> & Hj)%list_elem_of_fmap. unfold seq_of. rewrite refreshed_name.
      by apply refreshed_seq_le, H.
    + lia.
    + intros _ i (j & -> & Hj)%list_elem_of_fmap. rewrite refreshed_skipped, refreshed_name, refreshed_columns.
      intros Hk _. by eapply pending_refreshed.
    + intros _ _ i (j & -> & Hj)%list_elem_of_fmap. rewrite refreshed_skipped.
      intros Hk. unfold seq_of. rewrite refreshed_name. by apply refreshed_seq.
  - split; [done|]. unfold starts in Est. destruct (status_txn s); [left; by eexists|right].
    simpl in Est. destruct (Z.eqb_spec c (connectivity_seqno s)), (status_txn_try_again s); done.
Qed.

Lemma commit_run status s u s' :
  commit_status_update status s = Ok (u, s') →
  s' = match status_txn s with
       | None => s
       | Some w =>
         if bool_decide (status = TXN_INCOMPLETE) then s
         else let ok := txn_succeeded status in
              StState (st_ifaces s) (st_bridges s) (connectivity_seqno s) (negb ok) None
                (if ok then written w (database s) else database s)
       end.
Proof.
  destruct s as [l b c again [w|] db]; [|by intros [= _ <-]].
  destruct status; by intros [= _ <-].
Qed.

Lemma coherent_commit dv vls c status s u s' :
  coherent dv vls c s → commit_status_update status s = Ok (u, s') → coherent dv vls c s'.
Proof.
  intros H ->%commit_run. destruct (status_txn s) as [w|] eqn:Et; [|done].
  destruct (bool_decide _); [done|]. destruct H as [Hnd Hseen Hc Hp Hconn].
  specialize (Hp (or_introl (mk_is_Some _ _ Et))). specialize (Hconn (or_introl (mk_is_Some _ _ Et))).
  split; try done; simpl.
  - intros [[]|Hok]; [done|]. simpl in *. apply negb_false_iff in Hok. rewrite Hok.
    unfold pending in *. rewrite Et in Hp. simpl in *. by rewrite (left_id_L ∅ (∪)).
Qed.

Lemma coherent_run dv vls c status s u s' :
  coherent dv vls c s → run_status_update dv vls c status s = Ok (u, s') → coherent dv vls c s'.
Proof.
  intros H ([] & s1 & E1 & E2)%bind_Ok. eapply coherent_commit; [|done].
  by eapply coherent_start.
Qed.

Lemma coherent_step y y' : coherent_system y → step true y y' → coherent_system y'.
Proof.
  intros H [n d Hd|status u s' E|l brs db vls Ht Hnd Hl]; unfold coherent_system in *; simpl.
  - by apply coherent_device.
  - by eapply coherent_run.
  - split; simpl; [done|done|apply H| |].
    all: intros [[w Hw]|[=]]; simpl in *; rewrite Ht in Hw; done.
Qed.

Lemma reachable_coherent y : reachable true y → coherent_system y.
Proof.
  induction 1 as [dv c vls db|y y' _ IH Hs]; [|by eapply coherent_step].
  split; simpl; [apply NoDup_nil_2| |lia| |]; by intros; set_solver.
Qed.

(** ** The theorems *)

Lemma quiet_up_to_date y : coherent_system y → quiet y → up_to_date y.
Proof.
  intros [_ _ _ Hp Hconn] (Et & Ea & Ec) i Hi Hk.
  specialize (Hp (or_intror Ea) i Hi Hk (Hconn (or_intror Ea) Ec i Hi Hk)).
  unfold pending in Hp. rewrite Et in Hp. simpl in Hp. by rewrite (left_id_L ∅ (∪)) in Hp.
Qed.

Lemma start_update_returns dv vls c s :
  (∀ i, i ∈ st_ifaces s → short i = false) → ∃ s', start_status_update dv vls c s = Ok (tt, s').
Proof.
  intros Hs. rewrite start_status_update_run. destruct (starts c s); [|by eexists].
  destruct (refresh_all_ok dv vls (st_ifaces s) (refresh_state c s) _ eq_refl Hs) as [[l s'] E].
  erewrite bind_run by done. by eexists.
Qed.

Lemma start_ifaces dv vls c s u s' :
  start_status_update dv vls c s = Ok (u, s') →
  (∀ i, i ∈ st_ifaces s → short i = false) → ∀ i, i ∈ st_ifaces s' → short i = false.
Proof.
  intros ->%start_status_update_ok Hs. destruct (starts c s); [|done]. simpl.
  intros i (j & -> & Hj)%list_elem_of_fmap. rewrite <-(Hs j Hj).
  unfold short, refreshed. by destruct (needs dv _ j).
Qed.

(** A successful run leaves no transaction and nothing to repeat. *)
Lemma successful_run dv vls c s :
  coherent dv vls c s → (∀ i, i ∈ st_ifaces s → short i = false) →
  ∃ s', run_status_update dv vls c TXN_SUCCESS s = Ok (tt, s') ∧ coherent dv vls c s' ∧
    (∀ i, i ∈ st_ifaces s' → short i = false) ∧
    status_txn s' = None ∧ status_txn_try_again s' = false ∧
    (status_txn s = None → connectivity_seqno s' = c).
Proof.
  intros H Hs. destruct (start_update_returns dv vls c s Hs) as [s1 E1].
  pose proof (coherent_start _ _ _ _ _ _ H E1) as [H1 Hcase].
  pose proof (start_ifaces _ _ _ _ _ _ E1 Hs) as Hs1.
  destruct (commit_status_update TXN_SUCCESS s1) as [[[] s']|] eqn:E2;
    [|by destruct s1 as [? ? ? ? [] ?]].
  exists s'. split; [by unfold run_status_update; rewrite (bind_run _ _ _ _ _ E1)|].
  split; [by eapply coherent_commit|]. pose proof E2 as ->%commit_run.
  apply start_status_update_ok in E1. unfold starts in E1.
  destruct (status_txn s1) as [w|] eqn:Et; simpl.
  - split_and!; try done. intros Et0. subst s1. rewrite Et0 in *. simpl in *.
    destruct (negb (c =? connectivity_seqno s) || status_txn_try_again s); simpl in *; congruence.
  - destruct Hcase as [[? [=]]|[Ea Ec]]. by split_and!.
Qed.

Lemma names_short y : names_ok y → ∀ i, i ∈ st_ifaces (daemon y) → short i = false.
Proof.
  intros H i Hi. unfold short. destruct (status_skipped i) eqn:Ek; [done|]. destruct (is_internal i) eqn:E; simpl; [|done].
  apply Nat.ltb_ge. by apply H.
Qed.

(** whenever no status transaction is in progress or has to be repeated, and no
    device changed since the last one, the rows of all interfaces have the
    columns of their devices: in every history of device changes,
    reconfigurations and runs whose transactions fail, stay incomplete or
    succeed, as long as no reconfiguration falls into a status transaction. *)
Theorem quiet_means_up_to_date y : reachable true y → quiet y → up_to_date y.
Proof. intros Hr. by apply quiet_up_to_date, reachable_coherent. Qed.

(** from any such history, two runs whose transactions succeed bring the database
    up to date with the devices (the first may only finish an older
    transaction), and leave nothing to do. *)
Theorem two_runs_bring_up_to_date y :
  reachable true y → names_ok y →
  ∃ s1 s2,
    run_status_update (devs y) (vlans y) (conn y) TXN_SUCCESS (daemon y) = Ok (tt, s1) ∧
    run_status_update (devs y) (vlans y) (conn y) TXN_SUCCESS s1 = Ok (tt, s2) ∧
    quiet (System s2 (devs y) (conn y) (vlans y)) ∧ up_to_date (System s2 (devs y) (conn y) (vlans y)).
Proof.
  intros Hr%reachable_coherent Hn.
  destruct (successful_run _ _ _ _ Hr (names_short y Hn)) as (s1 & E1 & H1 & Hn1 & Et1 & _).
  destruct (successful_run _ _ _ _ H1 Hn1) as (s2 & E2 & H2 & _ & Et & Ea & Ec).
  assert (quiet (System s2 (devs y) (conn y) (vlans y))) as Hq by (split_and!; auto).
  exists s1, s2. split; [done|]. split; [done|]. split; [done|]. by apply quiet_up_to_date.
Qed.
End StatusFacts.

(** ** Instances *)

Module StatusExample.
#[local] Instance schema : StatusSchema := {|
  OVSREC_INTERFACE_TYPE_SYSTEM := "system";
  OVSREC_INTERFACE_TYPE_LOOPBACK := "loopback";
  OVSREC_INTERFACE_TYPE_INTERNAL := "internal";
|}.

Definition port_status (seq : Z) : netdev_status :=
  NetdevStatus seq (Some ∅) (Some true) true 0 (Some (10000000000, true)) (Some 1500) None.
Definition vlan10 : st_iface := StIface "vlan10" (Some "internal") false 0.

Definition before : system :=
  System (StState [vlan10] [("br0", None)] 0 true None (Rows ∅ ∅)) (λ _, port_status 1) 1 [[(10, Some "up")]].
Definition after : system :=
  System (StState [StIface "vlan10" (Some "internal") false 1] [("br0", None)] 1 false None
            (Rows {["vlan10" := columns_of (λ _, port_status 1) [[(10, Some "up")]] vlan10]}
                  {["br0" := "<unknown>"]})) (λ _, port_status 1) 1 [[(10, Some "up")]].

Lemma before_reachable strict : reachable strict before.
Proof.
  eapply Continues; [apply (Starts strict (λ _, port_status 1) 1 [] (Rows ∅ ∅)); done|].
  refine (Reconfigures strict (System (StState [] [] 0 false None (Rows ∅ ∅)) (λ _, port_status 1) 1 [])
           [vlan10] [("br0", None)] (Rows ∅ ∅) [[(10, Some "up")]] _ _ _); [done|repeat constructor; set_solver|].
  intros i ->%list_elem_of_singleton. done.
Qed.

Lemma after_reachable strict : reachable strict after.
Proof.
  eapply Continues; [apply before_reachable|].
  eapply (Runs strict before TXN_SUCCESS). vm_compute. reflexivity.
Qed.

Lemma quiet_means_up_to_date_witness :
  reachable true after ∧ quiet after ∧ up_to_date after.
Proof.
  assert (quiet after) as Hq by by_compute.
  split; [apply after_reachable|]. split; [exact Hq|].
  apply quiet_means_up_to_date; [apply after_reachable|exact Hq].
Defined.

Lemma two_runs_bring_up_to_date_witness :
  reachable true before ∧
  ∃ s2, quiet (System s2 (devs before) (conn before) (vlans before)) ∧
        up_to_date (System s2 (devs before) (conn before) (vlans before)).
Proof.
  split; [apply before_reachable|].
  destruct (two_runs_bring_up_to_date before) as (s1 & s2 & _ & _ & H1 & H2).
  - apply before_reachable.
  - intros i Hi _. apply list_elem_of_singleton in Hi as ->. simpl. lia.
  - exists s2. split; [exact H1|exact H2].
Defined.

(** A reconfiguration in the middle of a status transaction: its own transaction
    fails, the status transaction succeeds and clears the request to write
    again.  Nothing is in progress, no device changed, and the row of the new
    interface stays empty. *)
Lemma lost_reconfiguration_not_rewritten :
  ∃ y, reachable false y ∧ quiet y ∧ ¬ up_to_date y.
Proof.
  set (dv := (λ _, port_status 1) : string → netdev_status).
  set (vls := [[(10, Some "up")]] : list (list (Z * option string))).
  pose (y0 := System (StState [] [] 0 false None (Rows ∅ ∅)) dv 1 vls).
  pose (y1 := System (StState [] [] 1 false (Some (Rows ∅ ∅)) (Rows ∅ ∅)) dv 1 vls).
  pose (j := StIface "vlan10" (Some "internal") false 1).
  pose (y2 := System (StState [j] [] 1 true (Some (Rows ∅ ∅)) (Rows ∅ ∅)) dv 1 vls).
  pose (y3 := System (StState [j] [] 1 false None (Rows ∅ ∅)) dv 1 vls).
  assert (reachable false y1) as H1.
  { eapply (Continues _ y0); [by constructor|].
    apply (Runs _ y0 TXN_INCOMPLETE tt). reflexivity. }
  assert (reachable false y2) as H2.
  { eapply Continues; [exact H1|].
    apply (Reconfigures _ y1 [j] []); [done|repeat constructor; set_solver|].
    intros i ->%list_elem_of_singleton. done. }
  exists y3. split_and!; [|by_compute|].
  - eapply Continues; [exact H2|]. apply (Runs _ y2 TXN_SUCCESS tt). reflexivity.
  - intros H. specialize (H j (list_elem_of_here _ _) eq_refl). vm_compute in H. done.
Qed.

(** The VLAN of an internal interface is read from the fifth character of its
    name, also when the name is shorter. *)
Lemma short_internal_name_overread :
  run_status_update (λ _, port_status 1) [] 1 TXN_SUCCESS
    (StState [StIface "v1" (Some "internal") false 0] [] 0 false None (Rows ∅ ∅)) = Fault BufferOverflow.
Proof. reflexivity. Qed.
End StatusExample.
