(* ===== verification/Stats.v ===== *)
(** * Statistics: [run_stats_update] of bridge.c

    Every [stats_timer_interval] milliseconds the daemon writes the statistics of
    interfaces and mirrors and the status of controllers in one transaction, and
    runs the callbacks that plugins registered in the statistics blocks. *)

From S2P Require Import Prelude OvsLib Blocks Mirror.
Import StatsBlocks.
Local Open Scope Z_scope.

(** ** Data *)

(** The members of [struct netdev_stats] after [netdev_get_stats]. *)
Definition netdev_stats := string → Z.

(** [sf_netdev]: null, or the statistics the device answers. *)
Record stats_iface := StatsIface {
  sf_name : string;
  sf_type : option string;
  sf_synthetic : bool;
  sf_netdev : option netdev_stats;
}.

Record stats_port := StatsPort { sp_name : string; sp_ifaces : list stats_iface }.

(** A bridge, or a VRF with the ports of its bridge part. *)
Record stats_bridge := StatsBridge {
  sb_name : string;
  sb_ports : list stats_port;
  sb_mirrors : mist;
}.

(** [enum ofp12_controller_role], with the values that are none of them. *)
Inductive ofp12_controller_role :=
| OFPCR12_ROLE_NOCHANGE | OFPCR12_ROLE_EQUAL | OFPCR12_ROLE_MASTER | OFPCR12_ROLE_SLAVE
| OFPCR12_ROLE_OTHER (value : Z).

Record controller_info := ControllerInfo {
  ci_is_connected : bool;
  ci_role : ofp12_controller_role;
  ci_pairs : smap;
}.

Record controller_columns := ControllerColumns {
  cc_is_connected : bool;
  cc_role : option string;
  cc_status : option smap;
}.

(** Writes of a transaction, and the rows they go to: by interface name, mirror
    uuid and controller target. *)
Record stats_rows := StatsRows {
  if_statistics : gmap string (list (string * Z));
  mirror_statistics : gmap Z (list (string * Z));
  controllers : gmap string controller_columns;
}.

Definition no_rows : stats_rows := StatsRows ∅ ∅ ∅.
Definition rows_written (w d : stats_rows) : stats_rows :=
  StatsRows (if_statistics w ∪ if_statistics d) (mirror_statistics w ∪ mirror_statistics d)
    (controllers w ∪ controllers d).

(** [struct stats_blk_params]; structures are identified by their names. *)
Record stats_blk_params := Sblk {
  sb_idl_seqno : Z;
  sblk_br : option string;
  sblk_vrf : option string;
  sblk_port : option string;
  sblk_netdev : option string;
  sblk_cfg : option string;
}.

Definition sblk_set_br (n : string) (p : stats_blk_params) : stats_blk_params :=
  Sblk (sb_idl_seqno p) (Some n) (sblk_vrf p) (sblk_port p) (sblk_netdev p) (sblk_cfg p).
Definition sblk_set_vrf (n : string) (p : stats_blk_params) : stats_blk_params :=
  Sblk (sb_idl_seqno p) (sblk_br p) (Some n) (sblk_port p) (sblk_netdev p) (sblk_cfg p).
Definition sblk_set_port (n : string) (p : stats_blk_params) : stats_blk_params :=
  Sblk (sb_idl_seqno p) (sblk_br p) (sblk_vrf p) (Some n) (sblk_netdev p) (sblk_cfg p).
Definition sblk_set_iface (n : string) (p : stats_blk_params) : stats_blk_params :=
  Sblk (sb_idl_seqno p) (sblk_br p) (sblk_vrf p) (sblk_port p) (Some n) (Some n).

Definition ofp12_controller_role_to_str (role : ofp12_controller_role) : string :=
  match role with
  | OFPCR12_ROLE_EQUAL => "other"
  | OFPCR12_ROLE_MASTER => "master"
  | OFPCR12_ROLE_SLAVE => "slave"
  | OFPCR12_ROLE_NOCHANGE | OFPCR12_ROLE_OTHER _ => "*** INVALID ROLE ***"
  end.

(** The members of [struct netdev_stats] and the keys they are written under. *)
Definition IFACE_STATS : list (string * string) :=
  [("rx_packets", "rx_packets"); ("tx_packets", "tx_packets"); ("rx_bytes", "rx_bytes");
   ("tx_bytes", "tx_bytes"); ("rx_dropped", "rx_dropped"); ("tx_dropped", "tx_dropped");
   ("rx_errors", "rx_errors"); ("tx_errors", "tx_errors");
   ("rx_frame_errors", "rx_frame_err"); ("rx_over_errors", "rx_over_err");
   ("rx_crc_errors", "rx_crc_err"); ("collisions", "collisions");
   ("ipv4_uc_tx_packets", "ipv4_uc_tx_packets"); ("ipv4_uc_rx_packets", "ipv4_uc_rx_packets");
   ("ipv4_uc_tx_bytes", "ipv4_uc_tx_bytes"); ("ipv4_uc_rx_bytes", "ipv4_uc_rx_bytes");
   ("ipv4_mc_tx_packets", "ipv4_mc_tx_packets"); ("ipv4_mc_rx_packets", "ipv4_mc_rx_packets");
   ("ipv4_mc_tx_bytes", "ipv4_mc_tx_bytes"); ("ipv4_mc_rx_bytes", "ipv4_mc_rx_bytes");
   ("ipv6_uc_tx_packets", "ipv6_uc_tx_packets"); ("ipv6_uc_rx_packets", "ipv6_uc_rx_packets");
   ("ipv6_uc_tx_bytes", "ipv6_uc_tx_bytes"); ("ipv6_uc_rx_bytes", "ipv6_uc_rx_bytes");
   ("ipv6_mc_tx_packets", "ipv6_mc_tx_packets"); ("ipv6_mc_rx_packets", "ipv6_mc_rx_packets");
   ("ipv6_mc_tx_bytes", "ipv6_mc_tx_bytes"); ("ipv6_mc_rx_bytes", "ipv6_mc_rx_bytes");
   ("l3_uc_rx_packets", "l3_uc_rx_packets"); ("l3_uc_rx_bytes", "l3_uc_rx_bytes");
   ("l3_uc_tx_packets", "l3_uc_tx_packets"); ("l3_uc_tx_bytes", "l3_uc_tx_bytes");
   ("l3_mc_rx_packets", "l3_mc_rx_packets"); ("l3_mc_rx_bytes", "l3_mc_rx_bytes");
   ("l3_mc_tx_packets", "l3_mc_tx_packets"); ("l3_mc_tx_bytes", "l3_mc_tx_bytes")].

Definition N_IFACE_STATS : nat := length IFACE_STATS.

(** The arrays [keys] and [values] that the macro fills. *)
Definition iface_stats (stats : netdev_stats) : list (string * Z) :=
  omap (λ k : string * string,
          if negb (stats k.1 =? UINT64_MAX) then Some (k.2, to_signed 64 (stats k.1)) else None)
    IFACE_STATS.

Section Stats.
Context `{HL : OvsLib, HP : MirrorProvider}.
(** The handlers of plugins: they may change the parameters and the world. *)
Context {CB W : Type} (call : CB → stats_blk_params → Z → W → stats_blk_params * W).
(** [ofproto_get_ofproto_controller_info] of a bridge adds to the table. *)
Context (controller_info_of : string → gmap string controller_info → gmap string controller_info).
(** [all_bridges], [all_vrfs] and the targets of the Controller rows. *)
Context (all_bridges all_vrfs : list stats_bridge) (controller_rows : list string) (idl_seqno : Z).

(** [stats_timer_interval], [stats_timer], the writes of [stats_txn], the rows of
    the database, the table of handlers and the world of the plugins. *)
Record bst := BSt {
  stats_timer_interval : Z;
  stats_timer : Z;
  stats_txn : option stats_rows;
  database : stats_rows;
  stats_blocks : blocks CB;
  world : W;
}.

Definition set_timer (i t : Z) (s : bst) : bst :=
  BSt i t (stats_txn s) (database s) (stats_blocks s) (world s).
Definition set_stats_txn (t : option stats_rows) (s : bst) : bst :=
  BSt (stats_timer_interval s) (stats_timer s) t (database s) (stats_blocks s) (world s).
Definition set_rows (d : stats_rows) (s : bst) : bst :=
  BSt (stats_timer_interval s) (stats_timer s) (stats_txn s) d (stats_blocks s) (world s).
Definition set_world (b : blocks CB) (w : W) (s : bst) : bst :=
  BSt (stats_timer_interval s) (stats_timer s) (stats_txn s) (database s) b w.

(** A write of the transaction in progress. *)
Definition put_rows (f : stats_rows → stats_rows) (s : bst) : bst := set_stats_txn (f <$> stats_txn s) s.
Definition put_iface (n : string) (l : list (string * Z)) (w : stats_rows) : stats_rows :=
  StatsRows (<[n := l]> (if_statistics w)) (mirror_statistics w) (controllers w).
Definition put_mirror (u : Z) (l : list (string * Z)) (w : stats_rows) : stats_rows :=
  StatsRows (if_statistics w) (<[u := l]> (mirror_statistics w)) (controllers w).
Definition put_controller (t : string) (c : controller_columns) (w : stats_rows) : stats_rows :=
  StatsRows (if_statistics w) (mirror_statistics w) (<[t := c]> (controllers w)).

(** ** The writes *)

(** Interfaces that subsystem.c updates. *)
Definition stats_of_subsystem (i : stats_iface) : bool :=
  match sf_type i with None => true | Some t => bool_decide (t = "system") end.

(** The device is used without a test. *)
Definition iface_refresh_stats (i : stats_iface) : M bst unit :=
  if stats_of_subsystem i || sf_synthetic i then mret tt else
  stats ← deref (sf_netdev i);
  let l := iface_stats stats in
  ovs_assert (bool_decide (length l ≤ N_IFACE_STATS)%nat) ;;
  modify (put_rows (put_iface (sf_name i) l)).

Definition refresh_ports (ports : list stats_port) : M bst unit :=
  mfor ports (λ p, mfor (sp_ifaces p) iface_refresh_stats).

Definition refresh_mirrors (br : stats_bridge) : M bst unit :=
  mfor (mirrors (sb_mirrors br)) (λ m,
    modify (put_rows (put_mirror (m_uuid m) (mirror_refresh_stats m (sb_mirrors br))))).

Definition controller_columns_of (info : gmap string controller_info) (target : string) : controller_columns :=
  match info !! target with
  | Some c => ControllerColumns (ci_is_connected c) (Some (ofp12_controller_role_to_str (ci_role c)))
                (Some (ci_pairs c))
  | None => ControllerColumns false None None
  end.

Definition all_controller_info : gmap string controller_info :=
  fold_left (λ info br, controller_info_of (sb_name br) info) all_bridges ∅.

Definition refresh_controller_status : M bst unit :=
  mfor controller_rows (λ t, modify (put_rows (put_controller t (controller_columns_of all_controller_info t)))).

(** ** The callbacks *)

(** A handler is called with the address of the local [sblk]. *)
Definition call_block (cb : CB) (p : option stats_blk_params) (id : Z) (w : W) : option stats_blk_params * W :=
  match p with
  | Some p => let '(p, w) := call cb p id w in (Some p, w)
  | None => (None, w)
  end.

Definition execute (id : stats_block_id) (p : stats_blk_params) : M bst stats_blk_params := λ s,
  let '(_, b, p', w) := execute_stats_block call_block (Some p) (stats_block_id_int id) (stats_blocks s) (world s) in
  Ok (default p p', set_world b w s).

Definition has_stats_callback (i : stats_iface) : bool :=
  match sf_netdev i, sf_type i with
  | Some _, Some t => negb (bool_decide (t = "system"))
  | _, _ => false
  end.

(** The callbacks for the ports of a bridge or VRF. *)
Definition visit_iface (id : stats_block_id) (p : stats_blk_params) (i : stats_iface) : M bst stats_blk_params :=
  if has_stats_callback i then execute id (sblk_set_iface (sf_name i) p) else mret p.

Definition visit_port (id_port id_netdev : stats_block_id) (p : stats_blk_params) (port : stats_port)
    : M bst stats_blk_params :=
  p ← execute id_port (sblk_set_port (sp_name port) p);
  mfold (visit_iface id_netdev) (sp_ifaces port) p.

Definition visit_bridge (p : stats_blk_params) (br : stats_bridge) : M bst stats_blk_params :=
  p ← execute STATS_PER_BRIDGE (sblk_set_br (sb_name br) p);
  mfold (visit_port STATS_PER_BRIDGE_PORT STATS_PER_BRIDGE_NETDEV) (sb_ports br) p.

Definition visit_vrf (p : stats_blk_params) (vrf : stats_bridge) : M bst stats_blk_params :=
  p ← execute STATS_PER_VRF (sblk_set_vrf (sb_name vrf) p);
  mfold (visit_port STATS_PER_VRF_PORT STATS_PER_VRF_NETDEV) (sb_ports vrf) p.

Definition run_callbacks : M bst unit :=
  p ← execute STATS_BEGIN (Sblk idl_seqno None None None None None);
  p ← mfold visit_bridge all_bridges p;
  p ← mfold visit_vrf all_vrfs p;
  execute STATS_END p ;;
  mret tt.

(** ** The update *)

Definition collect_stats : M bst unit :=
  modify (set_stats_txn (Some no_rows)) ;;
  mfor all_bridges (λ br, refresh_ports (sb_ports br) ;; refresh_mirrors br) ;;
  mfor all_vrfs (λ vrf, refresh_ports (sb_ports vrf)) ;;
  refresh_controller_status ;;
  run_callbacks.

Definition stats_interval_of (other_config : smap) : Z :=
  Z.max (smap_get_int other_config "stats-update-interval" 5000) 5000.

(** [now] and [now'] are the two readings of the clock, [status] is what the
    commit returns. *)
Definition commit_stats (now' : Z) (status : txn_status) : M bst unit :=
  w ← gets stats_txn;
  w ← deref w;
  if bool_decide (status = TXN_INCOMPLETE) then mret tt else
  modify (λ s, set_timer (stats_timer_interval s) (now' + stats_timer_interval s) s) ;;
  modify (set_stats_txn None) ;;
  mwhen (txn_succeeded status) (modify (λ s, set_rows (rows_written w (database s)) s)).

Definition run_stats_update (cfg : option smap) (now now' : Z) (status : txn_status) : M bst unit :=
  match cfg with
  | None => mret tt
  | Some other_config =>
    let stats_interval := stats_interval_of other_config in
    old ← gets stats_timer_interval;
    mwhen (negb (old =? stats_interval)) (modify (set_timer stats_interval LLONG_MIN)) ;;
    timer ← gets stats_timer;
    mwhen (timer <=? now)
      (t ← gets stats_txn;
       mwhen (bool_decide (t = None)) collect_stats ;;
       commit_stats now' status)
  end.
End Stats.
Arguments BSt {CB W} _ _ _ _ _ _.
Arguments bst CB W : clear implicits.
