(* ===== verification/StatsFacts.v ===== *)
(** * Theorems on statistics

    What one collection writes, which blocks of callbacks it runs with which
    parameters, and how far apart collections are. *)

From S2P Require Import Prelude OvsLib Blocks Mirror Stats.
From stdpp Require Import sorting list.
Import StatsBlocks.
Local Open Scope Z_scope.

Section StatsFacts.
Context `{HL : OvsLib, HP : MirrorProvider}.
Context {CB W : Type} (call : CB → stats_blk_params → Z → W → stats_blk_params * W).
Context (controller_info_of : string → gmap string controller_info → gmap string controller_info).
Context (all_bridges all_vrfs : list stats_bridge) (controller_rows : list string) (idl_seqno : Z).
Abbreviation bst := (bst CB W).
Abbreviation run := (run_stats_update call controller_info_of all_bridges all_vrfs controller_rows idl_seqno).
Abbreviation collect := (collect_stats call controller_info_of all_bridges all_vrfs controller_rows idl_seqno).

(** ** The writes of a collection *)

(** The interfaces of bridges and VRFs whose statistics are written here. *)
Definition handled (i : stats_iface) : bool := negb (stats_of_subsystem i) && negb (sf_synthetic i).
Definition port_ifaces (ports : list stats_port) : list stats_iface := ports ≫= sp_ifaces.
Definition all_ifaces : list stats_iface :=
  (all_bridges ≫= λ br, port_ifaces (sb_ports br)) ++ (all_vrfs ≫= λ br, port_ifaces (sb_ports br)).

(** Commands that only add writes to the transaction in progress. *)
Definition writes (f : stats_rows → stats_rows) (c : M bst unit) : Prop :=
  ∀ s, c s = Ok (tt, put_rows f s).

Lemma put_rows_compose f g (s : bst) : put_rows g (put_rows f s) = put_rows (g ∘ f) s.
Proof. by destruct s as [? ? [] ? ? ?]. Qed.

Lemma writes_ret : writes id (mret tt).
Proof. intros [? ? [] ? ? ?]; done. Qed.

Lemma writes_modify f : writes f (modify (put_rows f)).
Proof. done. Qed.

Lemma writes_seq f g c d : writes f c → writes g d → writes (g ∘ f) (c ;; d).
Proof. intros Hc Hd s. rewrite (bind_run _ _ _ _ _ (Hc s)), Hd. by rewrite put_rows_compose. Qed.

Lemma writes_for {A} (f : A → stats_rows → stats_rows) (c : A → M bst unit) l :
  (∀ x, x ∈ l → writes (f x) (c x)) → writes (λ w, foldl (λ w x, f x w) w l) (mfor l c).
Proof.
  induction l as [|x l IH]; intros Hc; simpl; [apply writes_ret|].
  apply (writes_seq (f x) (λ w, foldl (λ w x, f x w) w l)); [apply Hc; set_solver|].
  apply IH. set_solver.
Qed.

Definition write_iface (i : stats_iface) (w : stats_rows) : stats_rows :=
  match sf_netdev i with
  | Some stats => if handled i then put_iface (sf_name i) (iface_stats stats) w else w
  | None => w
  end.

Definition has_device (i : stats_iface) : Prop := handled i = true → is_Some (sf_netdev i).

Lemma stats_within_arrays stats : (length (iface_stats stats) ≤ N_IFACE_STATS)%nat.
Proof. unfold iface_stats. apply omap_length_le. Qed.

Lemma iface_refresh_stats_writes i : has_device i → writes (write_iface i) (iface_refresh_stats i).
Proof.
  unfold has_device, write_iface, iface_refresh_stats, handled. intros Hd.
  destruct (stats_of_subsystem i || sf_synthetic i) eqn:E.
  - rewrite <-negb_orb, E. simpl. intros s. rewrite writes_ret. by destruct (sf_netdev i).
  - rewrite <-negb_orb, E in *. destruct Hd as [stats ->]; [done|]. simpl. intros s.
    unfold mbind, M_bind. simpl. rewrite bool_decide_true; [done|apply stats_within_arrays].
Qed.

Lemma refresh_ports_writes ports :
  (∀ i, i ∈ port_ifaces ports → has_device i) →
  writes (λ w, foldl (λ w i, write_iface i w) w (port_ifaces ports)) (refresh_ports ports).
Proof.
  intros Hd s. unfold port_ifaces, refresh_ports.
  rewrite (writes_for (λ p w, foldl (λ w i, write_iface i w) w (sp_ifaces p))).
  - f_equal. f_equal. destruct s as [? ? [w|] ? ? ?]; [|done]. unfold put_rows, set_stats_txn. simpl. do 2 f_equal.
    clear. revert w. induction ports as [|p ports IH]; intros w; simpl; [done|].
    by rewrite foldl_app, <-IH.
  - intros p Hp. apply writes_for. intros i Hi. apply iface_refresh_stats_writes, Hd.
    apply list_elem_of_bind. eauto.
Qed.

Definition write_ifaces (l : list stats_iface) (w : stats_rows) : stats_rows :=
  foldl (λ w i, write_iface i w) w l.
Definition write_mirrors (br : stats_bridge) (w : stats_rows) : stats_rows :=
  foldl (λ w m, put_mirror (m_uuid m) (mirror_refresh_stats m (sb_mirrors br)) w) w (mirrors (sb_mirrors br)).
Definition write_controllers (w : stats_rows) : stats_rows :=
  foldl (λ w t, put_controller t
           (controller_columns_of (all_controller_info controller_info_of all_bridges) t) w) w controller_rows.

(** All writes of one collection. *)
Definition collected : stats_rows :=
  write_controllers
    (foldl (λ w vrf, write_ifaces (port_ifaces (sb_ports vrf)) w)
       (foldl (λ w br, write_mirrors br (write_ifaces (port_ifaces (sb_ports br)) w)) no_rows all_bridges)
       all_vrfs).

Lemma refresh_mirrors_writes br : writes (write_mirrors br) (refresh_mirrors br).
Proof. apply (writes_for (λ m, put_mirror (m_uuid m) _)). intros m _. apply writes_modify. Qed.

Lemma refresh_controllers_writes :
  writes write_controllers (refresh_controller_status controller_info_of all_bridges controller_rows).
Proof. apply (writes_for (λ t, put_controller t _)). intros t _. apply writes_modify. Qed.

Definition devices_ok : Prop := ∀ i, i ∈ all_ifaces → has_device i.

(** A collection is its writes followed by the callbacks. *)
Lemma collect_run s :
  devices_ok →
  collect s = run_callbacks call all_bridges all_vrfs idl_seqno (set_stats_txn (Some collected) s).
Proof.
  intros Hd. unfold collect_stats. step.
  set (s0 := set_stats_txn (Some no_rows) s).
  assert (Hb : writes (λ w, foldl (λ w br, write_mirrors br (write_ifaces (port_ifaces (sb_ports br)) w)) w all_bridges)
            (mfor all_bridges (λ br, refresh_ports (sb_ports br) ;; refresh_mirrors br))).
  { apply (writes_for (λ br w, write_mirrors br (write_ifaces (port_ifaces (sb_ports br)) w))). intros br Hbr.
    apply (writes_seq (write_ifaces _) (write_mirrors br)); [|apply refresh_mirrors_writes].
    apply refresh_ports_writes. intros i Hi. apply Hd, elem_of_app. left. apply list_elem_of_bind. eauto. }
  assert (Hv : writes (λ w, foldl (λ w vrf, write_ifaces (port_ifaces (sb_ports vrf)) w) w all_vrfs)
            (mfor all_vrfs (λ vrf, refresh_ports (sb_ports vrf)))).
  { apply (writes_for (λ vrf w, write_ifaces (port_ifaces (sb_ports vrf)) w)). intros br Hbr.
    apply refresh_ports_writes. intros i Hi. apply Hd, elem_of_app. right. apply list_elem_of_bind. eauto. }
  rewrite (bind_run _ _ _ _ _ (Hb s0)), (bind_run _ _ _ _ _ (Hv _)),
    (bind_run _ _ _ _ _ (refresh_controllers_writes _)). by destruct s.
Qed.

(** ** The rows a collection writes *)

#[local] Opaque iface_stats.

(** A loop of writes to different rows of one table. *)
Lemma foldl_insert_lookup {K} `{Countable K} {X V} (key : X → K) (val : X → V) (l : list X) (m : gmap K V) x :
  NoDup (key <$> l) → x ∈ l → foldl (λ m x, <[key x := val x]> m) m l !! key x = Some (val x).
Proof.
  revert m. induction l as [|y l IH]; intros m Hnd Hx; [by apply not_elem_of_nil in Hx|].
  apply NoDup_cons in Hnd as [Hy Hnd]. apply elem_of_cons in Hx as [->|Hx]; simpl; [|by apply IH].
  clear IH Hnd. assert (<[key y := val y]> m !! key y = Some (val y)) as Hm by apply lookup_insert_eq.
  revert Hm. generalize (<[key y := val y]> m). clear m. induction l as [|z l IH]; intros m Hm; [done|].
  csimpl in Hy; rewrite elem_of_cons in Hy. simpl. apply IH; [naive_solver|]. rewrite lookup_insert_ne; naive_solver.
Qed.

Lemma foldl_insert_lookup_ne {K} `{Countable K} {X V} (key : X → K) (val : X → V) (l : list X) (m : gmap K V) k :
  k ∉ key <$> l → foldl (λ m x, <[key x := val x]> m) m l !! k = m !! k.
Proof.
  revert m. induction l as [|y l IH]; intros m Hk; simpl; [done|].
  csimpl in Hk; rewrite elem_of_cons in Hk. rewrite IH by naive_solver. apply lookup_insert_ne. naive_solver.
Qed.

Definition handled_ifaces : list stats_iface := filter (λ i, handled i = true) all_ifaces.
Definition all_mirrors : list (mirror * mist) :=
  all_bridges ≫= λ br, (λ m, (m, sb_mirrors br)) <$> mirrors (sb_mirrors br).

Definition stats_of (i : stats_iface) : list (string * Z) := default [] (iface_stats <$> sf_netdev i).

Lemma write_ifaces_statistics l w :
  (∀ i, i ∈ l → has_device i) →
  if_statistics (write_ifaces l w) =
    foldl (λ m i, <[sf_name i := stats_of i]> m) (if_statistics w) (filter (λ i, handled i = true) l) ∧
  mirror_statistics (write_ifaces l w) = mirror_statistics w ∧ controllers (write_ifaces l w) = controllers w.
Proof.
  revert w. induction l as [|i l IH]; intros w Hd; [done|].
  destruct (IH (write_iface i w)) as (E1 & E2 & E3); [intros j Hj; apply Hd; by right|].
  unfold write_ifaces in *. simpl. rewrite E1, E2, E3. specialize (Hd i (list_elem_of_here _ _)).
  unfold has_device, write_iface, stats_of in *. destruct (handled i) eqn:Eh.
  - destruct Hd as [stats Es]; [done|]. rewrite filter_cons_True by done. simpl. rewrite Es. split_and!; reflexivity.
  - rewrite filter_cons_False by congruence. by destruct (sf_netdev i).
Qed.

Lemma write_mirrors_statistics br w :
  if_statistics (write_mirrors br w) = if_statistics w ∧
  mirror_statistics (write_mirrors br w) =
    foldl (λ m x, <[m_uuid x.1 := mirror_refresh_stats x.1 x.2]> m) (mirror_statistics w)
      ((λ m, (m, sb_mirrors br)) <$> mirrors (sb_mirrors br)) ∧
  controllers (write_mirrors br w) = controllers w.
Proof.
  unfold write_mirrors. generalize (mirrors (sb_mirrors br)). intros l. revert w.
  induction l as [|m l IH]; intros w; [done|]. simpl. destruct (IH (put_mirror (m_uuid m) (mirror_refresh_stats m (sb_mirrors br)) w)) as (-> & -> & ->).
  done.
Qed.

Lemma write_controllers_rows w :
  if_statistics (write_controllers w) = if_statistics w ∧
  mirror_statistics (write_controllers w) = mirror_statistics w ∧
  controllers (write_controllers w) =
    foldl (λ m t, <[id t := controller_columns_of (all_controller_info controller_info_of all_bridges) t]> m)
      (controllers w) controller_rows.
Proof.
  unfold write_controllers. revert w. induction controller_rows as [|t l IH]; intros w; [done|].
  simpl. by destruct (IH (put_controller t (controller_columns_of (all_controller_info controller_info_of all_bridges) t) w))
    as (-> & -> & ->).
Qed.

Lemma collected_bridges l w :
  (∀ br i, br ∈ l → i ∈ port_ifaces (sb_ports br) → has_device i) →
  let w' := foldl (λ w br, write_mirrors br (write_ifaces (port_ifaces (sb_ports br)) w)) w l in
  if_statistics w' = foldl (λ m i, <[sf_name i := stats_of i]> m) (if_statistics w)
                       (filter (λ i, handled i = true) (l ≫= λ br, port_ifaces (sb_ports br))) ∧
  mirror_statistics w' = foldl (λ m x, <[m_uuid x.1 := mirror_refresh_stats x.1 x.2]> m) (mirror_statistics w)
                           (l ≫= λ br, (λ m, (m, sb_mirrors br)) <$> mirrors (sb_mirrors br)).
Proof.
  revert w. induction l as [|br l IH]; intros w Hd; [done|].
  destruct (IH (write_mirrors br (write_ifaces (port_ifaces (sb_ports br)) w))) as [E1 E2]; [intros b i Hb; apply Hd; by right|].
  destruct (write_ifaces_statistics (port_ifaces (sb_ports br)) w) as (F1 & F2 & _); [intros i; apply Hd; by left|].
  destruct (write_mirrors_statistics br (write_ifaces (port_ifaces (sb_ports br)) w)) as (G1 & G2 & _).
  simpl. rewrite E1, E2, G1, G2, F1, F2, filter_app, !foldl_app. done.
Qed.

Lemma collected_vrfs l w :
  (∀ br i, br ∈ l → i ∈ port_ifaces (sb_ports br) → has_device i) →
  let w' := foldl (λ w br, write_ifaces (port_ifaces (sb_ports br)) w) w l in
  if_statistics w' = foldl (λ m i, <[sf_name i := stats_of i]> m) (if_statistics w)
                       (filter (λ i, handled i = true) (l ≫= λ br, port_ifaces (sb_ports br))) ∧
  mirror_statistics w' = mirror_statistics w.
Proof.
  revert w. induction l as [|br l IH]; intros w Hd; [done|].
  destruct (IH (write_ifaces (port_ifaces (sb_ports br)) w)) as [E1 E2]; [intros b i Hb; apply Hd; by right|].
  destruct (write_ifaces_statistics (port_ifaces (sb_ports br)) w) as (F1 & F2 & _); [intros i; apply Hd; by left|].
  simpl. rewrite E1, E2, F1, F2, filter_app, !foldl_app. done.
Qed.

Lemma collected_rows :
  devices_ok →
  if_statistics collected = foldl (λ m i, <[sf_name i := stats_of i]> m) ∅ handled_ifaces ∧
  mirror_statistics collected = foldl (λ m x, <[m_uuid x.1 := mirror_refresh_stats x.1 x.2]> m) ∅ all_mirrors ∧
  ∀ t, t ∈ controller_rows → NoDup controller_rows →
    controllers collected !! t = Some (controller_columns_of (all_controller_info controller_info_of all_bridges) t).
Proof.
  intros Hd. unfold collected.
  set (w1 := foldl (λ w br, write_mirrors br _) _ _). set (w2 := foldl _ w1 _).
  destruct (collected_bridges all_bridges no_rows) as [E1 E2].
  { intros br i Hb Hi. apply Hd, elem_of_app. left. apply list_elem_of_bind. eauto. }
  destruct (collected_vrfs all_vrfs w1) as [F1 F2].
  { intros br i Hb Hi. apply Hd, elem_of_app. right. apply list_elem_of_bind. eauto. }
  destruct (write_controllers_rows w2) as (-> & -> & ->). fold w1 in E1, E2. fold w2 in F1, F2.
  rewrite F1, F2, E1, E2. unfold handled_ifaces, all_ifaces. rewrite filter_app, foldl_app.
  split_and!; [done|done|]. intros t Ht Hnd.
  apply (foldl_insert_lookup id (controller_columns_of _) controller_rows _ t); [by rewrite list_fmap_id|done].
Qed.

(** ** The blocks of callbacks *)

Definition visit : Type := stats_block_id * stats_blk_params.

(** Running the handlers of one block. *)
Definition exec1 (s : bst) (v : visit) : bst :=
  let '(_, b, _, w) := execute_stats_block (call_block call) (Some v.2) (stats_block_id_int v.1)
                         (stats_blocks s) (world s) in
  set_world b w s.

(** What stats-blocks.h documents for each block: the sequence number and the
    valid pointers. *)
Definition documented (v : visit) : stats_block_id * Z * list (option string) :=
  let p := v.2 in
  (v.1, sb_idl_seqno p,
   match v.1 with
   | STATS_PER_BRIDGE => [sblk_br p]
   | STATS_PER_BRIDGE_PORT => [sblk_port p; sblk_br p]
   | STATS_PER_BRIDGE_NETDEV => [sblk_netdev p; sblk_cfg p; sblk_port p; sblk_br p]
   | STATS_PER_VRF => [sblk_vrf p]
   | STATS_PER_VRF_PORT => [sblk_port p; sblk_vrf p]
   | STATS_PER_VRF_NETDEV => [sblk_netdev p; sblk_cfg p; sblk_port p; sblk_vrf p]
   | _ => []
   end).

(** The blocks of ports of the structure [own], and of all bridges and VRFs. *)
Definition port_visits (idp idn : stats_block_id) (own : string) (port : stats_port) :=
  (idp, idl_seqno, [Some (sp_name port); Some own]) ::
  ((λ i, (idn, idl_seqno, [Some (sf_name i); Some (sf_name i); Some (sp_name port); Some own])) <$>
     filter (λ i, has_stats_callback i = true) (sp_ifaces port)).

Definition bridge_visits (id idp idn : stats_block_id) (br : stats_bridge) :=
  (id, idl_seqno, [Some (sb_name br)]) :: (sb_ports br ≫= port_visits idp idn (sb_name br)).

Definition expected_visits : list (stats_block_id * Z * list (option string)) :=
  (STATS_BEGIN, idl_seqno, []) ::
  (all_bridges ≫= bridge_visits STATS_PER_BRIDGE STATS_PER_BRIDGE_PORT STATS_PER_BRIDGE_NETDEV) ++
  (all_vrfs ≫= bridge_visits STATS_PER_VRF STATS_PER_VRF_PORT STATS_PER_VRF_NETDEV) ++
  [(STATS_END, idl_seqno, [])].

Definition handlers_keep_parameters : Prop := ∀ cb p id w, (call cb p id w).1 = p.

Section Visits.
Context (Hkeep : handlers_keep_parameters).

Lemma execute_run id p s : execute call id p s = Ok (p, exec1 s (id, p)).
Proof.
  unfold execute, exec1. simpl.
  destruct (execute_stats_block _ _ _ _ _) as [[[rc b] p'] w] eqn:E. do 2 f_equal.
  assert (p' = Some p) as ->; [|done].
  unfold execute_stats_block, execute_block in E. destruct (ensure_init _ _) as [rc' b'].
  destruct (negb (rc' =? 0)); [congruence|]. simpl in E.
  destruct (negb _); [congruence|]. destruct (blk_at _ _) as [l|]; [|congruence].
  destruct (run_nodes _ _ _ _) as [[rc2 p2] w2] eqn:E2. injection E as <- <- <- <-.
  revert E2. generalize (world s). induction l as [|x l IH]; intros w0; simpl.
  - congruence.
  - destruct (callback_handler x) as [cb|]; [|congruence].
    specialize (Hkeep cb p (stats_block_id_int id) w0). unfold call_block at 1.
    destruct (call cb p _ w0) as [p1 w1]. simpl in Hkeep. subst p1. apply IH.
Qed.

(** From parameters in [P], [c] runs the blocks [docs] and leaves them in [Q]. *)
Definition visiting (P : stats_blk_params → Prop) (c : stats_blk_params → M bst stats_blk_params)
    (docs : list (stats_block_id * Z * list (option string))) (Q : stats_blk_params → Prop) : Prop :=
  ∀ p s, P p → ∃ p' l, c p s = Ok (p', foldl exec1 s l) ∧ documented <$> l = docs ∧ Q p'.

Lemma visiting_ret P : visiting P mret [] P.
Proof. intros p s Hp. by exists p, []. Qed.

Lemma visiting_seq P Q R c d l1 l2 :
  visiting P c l1 Q → visiting Q d l2 R → visiting P (λ p, p ← c p; d p) (l1 ++ l2) R.
Proof.
  intros Hc Hd p s Hp. destruct (Hc p s Hp) as (p1 & v1 & E1 & <- & Hp1).
  destruct (Hd p1 (foldl exec1 s v1) Hp1) as (p2 & v2 & E2 & <- & Hp2).
  exists p2, (v1 ++ v2). rewrite (bind_run _ _ _ _ _ E1), E2, foldl_app, fmap_app. done.
Qed.

Lemma visiting_fold {A} P (f : stats_blk_params → A → M bst stats_blk_params) docs l :
  (∀ x, visiting P (λ p, f p x) (docs x) P) → visiting P (mfold f l) (l ≫= docs) P.
Proof.
  intros Hf. induction l as [|x l IH]; [apply visiting_ret|].
  exact (visiting_seq P P P (λ p, f p x) (mfold f l) _ _ (Hf x) IH).
Qed.

Lemma visiting_execute (P Q : stats_blk_params → Prop) id f d :
  (∀ p, P p → documented (id, f p) = d ∧ Q (f p)) → visiting P (λ p, execute call id (f p)) [d] Q.
Proof.
  intros H p s Hp. destruct (H p Hp) as [<- HQ]. exists (f p), [(id, f p)].
  by rewrite execute_run.
Qed.

(** The ports of one structure: [own] is its pointer in the parameters. *)
Section Ports.
Context (own : stats_blk_params → option string) (name : string) (idp idn : stats_block_id).
Context (Hport : ∀ n p, own (sblk_set_port n p) = own p) (Hiface : ∀ n p, own (sblk_set_iface n p) = own p).
Context (Hdp : ∀ p, documented (idp, p) = (idp, sb_idl_seqno p, [sblk_port p; own p])).
Context (Hdn : ∀ p, documented (idn, p) =
                    (idn, sb_idl_seqno p, [sblk_netdev p; sblk_cfg p; sblk_port p; own p])).

Definition owned (p : stats_blk_params) : Prop := sb_idl_seqno p = idl_seqno ∧ own p = Some name.

Lemma visit_port_visiting port :
  visiting owned (λ p, visit_port call idp idn p port) (port_visits idp idn name port) owned.
Proof.
  unfold port_visits. set (at_port := λ p, owned p ∧ sblk_port p = Some (sp_name port)).
  apply (visiting_seq _ at_port _ (λ p, execute call idp (sblk_set_port (sp_name port) p))
           (mfold (visit_iface call idn) (sp_ifaces port)) [_]).
  - apply visiting_execute. intros p [Hs Ho]. rewrite Hdp, Hport. unfold at_port, owned. rewrite Hport.
    simpl. rewrite Hs, Ho. done.
  - assert (visiting at_port (mfold (visit_iface call idn) (sp_ifaces port))
      (sp_ifaces port ≫= λ i, if has_stats_callback i
         then [(idn, idl_seqno, [Some (sf_name i); Some (sf_name i); Some (sp_name port); Some name])] else [])
      at_port) as H.
    { apply visiting_fold. intros i. unfold visit_iface. destruct (has_stats_callback i); [|apply visiting_ret].
      apply visiting_execute. intros p [[Hs Ho] Hp]. rewrite Hdn, Hiface. unfold at_port, owned. rewrite Hiface.
      simpl. rewrite Hs, Ho, Hp. done. }
    replace (_ <$> _) with (sp_ifaces port ≫= λ i, if has_stats_callback i
         then [(idn, idl_seqno, [Some (sf_name i); Some (sf_name i); Some (sp_name port); Some name])] else []).
    { intros p s Hp. destruct (H p s Hp) as (p' & l & ? & ? & [Hp' _]). by exists p', l. }
    clear. induction (sp_ifaces port) as [|i ifs IH]; [done|]. csimpl. rewrite IH.
    destruct (has_stats_callback i) eqn:E; [by rewrite filter_cons_True|by rewrite filter_cons_False by congruence].
Qed.

Lemma visit_ports_visiting (f : stats_blk_params → stats_blk_params) id ports :
  (∀ p, sb_idl_seqno p = idl_seqno → documented (id, f p) = (id, idl_seqno, [Some name]) ∧ owned (f p)) →
  visiting (λ p, sb_idl_seqno p = idl_seqno)
    (λ p, p ← execute call id (f p); mfold (visit_port call idp idn) ports p)
    ((id, idl_seqno, [Some name]) :: (ports ≫= port_visits idp idn name)) (λ p, sb_idl_seqno p = idl_seqno).
Proof.
  intros Hf. apply (visiting_seq _ owned _ _ _ [_]); [by apply visiting_execute|].
  intros p s Hp. destruct (visiting_fold owned _ _ ports visit_port_visiting p s Hp) as (p' & l & ? & ? & [Hp' _]).
  by exists p', l.
Qed.
End Ports.

(** The blocks run in one collection, with what they are given. *)
Lemma run_callbacks_visits s :
  ∃ l, run_callbacks call all_bridges all_vrfs idl_seqno s = Ok (tt, foldl exec1 s l) ∧
       documented <$> l = expected_visits.
Proof.
  unfold run_callbacks, expected_visits.
  pose (p0 := Sblk idl_seqno None None None None None).
  set (P := λ p, sb_idl_seqno p = idl_seqno).
  assert (visiting (λ p, p = p0) (λ p, execute call STATS_BEGIN p) [(STATS_BEGIN, idl_seqno, [])] P) as H1.
  { apply (visiting_execute _ _ _ id). intros p ->. done. }
  assert (visiting P (mfold (visit_bridge call) all_bridges)
    (all_bridges ≫= bridge_visits STATS_PER_BRIDGE STATS_PER_BRIDGE_PORT STATS_PER_BRIDGE_NETDEV) P) as H2.
  { apply visiting_fold. intros br. apply (visit_ports_visiting sblk_br); try done.
    intros p Hp. unfold owned, documented. simpl. by rewrite Hp. }
  assert (visiting P (mfold (visit_vrf call) all_vrfs)
    (all_vrfs ≫= bridge_visits STATS_PER_VRF STATS_PER_VRF_PORT STATS_PER_VRF_NETDEV) P) as H3.
  { apply visiting_fold. intros br. apply (visit_ports_visiting sblk_vrf); try done.
    intros p Hp. unfold owned, documented. simpl. by rewrite Hp. }
  assert (visiting P (λ p, execute call STATS_END p) [(STATS_END, idl_seqno, [])] P) as H4.
  { apply (visiting_execute _ _ _ id). intros p Hp. unfold documented. simpl. by rewrite Hp. }
  destruct (visiting_seq _ _ _ _ _ _ _ H1 (visiting_seq _ _ _ _ _ _ _ H2 (visiting_seq _ _ _ _ _ _ _ H3 H4)) p0 s eq_refl)
    as (p' & l & E & Hl & _).
  exists l. split; [|done].
  apply bind_Ok in E as (p1 & s1 & E1 & (p2 & s2 & E2 & (p3 & s3 & E3 & E4)%bind_Ok)%bind_Ok).
  fold p0. rewrite (bind_run _ _ _ _ _ E1), (bind_run _ _ _ _ _ E2), (bind_run _ _ _ _ _ E3). by rewrite (bind_run _ _ _ _ _ E4).
Qed.
End Visits.

(** ** One run *)

(** A run with [other_config] at time [now] is due. *)
Definition timer_of (other_config : smap) (s : bst) : Z :=
  if stats_timer_interval s =? stats_interval_of other_config then stats_timer s else LLONG_MIN.
Definition due (other_config : smap) (now : Z) (s : bst) : bool := timer_of other_config s <=? now.

(** The state in which a due run starts. *)
Definition at_run (other_config : smap) (s : bst) : bst :=
  set_timer (stats_interval_of other_config) (timer_of other_config s) s.

(** The state after the commit of [w]. *)
Definition after_commit (now' : Z) (status : txn_status) (w : stats_rows) (s : bst) : bst :=
  if bool_decide (status = TXN_INCOMPLETE) then s else
  let s := set_stats_txn None (set_timer (stats_timer_interval s) (now' + stats_timer_interval s) s) in
  if txn_succeeded status then set_rows (rows_written w (database s)) s else s.

Lemma commit_stats_run now' status w s :
  stats_txn s = Some w → commit_stats now' status s = Ok (tt, after_commit now' status w s).
Proof.
  intros E. destruct s as [i t w0 db b wd]; simpl in E; subst w0. unfold commit_stats, after_commit. step. simpl.
  step. destruct (bool_decide _); [done|]. do 2 step. by destruct (txn_succeeded status).
Qed.

Lemma after_commit_success now' w s :
  after_commit now' TXN_SUCCESS w s =
  BSt (stats_timer_interval s) (now' + stats_timer_interval s) None (rows_written w (database s)) (stats_blocks s) (world s).
Proof. by destruct s. Qed.

Lemma run_prelude other_config now now' status s :
  run (Some other_config) now now' status s =
  (if due other_config now s
   then (t ← gets stats_txn; mwhen (bool_decide (t = None)) collect ;; commit_stats now' status) (at_run other_config s)
   else Ok (tt, at_run other_config s)).
Proof.
  unfold run_stats_update, due, at_run, timer_of. step.
  destruct s as [i t w db b wd]; simpl. destruct (i =? stats_interval_of other_config) eqn:E; simpl.
  - apply Z.eqb_eq in E as ->. do 2 step. simpl. by destruct (t <=? now).
  - do 2 step. simpl. by destruct (LLONG_MIN <=? now).
Qed.

Lemma run_not_due other_config now now' status s :
  due other_config now s = false → run (Some other_config) now now' status s = Ok (tt, at_run other_config s).
Proof. intros E. by rewrite run_prelude, E. Qed.

Lemma run_in_progress other_config now now' status w s :
  due other_config now s = true → stats_txn s = Some w →
  run (Some other_config) now now' status s = Ok (tt, after_commit now' status w (at_run other_config s)).
Proof.
  intros E Ew. rewrite run_prelude, E. step. replace (stats_txn (at_run other_config s)) with (Some w) by (by destruct s).
  step. apply commit_stats_run. by destruct s.
Qed.

Lemma exec1_frame f s l :
  (∀ s b w, f (set_world b w s) = set_world b w (f s)) → (∀ s, stats_blocks (f s) = stats_blocks s) →
  (∀ s, world (f s) = world s) → foldl exec1 (f s) l = f (foldl exec1 s l).
Proof.
  intros Hf Hb Hw. revert s. induction l as [|v l IH]; intros s; [done|]. simpl.
  rewrite <-IH. f_equal. unfold exec1. rewrite Hb, Hw. by destruct (execute_stats_block _ _ _ _ _) as [[[? ?] ?] ?].
Qed.

Lemma run_collects other_config now now' status s :
  handlers_keep_parameters → devices_ok → due other_config now s = true → stats_txn s = None →
  ∃ l, documented <$> l = expected_visits ∧
    run (Some other_config) now now' status s =
    Ok (tt, after_commit now' status collected
              (set_stats_txn (Some collected) (at_run other_config (foldl exec1 s l)))).
Proof.
  intros Hk Hd E Et. rewrite run_prelude, E.
  destruct (run_callbacks_visits Hk (set_stats_txn (Some collected) (at_run other_config s))) as (l & El & Hl).
  exists l. split; [done|]. step.
  replace (stats_txn (at_run other_config s)) with (None : option stats_rows) by (by destruct s).
  rewrite bool_decide_true by done. simpl. rewrite bind_run with (s' := set_stats_txn (Some collected) (at_run other_config (foldl exec1 s l))) (a := tt).
  - by rewrite commit_stats_run with (w := collected) by (by destruct (foldl exec1 s l)).
  - rewrite collect_run by done. rewrite El. do 2 f_equal.
    rewrite (exec1_frame (set_stats_txn (Some collected))) by done. f_equal.
    assert (timer_of other_config (foldl exec1 s l) = timer_of other_config s) as Ht.
    { clear. revert s. induction l as [|v l IH]; intros s; [done|]. simpl. rewrite IH. unfold exec1.
      by destruct (execute_stats_block _ _ _ _ _) as [[[? ?] ?] ?]. }
    unfold at_run. rewrite Ht. apply (exec1_frame (set_timer _ _)); done.
Qed.

(** A due run whose transaction succeeds. *)
Lemma run_success other_config now now' s :
  handlers_keep_parameters → devices_ok → due other_config now s = true → stats_txn s = None →
  ∃ s', run (Some other_config) now now' TXN_SUCCESS s = Ok (tt, s') ∧
    stats_txn s' = None ∧ stats_timer s' = now' + stats_interval_of other_config ∧
    database s' = rows_written collected (database s).
Proof.
  intros Hk Hd E Et. destruct (run_collects _ _ now' TXN_SUCCESS _ Hk Hd E Et) as (l & _ & Er).
  eexists. split; [exact Er|].
  assert (database (foldl exec1 s l) = database s) as Hdb.
  { clear. revert s. induction l as [|v l IH]; intros s; [done|]. simpl. rewrite IH. unfold exec1.
    by destruct (execute_stats_block _ _ _ _ _) as [[[? ?] ?] ?]. }
  revert Hdb. generalize (foldl exec1 s l). intros [i0 t0 w0 db0 b0 wd0] Hdb.
  rewrite after_commit_success. simpl in *. by subst db0.
Qed.

(** What it writes for an interface. *)
Lemma written_statistics i d :
  devices_ok → NoDup (sf_name <$> handled_ifaces) → i ∈ handled_ifaces →
  if_statistics (rows_written collected d) !! sf_name i = iface_stats <$> sf_netdev i.
Proof.
  intros Hd Hni Hi. destruct (collected_rows Hd) as (Ei & _ & _).
  assert (handled i = true ∧ i ∈ all_ifaces) as [Hh Ha] by by apply list_elem_of_filter in Hi.
  destruct (Hd i Ha Hh) as [stats Es]. simpl.
  rewrite lookup_union, Ei, foldl_insert_lookup by done. unfold stats_of. rewrite Es.
  by destruct (if_statistics d !! _).
Qed.

(** C40: a due run whose transaction succeeds writes, for every interface that
    no subsystem handles, exactly the statistics its device knows, for every
    mirror its counters and for every controller its connection; the rows of
    other interfaces keep their statistics, and the next run is due one interval
    later. *)
Theorem run_stats_update_collects other_config now now' s :
  handlers_keep_parameters → devices_ok →
  NoDup (sf_name <$> handled_ifaces) → NoDup ((λ x, m_uuid x.1) <$> all_mirrors) → NoDup controller_rows →
  due other_config now s = true → stats_txn s = None →
  ∃ s', run (Some other_config) now now' TXN_SUCCESS s = Ok (tt, s') ∧
    stats_txn s' = None ∧ stats_timer s' = now' + stats_interval_of other_config ∧
    (∀ i, i ∈ handled_ifaces →
      if_statistics (database s') !! sf_name i = iface_stats <$> sf_netdev i) ∧
    (∀ n, n ∉ sf_name <$> handled_ifaces →
      if_statistics (database s') !! n = if_statistics (database s) !! n) ∧
    (∀ x, x ∈ all_mirrors →
      mirror_statistics (database s') !! m_uuid x.1 = Some (mirror_refresh_stats x.1 x.2)) ∧
    (∀ t, t ∈ controller_rows →
      controllers (database s') !! t =
      Some (controller_columns_of (all_controller_info controller_info_of all_bridges) t)).
Proof.
  intros Hk Hd Hni Hnm Hnc E Et. destruct (run_success _ _ now' _ Hk Hd E Et) as (s' & Er & Ex & Ti & Edb).
  exists s'. split; [exact Er|]. destruct (collected_rows Hd) as (Ei & Em & Ec).
  split; [done|]. split; [done|]. rewrite Edb. split_and!.
  - intros i Hi. by apply written_statistics.
  - intros n Hn. simpl. rewrite lookup_union, Ei, foldl_insert_lookup_ne, lookup_empty by done.
    by rewrite (left_id_L None _).
  - intros x Hx. simpl. rewrite lookup_union, Em, (foldl_insert_lookup (λ x, m_uuid x.1)) by done.
    by destruct (mirror_statistics (database s) !! _).
  - intros t Ht. simpl. rewrite lookup_union, Ec by done. by destruct (controllers (database s) !! _).
Qed.

Lemma after_commit_world now' status w s : world (after_commit now' status w s) = world s.
Proof. unfold after_commit. destruct (bool_decide _), (txn_succeeded status); by destruct s. Qed.

(** a collection runs the blocks of statistics callbacks in the order of
    the documentation, once for each bridge, VRF, port and device, and every
    handler is given the structures the documentation promises for its block;
    a run that is not due, or that waits for the previous transaction, runs none. *)
Theorem run_stats_update_runs_blocks other_config now now' status s :
  handlers_keep_parameters → devices_ok →
  ∃ l s', run (Some other_config) now now' status s = Ok (tt, s') ∧
    documented <$> l = (if due other_config now s && bool_decide (stats_txn s = None) then expected_visits else []) ∧
    world s' = world (foldl exec1 s l).
Proof.
  intros Hk Hd. destruct (due other_config now s) eqn:E.
  - destruct (stats_txn s) as [w|] eqn:Et.
    + exists [], (after_commit now' status w (at_run other_config s)).
      rewrite after_commit_world. split; [by apply run_in_progress|]. by destruct s.
    + destruct (run_collects _ _ now' status _ Hk Hd E Et) as (l & Hl & Er).
      eexists l, _. split; [exact Er|]. split; [exact Hl|]. rewrite after_commit_world.
      by destruct (foldl exec1 s l).
  - exists [], (at_run other_config s). split; [by apply run_not_due|]. by destruct s.
Qed.

(** ** The rate of collections *)

(** Histories of runs under the configuration [other_config], or without a
    configuration: the state, the times at which a collection started (the
    latest first), and the clock, which does not go back. *)
Inductive history (other_config : smap) : bst → list Z → Z → Prop :=
| HistoryStart s t : history other_config s [] t
| HistoryRun s l t now now' status s' :
    history other_config s l t → t ≤ now → now ≤ now' →
    run (Some other_config) now now' status s = Ok (tt, s') →
    history other_config s' (if due other_config now s && bool_decide (stats_txn s = None) then now :: l else l) now'
| HistoryIdle s l t now now' status s' :
    history other_config s l t → t ≤ now → now ≤ now' →
    run None now now' status s = Ok (tt, s') → history other_config s' l now'.

(** What holds after the last collection. *)
Definition rate_inv (other_config : smap) (s : bst) (l : list Z) (t : Z) : Prop :=
  match l with
  | [] => True
  | a :: _ => a ≤ t ∧ stats_timer_interval s = stats_interval_of other_config ∧
              (stats_txn s = None → a + stats_interval_of other_config ≤ stats_timer s)
  end.

Lemma after_commit_timers now' status w s :
  stats_txn s = Some w →
  stats_timer_interval (after_commit now' status w s) = stats_timer_interval s ∧
  (stats_txn (after_commit now' status w s) = None →
   stats_timer (after_commit now' status w s) = now' + stats_timer_interval s).
Proof.
  intros E. unfold after_commit. destruct (bool_decide _); [by rewrite E|].
  by destruct (txn_succeeded status), s.
Qed.

Lemma history_rate other_config s l t :
  handlers_keep_parameters → devices_ok → history other_config s l t →
  rate_inv other_config s l t ∧ Sorted (λ later earlier, earlier + stats_interval_of other_config ≤ later) l.
Proof.
  intros Hk Hd. induction 1 as [|s l t now now' status s' _ [IH IHs] Ht Ht' E|s l t now now' status s' _ [IH IHs] Ht Ht' E].
  - split; [done|constructor].
  - destruct (due other_config now s) eqn:Ed; [destruct (stats_txn s) as [w|] eqn:Et|]; simpl.
    + rewrite (run_in_progress _ _ _ _ w) in E by done. injection E as <-. split; [|done].
      destruct (after_commit_timers now' status w (at_run other_config s)) as [E1 E2]; [by destruct s|].
      destruct l as [|a l]; [done|]. destruct IH as (Ha & Hi & _). split_and!; [lia|by rewrite E1|].
      intros E3. rewrite E2 by done. simpl. lia.
    + destruct (run_collects _ _ now' status _ Hk Hd Ed Et) as (v & _ & Er). rewrite Er in E. injection E as <-.
      set (s1 := set_stats_txn _ _).
      destruct (after_commit_timers now' status collected s1) as [E1 E2]; [done|].
      split.
      * split_and!; [lia|by rewrite E1|]. intros E3. rewrite E2 by done. simpl. lia.
      * constructor; [done|]. destruct l as [|a l]; [constructor|]. constructor.
        destruct IH as (Ha & Hi & Htimer). specialize (Htimer Et). unfold due, timer_of in Ed.
        rewrite Hi, Z.eqb_refl in Ed. lia.
    + rewrite run_not_due in E by done. injection E as <-. split; [|done].
      destruct l as [|a l]; [done|]. destruct IH as (Ha & Hi & Htimer). split_and!; [lia|done|].
      unfold at_run, timer_of. rewrite Hi, Z.eqb_refl. by destruct s.
  - injection E as <-. split; [|done]. destruct l as [|a l]; [done|]. destruct IH as (Ha & ?). split; [lia|done].
Qed.

(** C25: while the configuration stays the same, collections start at least one
    interval apart, and an interval is at least five seconds, whatever becomes
    of their transactions and however often the daemon runs. *)
Theorem collections_are_rate_limited other_config s l t :
  handlers_keep_parameters → devices_ok → history other_config s l t →
  5000 ≤ stats_interval_of other_config ∧
  Sorted (λ later earlier, earlier + stats_interval_of other_config ≤ later) l.
Proof. intros Hk Hd H. split; [unfold stats_interval_of; lia|]. by eapply history_rate. Qed.
End StatsFacts.

(** ** Instances *)

Module StatsExample.
#[local] Existing Instance ref_lib.
#[local] Instance mirrors_count : MirrorProvider := {|
  ofproto_mirror_register _ _ _ := 0;
  ofproto_mirror_unregister _ _ := 0;
  ofproto_mirror_get_stats _ _ := Some (7, UINT64_MAX);
|}.

(** Handlers that log the block. *)
Definition handler (n : nat) (p : stats_blk_params) (id : Z) (w : list (nat * Z)) := (p, w ++ [(n, id)]).
Definition no_controllers (_ : string) (info : gmap string controller_info) := info.
Definition port_stats : netdev_stats := λ m, if bool_decide (m = "rx_packets") then UINT64_MAX else 1.
Definition vlan_if : stats_iface := StatsIface "vlan10" (Some "internal") false (Some port_stats).
Definition phys_if : stats_iface := StatsIface "1" (Some "system") false (Some port_stats).
Definition br0 : stats_bridge :=
  StatsBridge "br0" [StatsPort "bridge" [vlan_if]; StatsPort "1" [phys_if]]
    (MiSt [Mirror 3 "m" None] ∅ []).
Definition start : bst nat (list (nat * Z)) :=
  BSt 0 LLONG_MIN None no_rows
    (register_stats_callback (Some 1%nat) 4 0 (register_stats_callback (Some 2%nat) 2 0 blocks_start).2).2 [].
Definition example_run := run_stats_update handler no_controllers [br0] [] ["tcp:1.2.3.4"] 5.

Lemma devices : devices_ok [br0] [].
Proof. intros i Hi. cases_elem Hi; intros _; by eexists. Qed.

Lemma run_stats_update_collects_witness :
  due (∅ : smap) 1 start = true ∧
  ∃ s', example_run (Some ∅) 1 2 TXN_SUCCESS start = Ok (tt, s') ∧ stats_timer s' = 5002.
Proof.
  split; [reflexivity|].
  destruct (run_stats_update_collects handler no_controllers [br0] [] ["tcp:1.2.3.4"] 5 ∅ 1 2 start)
    as (s' & E & _ & Et & _).
  - intros cb p id w. reflexivity.
  - exact devices.
  - by_compute.
  - by_compute.
  - by_compute.
  - reflexivity.
  - reflexivity.
  - exists s'. split; [exact E|exact Et].
Defined.

(** Only the handlers of [STATS_PER_BRIDGE] and [STATS_PER_BRIDGE_NETDEV] are
    registered. *)
Lemma run_stats_update_runs_blocks_witness :
  ∃ l s', example_run (Some ∅) 1 2 TXN_INCOMPLETE start = Ok (tt, s') ∧
    documented <$> l = expected_visits [br0] [] 5 ∧ world s' = [(2%nat, 2); (1%nat, 4)].
Proof.
  destruct (run_stats_update_runs_blocks handler no_controllers [br0] [] ["tcp:1.2.3.4"] 5 ∅ 1 2 TXN_INCOMPLETE start)
    as (l & s' & E & Hl & Hw).
  - intros cb p id w. reflexivity.
  - exact devices.
  - exists l, s'. split; [exact E|]. split; [exact Hl|].
    vm_compute in E. injection E as <-. reflexivity.
Defined.

Lemma collections_are_rate_limited_witness :
  ∃ s, history handler no_controllers [br0] [] [] 5 (∅ : smap) s [6000; 1] 6000 ∧
       Sorted (λ later earlier, earlier + stats_interval_of (∅ : smap) ≤ later) [6000; 1].
Proof.
  assert (∃ s1, run_stats_update handler no_controllers [br0] [] [] 5 (Some ∅) 1 2 TXN_ERROR start = Ok (tt, s1) ∧
    ∃ s2, run_stats_update handler no_controllers [br0] [] [] 5 (Some ∅) 6000 6000 TXN_SUCCESS s1 = Ok (tt, s2) ∧
    due (∅ : smap) 6000 s1 && bool_decide (stats_txn s1 = None) = true) as (s1 & E1 & s2 & E2 & Hd).
  { eexists. split; [vm_compute; reflexivity|]. eexists. split; [vm_compute; reflexivity|vm_compute; reflexivity]. }
  assert (history handler no_controllers [br0] [] [] 5 (∅ : smap) s1 [1] 2) as H1.
  { pose proof (HistoryRun _ _ _ _ _ _ _ start [] 0 1 2 TXN_ERROR s1 (HistoryStart _ _ _ _ _ _ _ start 0)
                  ltac:(lia) ltac:(lia) E1) as H1. exact H1. }
  assert (history handler no_controllers [br0] [] [] 5 (∅ : smap) s2 [6000; 1] 6000) as H2.
  { pose proof (HistoryRun _ _ _ _ _ _ _ s1 [1] 2 6000 6000 TXN_SUCCESS s2 H1 ltac:(lia) ltac:(lia) E2) as H2.
    rewrite Hd in H2. exact H2. }
  exists s2. split; [exact H2|].
  apply (collections_are_rate_limited handler no_controllers [br0] [] [] 5 ∅ s2 [6000; 1] 6000).
  - intros cb p id w. reflexivity.
  - exact devices.
  - exact H2.
Defined.
End StatsExample.
