(* ===== verification/SystemStats.v ===== *)
(** * System statistics: system-stats.c

    [SystemInfo]: what one collection reads from the machine and how it is put
    into the snapshot.  [Collector]: the thread that collects, the main loop
    that enables it and takes its snapshots, and the functions of bridge.c that
    write them to the database. *)

From stdpp Require Import pretty.
From Stdlib Require Import Ascii.
From S2P Require Import Prelude OvsLib.
Local Open Scope Z_scope.

(** ** One collection *)

Module SystemInfo.

(** What fscanf assigns from /proc/PID/stat: the number of assignments, and
    the values of those made. *)
Record proc_scan := ProcScan {
  ps_n : Z;
  ps_name : string;
  ps_ppid : Z;
  ps_utime : Z;
  ps_stime : Z;
  ps_start_time : Z;
  ps_vsize : Z;
  ps_rss : Z;
}.

Record raw_process_info := RawProcess {
  raw_vsz : Z;
  raw_rss : Z;
  raw_uptime : Z;
  raw_cputime : Z;
  raw_ppid : Z;
  raw_name : string;
}.

Record process_info := ProcessInfo {
  pi_vsz : Z;
  pi_rss : Z;
  pi_booted : Z;
  pi_crashes : Z;
  pi_uptime : Z;
  pi_cputime : Z;
}.

Inductive d_type := DT_UNKNOWN | DT_REG | DT_OTHER.

Record mntent := Mntent { mnt_fsname : string; mnt_dir : string; mnt_opts : string }.

(** [struct statvfs]; [f_flag & ST_RDONLY]. *)
Record vfs := Vfs { f_frsize : Z; f_blocks : Z; f_bfree : Z; f_rdonly : bool }.

(** The machine: [None] is a file that cannot be opened.  Lines are what
    [fgets] returns. *)
Class Machine := {
  count_cpu_cores : Z;
  (** [getloadavg] printed with two digits each. *)
  loadavg : option string;
  meminfo : option (list string);
  proc_stat : option (list string);
  proc_pid_stat : Z → option proc_scan;
  (** The first line of /proc/PID/cmdline, if there is one. *)
  proc_cmdline : Z → option (option string);
  rundir : option (list (string * d_type));
  read_pidfile : string → Z;
  mtab : option (list mntent);
  statvfs : string → option vfs;
  getpagesize : Z;
  (** The clocks, by the number of readings so far. *)
  clock : nat → Z;
  wall_clock : nat → Z;
  (** [ovs_scan] with "%15[^:]: %u", "btime %lld" and "%d". *)
  scan_meminfo : string → option (string * Z);
  scan_btime : string → option Z;
  scan_int : string → option Z;
}.

(** [cache_expiration] and [boot_time] of [get_boot_time], and the readings of
    the clocks. *)
Record info_state := InfoState {
  cache_expiration : Z;
  boot_time : Z;
  readings : nat;
  wall_readings : nat;
}.

Definition info_start : info_state := InfoState LLONG_MIN 0 0 0.
Definition set_boot_time (t : Z) (s : info_state) : info_state :=
  InfoState (cache_expiration s) t (readings s) (wall_readings s).
Definition set_expiration (t : Z) (s : info_state) : info_state :=
  InfoState t (boot_time s) (readings s) (wall_readings s).

Section SystemInfo.
Context `{HM : Machine}.

Definition time_msec : M info_state Z := λ s,
  Ok (clock (readings s), InfoState (cache_expiration s) (boot_time s) (S (readings s)) (wall_readings s)).
Definition time_wall_msec : M info_state Z := λ s,
  Ok (wall_clock (wall_readings s), InfoState (cache_expiration s) (boot_time s) (readings s) (S (wall_readings s))).

Definition get_cpu_cores (stats : smap) : smap :=
  if 0 <? count_cpu_cores then <["cpu" := pretty count_cpu_cores]> stats else stats.

Definition get_load_average (stats : smap) : smap :=
  match loadavg with Some l => <["load_average" := l]> stats | None => stats end.

(** *** Memory *)

Definition memory_keys : list string := ["MemTotal"; "MemFree"; "Buffers"; "Cached"; "SwapTotal"; "SwapFree"].

(** [dict]: the variables by the key of their line; keys that are not in it are
    ignored. *)
Definition scan_memory_line (dict : gmap string Z) (line : string) : gmap string Z :=
  match scan_meminfo line with
  | Some (key, value) => match dict !! key with Some _ => <[key := value]> dict | None => dict end
  | None => dict
  end.

Definition memory_dict (lines : list string) : gmap string Z :=
  fold_left scan_memory_line lines (list_to_map ((λ k, (k, 0)) <$> memory_keys)).

Fixpoint comma_separated (l : list Z) : string :=
  match l with
  | [] => ""
  | [x] => pretty x
  | x :: l => pretty x +:+ "," +:+ comma_separated l
  end.

Definition get_memory_stats (stats : smap) : smap :=
  match meminfo with
  | None => stats
  | Some lines =>
    let dict := memory_dict lines in
    let v := λ k, default 0 (dict !! k) in
    let mem_used := v "MemTotal" - v "MemFree" in
    let mem_cache := v "Buffers" + v "Cached" in
    let swap_used := v "SwapTotal" - v "SwapFree" in
    <["memory" := comma_separated [v "MemTotal"; mem_used; mem_cache; v "SwapTotal"; swap_used]]> stats
  end.

(** *** Processes *)

Fixpoint first_btime (lines : list string) : option Z :=
  match lines with
  | [] => None
  | l :: lines => match scan_btime l with Some b => Some b | None => first_btime lines end
  end.

Definition get_boot_time : M info_state Z :=
  now ← time_msec;
  expiration ← gets cache_expiration;
  mwhen (expiration <=? now)
    (now' ← time_msec;
     modify (set_expiration (now' + 5 * 1000)) ;;
     match proc_stat with
     | None => mret tt
     | Some lines =>
       match first_btime lines with
       | Some btime => modify (set_boot_time (btime * 1000))
       | None => mret tt
       end
     end) ;;
  gets boot_time.

Definition USER_HZ : Z := 100.
Definition ticks_to_ms (ticks : Z) : Z := to_unsigned 64 (ticks * (1000 / USER_HZ)).

(** The result, and [*raw] afterwards. *)
Definition get_raw_process_info (pid : Z) (raw : raw_process_info) : M info_state (bool * raw_process_info) :=
  match proc_pid_stat pid with
  | None => mret (false, raw)
  | Some p =>
    if negb (ps_n p =? 7) then
      mret (false, if 1 <=? ps_n p
                   then RawProcess (raw_vsz raw) (raw_rss raw) (raw_uptime raw) (raw_cputime raw) (raw_ppid raw) (ps_name p)
                   else raw)
    else
      boot ← get_boot_time;
      let start_msec := to_signed 64 (boot + ticks_to_ms (ps_start_time p)) in
      wall ← time_wall_msec;
      mret (true, RawProcess (ps_vsize p / 1024) (to_unsigned 64 (ps_rss p * (getpagesize / 1024)))
                    (wall - start_msec) (to_signed 64 (ticks_to_ms (to_unsigned 64 (ps_utime p + ps_stime p))))
                    (to_signed 32 (ps_ppid p)) (ps_name p))
  end.

(** What follows the first opening parenthesis. *)
Fixpoint after_paren (s : string) : option string :=
  match s with
  | EmptyString => None
  | String c s => if Ascii.eqb c "("%char then Some s else after_paren s
  end.

Definition count_crashes (pid : Z) : Z :=
  match proc_cmdline pid with
  | Some (Some line) => default 0 (after_paren line ≫= scan_int)
  | _ => 0
  end.

(** [child] and [parent]: what is on the stack where the function declares its
    variables.  The result of reading the parent is not tested. *)
Definition get_process_info (pid : Z) (child parent : raw_process_info) : M info_state (option process_info) :=
  '(ok, child) ← get_raw_process_info pid child;
  if negb ok then mret None else
  let info := ProcessInfo (raw_vsz child) (raw_rss child) (raw_uptime child) 0 (raw_uptime child) (raw_cputime child) in
  if raw_ppid child =? 0 then mret (Some info) else
  '(_, parent) ← get_raw_process_info (raw_ppid child) parent;
  mret (Some (if bool_decide (raw_name child = raw_name parent)
              then ProcessInfo (pi_vsz info) (pi_rss info) (raw_uptime parent) (count_crashes (raw_ppid child))
                     (pi_uptime info) (pi_cputime info)
              else info)).

(** The text before and from the last dot. *)
Fixpoint split_extension (s : string) : option (string * string) :=
  match s with
  | EmptyString => None
  | String c s' =>
    match split_extension s' with
    | Some (base, ext) => Some (String c base, ext)
    | None => if Ascii.eqb c "."%char then Some (EmptyString, s) else None
    end
  end.

Definition process_text (p : process_info) : string :=
  comma_separated [pi_vsz p; pi_rss p; pi_cputime p; pi_crashes p; pi_booted p; pi_uptime p].

Definition process_entry (child parent : raw_process_info) (stats : smap) (de : string * d_type) : M info_state smap :=
  let '(d_name, t) := de in
  match t with
  | DT_OTHER => mret stats
  | _ =>
    match split_extension d_name with
    | Some (base, ext) =>
      if negb (bool_decide (ext = ".pid")) then mret stats else
      let pid := read_pidfile d_name in
      if pid <? 0 then mret stats else
      let key := "process_" +:+ base in
      match stats !! key with
      | Some _ => mret stats
      | None =>
        info ← get_process_info pid child parent;
        mret (<[key := match info with Some p => process_text p | None => "" end]> stats)
      end
    | None => mret stats
    end
  end.

Definition get_process_stats (child parent : raw_process_info) (stats : smap) : M info_state smap :=
  match rundir with
  | None => mret stats
  | Some entries => mfold (process_entry child parent) entries stats
  end.

(** *** File systems *)

Definition strstr (s needle : string) : bool :=
  match String.index 0 needle s with Some _ => true | None => false end.

(** Spaces and commas of a mount point become underscores. *)
Fixpoint mount_text (s : string) : string :=
  match s with
  | EmptyString => EmptyString
  | String c s => String (if Ascii.eqb c " "%char || Ascii.eqb c ","%char then "_"%char else c) (mount_text s)
  end.

(** [garbage]: what is on the stack where the loop declares [vfs], which is
    read when [statvfs] fails. *)
Definition filesys_entry (garbage : vfs) (s : string) (me : mntent) : string :=
  if negb (bool_decide (String.substring 0 4 (mnt_fsname me) = "/dev")) || negb (strstr (mnt_opts me) "rw") then s else
  let r := statvfs (mnt_dir me) in
  let v := default garbage r in
  if bool_decide (r = None) && f_rdonly v then s else
  let total := to_unsigned 64 (f_frsize v * f_blocks v) / 1024 in
  let free := to_unsigned 64 (f_frsize v * f_bfree v) / 1024 in
  (if bool_decide (s = "") then "" else s +:+ " ") +:+ mount_text (mnt_dir me) +:+
    "," +:+ pretty total +:+ "," +:+ pretty (to_unsigned 64 (total - free)).

Definition get_filesys_stats (garbage : vfs) (stats : smap) : smap :=
  match mtab with
  | None => stats
  | Some entries =>
    let s := fold_left (filesys_entry garbage) entries "" in
    if bool_decide (s = "") then stats else <["file_systems" := s]> stats
  end.

(** The body of the thread's loop. *)
Definition collect (child parent : raw_process_info) (garbage : vfs) : M info_state smap :=
  stats ← get_process_stats child parent (get_memory_stats (get_load_average (get_cpu_cores ∅)));
  mret (get_filesys_stats garbage stats).
End SystemInfo.
End SystemInfo.

(** ** The collector thread and the main loop *)

Module Collector.

(** Where the thread is: not created, before its test of [enabled], in
    [pthread_cond_wait], collecting, before it publishes a snapshot, asleep. *)
Inductive location {A : Type} :=
| NotStarted
| AtTest
| AtCondWait
| AtCollect
| AtPublish (stats : A)
| Asleep.
Arguments location A : clear implicits.

Section Collector.
(** Snapshots. *)
Context {A : Type}.

(** [latch]: [None] before [latch_init], then whether it is set.  [column] is
    the statistics column of the Open_vSwitch row, [lost] the snapshots that
    were taken and neither written nor freed. *)
Record shared := Shared {
  enabled : bool;
  started : bool;
  latch : option bool;
  system_stats : option A;
  pc : location A;
  column : option A;
  lost : list A;
}.

Definition set_enabled (b : bool) (s : shared) : shared :=
  Shared b (started s) (latch s) (system_stats s) (pc s) (column s) (lost s).
Definition set_started (s : shared) : shared :=
  Shared (enabled s) true (latch s) (system_stats s) (pc s) (column s) (lost s).
Definition set_latch (l : option bool) (s : shared) : shared :=
  Shared (enabled s) (started s) l (system_stats s) (pc s) (column s) (lost s).
Definition set_system_stats (x : option A) (s : shared) : shared :=
  Shared (enabled s) (started s) (latch s) x (pc s) (column s) (lost s).
Definition set_pc (l : location A) (s : shared) : shared :=
  Shared (enabled s) (started s) (latch s) (system_stats s) l (column s) (lost s).
Definition set_column (c : option A) (s : shared) : shared :=
  Shared (enabled s) (started s) (latch s) (system_stats s) (pc s) c (lost s).
Definition lose (x : A) (s : shared) : shared :=
  Shared (enabled s) (started s) (latch s) (system_stats s) (pc s) (column s) (lost s ++ [x]).

Definition start : shared := Shared false false None None NotStarted None [].

(** The latch, which has to be initialised: set, clear. *)
Definition use_latch (b : bool) : M shared unit :=
  l ← gets latch;
  match l with
  | Some _ => modify (set_latch (Some b))
  | None => die Uninitialised
  end.

Definition discard_stats : M shared unit := modify (set_system_stats None).

(** [xpthread_cond_signal]: the thread waits no longer. *)
Definition cond_signal : M shared unit :=
  modify (λ s, match pc s with AtCondWait => set_pc AtTest s | _ => s end).

(** *** The main loop *)

Definition system_stats_enable (enable : bool) : M shared unit :=
  old ← gets enabled;
  if Bool.eqb old enable then mret tt else
  mwhen enable
    (st ← gets started;
     mwhen (negb st)
       (modify (set_pc AtTest) ;;
        modify (set_latch (Some false)) ;;
        modify set_started) ;;
     discard_stats ;;
     cond_signal) ;;
  modify (set_enabled enable).

Definition system_stats_run : M shared (option A) :=
  x ← gets system_stats;
  match x with
  | None => mret None
  | Some stats =>
    use_latch false ;;
    on ← gets enabled;
    if on : bool then modify (set_system_stats None) ;; mret (Some stats)
    else discard_stats ;; mret None
  end.

(** Does [poll_block] wake up at once?  The latch is used only when enabled. *)
Definition system_stats_wait : M shared bool :=
  on ← gets enabled;
  if negb on then mret false else
  l ← gets latch;
  match l with
  | Some b => mret b
  | None => die Uninitialised
  end.

(** [enable_system_stats]: the key of the other_config column. *)
Definition enable_system_stats `{OvsLib} (other_config : smap) : bool :=
  smap_get_bool other_config "enable-statistics" false.

Definition reconfigure_system_stats `{OvsLib} (other_config : smap) : M shared unit :=
  let enable := enable_system_stats other_config in
  system_stats_enable enable ;;
  mwhen (negb enable) (modify (set_column None)).

(** [has_cfg]: there is an Open_vSwitch row; [committed]: the transaction
    succeeds.  The value is what was taken. *)
Definition run_system_stats (has_cfg committed : bool) : M shared (option A) :=
  stats ← system_stats_run;
  match stats with
  | None => mret None
  | Some x =>
    (if negb has_cfg then modify (lose x)
     else mwhen committed (modify (set_column (Some x)))) ;;
    mret (Some x)
  end.

(** *** The thread *)

(** [while (!enabled) wait] up to the next point where it can be scheduled. *)
Definition thread_test : M shared unit :=
  on ← gets enabled;
  modify (set_pc (if on : bool then AtCollect else AtCondWait)).

Definition thread_publish (stats : A) : M shared unit :=
  discard_stats ;;
  modify (set_system_stats (Some stats)) ;;
  use_latch true ;;
  modify (set_pc Asleep).

(** *** Interleavings

    Everything under the mutex is one step. *)
Inductive label :=
| Reconfigure (enable : bool)
| Contended                              (* the lock of the database is lost *)
| Run (taken : option A)
| Collected
| Published (stats : A)
| Internal.

Inductive step : shared → label → shared → Prop :=
| step_reconfigure `{OvsLib} other_config s s' :
    reconfigure_system_stats other_config s = Ok (tt, s') →
    step s (Reconfigure (enable_system_stats other_config)) s'
| step_contended s s' : system_stats_enable false s = Ok (tt, s') → step s Contended s'
| step_run has_cfg committed s x s' :
    run_system_stats has_cfg committed s = Ok (x, s') → step s (Run x) s'
| step_test s s' : pc s = AtTest → thread_test s = Ok (tt, s') → step s Internal s'
| step_spurious s : pc s = AtCondWait → step s Internal (set_pc AtTest s)
| step_collect x s : pc s = AtCollect → step s Collected (set_pc (AtPublish x) s)
| step_publish x s s' :
    pc s = AtPublish x → thread_publish x s = Ok (tt, s') → step s (Published x) s'
| step_awake s : pc s = Asleep → step s Internal (set_pc AtTest s).

(** Reachable states, with the snapshots published and those taken by the main
    loop, oldest first. *)
Definition published_by (l : label) : list A := match l with Published x => [x] | _ => [] end.
Definition taken_by (l : label) : list A := match l with Run (Some x) => [x] | _ => [] end.

Inductive history : shared → list A → list A → Prop :=
| history_start : history start [] []
| history_step s p t l s' :
    history s p t → step s l s' → history s' (p ++ published_by l) (t ++ taken_by l).
End Collector.
Arguments shared A : clear implicits.
Arguments label A : clear implicits.
End Collector.
