(* ===== verification/SystemStatsFacts.v ===== *)
(** * Theorems on system statistics

    The collector thread in every interleaving with the main loop, and what one
    collection puts into its snapshot. *)

From Stdlib Require Import Ascii.
From S2P Require Import Prelude OvsLib SystemStats.
From stdpp Require Import pretty list.
Local Open Scope Z_scope.

(** ** The thread and the main loop *)

Section Collector.
Import Collector.
Context {A : Type}.
Implicit Types s : shared A.

(** What holds whenever the mutex is free. *)
Record coherent s : Prop := {
  co_started : started s = true ↔ pc s ≠ NotStarted;
  co_latch : started s = true ↔ is_Some (latch s);
  co_enabled : enabled s = true → started s = true ∧ pc s ≠ AtCondWait;
  co_pending : is_Some (system_stats s) → latch s = Some true;
}.

Lemma coherent_collector_start : coherent start.
Proof. split; simpl; try done; by split; [|intros []]. Qed.

Lemma system_stats_enable_run b s :
  system_stats_enable b s =
  Ok (tt, if Bool.eqb (enabled s) b then s
          else if b then
            Shared true true (if started s then latch s else Some false) None
              (if started s then match pc s with AtCondWait => AtTest | l => l end else AtTest) (column s) (lost s)
          else set_enabled false s).
Proof. destruct s as [[] [] l x [] c lo], b; reflexivity. Qed.

Lemma coherent_enable b s s' : coherent s → system_stats_enable b s = Ok (tt, s') → coherent s'.
Proof.
  intros H. rewrite system_stats_enable_run. intros [= <-]. destruct (Bool.eqb (enabled s) b); [done|].
  destruct H as [Hs Hl He Hp]. destruct s as [en st l x p c lo]; simpl in *. destruct b.
  - split; simpl.
    + split; [|done]. intros _. destruct st; [|done]. destruct p; try done. by apply Hs.
    + split; [|done]. intros _. destruct st; [by apply Hl|by eexists].
    + intros _. split; [done|]. destruct st; [|done]. by destruct p.
    + by intros [].
  - by split.
Qed.

Lemma coherent_reconfigure `{HL : OvsLib} oc s s' :
  coherent s → reconfigure_system_stats oc s = Ok (tt, s') → coherent s'.
Proof.
  unfold reconfigure_system_stats. intros H ([] & s1 & E1 & E2)%bind_Ok. eapply coherent_enable in E1; [|done].
  destruct (negb _); injection E2 as <-; [|done]. by destruct E1; split.
Qed.

Lemma run_system_stats_run has_cfg committed s :
  coherent s →
  run_system_stats has_cfg committed s =
  Ok match system_stats s with
     | None => (None, s)
     | Some x =>
       let s' := Shared (enabled s) (started s) (Some false) None (pc s) (column s) (lost s) in
       if enabled s then
         (Some x, if has_cfg : bool then if committed : bool then set_column (Some x) s' else s' else lose x s')
       else (None, s')
     end.
Proof.
  intros [_ _ _ Hp]. destruct s as [en st l [x|] p c lo]; [|reflexivity]. simpl in *.
  rewrite Hp by by eexists. by destruct en, has_cfg, committed.
Qed.

Lemma coherent_taken has_cfg committed s x s' :
  coherent s → run_system_stats has_cfg committed s = Ok (x, s') → coherent s'.
Proof.
  intros H. rewrite run_system_stats_run by done. intros [= E]. revert E.
  destruct (system_stats s) as [y|] eqn:Ey; [|by intros [= <- <-]].
  assert (coherent (Shared (enabled s) (started s) (Some false) None (pc s) (column s) (lost s))) as H'.
  { destruct H as [Hs Hl He Hp]. rewrite Hp in Hl by by eexists.
    split; simpl; [done| |done|by intros []]. split; [by eexists|]. intros _. apply Hl. by eexists. }
  destruct (enabled s); [|by intros [= <- <-]].
  destruct has_cfg; [destruct committed|]; intros [= <- <-]; try done; by destruct H'; split.
Qed.

(** The thread moves on. *)
Lemma coherent_moves l s :
  coherent s → pc s ≠ NotStarted → l ≠ NotStarted → (enabled s = true → l ≠ AtCondWait) → coherent (set_pc l s).
Proof.
  intros [Hs Hl He Hp] Hpc Hl1 Hl2. split; simpl; [|done| |done].
  - split; [done|]. intros _. by apply Hs.
  - intros Hen. split; [by apply He|by apply Hl2].
Qed.

Lemma coherent_test s s' : coherent s → pc s = AtTest → thread_test s = Ok (tt, s') → coherent s'.
Proof.
  intros H Epc [= <-]. apply coherent_moves; [done|by rewrite Epc|by destruct (enabled s)|].
  by intros ->.
Qed.

Lemma thread_publish_run x s :
  coherent s → pc s = AtPublish x →
  thread_publish x s = Ok (tt, Shared (enabled s) (started s) (Some true) (Some x) Asleep (column s) (lost s)).
Proof.
  intros [Hs Hl _ _] Epc. destruct s as [en st [l|] y p c lo]; simpl in *; [done|subst p].
  destruct (proj1 Hl) as [? [=]]. by apply Hs.
Qed.

Lemma coherent_publish x s s' :
  coherent s → pc s = AtPublish x → thread_publish x s = Ok (tt, s') → coherent s' ∧ system_stats s' = Some x.
Proof.
  intros H Epc. rewrite thread_publish_run by done. intros [= <-]. split; [|done].
  destruct H as [Hs Hl He Hp]. assert (started s = true) as Hst by (apply Hs; by rewrite Epc).
  split; simpl; [done|by split; [eexists|]|done|done].
Qed.

(** What a step leaves of the pending snapshot. *)
Lemma step_snapshots s l s' :
  coherent s → step s l s' →
  coherent s' ∧ taken_by l ++ option_list (system_stats s') `sublist_of` option_list (system_stats s) ++ published_by l.
Proof.
  intros H Hst. revert H.
  destruct Hst as [HL oc s1 s2 E|s1 s2 E|has_cfg committed s1 x s2 E|s1 s2 Epc E|s1 Epc|x s1 Epc|x s1 s2 Epc E|s1 Epc];
    intros H; simpl.
  - split; [by eapply coherent_reconfigure|]. unfold reconfigure_system_stats in E.
    rewrite (bind_run _ _ _ _ _ (system_stats_enable_run _ _)) in E.
    set (b := enable_system_stats oc) in *. rewrite app_nil_r.
    destruct (Bool.eqb (enabled s1) b), b; injection E as <-; try done; apply sublist_nil_l.
  - split; [by eapply coherent_enable|]. rewrite system_stats_enable_run in E. rewrite app_nil_r.
    destruct (Bool.eqb (enabled s1) false); by injection E as <-.
  - split; [by eapply coherent_taken|]. rewrite run_system_stats_run in E by done. injection E as E. revert E.
    rewrite app_nil_r. destruct (system_stats s1) as [y|] eqn:Ey; [|intros [= <- <-]; by rewrite Ey].
    destruct (enabled s1); [|intros [= <- <-]; apply sublist_nil_l].
    destruct has_cfg; [destruct committed|]; by intros [= <- <-].
  - split; [by eapply coherent_test|]. rewrite app_nil_r. by injection E as <-.
  - rewrite app_nil_r. split; [|done]. by apply coherent_moves; rewrite ?Epc.
  - rewrite app_nil_r. split; [|done]. by apply coherent_moves; rewrite ?Epc.
  - destruct (coherent_publish _ _ _ H Epc E) as [H' ->]. split; [done|]. simpl. by apply sublist_inserts_l.
  - rewrite app_nil_r. split; [|done]. by apply coherent_moves; rewrite ?Epc.
Qed.

Lemma history_coherent s p t :
  history s p t → coherent s ∧ t ++ option_list (system_stats s) `sublist_of` p.
Proof.
  induction 1 as [|s p t l s' _ [H Hsub] Hst]; [by split; [apply coherent_collector_start|]|].
  destruct (step_snapshots s l s' H Hst) as [H' Hl]. split; [done|].
  rewrite <-app_assoc. etrans; [apply sublist_app; [reflexivity|exact Hl]|].
  rewrite app_assoc. by apply sublist_app.
Qed.

(** C23: in every interleaving of the thread with the main loop no operation
    uses the latch before it is initialised, while collection is enabled the
    thread exists and does not sleep in its condition variable, and a snapshot
    that waits for the main loop wakes it up. *)
Theorem collector_safe s p t :
  history s p t →
  (∀ b, ∃ s', system_stats_enable b s = Ok (tt, s')) ∧
  (∀ has_cfg committed, ∃ r, run_system_stats has_cfg committed s = Ok r) ∧
  (∀ x, pc s = AtPublish x → ∃ s', thread_publish x s = Ok (tt, s')) ∧
  (enabled s = true → started s = true ∧ pc s ≠ NotStarted ∧ pc s ≠ AtCondWait) ∧
  (∃ b, system_stats_wait s = Ok (b, s) ∧
        (enabled s = true → is_Some (system_stats s) → b = true)).
Proof.
  intros [H _]%history_coherent. split_and!.
  - intros b. rewrite system_stats_enable_run. by eexists.
  - intros has_cfg committed. rewrite run_system_stats_run by done. by eexists.
  - intros x Epc. rewrite thread_publish_run by done. by eexists.
  - intros Hen. destruct H as [Hs Hl He _]. destruct (He Hen). split_and!; [done|by apply Hs|done].
  - destruct H as [Hs Hl He Hp]. destruct s as [[] st l x pc c lo]; simpl in *; [|by exists false].
    destruct (He eq_refl) as [Hst _]. destruct (proj1 Hl Hst) as [b ->]. exists b. split; [done|].
    intros _ Hx. by injection (Hp Hx).
Qed.

(** C24: the main loop takes only snapshots the thread published, each at most
    once and in their order, only while collection is enabled, and writes what
    it takes when there is a row and its transaction succeeds. *)
Theorem snapshots_taken_once s p t :
  history s p t →
  t `sublist_of` p ∧
  ∀ has_cfg committed, ∃ r s', run_system_stats has_cfg committed s = Ok (r, s') ∧
    match r with
    | Some x => enabled s = true ∧ t ++ [x] `sublist_of` p ∧
                column s' = (if has_cfg && committed then Some x else column s)
    | None => column s' = column s
    end.
Proof.
  intros [H Hsub]%history_coherent. split; [by etrans; [apply sublist_inserts_r|exact Hsub]|].
  intros has_cfg committed. rewrite run_system_stats_run by done.
  destruct (system_stats s) as [x|]; [|by eexists _, _].
  destruct (enabled s); [|by eexists _, _].
  exists (Some x). by destruct has_cfg, committed; eexists.
Qed.
End Collector.

Module CollectorExample.
Import Collector.
#[local] Existing Instance ref_lib.

Definition on : smap := {["enable-statistics" := "true"]}.

(** The thread has published its first snapshot, the main loop has not run. *)
Definition published : shared nat :=
  Shared true true (Some true) (Some 7%nat) Asleep None [].

Lemma published_history : history published [7%nat] [].
Proof.
  pose (s1 := Shared (A:=nat) true true (Some false) None AtTest None []).
  pose (s2 := Shared (A:=nat) true true (Some false) None AtCollect None []).
  pose (s3 := Shared (A:=nat) true true (Some false) None (AtPublish 7%nat) None []).
  assert (step start (Reconfigure (enable_system_stats on)) s1) as H1
    by (apply step_reconfigure; vm_compute; reflexivity).
  assert (step s1 Internal s2) as H2 by (apply step_test; reflexivity).
  assert (step s2 Collected s3) as H3 by (apply (step_collect 7%nat s2); reflexivity).
  assert (step s3 (Published 7%nat) published) as H4 by (apply step_publish; reflexivity).
  exact (history_step _ _ _ _ _ (history_step _ _ _ _ _ (history_step _ _ _ _ _
          (history_step _ _ _ _ _ history_start H1) H2) H3) H4).
Qed.

Lemma collector_safe_witness :
  history published [7%nat] [] ∧ ∃ b, system_stats_wait published = Ok (b, published) ∧ b = true.
Proof.
  split; [apply published_history|].
  destruct (collector_safe published [7%nat] [] published_history) as (_ & _ & _ & _ & b & E & Hb).
  exists b. split; [exact E|]. apply Hb; [reflexivity|by eexists].
Defined.

Lemma snapshots_taken_once_witness :
  history published [7%nat] [] ∧ [] `sublist_of` [7%nat] ∧
  ∃ s', run_system_stats true true published = Ok (Some 7%nat, s') ∧ column s' = Some 7%nat.
Proof.
  split; [apply published_history|].
  destruct (snapshots_taken_once published [7%nat] [] published_history) as [Hs _].
  split; [exact Hs|]. eexists. split; [vm_compute; reflexivity|reflexivity].
Defined.

(** When collection is switched off and on again while a snapshot waits (the
    lock of the database was lost and is taken back), the snapshot is discarded
    but the latch stays set: until the next snapshot the main loop wakes up at
    once, takes nothing and leaves everything as it is. *)
Lemma discarded_snapshot_spins :
  ∃ s, history (A:=nat) s [7%nat] [] ∧ system_stats_wait s = Ok (true, s) ∧
       ∀ has_cfg committed, run_system_stats has_cfg committed s = Ok (None, s).
Proof.
  pose (off := Shared false true (Some true) (Some 7%nat) Asleep None []).
  pose (s := Shared true true (Some true) (None : option nat) Asleep None []).
  assert (step published Contended off) as H1 by (apply step_contended; reflexivity).
  assert (step off (Reconfigure (enable_system_stats on)) s) as H2
    by (apply step_reconfigure; vm_compute; reflexivity).
  exists s. split_and!; [|reflexivity|reflexivity].
  exact (history_step _ _ _ _ _ (history_step _ _ _ _ _ published_history H1) H2).
Qed.

(** A snapshot taken without an Open_vSwitch row is neither written nor freed. *)
Lemma snapshot_without_row_leaks :
  ∃ s', run_system_stats false true published = Ok (Some 7%nat, s') ∧ lost s' = [7%nat] ∧ column s' = None.
Proof. eexists. split; [vm_compute; reflexivity|by split]. Qed.
End CollectorExample.

(** ** What a snapshot contains *)

Section SystemInfo.
Import SystemInfo.
Context `{HM : Machine}.

(** The value of the last line with the key. *)
Definition last_value (lines : list string) (key : string) : option Z :=
  last (omap (λ l, match scan_meminfo l with
                   | Some (k, v) => if bool_decide (k = key) then Some v else None
                   | None => None
                   end) lines).

Lemma scan_memory_lines_lookup lines dict key :
  fold_left scan_memory_line lines dict !! key =
  (λ v, default v (last_value lines key)) <$> dict !! key.
Proof.
  revert dict. induction lines as [|l lines IH]; intros dict; simpl; [by destruct (dict !! key)|].
  rewrite IH. unfold last_value, scan_memory_line. csimpl.
  destruct (scan_meminfo l) as [[k v]|]; simpl; [|done].
  destruct (decide (k = key)) as [->|Hk].
  - rewrite bool_decide_true by done. destruct (dict !! key) eqn:E; [|by rewrite E].
    rewrite lookup_insert_eq. simpl. rewrite last_cons. by destruct (last _).
  - rewrite bool_decide_false by done. destruct (dict !! k); [|done]. by rewrite lookup_insert_ne.
Qed.

(** The five numbers are those of the last lines with the keys of /proc/meminfo,
    0 for a key without a line. *)
Lemma get_memory_stats_values lines stats :
  meminfo = Some lines →
  let v := λ k, default 0 (last_value lines k) in
  get_memory_stats stats =
  <["memory" := comma_separated [v "MemTotal"; v "MemTotal" - v "MemFree"; v "Buffers" + v "Cached";
                                 v "SwapTotal"; v "SwapTotal" - v "SwapFree"]]> stats.
Proof.
  intros E v. unfold get_memory_stats, memory_dict. rewrite E. unfold v.
  by rewrite !scan_memory_lines_lookup.
Qed.

(** *** Processes *)

(** The file is the pidfile of a process. *)
Definition pidfile_key (de : string * d_type) : option string :=
  match de.2, split_extension de.1 with
  | DT_OTHER, _ => None
  | _, Some (base, ext) =>
    if bool_decide (ext = ".pid") && negb (read_pidfile de.1 <? 0) then Some ("process_" +:+ base) else None
  | _, None => None
  end.

Lemma get_boot_time_ok s : ∃ t s', get_boot_time s = Ok (t, s').
Proof.
  unfold get_boot_time, mbind, M_bind. simpl. unfold mwhen.
  destruct (Z.leb (cache_expiration s) (clock (readings s))); [|by eexists _, _]. simpl.
  destruct proc_stat as [lines|]; [|by eexists _, _]. by destruct (first_btime lines); eexists _, _.
Qed.

Lemma get_raw_process_info_ok pid raw s : ∃ r s', get_raw_process_info pid raw s = Ok (r, s').
Proof.
  unfold get_raw_process_info. destruct (proc_pid_stat pid) as [p|]; [|by eexists _, _].
  destruct (negb _); [by eexists _, _|]. destruct (get_boot_time_ok s) as (t & s' & E).
  rewrite (bind_run _ _ _ _ _ E). by eexists _, _.
Qed.

Lemma get_process_info_ok pid child parent s : ∃ r s', get_process_info pid child parent s = Ok (r, s').
Proof.
  unfold get_process_info. destruct (get_raw_process_info_ok pid child s) as ([ok c] & s1 & E).
  rewrite (bind_run _ _ _ _ _ E). destruct (negb ok); [by eexists _, _|].
  destruct (raw_ppid c =? 0); [by eexists _, _|].
  destruct (get_raw_process_info_ok (raw_ppid c) parent s1) as ([ok2 p] & s2 & E2).
  rewrite (bind_run _ _ _ _ _ E2). by eexists _, _.
Qed.

(** One entry of the run directory: at most its own key is added. *)
Lemma process_entry_run child parent stats de s :
  ∃ stats' s', process_entry child parent stats de s = Ok (stats', s') ∧
    match pidfile_key de with
    | Some k => (∃ v, stats' !! k = Some v ∧ (stats !! k = None ∨ stats !! k = Some v)) ∧
                ∀ k', k' ≠ k → stats' !! k' = stats !! k'
    | None => stats' = stats
    end.
Proof.
  destruct de as [d_name t]. unfold process_entry, pidfile_key. simpl.
  assert (Hret : ∃ a b, (mret stats : M info_state smap) s = Ok (a, b) ∧ a = stats) by by eexists _, _.
  destruct t; [| |exact Hret]; (destruct (split_extension d_name) as [[base ext]|]; [|exact Hret]).
  all: destruct (bool_decide (ext = ".pid")); [|exact Hret]; simpl.
  all: destruct (read_pidfile d_name <? 0); [exact Hret|]; simpl.
  all: destruct (stats !! ("process_" +:+ base)) as [v|] eqn:Ek.
  1,3: eexists stats, s; split; [done|]; split; [by exists v; split; [done|right]|done].
  all: destruct (get_process_info_ok (read_pidfile d_name) child parent s) as (r & s1 & E);
       rewrite (bind_run _ _ _ _ _ E); eexists _, _; split; [reflexivity|]; split.
  all: try (intros k' Hk'; by rewrite lookup_insert_ne).
  all: eexists; rewrite lookup_insert_eq; split; [done|by left].
Qed.

(** The processes of a snapshot are those of the pidfiles of the run
    directory: besides the keys it started with, it has a key for every file
    that is the pidfile of a process, and no other; the text is empty when the
    process cannot be read. *)
Theorem get_process_stats_keys child parent entries stats s :
  rundir = Some entries →
  ∃ stats' s', get_process_stats child parent stats s = Ok (stats', s') ∧
    (∀ k, is_Some (stats' !! k) ↔ is_Some (stats !! k) ∨ k ∈ omap pidfile_key entries) ∧
    (∀ k v, stats !! k = Some v → stats' !! k = Some v).
Proof.
  unfold get_process_stats. intros ->. revert stats s.
  induction entries as [|de entries IH]; intros stats s; simpl.
  { exists stats, s. split_and!; [done| |done]. intros k. split; [by left|]. intros [?|[]%elem_of_nil]; done. }
  destruct (process_entry_run child parent stats de s) as (st1 & s1 & E1 & H1).
  rewrite (bind_run _ _ _ _ _ E1). destruct (IH st1 s1) as (st2 & s2 & E2 & H2 & H3).
  exists st2, s2. split; [done|]. csimpl. destruct (pidfile_key de) as [key|]; [|by subst st1].
  destruct H1 as [(v & Hv & Hold) Hne]. split.
  - intros k. rewrite H2, elem_of_cons. destruct (decide (k = key)) as [->|Hk]; [|rewrite Hne by done; naive_solver].
    rewrite Hv. split; [by right; left|by left; eexists].
  - intros k w Hw. apply H3. destruct (decide (k = key)) as [->|Hk]; [|by rewrite Hne].
    destruct Hold; congruence.
Qed.

(** Within five seconds of a reading, /proc/stat is not read again. *)
Lemma get_boot_time_cached s :
  clock (readings s) < cache_expiration s →
  get_boot_time s = Ok (boot_time s, InfoState (cache_expiration s) (boot_time s) (S (readings s)) (wall_readings s)).
Proof.
  intros H. unfold get_boot_time, mbind, M_bind. simpl. by rewrite (proj2 (Z.leb_gt _ _) H).
Qed.

(** *** What the tests of [statvfs] and of the parent let through *)

(** A read-only file system is reported like any other, and so is, with what
    happens to be on the stack, one that cannot be examined. *)
Lemma filesys_entry_unchecked garbage s me :
  String.substring 0 4 (mnt_fsname me) = "/dev" → strstr (mnt_opts me) "rw" = true →
  (is_Some (statvfs (mnt_dir me)) ∨ f_rdonly garbage = false) →
  let v := default garbage (statvfs (mnt_dir me)) in
  let total := to_unsigned 64 (f_frsize v * f_blocks v) / 1024 in
  filesys_entry garbage s me =
    (if bool_decide (s = "") then "" else s +:+ " ") +:+ mount_text (mnt_dir me) +:+ "," +:+ pretty total +:+ "," +:+
    pretty (to_unsigned 64 (total - to_unsigned 64 (f_frsize v * f_bfree v) / 1024)).
Proof.
  intros Hd Hrw Hv. unfold filesys_entry. rewrite bool_decide_true, Hrw by done. simpl.
  destruct (statvfs (mnt_dir me)); simpl; [done|]. destruct Hv as [[]|Hv]; [done|]. by rewrite Hv.
Qed.

(** When the parent of a process is gone, its name and uptime are taken from
    the uninitialised variable. *)
Lemma vanished_parent_read pid child parent s p :
  proc_pid_stat pid = Some p → ps_n p = 7 → to_signed 32 (ps_ppid p) ≠ 0 →
  proc_pid_stat (to_signed 32 (ps_ppid p)) = None → raw_name parent = ps_name p →
  ∃ info s', get_process_info pid child parent s = Ok (Some info, s') ∧ pi_booted info = raw_uptime parent.
Proof.
  intros Hp Hn Hpp Hpar Hname. unfold get_process_info, get_raw_process_info. rewrite Hp, Hn. simpl.
  destruct (get_boot_time_ok s) as (t & s1 & E). unfold mbind, M_bind. rewrite E. simpl.
  rewrite (proj2 (Z.eqb_neq _ _) Hpp), Hpar. simpl. rewrite Hname, bool_decide_true by done. by eexists _, _.
Qed.
End SystemInfo.

Module SystemInfoExample.
Import SystemInfo.
#[local] Instance machine : Machine := {|
  count_cpu_cores := 4;
  loadavg := None;
  meminfo := None;
  proc_stat := None;
  proc_pid_stat _ := None;
  proc_cmdline _ := None;
  rundir := Some [("ops-switchd.pid", DT_REG); ("db.sock", DT_OTHER); ("notes.txt", DT_UNKNOWN)];
  read_pidfile _ := 12;
  mtab := None;
  statvfs _ := None;
  getpagesize := 4096;
  clock _ := 1;
  wall_clock _ := 1;
  scan_meminfo _ := None;
  scan_btime _ := None;
  scan_int _ := None;
|}.

Lemma get_process_stats_keys_witness :
  let none := RawProcess 0 0 0 0 0 "" in
  ∃ stats s', get_process_stats none none ∅ info_start = Ok (stats, s') ∧
    is_Some (stats !! "process_ops-switchd").
Proof.
  intros none.
  destruct (get_process_stats_keys (HM := machine) none none
    [("ops-switchd.pid", DT_REG); ("db.sock", DT_OTHER); ("notes.txt", DT_UNKNOWN)] ∅ info_start eq_refl)
    as (stats & s' & E & Hk & _).
  exists stats, s'. split; [exact E|]. apply Hk. right. by_compute.
Defined.
End SystemInfoExample.
