(* ===== verification/VrfConfigure.v ===== *)
(** * The configuration of a VRF: the second loop of [bridge_reconfigure]

    "Complete the configuration" for one VRF: its modified ports, then its
    neighbors, routes and nexthops, in terms of [PortConfig], [Neighbor] and
    [Vrf], and its sFlow settings, in terms of [Sflow]. *)

From S2P Require Import Prelude OvsLib Blocks Vrf Neighbor.
From S2P Require PortConfig Sflow.
Import ReconfigureBlocks.
Local Open Scope Z_scope.

(** ** State *)

(** An interface of a port: [iface->type], and the type and change flag of its
    row. *)
Record vc_iface := VcIface {
  vi_name : string;
  vi_type : option string;
  vi_cfg_type : option string;
  vi_modified : bool;
}.

(** A port of a VRF: the port as [port_configure] sees it, the change flag of
    its row and of its address columns, and its interfaces. *)
Record vc_port := VcPort {
  vp_port : PortConfig.port;
  vp_modified : bool;
  vp_ip : PortConfig.ip_columns;
  vp_ifaces : list vc_iface;
}.

(** Plugin blocks with the port they are run for, hardware settings of
    interfaces, and the sFlow settings ([None]: switched off). *)
Inductive vc_event `{Sflow.SflowDefs} :=
| VrfBlock (id : block_id) (port : option string)
| SetHwIntfConfig (iface : string)
| SetSflow (options : option Sflow.ofproto_sflow_options).

Record vcst `{PortConfig.PortLib, Sflow.SflowDefs} := VcSt {
  vc_ports : list vc_port;
  vc_pst : PortConfig.pst;
  vc_l3 : st;
  vc_log : list vc_event;
}.

(** What all VRFs share: the ECMP settings of the process and the status columns
    of the Nexthop rows.  [st] has a copy, which is that of the process only while
    the VRF runs. *)
Record l3_globals := L3Globals {
  gl_ecmp : ecmp;
  gl_nh_status : gmap Z smap;
}.
Definition globals_of (t : st) : l3_globals := L3Globals (ecmp_config t) (nh_status t).
Definition with_globals (g : l3_globals) (t : st) : st := set_ecmp (gl_ecmp g) (set_nh_status (gl_nh_status g) t).

Section VrfConfigure.
Context `{HL : OvsLib, HS : Schema, HX : Posix, HP : L3Provider}.
Context `{HPL : PortConfig.PortLib, HPP : !PortConfig.PortProvider, HSF : Sflow.SflowDefs}.
Context (OVSREC_INTERFACE_TYPE_INTERNAL OVSREC_INTERFACE_TYPE_VLANSUBINT : string).

Definition vc_emit (e : vc_event) : M vcst unit :=
  modify (λ s, VcSt _ _ (vc_ports s) (vc_pst s) (vc_l3 s) (vc_log s ++ [e])).

(** Code of the other components on their part of the state. *)
Definition on_l3 {A} (c : M st A) : M vcst A := λ s,
  match c (vc_l3 s) with
  | Ok (a, t) => Ok (a, VcSt _ _ (vc_ports s) (vc_pst s) t (vc_log s))
  | Fault e => Fault e
  end.
Definition on_pst {A} (c : M PortConfig.pst A) : M vcst A := λ s,
  match c (vc_pst s) with
  | Ok (a, t) => Ok (a, VcSt _ _ (vc_ports s) t (vc_l3 s) (vc_log s))
  | Fault e => Fault e
  end.

Definition vp_name (p : vc_port) : string := PortConfig.p_name (vp_port p).
Definition put_port (p : vc_port) : M vcst unit :=
  modify (λ s, VcSt _ _ ((λ x, if bool_decide (vp_name x = vp_name p) then p else x) <$> vc_ports s)
                 (vc_pst s) (vc_l3 s) (vc_log s)).

(** ** Ports *)

(** The type of the row is read only when the structure has another type. *)
Definition hw_config_wanted (i : vc_iface) : M vcst bool :=
  match vi_type i with
  | None => mret true
  | Some t =>
    if bool_decide (t = OVSREC_INTERFACE_TYPE_INTERNAL) then mret true
    else c ← deref (vi_cfg_type i); mret (bool_decide (c = OVSREC_INTERFACE_TYPE_VLANSUBINT))
  end.

Definition configure_vrf_iface (changed : bool) (i : vc_iface) : M vcst bool :=
  if vi_modified i then
    wanted ← hw_config_wanted i;
    mwhen wanted (vc_emit (SetHwIntfConfig (vi_name i))) ;;
    mret true
  else mret changed.

(** The result tells whether a port was configured so far. *)
Definition configure_vrf_port (configured : bool) (p : vc_port) : M vcst bool :=
  port_iface_changed ← mfold configure_vrf_iface (vp_ifaces p) false;
  if vp_modified p || port_iface_changed then
    q ← on_pst (PortConfig.port_configure (vp_ip p) (vp_port p));
    put_port (VcPort q (vp_modified p) (vp_ip p) (vp_ifaces p)) ;;
    vc_emit (VrfBlock BLK_VRF_PORT_UPDATE (Some (vp_name p))) ;;
    mret true
  else mret configured.

(** ** The whole step *)

(** [cfg]: the sFlow row of the System row, if there are both; [ports]: what the
    sFlow code reads of the Port rows.  The result is the next bridge number. *)
Definition configure_vrf_sflow (cfg : option Sflow.ovsrec_sflow) (ports : list Sflow.sflow_port) (number : Z) : M vcst Z :=
  match cfg with
  | Some row =>
    let '(options, next) := Sflow.bridge_configure_sflow ports (Some row) number in
    vc_emit (SetSflow options) ;; mret next
  | None => vc_emit (SetSflow None) ;; mret number
  end.

Definition configure_vrf (neighbors : idl_neighbors) (routes : idl_routes)
    (cfg : option Sflow.ovsrec_sflow) (sflow_ports : list Sflow.sflow_port) (number : Z) : M vcst Z :=
  ports ← gets vc_ports;
  is_port_configured ← mfold configure_vrf_port ports false;
  mwhen is_port_configured
    (on_l3 (vrf_add_neighbors neighbors) ;;
     vc_emit (VrfBlock BLK_VRF_ADD_NEIGHBORS None)) ;;
  on_l3 (vrf_reconfigure_neighbors neighbors) ;;
  on_l3 (vrf_reconfigure_routes routes) ;;
  on_l3 (vrf_reconfigure_nexthops routes) ;;
  next ← configure_vrf_sflow cfg sflow_ports number;
  vc_emit (VrfBlock BLK_RECONFIGURE_NEIGHBORS None) ;;
  mret next.

(** The same in the process, which passes what the VRFs share from one to the
    next. *)
Definition configure_vrf_sharing (neighbors : idl_neighbors) (routes : idl_routes)
    (cfg : option Sflow.ovsrec_sflow) (sflow_ports : list Sflow.sflow_port) (shared : Z * l3_globals)
    : M vcst (Z * l3_globals) :=
  on_l3 (modify (with_globals shared.2)) ;;
  next ← configure_vrf neighbors routes cfg sflow_ports shared.1;
  t ← gets vc_l3;
  mret (next, globals_of t).
End VrfConfigure.
