(* ===== verification/VrfConfigureFacts.v ===== *)
(** * Theorems on the configuration of a VRF

    Neighbors, routes and nexthops of a VRF, configured one after the other:
    neighbor code leaves the routes alone and route code the neighbors, so the
    results of the three hold together at the end. *)

From S2P Require Import Prelude OvsLib Blocks Vrf VrfFacts Neighbor NeighborFacts.
From S2P Require PortConfig Sflow SflowFacts VrfWitness NeighborPoll.
From S2P Require Import VrfConfigure.
Import ReconfigureBlocks.
Local Open Scope Z_scope.

(** ** Frames *)

Section Frames.
Context `{HL : OvsLib, HS : Schema, HX : Posix, HP : L3Provider}.

(** What the code on routes leaves alone. *)
Definition same_neighbors (s s' : st) : Prop :=
  vrf_name s' = vrf_name s ∧ vrf_ports s' = vrf_ports s ∧ all_neighbors s' = all_neighbors s.

#[export] Instance same_neighbors_preorder : PreOrder same_neighbors.
Proof. split; [done|]. unfold same_neighbors. intros ???. naive_solver congruence. Qed.

Lemma strcmp_eq_keeps R `{!PreOrder R} p q : keeps R (strcmp_eq p q).
Proof. unfold strcmp_eq. keeps_auto. Qed.
#[local] Hint Resolve strcmp_eq_keeps : keeps.

Lemma nexthop_scan_keeps R `{!PreOrder R} h ip port l : keeps R (nexthop_scan h ip port l).
Proof. induction l as [|nh l IH]; simpl; keeps_auto. Qed.
#[local] Hint Resolve nexthop_scan_keeps : keeps.

Lemma nexthop_lookup_keeps R `{!PreOrder R} r ip port : keeps R (vrf_route_nexthop_lookup r ip port).
Proof. unfold vrf_route_nexthop_lookup. keeps_auto. Qed.
#[local] Hint Resolve nexthop_lookup_keeps : keeps.

(** Calls to the switch change the log and the status column only. *)
Definition same_caches (s s' : st) : Prop := same_neighbors s s' ∧ same_routes s s'.

#[export] Instance same_caches_preorder : PreOrder same_caches.
Proof. split; [by split; split|]. intros ??? [? ?] [? ?]. by split; etrans. Qed.

Lemma keeps_weaken {A} (R R' : st → st → Prop) (c : M st A) : (∀ s s', R s s' → R' s s') → keeps R c → keeps R' c.
Proof. intros HR Hc s a s' E. eapply HR, Hc, E. Qed.

Lemma route_add_caches nhs r : keeps same_caches (vrf_ofproto_route_add nhs r).
Proof.
  unfold vrf_ofproto_route_add, vrf_l3_route_action, emit, route_add_result, nexthop_set_error. keeps_auto.
Qed.

Lemma route_delete_caches nhs r b : keeps same_caches (vrf_ofproto_route_delete nhs r b).
Proof. unfold vrf_ofproto_route_delete, vrf_l3_route_action, emit. keeps_auto. Qed.

Lemma set_nh_caches nh : keeps same_caches (vrf_ofproto_set_nh nh).
Proof. unfold vrf_ofproto_set_nh. keeps_auto. Qed.

Lemma update_routes_caches n b : keeps same_caches (vrf_ofproto_update_route_with_neighbor n b).
Proof.
  pose proof route_add_caches. unfold vrf_ofproto_update_route_with_neighbor, update_route_of_nexthop. keeps_auto.
Qed.

(** *** Neighbors leave the routes alone *)

Lemma update_routes_same n b : keeps same_routes (vrf_ofproto_update_route_with_neighbor n b).
Proof. eapply keeps_weaken, update_routes_caches. by intros ?? [_ ?]. Qed.
#[local] Hint Resolve update_routes_same : keeps.

Lemma host_entry_same n : keeps same_routes (neighbor_set_l3_host_entry n).
Proof.
  unfold neighbor_set_l3_host_entry, vrf_port_lookup, neighbor_hash_delete, put_neighbor, emit. keeps_auto.
Qed.
#[local] Hint Resolve host_entry_same : keeps.

Lemma delete_entry_same n : keeps same_routes (neighbor_delete_l3_host_entry n).
Proof. unfold neighbor_delete_l3_host_entry, vrf_port_lookup, put_neighbor, emit. keeps_auto. Qed.
#[local] Hint Resolve delete_entry_same : keeps.

Lemma neighbor_program_same n : keeps same_routes (neighbor_program n).
Proof. unfold neighbor_program. keeps_auto. Qed.
#[local] Hint Resolve neighbor_program_same : keeps.

Lemma neighbor_delete_same n : keeps same_routes (neighbor_delete n).
Proof. unfold neighbor_delete, neighbor_hash_delete. keeps_auto. Qed.
#[local] Hint Resolve neighbor_delete_same : keeps.

Lemma neighbor_modify_same n row : keeps same_routes (neighbor_modify n row).
Proof. unfold neighbor_modify, put_neighbor. keeps_auto. Qed.
#[local] Hint Resolve neighbor_modify_same : keeps.

Lemma create_if_unknown_same row : keeps same_routes (create_if_unknown row).
Proof. unfold create_if_unknown, neighbor_create. keeps_auto. Qed.
#[local] Hint Resolve create_if_unknown_same : keeps.

Lemma add_neighbors_same db : keeps same_routes (vrf_add_neighbors db).
Proof. unfold vrf_add_neighbors. keeps_auto. Qed.

Lemma delete_all_neighbors_same : keeps same_routes vrf_delete_all_neighbors.
Proof. unfold vrf_delete_all_neighbors. keeps_auto. Qed.
#[local] Hint Resolve delete_all_neighbors_same : keeps.

Lemma reconfigure_neighbors_same db : keeps same_routes (vrf_reconfigure_neighbors db).
Proof.
  unfold vrf_reconfigure_neighbors, delete_stale_neighbor, modify_changed_neighbor, put_neighbor.
  keeps_auto.
Qed.

(** *** Routes leave the neighbors alone *)

Lemma route_add_same nhs r : keeps same_neighbors (vrf_ofproto_route_add nhs r).
Proof. eapply keeps_weaken, route_add_caches. by intros ?? [? _]. Qed.
Lemma route_delete_same nhs r b : keeps same_neighbors (vrf_ofproto_route_delete nhs r b).
Proof. eapply keeps_weaken, route_delete_caches. by intros ?? [? _]. Qed.
Lemma set_nh_same nh : keeps same_neighbors (vrf_ofproto_set_nh nh).
Proof. eapply keeps_weaken, set_nh_caches. by intros ?? [? _]. Qed.
#[local] Hint Resolve route_add_same route_delete_same set_nh_same : keeps.

Lemma slot_same nhs : keeps same_neighbors (ofp_slot nhs).
Proof. unfold ofp_slot. keeps_auto. Qed.
#[local] Hint Resolve slot_same : keeps.

Lemma nexthop_delete_same r nh : keeps same_neighbors (vrf_nexthop_delete r nh).
Proof. unfold vrf_nexthop_delete. keeps_auto. Qed.
#[local] Hint Resolve nexthop_delete_same : keeps.

Lemma nexthop_add_same r row : keeps same_neighbors (vrf_nexthop_add r row).
Proof. unfold vrf_nexthop_add, alloc. keeps_auto. Qed.
#[local] Hint Resolve nexthop_add_same : keeps.

Lemma delete_nh_step_same acc nh : keeps same_neighbors (delete_nh_step acc nh).
Proof. unfold delete_nh_step. keeps_auto. Qed.
#[local] Hint Resolve delete_nh_step_same : keeps.

Lemma vrf_route_delete_same r : keeps same_neighbors (vrf_route_delete r).
Proof. unfold vrf_route_delete. keeps_auto. Qed.
#[local] Hint Resolve vrf_route_delete_same : keeps.

Lemma port0_same row : keeps same_neighbors (nhr_port0_name row).
Proof. unfold nhr_port0_name. keeps_auto. Qed.
#[local] Hint Resolve port0_same : keeps.

Lemma fill_unresolved_same r rows : keeps same_neighbors (fill_unresolved_nh r rows).
Proof. induction rows as [|row rows IH]; simpl; unfold ofp_push; keeps_auto. Qed.
#[local] Hint Resolve fill_unresolved_same : keeps.

Lemma vrf_route_add_same row : keeps same_neighbors (vrf_route_add row).
Proof.
  unfold vrf_route_add, alloc, route_add_nhs, vrf_ofproto_add_resolved_nh, add_selected_nhs, collect_resolved_nh,
    single_nh_step, ofp_push. keeps_auto.
Qed.
#[local] Hint Resolve vrf_route_add_same : keeps.

Lemma vrf_route_modify_same r row : keeps same_neighbors (vrf_route_modify r row).
Proof.
  unfold vrf_route_modify, modify_delete_nhs, modify_add_nhs, modify_add_step, vrf_ofproto_update_resolved_nh.
  keeps_auto.
Qed.
#[local] Hint Resolve vrf_route_modify_same : keeps.

Lemma reconfigure_routes_same db : keeps same_neighbors (vrf_reconfigure_routes db).
Proof.
  unfold vrf_reconfigure_routes, vrf_reconfigure_ecmp, reconfigure_ecmp_field, vrf_l3_ecmp_set, vrf_l3_ecmp_hash_set,
    emit, delete_stale_route, add_new_route, modify_changed_route. keeps_auto.
Qed.

Lemma reconfigure_nexthops_same db : keeps same_neighbors (vrf_reconfigure_nexthops db).
Proof. unfold vrf_reconfigure_nexthops, modify_route_of_nexthops. keeps_auto. Qed.
End Frames.

(** ** The caches of one VRF *)

Section Caches.
Context `{HL : OvsLib, HS : Schema, HX : Posix, HP : L3Provider} (ips ports : gset string).
Context (Hsep : hashes_apart ips ports).
Local Abbreviation wf := (Vrf.wf ips ports).
Local Abbreviation row_ok := (Vrf.row_ok ips ports).
Local Abbreviation cache_ok := (VrfFacts.cache_ok ips ports).
Local Abbreviation mirrored := (VrfFacts.mirrored ips ports).
Local Abbreviation converging := (VrfFacts.converging ips ports).
Local Abbreviation nok := (NeighborFacts.nok ips ports).

Lemma nok_same_neighbors name vports s s' : nok name vports s → same_neighbors s s' → wf s' → nok name vports s'.
Proof.
  intros (_ & Hk & Hn & En & Ep) (E1 & E2 & E3) Hwf. unfold NeighborFacts.nok, nkeys, neighbor_ok in *.
  rewrite E1, E2, E3. done.
Qed.

Lemma add_neighbors_run db name vports s :
  add_accepts → nok name vports s → Forall (nrow_sound name vports) (db_neighbors db) →
  ∃ s', vrf_add_neighbors db s = Ok (tt, s') ∧ nok name vports s'.
Proof.
  intros Hacc Hs Hrows. rewrite Forall_forall in Hrows. unfold vrf_add_neighbors.
  destruct (hoare_for_inv (db_neighbors db) (λ row,
    n ← gets vrf_name; if bool_decide (n = ngr_vrf row) then create_if_unknown row else mret tt) (nok name vports))
    with (s := s) as ([] & s' & E & Hs'); [|done|by exists s'].
  intros row Hrow t Ht. step. destruct (bool_decide _); [|by exists tt, t].
  destruct (create_if_unknown_nok ips ports Hsep Hacc name vports row t Ht (Hrows row Hrow)) as (t' & E & Ht' & _).
  by exists tt, t'.
Qed.

(** What [vrf_reconfigure_nexthops] needs of a table that all VRFs share: the
    rows of this VRF are usable, and no two of them have the same protocol and
    prefix.  A row of another VRF may have those of a row of this VRF as long as
    none of its nexthops was modified: the loop looks up the routes of this VRF by
    protocol and prefix only, and gives the route the nexthops of the other row. *)
Record nexthop_rows_ok (name : string) (db : idl_routes) : Prop := {
  nr_rows : Forall row_ok (vrf_rows name (db_routes db));
  nr_keys : NoDup (row_key <$> vrf_rows name (db_routes db));
  nr_others : ∀ row, row ∈ db_routes db → rr_vrf row ≠ name → is_route_nh_rows_modified row = true →
    row_key row ∉ row_key <$> vrf_rows name (db_routes db);
}.

(** The selected rows that the third loop of [vrf_reconfigure_routes] leaves to
    [vrf_reconfigure_nexthops]. *)
Definition left_to_nexthops (name : string) (db : idl_routes) : list ovsrec_route :=
  match db_nexthops db with
  | [] => []
  | _ =>
    if nexthops_any_modified db
    then filter (λ row, is_route_nh_rows_modified row = true ∧ ¬ changed name row) (sel_rows name (db_routes db))
    else []
  end.

Lemma left_none name db s :
  left_to_nexthops name db = [] → converging name (db_routes db) (left_to_nexthops name db) s →
  mirrored name (db_routes db) s.
Proof. intros ->. apply converging_mirrored. Qed.

(** A row of another VRF changes nothing. *)
Lemma foreign_nexthops_skipped name db row s :
  nexthop_rows_ok name db → row ∈ db_routes db → rr_vrf row ≠ name →
  (∀ r, r ∈ all_routes s → rkey r ∈ row_key <$> vrf_rows name (db_routes db)) →
  modify_route_of_nexthops row s = Ok (tt, s).
Proof.
  intros Hok Hrow Hne Hkeys. unfold modify_route_of_nexthops.
  destruct (is_route_nh_rows_modified row) eqn:Em; [|by rewrite andb_false_r].
  destruct (_ && _); [|done]. simpl. step. destruct (vrf_route_hash_lookup row s) as [r|] eqn:El; [|done].
  apply route_lookup_Some in El as [Hr Ek]. destruct (nr_others _ _ Hok row Hrow Hne Em). rewrite <-Ek. by apply Hkeys.
Qed.

(** The loop over the table of all VRFs is one over the rows of this VRF. *)
Lemma nexthops_loop db s :
  nexthop_rows_ok (vrf_name s) db → cache_ok (vrf_name s) s →
  (∀ r, r ∈ all_routes s → rkey r ∈ row_key <$> vrf_rows (vrf_name s) (db_routes db)) →
  ∃ s', mfor (db_routes db) modify_route_of_nexthops s = Ok (tt, s') ∧
    nexthops_handled ips ports (vrf_name s) s (vrf_rows (vrf_name s) (db_routes db)) s'.
Proof.
  intros Hok Hc Hkeys. set (name := vrf_name s) in *.
  destruct (hoare_for (db_routes db) modify_route_of_nexthops
    (λ d, nexthops_handled ips ports name s (vrf_rows name d))) with (s := s) as ([] & s' & E & Hs').
  3: { exists s'. by split. }
  2: { split_and!; [done|done|set_solver|by left]. }
  intros d x rest Hd. assert (x ∈ db_routes db) as Hx by (rewrite Hd; set_solver).
  assert (vrf_rows name (db_routes db) = vrf_rows name d ++ vrf_rows name [x] ++ vrf_rows name rest) as Hsplit
    by (unfold vrf_rows; by rewrite Hd, <-!filter_app).
  destruct (decide (rr_vrf x = name)) as [Ex|Ex].
  - assert (vrf_rows name (d ++ [x]) = vrf_rows name d ++ [x]) as ->
      by (unfold vrf_rows; by rewrite filter_app, filter_cons_True, filter_nil by done).
    assert (vrf_rows name [x] = [x]) as E1 by (unfold vrf_rows; by rewrite filter_cons_True, filter_nil by done).
    rewrite E1 in Hsplit. eapply (modify_of_nexthops_spec ips ports Hsep _ _ _ x (vrf_rows name rest)).
    + pose proof (nr_rows _ _ Hok) as Hrows. rewrite Hsplit, !Forall_app in Hrows.
      by apply Forall_singleton, Hrows.
    + pose proof (nr_keys _ _ Hok) as Hnd. by rewrite Hsplit in Hnd.
  - assert (vrf_rows name (d ++ [x]) = vrf_rows name d) as ->
      by (unfold vrf_rows; by rewrite filter_app, filter_cons_False, filter_nil, app_nil_r by done).
    intros t Ht. exists tt, t. split; [|done]. eapply foreign_nexthops_skipped; [done|done|done|].
    intros r Hr. destruct Ht as (_ & Hk & _).
    assert (rkey r ∈ rkey <$> all_routes s) as (r0 & -> & Hr0)%list_elem_of_fmap
      by (rewrite <-Hk; by apply list_elem_of_fmap_2).
    by apply Hkeys.
Qed.

(** What remains after the routes is what the nexthops bring up to date. *)
Lemma reconfigure_nexthops_mirrored db s :
  nexthop_rows_ok (vrf_name s) db →
  converging (vrf_name s) (db_routes db) (left_to_nexthops (vrf_name s) db) s →
  ∃ s', vrf_reconfigure_nexthops db s = Ok (tt, s') ∧ mirrored (vrf_name s) (db_routes db) s'.
Proof.
  intros Hrok Hconv. unfold vrf_reconfigure_nexthops.
  pose proof (left_none (vrf_name s) db s) as Hnone. pose proof Hconv as (Hc & Hm1 & Hm2).
  unfold left_to_nexthops in *. destruct (db_nexthops db); [exists s; split; [done|by apply Hnone]|].
  destruct (nexthops_any_modified db); [|exists s; split; [done|by apply Hnone]]. clear Hnone. simpl mwhen.
  destruct (nexthops_loop db s) as (s' & E & (Hc' & Hk & Hdone & Hold)); [done|done| |].
  { intros r Hr. destruct (Hm1 r Hr) as (row & Hrow & Ek & _). rewrite <-Ek. by apply list_elem_of_fmap_2. }
  assert (Hin : ∀ row, row ∈ sel_rows (vrf_name s) (db_routes db) → row ∈ vrf_rows (vrf_name s) (db_routes db))
    by (by intros row [? _]%elem_of_sel_rows).
  assert (Hinj : ∀ row row', row ∈ vrf_rows (vrf_name s) (db_routes db) → row' ∈ vrf_rows (vrf_name s) (db_routes db) →
            row_key row = row_key row' → row = row')
    by (pose proof (nr_keys _ _ Hrok); intros row row' ? ? ?;
        by apply (NoDup_fmap_elem row_key (vrf_rows (vrf_name s) (db_routes db)))).
  assert (Hfrom : ∀ r, r ∈ all_routes s' →
    ∃ row, row ∈ sel_rows (vrf_name s) (db_routes db) ∧ route_matches row r).
  { intros r Hr.
    assert (rkey r ∈ rkey <$> all_routes s) as (r0 & E0 & Hr0)%list_elem_of_fmap
      by (rewrite <-Hk; by apply list_elem_of_fmap_2).
    destruct (Hm1 r0 Hr0) as (row0 & Hrow0 & Ek0 & Hcase).
    destruct (decide (is_route_nh_rows_modified row0 = true)) as [Hmod|Hmod].
    - exists row0. split; [|apply Hdone; congruence].
      by destruct Hcase as [[_ ?]%list_elem_of_filter|[? _]].
    - destruct Hcase as [[[? _] _]%list_elem_of_filter|[Hsel Hm0]]; [done|]. exists row0. split; [done|].
      destruct (Hold r Hr) as [Hr1|(row & Hrow & Hmod' & Ek)].
      + destruct Hc as (_ & Hkeys & _). rewrite (NoDup_fmap_elem rkey (all_routes s) r r0); done.
      + destruct Hmod. rewrite (Hinj row0 row); congruence. }
  exists s'. split; [done|]. split_and!; [done|done|].
  intros row Hrow.
  assert (row_key row ∈ rkey <$> all_routes s) as Hkey.
  { destruct (Hm2 row Hrow) as [[[[_ Hch] _]%list_elem_of_filter [?|?]]|(r & Hr & Hmr)]; [done|done|].
    rewrite <-(matches_key _ _ Hmr). by apply list_elem_of_fmap_2. }
  rewrite <-Hk in Hkey. apply list_elem_of_fmap in Hkey as (r' & E' & Hr').
  destruct (Hfrom r' Hr') as (row' & Hrow' & Hm'). exists r'. split; [done|].
  assert (row' = row) as ->; [|done]. apply Hinj; [by apply Hin|by apply Hin|].
  by rewrite <-(matches_key _ _ Hm').
Qed.

(** The part of the configuration that works on the caches. *)
Definition configure_caches (add : bool) (dbn : idl_neighbors) (dbr : idl_routes) : M st unit :=
  mwhen add (vrf_add_neighbors dbn) ;;
  vrf_reconfigure_neighbors dbn ;; vrf_reconfigure_routes dbr ;; vrf_reconfigure_nexthops dbr.

(** What a run relies on: the well-formed caches of the VRF, tables whose
    change flags tell the truth, and host entries the provider accepts.  A route
    whose own row is not modified may differ from it when one of its nexthop rows
    is.  The tables hold the rows of all VRFs; addresses of neighbors are distinct
    over all of them, since the third loop of [vrf_reconfigure_neighbors] looks
    neighbors up by address whatever the VRF of the row. *)
Record configurable (dbn : idl_neighbors) (dbr : idl_routes) (s : st) : Prop := {
  cf_action : has_l3_route_action = true;
  cf_reset : delete_resets_egress;
  cf_accepts : add_accepts;
  cf_neighbors : nok (vrf_name s) (vrf_ports s) s;
  cf_routes : cache_ok (vrf_name s) s;
  cf_nrows : Forall (nrow_sound (vrf_name s) (vrf_ports s)) (db_neighbors dbn);
  cf_naddresses : NoDup (ngr_ip_address <$> db_neighbors dbn);
  cf_nchanged : neighbors_any_modified dbn || neighbors_any_deleted dbn || neighbors_any_inserted dbn = true ∨
    nkeys s ≡ₚ resident_addresses (vrf_name s) (db_neighbors dbn);
  cf_rows : nexthop_rows_ok (vrf_name s) dbr;
  cf_hashes : NoDup (row_hash_str <$> vrf_rows (vrf_name s) (db_routes dbr));
  cf_tracked : tracked_but (vrf_name s) (db_routes dbr) (left_to_nexthops (vrf_name s) dbr) dbr s;
}.

(** The state at the end: both caches follow their tables. *)
Definition configured (dbn : idl_neighbors) (dbr : idl_routes) (s : st) : Prop :=
  mirrored (vrf_name s) (db_routes dbr) s ∧ nok (vrf_name s) (vrf_ports s) s ∧
  nkeys s ≡ₚ resident_addresses (vrf_name s) (db_neighbors dbn).

Lemma tracked_same_routes name rows others db s s' :
  same_routes s s' → tracked_but name rows others db s → tracked_but name rows others db s'.
Proof. intros (E & _) [? ? ? ?]. by split; rewrite E. Qed.

Lemma cache_ok_same_routes name s s' : same_routes s s' → cache_ok name s → cache_ok name s'.
Proof.
  intros R (Hwf & Hk & Hn). pose proof (same_routes_wf ips ports _ _ R Hwf). destruct R as (E & _ & _ & En & _).
  by split_and!; rewrite ?E, ?En.
Qed.

Lemma add_neighbors_known db s :
  nkeys s ≡ₚ resident_addresses (vrf_name s) (db_neighbors db) → vrf_add_neighbors db s = Ok (tt, s).
Proof.
  intros Hk. unfold vrf_add_neighbors.
  destruct (hoare_for_inv (db_neighbors db) (λ row,
    n ← gets vrf_name; if bool_decide (n = ngr_vrf row) then create_if_unknown row else mret tt) (λ t, t = s))
    with (s := s) as ([] & s' & E & ->); [|done|exact E].
  intros row Hrow t ->. step. exists tt, s. case_bool_decide as En; [|done]. split; [|done].
  unfold create_if_unknown. step. destruct (neighbor_hash_lookup _ s) as [n|] eqn:El; [done|].
  apply neighbor_lookup_None in El. destruct El. rewrite Hk. apply list_elem_of_fmap_2, list_elem_of_filter.
  split; [by left|done].
Qed.

(** The neighbors, whether their table changed or not. *)
Lemma neighbors_run add db s :
  delete_resets_egress → add_accepts → nok (vrf_name s) (vrf_ports s) s →
  Forall (nrow_sound (vrf_name s) (vrf_ports s)) (db_neighbors db) →
  NoDup (ngr_ip_address <$> db_neighbors db) →
  neighbors_any_modified db || neighbors_any_deleted db || neighbors_any_inserted db = true ∨
    nkeys s ≡ₚ resident_addresses (vrf_name s) (db_neighbors db) →
  ∃ s', (mwhen add (vrf_add_neighbors db) ;; vrf_reconfigure_neighbors db) s = Ok (tt, s') ∧
    nok (vrf_name s) (vrf_ports s) s' ∧ nkeys s' ≡ₚ resident_addresses (vrf_name s) (db_neighbors db) ∧
    same_routes s s'.
Proof.
  intros Hreset Hacc Hn Hrows Hnd Hany.
  assert (∃ s1, mwhen add (vrf_add_neighbors db) s = Ok (tt, s1) ∧ nok (vrf_name s) (vrf_ports s) s1 ∧
            same_routes s s1 ∧ (nkeys s ≡ₚ resident_addresses (vrf_name s) (db_neighbors db) → s1 = s))
    as (s1 & E1 & Hn1 & R1 & Hsame).
  { destruct add; [|by exists s]. destruct (add_neighbors_run db _ _ s Hacc Hn Hrows) as (s1 & E1 & Hn1).
    exists s1. split_and!; [done|done|by eapply add_neighbors_same|]. intros Hk.
    pose proof (add_neighbors_known db s Hk). simpl in E1. congruence. }
  pose proof R1 as (_ & _ & _ & En1 & Ep1). step E1.
  destruct (neighbors_any_modified db || neighbors_any_deleted db || neighbors_any_inserted db) eqn:Eany.
  - destruct (reconfigure_neighbors_run ips ports Hsep db s1) as (s2 & E2 & Hn2 & Hk2); rewrite ?En1, ?Ep1; try done.
    pose proof (reconfigure_neighbors_same _ _ _ _ E2) as R2. rewrite En1, Ep1 in *.
    exists s2. split_and!; [done|done|done|by etrans].
  - destruct Hany as [?|Hk]; [done|]. rewrite (Hsame Hk) in *. unfold vrf_reconfigure_neighbors.
    destruct (db_neighbors db) as [|row rows] eqn:Edb.
    + destruct (delete_all_nok ips ports Hsep _ _ s Hn) as (s2 & E2 & Hn2 & Hk2). exists s2.
      split_and!; [done|done|by rewrite Hk2|]. by eapply delete_all_neighbors_same.
    + apply orb_false_iff in Eany as [[-> ->]%orb_false_iff ->]. by exists s.
Qed.

Lemma configure_caches_run add dbn dbr s :
  configurable dbn dbr s →
  ∃ s', configure_caches add dbn dbr s = Ok (tt, s') ∧ vrf_name s' = vrf_name s ∧ vrf_ports s' = vrf_ports s ∧
    configured dbn dbr s'.
Proof.
  intros [Hact Hreset Hacc Hn Hc Hrows Hnd Hany Hr Hh Htr].
  destruct (neighbors_run add dbn s) as (s2 & E2 & Hn2 & Hk2 & R); [done..|].
  pose proof R as (_ & _ & _ & En2 & Ep2).
  destruct (reconfigure_routes_converging ips ports Hsep (left_to_nexthops (vrf_name s) dbr) dbr s2)
    as (s3 & E3 & Hm3); rewrite ?En2; try done.
  { by eapply cache_ok_same_routes. }
  { intros row Hrow. pose proof (nr_rows _ _ Hr) as Hok. rewrite Forall_forall in Hok. by apply Hok. }
  { by eapply tracked_same_routes. }
  pose proof (reconfigure_routes_same _ _ _ _ E3) as R3. pose proof R3 as (En3 & Ep3 & _).
  assert (vrf_name s3 = vrf_name s) as En by congruence.
  rewrite En2, <-En in Hm3. rewrite <-En in Hr.
  destruct (reconfigure_nexthops_mirrored dbr s3 Hr) as (s4 & E4 & Hm4); [done|].
  pose proof (reconfigure_nexthops_same _ _ _ _ E4) as R4. pose proof R4 as (En4 & Ep4 & _).
  assert (same_neighbors s2 s4) as R24 by (by etrans).
  exists s4. split.
  { unfold configure_caches. apply bind_Ok in E2 as ([] & s1 & E1 & E2). by step E1; step E2; step E3. }
  assert (vrf_name s4 = vrf_name s) as En' by congruence. assert (vrf_ports s4 = vrf_ports s) as Ep by congruence.
  split; [done|]. split; [done|]. unfold configured. rewrite En', Ep. rewrite En in Hm4. split_and!; [done| |].
  - eapply nok_same_neighbors; [done|done|]. by destruct Hm4 as ((? & _) & _).
  - destruct R24 as (_ & _ & E). unfold nkeys in *. by rewrite E.
Qed.
End Caches.

(** ** Ports *)

Section Configure.
Context `{HL : OvsLib, HS : Schema, HX : Posix, HP : L3Provider} (ips ports : gset string).
Context `{HPL : PortConfig.PortLib, HPP : !PortConfig.PortProvider, HSF : Sflow.SflowDefs}.
Context (Hsep : hashes_apart ips ports).
Context (type_internal type_vlansubint : string).

(** The ports registered with the switch, in order. *)
Definition registered (l : list PortConfig.port_event) : list string :=
  omap (λ e, match e with PortConfig.BundleRegister n _ => Some n | _ => None end) l.

Lemma registered_intervals interval (l : list PortConfig.port_iface) :
  registered ((λ i, PortConfig.SetMiimonInterval (PortConfig.pi_name i) interval) <$> l) = [].
Proof. by induction l. Qed.

Lemma port_configure_run c p s :
  ∃ q s', PortConfig.port_configure c p s = Ok (q, s') ∧ PortConfig.p_name q = PortConfig.p_name p ∧
    registered (PortConfig.port_log s') = registered (PortConfig.port_log s) ++ [PortConfig.p_name p].
Proof.
  unfold PortConfig.port_configure. destruct (PortConfig.enable_lacp _ _) as [lacp act].
  destruct (PortConfig.port_vlan_settings _) as [mode vlan].
  destruct (PortConfig.bond_step_run p (PortConfig.mb_hw_bond_should_exist (PortConfig.port_members p lacp)) s)
    as (b & Eb & _).
  step Eb. do 2 step. simpl.
  match goal with |- context [PortConfig.add_port_event (PortConfig.BundleRegister _ ?st) ?s0] =>
    set (s1 := PortConfig.add_port_event (PortConfig.BundleRegister (PortConfig.p_name p) st) s0) end.
  destruct (PortConfig.publish_run p (PortConfig.ofproto_bundle_get (PortConfig.port_log s1) (PortConfig.p_name p)) s1)
    as (s' & E & El & _).
  eexists _, s'. split; [erewrite bind_run by exact E; reflexivity|]. split; [done|].
  rewrite El. unfold s1. simpl. unfold registered. rewrite !omap_app. simpl.
  by rewrite (registered_intervals _ (PortConfig.p_ifaces p)), app_nil_r.
Qed.

(** The port or one of its interfaces was modified. *)
Definition port_needs (p : vc_port) : bool := vp_modified p || existsb vi_modified (vp_ifaces p).

(** The type of a row is not null. *)
Definition types_ok (p : vc_port) : Prop := ∀ i, i ∈ vp_ifaces p → is_Some (vi_cfg_type i).

(** Changes of the log of this step only. *)
Definition only_vc_log (s s' : vcst) : Prop :=
  vc_ports s' = vc_ports s ∧ vc_pst s' = vc_pst s ∧ vc_l3 s' = vc_l3 s.

Lemma hw_config_wanted_run i s :
  is_Some (vi_cfg_type i) → ∃ b, hw_config_wanted type_internal type_vlansubint i s = Ok (b, s).
Proof.
  intros [t Ht]. unfold hw_config_wanted. destruct (vi_type i); [|by eexists].
  destruct (bool_decide _); [by eexists|]. rewrite Ht. by eexists.
Qed.

Lemma configure_vrf_iface_run changed i s :
  is_Some (vi_cfg_type i) →
  ∃ s', configure_vrf_iface type_internal type_vlansubint changed i s = Ok (changed || vi_modified i, s') ∧
    only_vc_log s s'.
Proof.
  intros Hi. unfold configure_vrf_iface. destruct (vi_modified i); [|by exists s; rewrite orb_false_r].
  destruct (hw_config_wanted_run i s Hi) as [b E]. step E. rewrite orb_true_r.
  destruct b; simpl; [by eexists|by exists s].
Qed.

Lemma configure_ifaces_run l changed s :
  (∀ i, i ∈ l → is_Some (vi_cfg_type i)) →
  ∃ s', mfold (configure_vrf_iface type_internal type_vlansubint) l changed s =
    Ok (changed || existsb vi_modified l, s') ∧ only_vc_log s s'.
Proof.
  revert changed s. induction l as [|i l IH]; intros changed s Hl; simpl.
  { exists s. by rewrite orb_false_r. }
  destruct (configure_vrf_iface_run changed i s) as (s1 & E1 & Ho); [apply Hl; left|]. step E1.
  destruct (IH (changed || vi_modified i) s1) as (s2 & E2 & Ho2); [intros; apply Hl; by right|].
  exists s2. rewrite orb_assoc. split; [done|]. unfold only_vc_log in *. naive_solver congruence.
Qed.

Lemma configure_vrf_port_run configured p s :
  types_ok p →
  ∃ s', configure_vrf_port type_internal type_vlansubint configured p s = Ok (configured || port_needs p, s') ∧
    vc_l3 s' = vc_l3 s ∧ vp_name <$> vc_ports s' = vp_name <$> vc_ports s ∧
    registered (PortConfig.port_log (vc_pst s')) =
    registered (PortConfig.port_log (vc_pst s)) ++ (if port_needs p then [vp_name p] else []).
Proof.
  intros Ht. unfold configure_vrf_port, port_needs.
  destruct (configure_ifaces_run (vp_ifaces p) false s Ht) as (s1 & E1 & (Ep & Eq & El)).
  step E1. simpl. destruct (vp_modified p || existsb vi_modified (vp_ifaces p)).
  - destruct (port_configure_run (vp_ip p) (vp_port p) (vc_pst s1)) as (q & t & E2 & Hq & Hreg).
    assert (on_pst (PortConfig.port_configure (vp_ip p) (vp_port p)) s1 =
            Ok (q, VcSt _ _ (vc_ports s1) t (vc_l3 s1) (vc_log s1))) as E3 by (unfold on_pst; by rewrite E2).
    step E3. do 2 step. eexists. rewrite orb_true_r. split; [reflexivity|]. simpl. split; [done|]. split.
    + rewrite <-list_fmap_compose, <-Ep. apply list_fmap_ext. intros j x _. simpl. unfold vp_name at 3. simpl.
      case_bool_decide as E; [|done]. by rewrite E.
    + by rewrite Hreg, Eq.
  - exists s1. rewrite orb_false_r, app_nil_r, El, Ep, Eq. done.
Qed.

Lemma configure_vrf_ports_run l configured s :
  Forall types_ok l →
  ∃ s', mfold (configure_vrf_port type_internal type_vlansubint) l configured s =
      Ok (configured || existsb port_needs l, s') ∧
    vc_l3 s' = vc_l3 s ∧ vp_name <$> vc_ports s' = vp_name <$> vc_ports s ∧
    registered (PortConfig.port_log (vc_pst s')) =
    registered (PortConfig.port_log (vc_pst s)) ++ (vp_name <$> filter (λ p, port_needs p = true) l).
Proof.
  intros Hl. revert configured s. induction Hl as [|p l Hp _ IH]; intros configured s; simpl.
  { exists s. by rewrite orb_false_r, app_nil_r. }
  destruct (configure_vrf_port_run configured p s Hp) as (s1 & E1 & L1 & N1 & R1).
  step E1. destruct (IH (configured || port_needs p) s1) as (s2 & E2 & L2 & N2 & R2).
  exists s2. rewrite orb_assoc. split; [done|]. split; [congruence|]. split; [congruence|].
  rewrite R2, R1, <-app_assoc. f_equal. rewrite filter_cons. by destruct (port_needs p).
Qed.

(** Several commands on the caches in a row. *)
Lemma on_l3_bind {A B C} (c : M st A) (d : M st B) (k : B → M vcst C) s :
  (on_l3 c ;; (x ← on_l3 d; k x)) s = (x ← on_l3 (c ;; d); k x) s.
Proof.
  unfold on_l3, mbind, M_bind. destruct (c (vc_l3 s)) as [[a t]|]; simpl; [|done].
  by destruct (d t) as [[b u]|].
Qed.

(** The sFlow settings a VRF was given, in order. *)
Definition vrf_sflow (l : list vc_event) : list (option Sflow.ofproto_sflow_options) :=
  omap (λ e, match e with SetSflow o => Some o | _ => None end) l.

(** Only [configure_vrf_sflow] changes them. *)
Definition same_sflow (s s' : vcst) : Prop := vrf_sflow (vc_log s') = vrf_sflow (vc_log s).

#[export] Instance same_sflow_preorder : PreOrder same_sflow.
Proof. split; [done|]. unfold same_sflow. intros ???. congruence. Qed.

Lemma vc_emit_sflow e : (∀ o, e ≠ SetSflow o) → keeps same_sflow (vc_emit e).
Proof.
  intros He. apply keeps_modify. intros s. unfold same_sflow, vrf_sflow. simpl. rewrite omap_app.
  destruct e; simpl; rewrite ?app_nil_r; [done..|]. by destruct (He options).
Qed.

Lemma on_l3_sflow {A} (c : M st A) : keeps same_sflow (on_l3 c).
Proof. intros s a s'. unfold on_l3. destruct (c (vc_l3 s)) as [[b t]|]; [|done]. by intros [= _ <-]. Qed.

Lemma on_pst_sflow {A} (c : M PortConfig.pst A) : keeps same_sflow (on_pst c).
Proof. intros s a s'. unfold on_pst. destruct (c (vc_pst s)) as [[b t]|]; [|done]. by intros [= _ <-]. Qed.
#[local] Hint Resolve on_l3_sflow on_pst_sflow : keeps.
#[local] Hint Extern 1 (keeps same_sflow (vc_emit _)) => (apply vc_emit_sflow; done) : keeps.

Lemma configure_vrf_port_sflow configured p :
  keeps same_sflow (configure_vrf_port type_internal type_vlansubint configured p).
Proof. unfold configure_vrf_port, configure_vrf_iface, hw_config_wanted, put_port. keeps_auto. Qed.

(** The settings for bridge number [number], and how many numbers are used up. *)
Definition sflow_sent (cfg : option Sflow.ovsrec_sflow) (sflow_ports : list Sflow.sflow_port) (number : Z)
    : option Sflow.ofproto_sflow_options :=
  row ← cfg; (Sflow.bridge_configure_sflow sflow_ports (Some row) number).1.
Definition sflow_step (cfg : option Sflow.ovsrec_sflow) : Z := match cfg with Some _ => 1 | None => 0 end.

Lemma configure_vrf_sflow_run cfg sflow_ports number s :
  ∃ s', configure_vrf_sflow cfg sflow_ports number s = Ok (number + sflow_step cfg, s') ∧
    vc_l3 s' = vc_l3 s ∧ vc_pst s' = vc_pst s ∧ vrf_sflow (vc_log s') = vrf_sflow (vc_log s) ++ [sflow_sent cfg sflow_ports number].
Proof.
  unfold configure_vrf_sflow, vrf_sflow. destruct cfg as [row|]; simpl; eexists; (split; [step; rewrite ?Z.add_0_r; reflexivity|]);
    simpl; by rewrite omap_app.
Qed.

(** The configuration of a VRF is a whole.  It returns after registering
    exactly the ports that were modified themselves or in an interface, in
    order; afterwards both caches follow their tables, and the switch has the
    sFlow settings with the number of the VRF. *)
Lemma configure_vrf_run dbn dbr cfg sflow_ports number s :
  configurable ips ports dbn dbr (vc_l3 s) → Forall types_ok (vc_ports s) →
  ∃ s',
    configure_vrf type_internal type_vlansubint dbn dbr cfg sflow_ports number s = Ok (number + sflow_step cfg, s') ∧
    vrf_name (vc_l3 s') = vrf_name (vc_l3 s) ∧ vrf_ports (vc_l3 s') = vrf_ports (vc_l3 s) ∧
    configured ips ports dbn dbr (vc_l3 s') ∧
    registered (PortConfig.port_log (vc_pst s')) =
      registered (PortConfig.port_log (vc_pst s)) ++ (vp_name <$> filter (λ p, port_needs p = true) (vc_ports s)) ∧
    vrf_sflow (vc_log s') = vrf_sflow (vc_log s) ++ [sflow_sent cfg sflow_ports number].
Proof.
  intros Hc Ht. unfold configure_vrf. step.
  destruct (configure_vrf_ports_run (vc_ports s) false s Ht) as (s1 & E1 & L1 & _ & R1).
  assert (same_sflow s s1) as F1.
  { eapply keeps_fold; [apply _| |exact E1]. intros b x. apply configure_vrf_port_sflow. }
  step E1. rewrite <-L1 in *. simpl. set (add := existsb port_needs (vc_ports s)).
  destruct (configure_caches_run ips ports Hsep add dbn dbr (vc_l3 s1) Hc) as (t & E & En & Ep & Hconf).
  assert (∃ u, mwhen add (on_l3 (vrf_add_neighbors dbn) ;; vc_emit (VrfBlock BLK_VRF_ADD_NEIGHBORS None)) s1 =
      Ok (tt, u) ∧ ∃ v, (on_l3 (vrf_reconfigure_neighbors dbn) ;; on_l3 (vrf_reconfigure_routes dbr) ;;
      on_l3 (vrf_reconfigure_nexthops dbr)) u = Ok (tt, v) ∧
      vc_l3 v = t ∧ vc_pst v = vc_pst s1 ∧ same_sflow s1 v) as (u & G1 & v & G2 & <- & Epst & F2).
  { unfold configure_caches in E.
    apply bind_Ok in E as ([] & t1 & C1 & ([] & t2 & C2 & ([] & t3 & C3 & C4)%bind_Ok)%bind_Ok).
    assert (∀ c t u, c (vc_l3 u) = Ok (tt, t) → on_l3 c u = Ok (tt, VcSt _ _ (vc_ports u) (vc_pst u) t (vc_log u))) as Hon.
    { intros c t' u' Ec. unfold on_l3. by rewrite Ec. }
    assert (∃ u, mwhen add (on_l3 (vrf_add_neighbors dbn) ;; vc_emit (VrfBlock BLK_VRF_ADD_NEIGHBORS None)) s1 =
      Ok (tt, u) ∧ vc_l3 u = t1 ∧ vc_pst u = vc_pst s1 ∧ same_sflow s1 u) as (u & G1 & <- & Gp & Gs).
    { destruct add; simpl in *; [|injection C1 as <-; by exists s1].
      step (Hon _ _ _ C1). eexists. split; [reflexivity|]. unfold same_sflow, vrf_sflow. simpl.
      by rewrite omap_app, app_nil_r. }
    exists u. split; [done|]. eexists. split; [step (Hon _ t2 u C2);
      step (Hon _ t3 (VcSt _ _ (vc_ports u) (vc_pst u) t2 (vc_log u)) C3);
      exact (Hon _ t (VcSt _ _ (vc_ports u) (vc_pst u) t3 (vc_log u)) C4)|]. done. }
  apply bind_Ok in G2 as ([] & v1 & G2 & ([] & v2 & G3 & G4)%bind_Ok).
  destruct (configure_vrf_sflow_run cfg sflow_ports number v) as (w & Ew & Wl & Wp & Ws).
  step G1. step G2. step G3. step G4. step Ew. step.
  eexists. split; [reflexivity|]. simpl. rewrite Wl, Wp, Epst. split_and!; try done.
  unfold vrf_sflow in *. rewrite omap_app. simpl. rewrite app_nil_r, Ws. unfold same_sflow, vrf_sflow in *. congruence.
Qed.

(** What the VRFs share has no part in what a run relies on. *)
Lemma configurable_globals dbn dbr g t :
  configurable ips ports dbn dbr t → configurable ips ports dbn dbr (with_globals g t).
Proof. intros [? ? ? Hn Hr ? ? ? ? ? []]. split; [done|done|done|exact Hn|exact Hr|done..|by split]. Qed.

Lemma configure_vrf_sharing_run dbn dbr cfg sflow_ports shared s :
  configurable ips ports dbn dbr (vc_l3 s) → Forall types_ok (vc_ports s) →
  ∃ g s',
    configure_vrf_sharing type_internal type_vlansubint dbn dbr cfg sflow_ports shared s =
      Ok ((shared.1 + sflow_step cfg, g), s') ∧
    vrf_name (vc_l3 s') = vrf_name (vc_l3 s) ∧ vrf_ports (vc_l3 s') = vrf_ports (vc_l3 s) ∧
    configured ips ports dbn dbr (vc_l3 s') ∧
    registered (PortConfig.port_log (vc_pst s')) =
      registered (PortConfig.port_log (vc_pst s)) ++ (vp_name <$> filter (λ p, port_needs p = true) (vc_ports s)) ∧
    vrf_sflow (vc_log s') = vrf_sflow (vc_log s) ++ [sflow_sent cfg sflow_ports shared.1].
Proof.
  intros Hc Ht. set (s1 := VcSt _ _ (vc_ports s) (vc_pst s) (with_globals shared.2 (vc_l3 s)) (vc_log s)).
  destruct (configure_vrf_run dbn dbr cfg sflow_ports shared.1 s1) as (s' & E & Hs');
    [by apply configurable_globals|done|].
  exists (globals_of (vc_l3 s')), s'. split; [|exact Hs']. unfold configure_vrf_sharing.
  erewrite bind_run by reflexivity. fold s1. step E. by step.
Qed.
End Configure.

(** ** Instance *)

Module VrfConfigureExample.
Import VrfWitness NeighborPoll.
#[local] Existing Instances ref_lib ref_schema ref_l3 ref_posix.

#[local] Instance port_lib : PortConfig.PortLib := {|
  PortConfig.bond_mode := nat;
  PortConfig.BM_L3_SRC_DST_HASH := 0%nat;
  PortConfig.bond_mode_from_string _ := None;
  PortConfig.scan_eth_addr _ := false;
  PortConfig.PORT_HW_CONFIG_MAP_ENABLE := "enable";
  PortConfig.PORT_HW_CONFIG_MAP_ENABLE_DEFAULT := false;
  PortConfig.INTERFACE_HW_BOND_CONFIG_MAP_RX_ENABLED := "rx_enabled";
  PortConfig.INTERFACE_HW_BOND_CONFIG_MAP_TX_ENABLED := "tx_enabled";
  PortConfig.PORT_OTHER_CONFIG_MAP_BOND_MODE := "bond_mode";
  PortConfig.PORT_STATUS_BOND_HW_HANDLE := "bond_hw_handle";
|}.
#[local] Instance port_provider : PortConfig.PortProvider := {| PortConfig.ofproto_bundle_get _ _ := -1 |}.

Definition eth1_row : PortConfig.ovsrec_port :=
  PortConfig.PortRow 5 None [] None None None ∅ ∅ ∅ ∅ (Some "10.0.0.1/24") None [] [].
Definition eth1 : vc_port :=
  VcPort (PortConfig.Port "eth1" eth1_row [PortConfig.PortIface "1" 4 ∅] (-1)) false
    (PortConfig.IpColumns true false false false) [VcIface "1" (Some "system") (Some "system") true].

#[local] Existing Instance SflowFacts.SflowExample.defs.

Definition start : vcst := VcSt _ _ [eth1] (PortConfig.PSt _ ∅ []) ex_start [].

(** A second VRF, with a neighbor of its own and a route with the protocol and
    prefix of a route of the first. *)
Definition blue_neighbor : ovsrec_neighbor :=
  NeighborRow 22 "2.2.2.2" (Some "00:00:00:00:00:02") (Some "eth2") None "blue" false false.
Definition blue_nexthop : ovsrec_nexthop := NexthopRow 14 (Some "2.2.2.2") [] None false false.
Definition blue_route (inserted : bool) : ovsrec_route :=
  RouteRow 4 "bgp" "10.0.0.0/8" None "blue" (Some true) [blue_nexthop] inserted inserted.
Definition eth2 : vc_port :=
  VcPort (PortConfig.Port "eth2" eth1_row [PortConfig.PortIface "2" 5 ∅] (-1)) false
    (PortConfig.IpColumns true false false false) [VcIface "2" (Some "system") (Some "system") true].
Definition blue_start : vcst :=
  VcSt _ _ [eth2] (PortConfig.PSt _ ∅ []) (St "blue" ["eth2"] [] [] [] ∅ ecmp_default 100 []) [].

(** The tables of both. *)
Definition neighbors : idl_neighbors := IdlNeighbors [ex_neighbor_row; blue_neighbor] false false true.
Definition routes : idl_routes := ex_db [ex_row; blue_route true].

Lemma blue_route_ok inserted : row_ok ex_ips ex_ports (blue_route inserted).
Proof.
  split_and!; [|by_compute|simpl; lia]. apply Forall_singleton. split_and!; try done.
  intros i [= <-]. by_compute.
Qed.

Lemma neighbors_sound name vport mine other :
  ngr_vrf mine = name → ngr_port mine = Some vport → ngr_vrf other ≠ name →
  (∀ p, ngr_port other = Some p → p ≠ vport ∧ p ≠ "") →
  nrow_sound name [vport] mine ∧ nrow_sound name [vport] other.
Proof.
  intros Em Ep Eo Hp. unfold nrow_sound. rewrite decide_True, decide_False by done. split.
  - rewrite Ep. intros p [= <-]. by left.
  - intros p E. destruct (Hp p E). by rewrite list_elem_of_singleton.
Qed.

Lemma red_neighbors_sound : Forall (nrow_sound "red" ["eth1"]) (db_neighbors neighbors).
Proof.
  destruct (neighbors_sound "red" "eth1" ex_neighbor_row blue_neighbor) as [Hs1 Hs2]; try done.
  { by intros p [= <-]. }
  apply Forall_cons_2; [exact Hs1|by apply Forall_singleton].
Qed.

Lemma blue_neighbors_sound : Forall (nrow_sound "blue" ["eth2"]) (db_neighbors neighbors).
Proof.
  destruct (neighbors_sound "blue" "eth2" blue_neighbor ex_neighbor_row) as [Hs1 Hs2]; try done.
  { by intros p [= <-]. }
  apply Forall_cons_2; [exact Hs2|by apply Forall_singleton].
Qed.

Lemma routes_nexthops_unmodified row : row ∈ db_routes routes → is_route_nh_rows_modified row = false.
Proof. intros [->| ->%list_elem_of_singleton]%elem_of_cons; by_compute. Qed.

Lemma empty_tracked name rows others db t :
  routes_any_inserted db = true → all_routes t = [] → tracked_but name rows others db t.
Proof.
  intros Hi Ht. split; rewrite Ht; [|by intros ??? %elem_of_nil|by intros ??%elem_of_nil|by intros ???%elem_of_nil].
  intros row _ _. right; left. split; [done|apply not_elem_of_nil].
Qed.

Lemma start_configurable : configurable ex_ips ex_ports neighbors routes (vc_l3 start).
Proof.
  split; [reflexivity|apply ex_resets|apply ex_accepts| | |exact red_neighbors_sound|by_compute|by left| |by_compute|
    by apply empty_tracked].
  - split_and!; [apply ex_start_wf|by_compute| |done|done].
    intros n Hn _. apply list_elem_of_singleton in Hn as ->. exists "eth1". split; [done|by_compute].
  - split_and!; [apply ex_start_wf|constructor|done].
  - split; [apply Forall_singleton, ex_row_ok|by_compute|].
    intros row Hrow _ Hm. by rewrite (routes_nexthops_unmodified row Hrow) in Hm.
Qed.

Lemma blue_configurable : configurable ex_ips ex_ports neighbors routes (vc_l3 blue_start).
Proof.
  assert (Vrf.wf ex_ips ex_ports (vc_l3 blue_start)) as Hwf by (split; simpl; try constructor).
  split; [reflexivity|apply ex_resets|apply ex_accepts| | |exact blue_neighbors_sound|by_compute|by left| |by_compute|
    by apply empty_tracked].
  - split_and!; [exact Hwf|constructor|by intros n ?%elem_of_nil|done|done].
  - split_and!; [exact Hwf|constructor|done].
  - split; [apply Forall_singleton, blue_route_ok|by_compute|].
    intros row Hrow _ Hm. by rewrite (routes_nexthops_unmodified row Hrow) in Hm.
Qed.

End VrfConfigureExample.
