(* ===== verification/VrfHistory.v ===== *)
(** * A VRF in histories of the database

    What the change flags of the IDL say about two successive contents of the
    tables, and that a VRF that is configured after each change follows them. *)

From S2P Require Import Prelude OvsLib Vrf VrfFacts Neighbor NeighborFacts VrfConfigure VrfConfigureFacts.
From S2P Require PortConfig Sflow SflowFacts VrfWitness NeighborPoll.
Local Open Scope Z_scope.

(** ** Change flags that tell the truth *)

(** What one run of the configuration finds: the tables of neighbors and routes;
    the ports of the VRF with their change flags, as the earlier part of the
    reconfiguration left them; the sFlow settings with the next number; and what
    the other VRFs left of the variables all share.  The tables are those of all
    VRFs. *)
Record vrf_trip `{PortConfig.PortLib} := VrfTrip {
  vt_neighbors : idl_neighbors;
  vt_routes : idl_routes;
  vt_ports : list vc_port;
  vt_sflow : option Sflow.ovsrec_sflow;
  vt_sflow_ports : list Sflow.sflow_port;
  vt_number : Z;
  vt_globals : l3_globals;
}.

Definition no_tables `{PortConfig.PortLib} : vrf_trip :=
  VrfTrip _ (IdlNeighbors [] false false false) (IdlRoutes [] false false false [] false None false) [] None [] 0
    (L3Globals ecmp_default ∅).

(** A nexthop row that is neither modified nor new has the columns it had. *)
Definition nexthop_kept (db : idl_routes) (n0 n : ovsrec_nexthop) : Prop :=
  (nhr_ip_address n0 = nhr_ip_address n ∧ nhr_ports n0 = nhr_ports n ∧ nhr_selected n0 = nhr_selected n) ∨
  (nhr_modified n = true ∧ nhr_inserted n = false ∧ nexthops_any_modified db = true ∧ db_nexthops db ≠ []).

(** A route row that was there before: its key has not changed, and unless it is
    modified neither has the rest. *)
Definition route_kept (db : idl_routes) (row0 row : ovsrec_route) : Prop :=
  row_key row0 = row_key row ∧ rr_inserted row = false ∧
  ((rr_modified row = true ∧ routes_any_modified db = true) ∨
   (rr_modified row = false ∧ rr_selected row0 = rr_selected row ∧
    Forall2 (nexthop_kept db) (rr_nexthops row0) (rr_nexthops row))).

(** A new route row: its key was not there before, or the row that had it was
    deleted. *)
Definition route_inserted (old : list ovsrec_route) (db : idl_routes) (row : ovsrec_route) : Prop :=
  rr_inserted row = true ∧ routes_any_inserted db = true ∧
  (row_key row ∉ row_key <$> old ∨ routes_any_deleted db = true).

(** A relation between any two successive trips. *)
Fixpoint along `{PortConfig.PortLib} (R : vrf_trip → vrf_trip → Prop) (t0 : vrf_trip) (ts : list vrf_trip) : Prop :=
  match ts with
  | [] => True
  | t :: ts => R t0 t ∧ along R t ts
  end.

Section History.
Context `{HL : OvsLib, HS : Schema, HX : Posix, HP : L3Provider} (ips ports : gset string).
Context `{HPL : PortConfig.PortLib, HPP : !PortConfig.PortProvider, HSF : Sflow.SflowDefs}.
Context (type_internal type_vlansubint : string).
Context (Hsep : hashes_apart ips ports).
Context (Hact : has_l3_route_action = true) (Hreset : delete_resets_egress) (Hacc : add_accepts).
Context (name : string) (vports : list string).
Local Abbreviation cache_ok := (VrfFacts.cache_ok ips ports).
Local Abbreviation mirrored := (VrfFacts.mirrored ips ports).
Local Abbreviation nok := (NeighborFacts.nok ips ports).
Local Abbreviation route_rows t := (vrf_rows name (db_routes (vt_routes t))).

Record routes_updated (old : list ovsrec_route) (db : idl_routes) : Prop := {
  ru_rows : ∀ row, row ∈ vrf_rows name (db_routes db) →
    (∃ row0, row0 ∈ old ∧ route_kept db row0 row) ∨ route_inserted old db row;
  ru_deleted : ∀ row0, row0 ∈ old →
    row_key row0 ∈ row_key <$> vrf_rows name (db_routes db) ∨ routes_any_deleted db = true;
}.

Definition neighbors_updated (old db : idl_neighbors) : Prop :=
  neighbors_any_modified db || neighbors_any_deleted db || neighbors_any_inserted db = true ∨
  resident_addresses name (db_neighbors old) ≡ₚ resident_addresses name (db_neighbors db).

Definition updated (t0 t : vrf_trip) : Prop :=
  routes_updated (route_rows t0) (vt_routes t) ∧ neighbors_updated (vt_neighbors t0) (vt_neighbors t).

(** The change flags of every update tell the truth. *)
Definition truthful : vrf_trip → list vrf_trip → Prop := along updated.

(** A route that is deleted and inserted again in one update, and is selected
    before and after, has the same selected nexthops. *)
Definition reinsertion_keeps (t0 t : vrf_trip) : Prop :=
  ∀ row0 row, row0 ∈ route_rows t0 → row ∈ route_rows t → row_key row0 = row_key row → rr_inserted row = true →
    vrf_is_route_row_selected row0 = true → vrf_is_route_row_selected row = true →
    nh_row_key <$> selected_rows row0 ≡ₚ nh_row_key <$> selected_rows row.

(** What the schema and the rest of the configuration see to, of tables that all
    VRFs share. *)
Record tables_ok (t : vrf_trip) : Prop := {
  to_neighbors : Forall (nrow_sound name vports) (db_neighbors (vt_neighbors t));
  to_addresses : NoDup (ngr_ip_address <$> db_neighbors (vt_neighbors t));
  to_routes : nexthop_rows_ok ips ports name (vt_routes t);
  to_keys : Forall key_fits (route_rows t);
  to_types : Forall types_ok (vt_ports t);
}.

(** ** One update *)

Lemma fits_same_key row row' :
  key_fits row → key_fits row' → row_hash_str row = row_hash_str row' → row_key row = row_key row'.
Proof.
  intros [H1 L1] [H2 L2] E. unfold row_key. by destruct (route_hash_inj _ _ _ _ H1 H2 L1 L2 E) as [-> ->].
Qed.

Lemma hashes_distinct t : tables_ok t → NoDup (row_hash_str <$> route_rows t).
Proof.
  intros [_ _ [_ Hk _] Hf _]. rewrite Forall_forall in Hf.
  apply NoDup_fmap_2_strong; [|by eapply NoDup_fmap_1].
  intros x y Hx Hy E. apply (NoDup_fmap_elem row_key (route_rows t)); try done. apply fits_same_key; auto.
Qed.

Lemma kept_or_modified db l0 l :
  Forall2 (nexthop_kept db) l0 l →
  nh_row_key <$> filter (λ n, nh_row_valid n = true) l0 = nh_row_key <$> filter (λ n, nh_row_valid n = true) l ∨
  List.existsb (λ n, nhr_modified n && negb (nhr_inserted n)) l = true ∧
    nexthops_any_modified db = true ∧ db_nexthops db ≠ [].
Proof.
  induction 1 as [|n0 n l0 l Hn Hl [IH|(IH & ?)]]; [by left| |right; simpl; by rewrite IH, orb_true_r].
  destruct Hn as [(Ei & Ep & Es)|(E1 & E2 & ?)]; [left|right; simpl; by rewrite E1, E2].
  assert (nh_row_valid n0 = nh_row_valid n) as Ev
    by (unfold nh_row_valid, vrf_is_nh_row_selected, nhr_port0; by rewrite Ei, Ep, Es).
  assert (nh_row_key n0 = nh_row_key n) as Ek by (unfold nh_row_key, nhr_port0; by rewrite Ei, Ep).
  rewrite !filter_cons, Ev. destruct (decide _); [|done]. rewrite !fmap_cons, Ek. by f_equal.
Qed.

(** A route that mirrored its row before mirrors it now, or the nexthops bring it
    up to date. *)
Lemma kept_matches db row0 row r :
  row ∈ sel_rows name (db_routes db) → row_key row0 = row_key row → rr_modified row = false →
  Forall2 (nexthop_kept db) (rr_nexthops row0) (rr_nexthops row) → route_matches row0 r →
  route_matches row r ∨ row ∈ left_to_nexthops name db.
Proof.
  intros Hsel [= Ef Ep] Hm Hn (H1 & H2 & H3).
  destruct (kept_or_modified db _ _ Hn) as [E|(E & Ea & Hne)]; [left|right].
  - split_and!; [congruence|congruence|]. rewrite H3. unfold selected_rows. by rewrite E.
  - unfold left_to_nexthops. destruct (db_nexthops db); [done|]. rewrite Ea. apply list_elem_of_filter.
    split; [|done]. split; [done|]. intros (_ & ? & _). congruence.
Qed.

(** The change flags of an update that tells the truth describe what a cache that
    mirrors the old rows lacks. *)
Lemma updated_tracked t0 t s :
  tables_ok t0 ∨ t0 = no_tables → tables_ok t → updated t0 t → reinsertion_keeps t0 t →
  mirrored name (db_routes (vt_routes t0)) s →
  tracked_but name (db_routes (vt_routes t)) (left_to_nexthops name (vt_routes t)) (vt_routes t) s.
Proof.
  intros Hok0 Hok [[Hrows Hdel] _] Hre (Hc & Hm1 & Hm2).
  assert (NoDup (row_key <$> route_rows t0)) as Hnd0.
  { destruct Hok0 as [[_ _ [_ Hk _] _ _]| ->]; [done|constructor]. }
  assert (Forall key_fits (route_rows t0)) as Hf0 by (destruct Hok0 as [[]| ->]; [done|constructor]).
  assert (Hold : ∀ r, r ∈ all_routes s → ∃ row0, row0 ∈ route_rows t0 ∧ vrf_is_route_row_selected row0 = true ∧
            route_matches row0 r ∧ rkey r = row_key row0).
  { intros r Hr. destruct (Hm1 r Hr) as (row0 & [Hin Hs]%elem_of_sel_rows & Hm). exists row0.
    split_and!; [done|done|done|by apply matches_key]. }
  assert (Hnew : ∀ r row, r ∈ all_routes s → row ∈ route_rows t → rkey r = row_key row →
            ∃ row0, row0 ∈ route_rows t0 ∧ vrf_is_route_row_selected row0 = true ∧ route_matches row0 r ∧
              (route_kept (vt_routes t) row0 row ∨ routes_any_deleted (vt_routes t) = true)).
  { intros r row Hr Hrow Ek. destruct (Hold r Hr) as (row0 & Hin & Hs & Hm & Ek0). exists row0. split_and!; try done.
    destruct (Hrows row Hrow) as [(row1 & Hin1 & Hk1)|(_ & _ & [Hfresh|?])]; [left| |by right].
    - assert (row0 = row1) as ->; [|done]. apply (NoDup_fmap_elem row_key (route_rows t0)); try done.
      destruct Hk1 as [E1 _]. congruence.
    - destruct Hfresh. rewrite <-Ek, Ek0. by apply list_elem_of_fmap_2. }
  split.
  - intros row Hsel Hnone. pose proof Hsel as [Hrow Hs]%elem_of_sel_rows.
    pose proof Hrow as [Evrf _]%list_elem_of_filter.
    destruct (Hrows row Hrow) as [(row0 & Hin0 & Ek & Ei & Hcase)|(Hi & Hany & _)].
    + destruct Hcase as [[Em Ea]|(Em & Es & Hn)]; [by left|right; right].
      destruct (Hm2 row0) as (r & Hr & Hm).
      { apply elem_of_sel_rows. split; [done|]. unfold vrf_is_route_row_selected in *. by rewrite Es. }
      destruct (kept_matches _ _ _ _ Hsel Ek Em Hn Hm) as [Hm'|Hleft]; [by destruct (Hnone r Hr)|].
      split; [done|]. rewrite <-Ek, <-(matches_key _ _ Hm). by apply list_elem_of_fmap_2.
    + right; left. split; [done|]. intros (r & E & Hr)%list_elem_of_fmap.
      destruct (Hold r Hr) as (row0 & Hin0 & Hs0 & (Ef & Ep & Hn) & Ek0).
      assert (row_key row0 = row_key row) as Ek by congruence. destruct (Hnone r Hr). injection Ek as Ef' Ep'.
      split_and!; [congruence|congruence|]. rewrite Hn. apply Hre; try done. unfold row_key. congruence.
  - intros r row Hr Hrow Ek Hs. pose proof Hrow as [Evrf _]%list_elem_of_filter.
    destruct (Hnew r row Hr Hrow) as (row0 & _ & Hs0 & _ & [(_ & Ei & [[Em Ea]|(_ & Es & _)])|?]);
      [done|by left| |by right].
    
    unfold vrf_is_route_row_selected in *. rewrite Es in Hs0. by rewrite Hs in Hs0.
  - intros r Hr Hno. destruct (Hold r Hr) as (row0 & Hin0 & _ & _ & Ek0).
    destruct (Hdel row0 Hin0) as [(row & E & Hrow)%list_elem_of_fmap|?]; [|done]. destruct (Hno row Hrow). congruence.
  - intros r row Hr Hrow E. destruct (Hold r Hr) as (row0 & Hin0 & _ & (Ef & Ep & _) & Ek0). rewrite Ek0.
    rewrite Forall_forall in Hf0. destruct Hok as [_ _ _ Hf _]. rewrite Forall_forall in Hf.
    apply fits_same_key; auto. unfold row_hash_str in *. congruence.
Qed.

(** ** Histories *)

Definition configure_in (t : vrf_trip) : M vcst unit :=
  modify (λ s, VcSt _ _ (vt_ports t) (vc_pst s) (vc_l3 s) (vc_log s)) ;;
  next ← configure_vrf_sharing type_internal type_vlansubint (vt_neighbors t) (vt_routes t) (vt_sflow t)
           (vt_sflow_ports t) (vt_number t, vt_globals t);
  mret tt.

(** The caches between two runs. *)
Definition following (t : vrf_trip) (s : st) : Prop :=
  vrf_name s = name ∧ vrf_ports s = vports ∧ configured ips ports (vt_neighbors t) (vt_routes t) s.

(** The ports that are modified themselves or in an interface. *)
Definition modified_ports (t : vrf_trip) : list string := vp_name <$> filter (λ p, port_needs p = true) (vt_ports t).
Definition registrations (s : vcst) : list string := registered (PortConfig.port_log (vc_pst s)).

Lemma configure_step t0 t s :
  tables_ok t0 ∨ t0 = no_tables → tables_ok t → updated t0 t → reinsertion_keeps t0 t → following t0 (vc_l3 s) →
  ∃ s', configure_in t s = Ok (tt, s') ∧ following t (vc_l3 s') ∧
    registrations s' = registrations s ++ modified_ports t.
Proof.
  intros Hok0 Hok Hup Hre (En & Ep & (Hm & Hn & Hk)).
  destruct (configure_vrf_sharing_run ips ports Hsep type_internal type_vlansubint (vt_neighbors t) (vt_routes t)
    (vt_sflow t) (vt_sflow_ports t) (vt_number t, vt_globals t) (VcSt _ _ (vt_ports t) (vc_pst s) (vc_l3 s) (vc_log s)))
    as (g & s' & E & En' & Ep' & Hs' & Hr & _); [|apply Hok|].
  { simpl. rewrite En, ?Ep in *. pose proof Hok as [Hr Ha Hrt _ _].
    split; rewrite ?En, ?Ep; try done; [by destruct Hm| |by apply hashes_distinct|by eapply updated_tracked].
    destruct Hup as [_ [?|Hsame]]; [by left|right]. by rewrite Hk. }
  exists s'. split; [unfold configure_in; step; by step E|]. split; [|done]. unfold following. by rewrite En', Ep'.
Qed.

Lemma last_of_cons {X} (x d : X) l : List.last (x :: l) d = List.last l x.
Proof.
  revert x d. induction l as [|y l IH]; intros x d; [done|].
  change (List.last (y :: l) d = List.last (y :: l) x). by rewrite !IH.
Qed.

Lemma following_history ts t0 s :
  tables_ok t0 ∨ t0 = no_tables → Forall tables_ok ts → truthful t0 ts → along reinsertion_keeps t0 ts →
  following t0 (vc_l3 s) →
  ∃ s', mfor ts configure_in s = Ok (tt, s') ∧ following (List.last ts t0) (vc_l3 s') ∧
    registrations s' = registrations s ++ (ts ≫= modified_ports).
Proof.
  revert t0 s. induction ts as [|t ts IH]; intros t0 s Hok0 Hts Htr Hre Hs; [exists s; by rewrite app_nil_r|].
  apply Forall_cons in Hts as [Hok Hts]. destruct Htr as [Hup Htr], Hre as [Hr0 Hre].
  destruct (configure_step t0 t s Hok0 Hok Hup Hr0 Hs) as (s1 & E1 & Hs1 & R1).
  destruct (IH t s1 (or_introl Hok) Hts Htr Hre Hs1) as (s' & E & Hs' & R). exists s'.
  split; [cbn [mfor]; by step E1|]. rewrite last_of_cons. split; [done|]. by rewrite R, R1, <-app_assoc.
Qed.

(** A VRF that was just created. *)
Definition new_vrf (s : st) : Prop :=
  vrf_name s = name ∧ vrf_ports s = vports ∧ all_neighbors s = [] ∧ all_routes s = [] ∧ all_nexthops s = [].

Lemma new_vrf_follows s : new_vrf s → following no_tables s.
Proof.
  intros (En & Ep & Hn & Hr & Hh).
  assert (Vrf.wf ips ports s) as Hwf by (unfold Vrf.wf; rewrite Hr, Hh; split; simpl; constructor).
  unfold following, configured. rewrite En, Ep. split_and!; try done.
  - split_and!; [split_and!; [done| |done]| |]; rewrite ?Hr; [constructor|by intros r ?%elem_of_nil|].
    by intros row ?%elem_of_nil.
  - split_and!; [done| | |done|done]; unfold nkeys; rewrite Hn; [constructor|by intros n ?%elem_of_nil].
  - unfold nkeys. by rewrite Hn.
Qed.

(** C4: a VRF follows the database in every history of updates whose change
    flags tell the truth, but for those on which the code is known not to.  From
    the creation of the VRF on, every run of the configuration returns without a
    fault, and the caches follow the last tables: the cached routes are exactly
    the selected rows of the VRF, each with the selected nexthops of its row, also
    when only a nexthop row changed or a row was deleted and inserted again; and
    the neighbors are those of the VRF, with those of other VRFs that lack a port
    or a MAC address (vrf_reconfigure_neighbors does not look at the VRF of the row
    when it creates neighbors).  Each run registers exactly the modified ports.  Of
    the tables, which all VRFs share, other VRFs may change their rows and the ECMP
    settings in any way.  Not among these histories: a selected route that is
    deleted and inserted again with other nexthops in one update
    ([reinsertion_keeps], vrf.c:878); a modified nexthop of a route of another VRF
    with the protocol and prefix of a route of this VRF ([nr_others], vrf.c:958);
    equal addresses of neighbors in different VRFs; rows that change their VRF,
    protocol or prefix; and keys that are cut off ([key_fits]).  The VRF keeps the same set of ports, of which no other VRF
    has one, and the provider accepts host entries. *)
Theorem vrf_follows_history ts s :
  new_vrf (vc_l3 s) → Forall tables_ok ts → truthful no_tables ts → along reinsertion_keeps no_tables ts →
  ∃ s', mfor ts configure_in s = Ok (tt, s') ∧
    (let t := List.last ts no_tables in configured ips ports (vt_neighbors t) (vt_routes t) (vc_l3 s')) ∧
    registrations s' = registrations s ++ (ts ≫= modified_ports).
Proof.
  intros Hs Hts Htr Hre. destruct (following_history ts no_tables s) as (s' & E & (_ & _ & Hs') & R);
    [by right|done|done|done|by apply new_vrf_follows|by exists s'].
Qed.
End History.

(** ** A concrete history *)

Module VrfHistoryExample.
Import VrfWitness NeighborPoll VrfConfigureExample.
#[local] Existing Instances ref_lib ref_schema ref_l3 ref_posix port_lib port_provider SflowFacts.SflowExample.defs.

Definition nh_unselected : ovsrec_nexthop := NexthopRow 12 None [Some "eth1"] (Some false) true false.
Definition idle_neighbors : idl_neighbors := IdlNeighbors [ex_neighbor_row; blue_neighbor] false false false.

(** A route is inserted; then one of its nexthop rows becomes unselected, which
    changes no route row; then another route is inserted while the first is
    unselected; then the first is deleted; then the second is deleted and inserted
    again.  All the time another VRF has a route with the protocol and prefix of
    the first, and a neighbor. *)
Definition row_kept : ovsrec_route :=
  RouteRow 1 "bgp" "10.0.0.0/8" None "red" (Some true) [ex_nh1; nh_unselected] false false.
Definition row_unselected : ovsrec_route :=
  RouteRow 1 "bgp" "10.0.0.0/8" None "red" (Some false) [ex_nh1] true false.
Definition row_static (inserted : bool) : ovsrec_route :=
  RouteRow 3 "static" "10.0.0.0/8" None "red" (Some true) [ex_nh1] inserted inserted.
Definition row_static_again : ovsrec_route :=
  RouteRow 6 "static" "10.0.0.0/8" None "red" (Some true) [ex_nh1] true true.

Definition nexthop_changes : idl_routes :=
  IdlRoutes [row_kept; blue_route false] false false false [ex_nh1; nh_unselected] true None false.
Definition route_changes : idl_routes :=
  IdlRoutes [row_unselected; row_static true; blue_route false] true false true [ex_nh1] false None false.
Definition route_deleted : idl_routes :=
  IdlRoutes [row_static false; blue_route false] false true false [ex_nh1] false None false.
Definition route_reinserted : idl_routes :=
  IdlRoutes [row_static_again; blue_route false] true true true [ex_nh1] false None false.

(** What the other VRF leaves of the shared variables. *)
Definition rows_of_nexthops : gmap Z smap := {[ 11 := ∅; 12 := ∅; 13 := ∅; 14 := ∅ ]}.
Definition globals_before : l3_globals := L3Globals ecmp_default rows_of_nexthops.
Definition globals_later : l3_globals :=
  L3Globals (set_ecmp_field (Some OFPROTO_ECMP_HASH_SRCIP) false ecmp_default) rows_of_nexthops.

Definition trips : list vrf_trip := [
  VrfTrip _ neighbors routes [eth1] None [] 0 globals_before;
  VrfTrip _ idle_neighbors nexthop_changes [] None [] 1 globals_later;
  VrfTrip _ idle_neighbors route_changes [eth1] None [] 0 globals_later;
  VrfTrip _ idle_neighbors route_deleted [] None [] 0 globals_later;
  VrfTrip _ idle_neighbors route_reinserted [] None [] 0 globals_later
].

Definition new_l3 : st :=
  St "red" ["eth1"] [] [] [] {[ 11 := ∅; 12 := ∅; 13 := ∅ ]} ecmp_default 100 [].

Definition new_start : vcst := VcSt _ _ [] (PortConfig.PSt _ ∅ []) new_l3 [].
Abbreviation configure_red := (configure_in "internal" "vlansubint").

(** The nexthops cached after each trip. *)
Example cached_nexthops :
  (λ n, match mfor (take n trips) configure_red new_start with
        | Ok (_, s) => (λ r, (r_from r, nh_key <$> r_nexthops r)) <$> all_routes (vc_l3 s)
        | Fault _ => []
        end) <$> seq 0 6 =
  [[]; [("bgp", ["eth1"; "1.1.1.1"])]; [("bgp", ["1.1.1.1"])]; [("static", ["1.1.1.1"])]; [("static", ["1.1.1.1"])];
   [("static", ["1.1.1.1"])]].
Proof. vm_compute. reflexivity. Qed.

Lemma nexthop_ok n : n ∈ [ex_nh1; ex_nh2; nh_unselected; blue_nexthop] → nh_row_ok ex_ips ex_ports n.
Proof.
  intros [->|[->|[->|[->|[]%elem_of_nil]%elem_of_cons]%elem_of_cons]%elem_of_cons]%elem_of_cons;
    (split_and!; [done|intros i [= <-]; by_compute|intros p; try done; intros _ [= <-]; by_compute]).
Qed.

Ltac rows_ok :=
  split; [apply Forall_filter_sub; repeat (apply Forall_cons; split); [..|by constructor];
    (split_and!; [apply Forall_forall; intros n Hin; apply nexthop_ok; revert Hin; simpl; set_solver
                 |by_compute|simpl; lia])
    |by_compute
    |intros row Hrow Hv Hm; repeat (apply elem_of_cons in Hrow as [->|Hrow]);
     first [by destruct Hv|done|by apply elem_of_nil in Hrow]].

Lemma trips_ok : Forall (tables_ok ex_ips ex_ports "red" ["eth1"]) trips.
Proof.
  repeat (apply Forall_cons; split); [..|constructor]; (split; [exact red_neighbors_sound|by_compute|rows_ok| |]);
    first [apply Forall_filter_sub; repeat (apply Forall_cons; split; [split; [done|simpl; lia]|]); constructor
          |by constructor|apply Forall_singleton; intros i ->%list_elem_of_singleton; by eexists].
Qed.

Lemma rows_updated old db :
  Forall (λ row, rr_vrf row = "red" →
      (∃ row0, row0 ∈ vrf_rows "red" old ∧ route_kept db row0 row) ∨ route_inserted (vrf_rows "red" old) db row)
    (db_routes db) →
  Forall (λ row0, rr_vrf row0 = "red" →
      row_key row0 ∈ row_key <$> vrf_rows "red" (db_routes db) ∨ routes_any_deleted db = true) old →
  routes_updated "red" (vrf_rows "red" old) db.
Proof.
  rewrite !Forall_forall. intros Hrows Hdel. split.
  - intros row [? Hrow]%list_elem_of_filter. by apply Hrows.
  - intros row [? Hrow]%list_elem_of_filter. by apply Hdel.
Qed.

Lemma trips_truthful : truthful "red" no_tables trips.
Proof.
  unfold truthful, trips. cbn [along].
  split_and!; try done; (split; [|first [by left|by right]]); apply rows_updated;
    repeat (apply Forall_cons; split); try (by constructor); try (by intros Hv; vm_compute in Hv); intros _.
  - right. split_and!; [done|done|left; by_compute].
  - left. exists ex_row. split; [by_compute|]. split_and!; [done|done|right]. split_and!; [done|done|].
    repeat constructor; by_compute.
  - left. by_compute.
  - left. exists row_kept. split; [by_compute|]. split_and!; [done|done|by left].
  - right. split_and!; [done|done|left; by_compute].
  - left. by_compute.
  - left. exists (row_static true). split; [by_compute|]. split_and!; [done|done|right]. split_and!; [done|done|].
    repeat constructor.
  - right. split_and!; [done|done|by right].
Qed.

Ltac reinsertion :=
  intros row0 row [E0 H0]%list_elem_of_filter [E1 H1]%list_elem_of_filter Ek Hi Hs0 Hs1;
  repeat (apply elem_of_cons in H0 as [->|H0]); try (by apply elem_of_nil in H0);
  repeat (apply elem_of_cons in H1 as [->|H1]); try (by apply elem_of_nil in H1);
  first [discriminate|reflexivity].

Lemma trips_reinsert : along (reinsertion_keeps "red") no_tables trips.
Proof. unfold trips. cbn [along]. split_and!; try done; reinsertion. Qed.

Lemma vrf_follows_history_witness :
  ∃ s', mfor trips configure_red new_start = Ok (tt, s') ∧
    configured ex_ips ex_ports idle_neighbors route_reinserted (vc_l3 s') ∧ registrations s' = ["eth1"; "eth1"].
Proof.
  assert (has_l3_route_action = true) as Hact by done.
  apply (vrf_follows_history ex_ips ex_ports "internal" "vlansubint" ex_apart Hact ex_resets ex_accepts "red" ["eth1"]
    trips new_start).
  - by split_and!.
  - apply trips_ok.
  - apply trips_truthful.
  - apply trips_reinsert.
Defined.

(** A row that is deleted and inserted again with the same key and other nexthops
    in one update is not one of these histories: the cached route is neither
    deleted, as its key is still there, nor modified, as the row is new, and keeps
    its old nexthops. *)
Definition row_again : ovsrec_route :=
  RouteRow 9 "bgp" "10.0.0.0/8" None "red" (Some true) [ex_nh2] true true.

Example reinserted_route_keeps_nexthops :
  nh_row_key <$> selected_rows row_again = ["eth1"] ∧
  match vrf_reconfigure_routes (IdlRoutes [row_again] true true true [ex_nh2] false None false) ex_state with
  | Ok (_, s) => nh_key <$> (all_routes s ≫= r_nexthops) = ["eth1"; "1.1.1.1"] ∧ log s = log ex_state
  | Fault _ => False
  end.
Proof. by vm_compute. Qed.
End VrfHistoryExample.
