(* ===== verification/PluginsYaml.v ===== *)
(** * The order of plugin initialisation: plugins_yaml.c

    The file plugins.yaml of the hardware platform names the plugins in the
    order in which they are initialised.  The platform is detected with the
    command dmidecode.  What the code reads of the system (the modes and the
    contents of files, the output of commands, the tokens that libyaml finds in
    a file) are the fields of the class [YamlEnv]. *)

From Stdlib Require Import Ascii.
From S2P Require Import Prelude OvsLib.
Local Open Scope Z_scope.

(** ** Tokens of libyaml *)

Inductive yaml_token :=
| YAML_NO_TOKEN
| YAML_STREAM_START_TOKEN
| YAML_STREAM_END_TOKEN
| YAML_VERSION_DIRECTIVE_TOKEN
| YAML_TAG_DIRECTIVE_TOKEN
| YAML_DOCUMENT_START_TOKEN
| YAML_DOCUMENT_END_TOKEN
| YAML_BLOCK_SEQUENCE_START_TOKEN
| YAML_BLOCK_MAPPING_START_TOKEN
| YAML_BLOCK_END_TOKEN
| YAML_FLOW_SEQUENCE_START_TOKEN
| YAML_FLOW_SEQUENCE_END_TOKEN
| YAML_FLOW_MAPPING_START_TOKEN
| YAML_FLOW_MAPPING_END_TOKEN
| YAML_BLOCK_ENTRY_TOKEN
| YAML_FLOW_ENTRY_TOKEN
| YAML_KEY_TOKEN
| YAML_VALUE_TOKEN
| YAML_ALIAS_TOKEN
| YAML_ANCHOR_TOKEN
| YAML_TAG_TOKEN
| YAML_SCALAR_TOKEN (value : string).

#[export] Instance yaml_token_eq_dec : EqDecision yaml_token.
Proof. solve_decision. Defined.

(** The environment.  [stat_mode]: [st_mode] of an existing file.  [popen_lines]:
    the lines of the output of a command, each with its newline (the last one
    may lack it); [None] when it cannot be started.  [fopen_tokens]: for a file
    that can be opened, the token that the n-th call of [yaml_parser_scan]
    leaves: after an error in the file every call leaves [YAML_NO_TOKEN]. *)
Class YamlEnv := {
  stat_mode : string → option Z;
  popen_lines : string → option (list string);
  fopen_tokens : string → option (nat → yaml_token);
  YAML_PATH : string;
  yaml_parser_initialize : bool;
}.

(** A buffer as a C string: up to the first NUL. *)
Fixpoint c_str (s : string) : string :=
  match s with
  | EmptyString => EmptyString
  | String c s' => if bool_decide (c = zero) then EmptyString else String c (c_str s')
  end.

(** [buf[n - 1] = '\0'] for a buffer of [n > 0] characters. *)
Definition chop (s : string) : string := String.substring 0 (String.length s - 1) s.

(** ** The platform *)

Definition S_IXUSR : Z := 64.
Definition DMIDECODE_NAME : string := "dmidecode".
Definition GENERIC_X86_MANUFACTURER : string := "Generic-x86".
Definition GENERIC_X86_PRODUCT_NAME : string := "X86-64".
Definition YAML_PATH_LENGHT : nat := 100.

(** [paths]; [sizeof(paths)] is the size of four pointers. *)
Definition dmidecode_paths : list string := ["/usr/sbin"; "/sbin"; "/bin"; "/usr/bin"].
Definition sizeof_paths : nat := 32.

Section Yaml.
Context `{YE : YamlEnv}.

(** [buf] when it is an executable file of the user. *)
Definition executable (buf : string) : bool :=
  match stat_mode buf with
  | Some m => negb (Z.land m S_IXUSR =? 0)
  | None => false
  end.

(** The loop at [i], with [n] iterations to go: the path left in [cmd_path]. *)
Fixpoint dmidecode_from (n i : nat) : outcome (option string) :=
  match n with
  | O => Ok None
  | S n' =>
      match dmidecode_paths !! i with
      | None => Fault BufferOverflow
      | Some path =>
          let buf := (path +:+ "/" +:+ DMIDECODE_NAME)%string in
          if executable buf then Ok (Some buf) else dmidecode_from n' (S i)
      end
  end.

Definition dmidecode_exists : outcome (option string) := dmidecode_from sizeof_paths 0.

(** The loop over the lines of the output.  At the end of the output [getline]
    returns -1, which [nbytes] holds as a large number: the test of an error
    fails, and the fresh buffer is read. *)
Fixpoint first_line (lines : list string) : outcome (option string) :=
  match lines with
  | [] => Fault Uninitialised
  | buf :: rest =>
      match buf with
      | EmptyString => Ok None
      | String c _ =>
          if bool_decide (c = "#"%char) then first_line rest
          else if bool_decide (c = zero) then first_line rest
          else Ok (Some (c_str (chop buf)))
      end
  end.

(** [*output]. *)
Definition get_sys_cmd_out (cmd : string) : outcome (option string) :=
  match popen_lines cmd with
  | None => Ok None
  | Some lines => first_line lines
  end.

(** The return code and what is left in [*manufacturer] and [*product_name]. *)
Definition get_manuf_and_prodname (cmd_path : string)
    : outcome (Z * option string * option string) :=
  match get_sys_cmd_out (cmd_path +:+ " -s system-manufacturer") with
  | Fault e => Fault e
  | Ok None => Ok (EINVAL, None, None)
  | Ok (Some manufacturer) =>
      match get_sys_cmd_out (cmd_path +:+ " -s system-product-name") with
      | Fault e => Fault e
      | Ok None => Ok (EINVAL, Some manufacturer, None)
      | Ok (Some product_name) => Ok (0, Some manufacturer, Some product_name)
      end
  end.

Definition concat_path (manuf product : string) : string :=
  let hw_desc_len := (String.length manuf + String.length product + YAML_PATH_LENGHT)%nat in
  String.substring 0 (hw_desc_len - 1)
    (YAML_PATH +:+ "/" +:+ manuf +:+ "/" +:+ product +:+ "/plugins.yaml").

(** The tokens of the file that is opened; [None] for an error. *)
Definition open_yaml_file : outcome (option (nat → yaml_token)) :=
  match dmidecode_exists with
  | Fault e => Fault e
  | Ok None => Ok None
  | Ok (Some cmd_path) =>
      match get_manuf_and_prodname cmd_path with
      | Fault e => Fault e
      | Ok (_, Some manufacturer, Some product_name) =>
          match fopen_tokens (concat_path manufacturer product_name) with
          | Some fh => Ok (Some fh)
          | None => Ok (fopen_tokens (concat_path GENERIC_X86_MANUFACTURER GENERIC_X86_PRODUCT_NAME))
          end
      | Ok _ => Ok None
      end
  end.

(** ** The names in the file *)

(** The [switch] of the loop: only a scalar adds to the list. *)
Definition yaml_switch (token : yaml_token) (p_list : list string) : list string :=
  match token with
  | YAML_SCALAR_TOKEN value => p_list ++ [c_str value]
  | _ => p_list
  end.

(** The do-while loop from call [i] on; [None]: it has not ended after [fuel]
    iterations. *)
Fixpoint yaml_loop (fuel : nat) (scan : nat → yaml_token) (i : nat) (p_list : list string)
    : option (list string) :=
  match fuel with
  | O => None
  | S fuel' =>
      let token := scan i in
      let p_list := yaml_switch token p_list in
      if bool_decide (token = YAML_STREAM_END_TOKEN) then Some p_list
      else yaml_loop fuel' scan (S i) p_list
  end.

(** The outer option is the fuel, the inner one the pointer that is returned. *)
Definition get_yaml_plugins (fuel : nat) : option (outcome (option (list string))) :=
  if negb yaml_parser_initialize then Some (Ok None) else
  match open_yaml_file with
  | Fault e => Some (Fault e)
  | Ok None => Some (Ok None)
  | Ok (Some fh) => (λ l, Ok (Some l)) <$> yaml_loop fuel fh 0 []
  end.

(** ** The loop *)

(** The scalars among the first [n] tokens. *)
Definition scalars (scan : nat → yaml_token) (n : nat) : list string :=
  omap (λ i, match scan i with YAML_SCALAR_TOKEN v => Some (c_str v) | _ => None end) (seq 0 n).

Lemma scalars_S scan n : scalars scan (S n) = yaml_switch (scan n) (scalars scan n).
Proof.
  unfold scalars. rewrite seq_S, omap_app. simpl.
  destruct (scan n); simpl; by rewrite ?app_nil_r.
Qed.

Lemma yaml_loop_ends scan n d i :
  scan (i + d)%nat = YAML_STREAM_END_TOKEN →
  (∀ j, (i ≤ j < i + d)%nat → scan j ≠ YAML_STREAM_END_TOKEN) →
  (d < n)%nat →
  yaml_loop n scan i (scalars scan i) = Some (scalars scan (i + d)).
Proof.
  revert d i. induction n as [|n IH]; intros d i Hend Hbefore Hn; [lia|]. cbn [yaml_loop].
  rewrite <-scalars_S. destruct d as [|d].
  - rewrite Nat.add_0_r in *. rewrite bool_decide_true by done. rewrite scalars_S, Hend. done.
  - rewrite bool_decide_false by (apply Hbefore; lia).
    rewrite (IH d (S i)); [f_equal; f_equal; lia| |..].
    + by replace (S i + d)%nat with (i + S d)%nat by lia.
    + intros j Hj. apply Hbefore. lia.
    + lia.
Qed.

Lemma yaml_loop_stuck scan n i l :
  (∀ j, (i ≤ j < i + n)%nat → scan j ≠ YAML_STREAM_END_TOKEN) → yaml_loop n scan i l = None.
Proof.
  revert i l. induction n as [|n IH]; intros i l Hscan; [done|]. cbn [yaml_loop].
  rewrite bool_decide_false by (apply Hscan; lia). apply IH. intros j Hj. apply Hscan. lia.
Qed.
End Yaml.
