(* ===== verification/Plugins.v ===== *)
(** * Loading and calling plugins: plugins.c

    Plugins are modules that libltdl loads.  [plugins_init] opens every module
    of the plugin directory, keeps the functions it exports in a
    [struct plugin_class] that is attached to the module as caller data, and
    calls the init functions, first in the order of plugins.yaml.  The other
    functions of plugins are called by iterating over the open modules.

    Of libltdl the contents of its table of modules are modelled: the open
    modules in iteration order, how often each was opened, and the caller data.
    What it finds in files is the class [Ltdl]. The functions of plugins may do
    anything but change the state of this file. *)

From S2P Require Import Prelude OvsLib PluginsYaml.
Local Open Scope Z_scope.

(** A module, and a function it exports. *)
Definition handle : Type := nat.

Record symbol := Sym { sym_module : handle; sym_name : string }.

#[export] Instance symbol_eq_dec : EqDecision symbol.
Proof. solve_decision. Defined.

(** [struct plugin_class] *)
Record plugin_class := PluginClass {
  pc_init : option symbol;
  pc_run : option symbol;
  pc_wait : option symbol;
  pc_destroy : option symbol;
  pc_netdev_register : option symbol;
  pc_ofproto_register : option symbol;
  pc_bufmon_register : option symbol;
}.

(** [struct hash_node] *)
Record hash_node := HashNode { phase_id : Z; hn_handle : handle }.

(** The pointer [interface_id]. *)
Inductive dl_interface := IfaceNull | IfaceLive | IfaceFreed.

#[export] Instance dl_interface_eq_dec : EqDecision dl_interface.
Proof. solve_decision. Defined.

Inductive plugin_event :=
| PluginInit (f : symbol) (phase : Z)
| PluginCall (f : symbol).

(** [lt_dlopenadvise]: the module of a file, the same for files of one module.
    [lt_dlgetinfo]: [info->name].  [lt_iterate_null]: the iteration over the modules
    of a null interface, which the manual of libltdl does not define.  The
    results of the other functions are those of one run. *)
Class Ltdl := {
  lt_dlopenadvise : string → option handle;
  lt_dlsym : handle → string → bool;
  lt_dlgetinfo : handle → option string;
  lt_insert : handle → list handle → list handle;
  lt_insert_perm : ∀ h l, lt_insert h l ≡ₚ h :: l;
  lt_iterate_null : list handle → outcome (list handle);
  lt_dlinit : Z;
  lt_dlsetsearchpath : string → Z;
  lt_dladvise_init : Z;
  lt_dlinterface_register : bool;
  lt_dladvise_local : Z;
  lt_dladvise_ext : Z;
  (** The files [lt_dlforeachfile] finds in a search path. *)
  lt_files : string → list string;
  (** Does [malloc] succeed while a file is loaded? *)
  malloc_plcl : string → bool;
  ovs_pluginsdir : string;
}.

(** [plcls]: the allocated classes by address; [modules], [refs] and
    [caller_data]: the table of libltdl. *)
Record plst := Plst {
  sh_plugins : shash hash_node;
  interface_id : dl_interface;
  plcls : gmap nat plugin_class;
  modules : list handle;
  refs : gmap handle nat;
  caller_data : gmap handle nat;
  pl_log : list plugin_event;
}.

Definition plst_start : plst := Plst ∅ IfaceNull ∅ [] ∅ ∅ [].

Definition set_sh_plugins (v : shash hash_node) (s : plst) : plst :=
  Plst v (interface_id s) (plcls s) (modules s) (refs s) (caller_data s) (pl_log s).
Definition set_interface_id (v : dl_interface) (s : plst) : plst :=
  Plst (sh_plugins s) v (plcls s) (modules s) (refs s) (caller_data s) (pl_log s).
Definition set_plcls (v : gmap nat plugin_class) (s : plst) : plst :=
  Plst (sh_plugins s) (interface_id s) v (modules s) (refs s) (caller_data s) (pl_log s).
Definition set_caller_data (v : gmap handle nat) (s : plst) : plst :=
  Plst (sh_plugins s) (interface_id s) (plcls s) (modules s) (refs s) v (pl_log s).
Definition set_modules (m : list handle) (r : gmap handle nat) (s : plst) : plst :=
  Plst (sh_plugins s) (interface_id s) (plcls s) m r (caller_data s) (pl_log s).
Definition pl_event (e : plugin_event) (s : plst) : plst :=
  Plst (sh_plugins s) (interface_id s) (plcls s) (modules s) (refs s) (caller_data s) (pl_log s ++ [e]).

(** ** The table of libltdl *)

(** Opening adds the module, or counts once more. *)
Definition lt_opened `{Ltdl} (h : handle) (s : plst) : plst :=
  match refs s !! h with
  | Some n => set_modules (modules s) (<[h := S n]> (refs s)) s
  | None => set_modules (lt_insert h (modules s)) (<[h := 1%nat]> (refs s)) s
  end.

(** The last close removes the module and its caller data. *)
Definition lt_dlclose (h : handle) (s : plst) : plst :=
  match refs s !! h with
  | Some (S (S n)) => set_modules (modules s) (<[h := S n]> (refs s)) s
  | Some _ => set_caller_data (delete h (caller_data s))
                (set_modules (filter (λ x, x ≠ h) (modules s)) (delete h (refs s)) s)
  | None => s
  end.

(** The address of a new object. *)
Definition new_plcl (s : plst) : nat := fresh (dom (plcls s) : gset nat).

(** The dereference of a [struct plugin_class *]. *)
Definition load_plcl (p : nat) : M plst plugin_class := λ s,
  match plcls s !! p with
  | Some c => Ok (c, s)
  | None => Fault UseAfterFree
  end.

(** The pointer [lt_dlcaller_get_data] returns, read; [None] is null. *)
Definition caller_class (h : handle) : M plst (option plugin_class) :=
  data ← gets (λ s, caller_data s !! h);
  match data with
  | Some p => c ← load_plcl p; mret (Some c)
  | None => mret None
  end.

(** The modules of the interface, in the order of [lt_dlhandle_iterate]. *)
Definition lt_handles `{Ltdl} : M plst (list handle) := λ s,
  match interface_id s with
  | IfaceLive => Ok (modules s, s)
  | IfaceFreed => Fault UseAfterFree
  | IfaceNull => match lt_iterate_null (modules s) with
                 | Ok l => Ok (l, s)
                 | Fault e => Fault e
                 end
  end.

(** ** Loading *)

Section Plugins.
Context `{HL : OvsLib, LT : Ltdl}.

(** The field that a symbol of the module fills. *)
Definition dlsym (h : handle) (name : string) : option symbol :=
  if lt_dlsym h name then Some (Sym h name) else None.

(** The class as it is filled; the interface is complete when the four required
    symbols are there. *)
Definition fill_plcl (h : handle) : plugin_class :=
  PluginClass (dlsym h "init") (dlsym h "run") (dlsym h "wait") (dlsym h "destroy")
    (dlsym h "netdev_register") (dlsym h "ofproto_register") (dlsym h "bufmon_register").

Definition required_symbols (h : handle) : bool :=
  lt_dlsym h "init" && lt_dlsym h "run" && lt_dlsym h "wait" && lt_dlsym h "destroy".

(** The labels [err_set_data] and [err_dlsym]. *)
Definition free_and_close (p : nat) (h : handle) : M plst unit :=
  modify (λ s, lt_dlclose h (set_plcls (delete p (plcls s)) s)).

Definition plugins_open_plugin (filename : string) : M plst Z :=
  match lt_dlopenadvise filename with
  | None => mret 0
  | Some h =>
      modify (lt_opened h) ;;
      if negb (malloc_plcl filename) then modify (lt_dlclose h) ;; mret 0 else
      plcl ← gets new_plcl;
      modify (λ s, set_plcls (<[plcl := fill_plcl h]> (plcls s)) s) ;;
      if negb (required_symbols h) then free_and_close plcl h ;; mret 0 else
      previous ← gets (λ s, caller_data s !! h);
      modify (λ s, set_caller_data (<[h := plcl]> (caller_data s)) s) ;;
      match previous with
      | Some _ => free_and_close plcl h ;; mret 0
      | None =>
          match lt_dlgetinfo h with
          | None => free_and_close plcl h ;; mret 0
          | Some name =>
              node ← gets (λ s, sh_plugins s !! name);
              match node with
              | Some _ => mret 0
              | None =>
                  sh ← gets sh_plugins;
                  let '(added, sh) := shash_add_once sh name (HashNode 0 h) in
                  if added then modify (set_sh_plugins sh) ;; mret 0
                  else free_and_close plcl h ;; mret 0
              end
          end
      end
  end.

(** [lt_dlforeachfile]: the first result that is not 0 ends the search. *)
Fixpoint lt_dlforeachfile (files : list string) : M plst Z :=
  match files with
  | [] => mret 0
  | f :: files' =>
      rc ← plugins_open_plugin f;
      if negb (rc =? 0) then mret rc else lt_dlforeachfile files'
  end.

(** ** Initialising *)

(** [h_node->phase_id++], in [sh_plugins]. *)
Definition next_phase (name : string) (n : hash_node) (s : plst) : plst :=
  set_sh_plugins (<[name := HashNode (phase_id n + 1) (hn_handle n)]> (sh_plugins s)) s.

(** One name of the yaml file. *)
Definition init_from_yaml (name : string) : M plst unit :=
  h_node ← gets (λ s, sh_plugins s !! name);
  match h_node with
  | None => mret tt
  | Some n =>
      plcl ← caller_class (hn_handle n);
      match plcl ≫= pc_init with
      | Some f => modify (pl_event (PluginInit f (phase_id n))) ;; modify (next_phase name n)
      | None => mret tt
      end
  end.

(** One node of the loop over [sh_plugins]. *)
Definition init_rest (name : string) : M plst unit :=
  h_node ← gets (λ s, sh_plugins s !! name);
  match h_node with
  | None => mret tt
  | Some n =>
      if phase_id n =? 0 then
        plcl ← caller_class (hn_handle n);
        match plcl ≫= pc_init with
        | Some f => modify (pl_event (PluginInit f 0)) ;; modify (next_phase name n)
        | None => mret tt
        end
      else mret tt
  end.

(** [plugins_list]: what [get_yaml_plugins] returned. *)
Definition plugins_initializaton (plugins_list : option (list string)) : M plst unit :=
  match plugins_list with
  | Some l => mfor l init_from_yaml
  | None => mret tt
  end ;;
  nodes ← gets (λ s, (shash_nodes (sh_plugins s)).*1);
  mfor nodes init_rest.

(** [None]: [get_yaml_plugins] has not returned with this fuel. *)
Definition plugins_init `{YamlEnv} (fuel : nat) (path : option string) (s : plst)
    : option (outcome (unit * plst)) :=
  let s := set_sh_plugins ∅ s in
  if bool_decide (path = Some "none") then Some (Ok (tt, s)) else
  let plugins_path := default ovs_pluginsdir path in
  if negb (lt_dlinit =? 0) || negb (lt_dlsetsearchpath plugins_path =? 0)
     || negb (lt_dladvise_init =? 0) then Some (Ok (tt, s)) else
  if negb lt_dlinterface_register then Some (Ok (tt, set_interface_id IfaceNull s)) else
  let s := set_interface_id IfaceLive s in
  if negb (lt_dladvise_local =? 0) || negb (lt_dladvise_ext =? 0)
  then Some (Ok (tt, set_interface_id IfaceFreed s)) else
  match lt_dlforeachfile (lt_files plugins_path) s with
  | Fault e => Some (Fault e)
  | Ok (rc, s) =>
      if negb (rc =? 0) then Some (Ok (tt, set_interface_id IfaceFreed s)) else
      match get_yaml_plugins fuel with
      | None => None
      | Some (Fault e) => Some (Fault e)
      | Some (Ok l) => Some (plugins_initializaton l s)
      end
  end.

(** ** Calling *)

(** [PLUGINS_CALL]. *)
Definition PLUGINS_CALL (FUNC : plugin_class → option symbol) : M plst unit :=
  iter ← lt_handles;
  mfor iter (λ h,
    plcl ← caller_class h;
    match plcl ≫= FUNC with
    | Some f => modify (pl_event (PluginCall f))
    | None => mret tt
    end).

Definition plugins_run : M plst unit := PLUGINS_CALL pc_run.
Definition plugins_wait : M plst unit := PLUGINS_CALL pc_wait.
Definition plugins_netdev_register : M plst unit := PLUGINS_CALL pc_netdev_register.
Definition plugins_ofproto_register : M plst unit := PLUGINS_CALL pc_ofproto_register.
Definition plugins_bufmon_register : M plst unit := PLUGINS_CALL pc_bufmon_register.

(** [lt_dlexit] closes every module. *)
Definition plugins_destroy : M plst unit :=
  PLUGINS_CALL pc_destroy ;;
  modify (set_interface_id IfaceFreed) ;;
  modify (λ s, set_caller_data ∅ (set_modules [] ∅ s)).
End Plugins.
