(* ===== verification/PluginsFacts.v ===== *)
(** * Properties of plugin loading: plugins.c, plugins_yaml.c *)

From Stdlib Require Import Ascii.
From S2P Require Import Prelude OvsLib PluginsYaml Plugins.
Local Open Scope Z_scope.

(** ** Loading the files of a directory *)

Section Loading.
Context `{HL : OvsLib, LT : Ltdl}.

(** The module and name of a file that becomes a plugin. *)
Definition loadable (f : string) : option (string * handle) :=
  match lt_dlopenadvise f with
  | Some h => if malloc_plcl f && required_symbols h
              then (λ name, (name, h)) <$> lt_dlgetinfo h else None
  | None => None
  end.

(** The class of module [h] is attached to it. *)
Definition has_class (s : plst) (h : handle) : Prop :=
  ∃ p, caller_data s !! h = Some p ∧ plcls s !! p = Some (fill_plcl h).

(** The plugins [L], names and modules, are loaded and not yet initialised. *)
Record loaded (L : list (string * handle)) (s : plst) : Prop := {
  ld_refs : ∀ h, refs s !! h = if decide (h ∈ L.*2) then Some 1%nat else None;
  ld_modules : modules s ≡ₚ L.*2;
  ld_class : ∀ h, h ∈ L.*2 → has_class s h;
  ld_none : ∀ h, h ∉ L.*2 → caller_data s !! h = None;
  ld_hash : ∀ n nd, sh_plugins s !! n = Some nd ↔ ∃ h, nd = HashNode 0 h ∧ (n, h) ∈ L;
}.

Lemma loaded_start i : loaded [] (set_interface_id i plst_start).
Proof.
  split; simpl.
  - intros h. by rewrite lookup_empty.
  - done.
  - intros h Hh. set_solver.
  - intros h _. apply lookup_empty.
  - intros n nd. rewrite lookup_empty. split; [done|]. intros (h & _ & Hh). set_solver.
Qed.

(** [loaded] does not look at the address of a class. *)
Lemma loaded_iff L s s' :
  loaded L s → refs s' = refs s → modules s' ≡ₚ modules s → caller_data s' = caller_data s →
  (∀ p, p ∈ (dom (plcls s) : gset nat) → plcls s' !! p = plcls s !! p) → sh_plugins s' = sh_plugins s →
  loaded L s'.
Proof.
  intros [Hr Hm Hc Hn Hs] Er Em Ec Ep Es. split.
  - by rewrite Er.
  - by rewrite Em.
  - intros h Hh. destruct (Hc h Hh) as (p & Hp & Hpl). exists p. rewrite Ec. split; [done|].
    rewrite Ep; [done|]. apply elem_of_dom. eauto.
  - by rewrite Ec.
  - by rewrite Es.
Qed.

Lemma new_plcl_fresh s : plcls s !! new_plcl s = None.
Proof.
  apply (not_elem_of_dom (D := gset nat)). unfold new_plcl. pose proof (is_fresh (dom (plcls s) : gset nat)). done.
Qed.

Lemma loaded_fresh L s h : loaded L s → h ∉ L.*2 → refs s !! h = None ∧ caller_data s !! h = None.
Proof.
  intros HI Hh. split; [rewrite (ld_refs _ _ HI); by rewrite decide_False|by apply (ld_none _ _ HI)].
Qed.

(** A module that is opened and closed again leaves no trace but other classes. *)
Lemma loaded_undo L s h pl cd :
  loaded L s → h ∉ L.*2 → (∀ p, p ∈ (dom (plcls s) : gset nat) → pl !! p = plcls s !! p) →
  (cd = caller_data s ∨ ∃ p, cd = <[h := p]> (caller_data s)) →
  loaded L (lt_dlclose h (set_caller_data cd (set_plcls pl (lt_opened h s)))).
Proof.
  intros HI Hh Hpl Hcd. destruct (loaded_fresh _ _ _ HI Hh) as [Er Ec].
  unfold lt_opened. rewrite Er. unfold lt_dlclose. simpl. rewrite lookup_insert_eq.
  apply (loaded_iff _ s); [done|..]; simpl.
  - rewrite delete_insert_eq. by apply delete_id.
  - rewrite lt_insert_perm, filter_cons_False by naive_solver. rewrite filter_all; [done|].
    intros x Hx ->. apply Hh. by rewrite <-(ld_modules _ _ HI).
  - destruct Hcd as [->|[p ->]]; [|rewrite delete_insert_eq]; by apply delete_id.
  - done.
  - done.
Qed.

Lemma delete_fresh_class s c p :
  p ∈ (dom (plcls s) : gset nat) → delete (new_plcl s) (<[new_plcl s := c]> (plcls s)) !! p = plcls s !! p.
Proof.
  intros Hp. rewrite delete_insert_eq, lookup_delete_ne; [done|]. intros <-.
  pose proof (new_plcl_fresh s) as E. apply elem_of_dom in Hp as [? ?]. congruence.
Qed.

(** A new plugin. *)
Lemma loaded_snoc L s h n :
  loaded L s → h ∉ L.*2 → n ∉ L.*1 →
  loaded (L ++ [(n, h)])
    (set_sh_plugins (<[n := HashNode 0 h]> (sh_plugins s))
      (set_caller_data (<[h := new_plcl s]> (caller_data s))
        (set_plcls (<[new_plcl s := fill_plcl h]> (plcls s))
          (set_modules (lt_insert h (modules s)) (<[h := 1%nat]> (refs s)) s)))).
Proof.
  intros HI Hh Hn. split; simpl; rewrite ?fmap_app; simpl.
  - intros h'. rewrite lookup_insert. rewrite (ld_refs _ _ HI). repeat case_decide; set_solver.
  - rewrite lt_insert_perm, (ld_modules _ _ HI). by rewrite Permutation_cons_append.
  - intros h' [Hh'| ->%list_elem_of_singleton]%elem_of_app.
    + destruct (ld_class _ _ HI h' Hh') as (p & Ep & Ec). exists p. simpl.
      rewrite lookup_insert_ne by set_solver. rewrite lookup_insert_ne; [done|].
      intros E. rewrite <-E, new_plcl_fresh in Ec. done.
    + exists (new_plcl s). simpl. by rewrite !lookup_insert_eq.
  - intros h' Hh'. rewrite lookup_insert_ne by set_solver. apply (ld_none _ _ HI). set_solver.
  - intros m nd. rewrite lookup_insert. case_decide as E.
    + subst m. split; [intros [= <-]; exists h; set_solver|].
      intros (h' & -> & [Hin|E%list_elem_of_singleton]%elem_of_app); [|by injection E as ->].
      destruct Hn. apply list_elem_of_fmap. by exists (n, h').
    + rewrite (ld_hash _ _ HI). set_solver.
Qed.

(** A file that becomes a plugin, and one that does not. *)
Lemma loaded_open L s f :
  loaded L s → (∀ h, lt_dlopenadvise f = Some h → h ∉ L.*2) →
  (∀ n h, loadable f = Some (n, h) → n ∉ L.*1) →
  ∃ s', plugins_open_plugin f s = Ok (0, s') ∧ loaded (L ++ option_list (loadable f)) s' ∧
    interface_id s' = interface_id s ∧ pl_log s' = pl_log s.
Proof.
  intros HI Hh Hn. unfold plugins_open_plugin, loadable in *.
  destruct (lt_dlopenadvise f) as [h|]; [|exists s; by rewrite app_nil_r].
  specialize (Hh h eq_refl). destruct (loaded_fresh _ _ _ HI Hh) as [Er Ec].
  assert (∀ pl cd, (∀ p, p ∈ (dom (plcls s) : gset nat) → pl !! p = plcls s !! p) →
    (cd = caller_data s ∨ ∃ p, cd = <[h := p]> (caller_data s)) →
    let s' := lt_dlclose h (set_caller_data cd (set_plcls pl (lt_opened h s))) in
    loaded (L ++ []) s' ∧ interface_id s' = interface_id s ∧ pl_log s' = pl_log s) as Hundo.
  { intros pl cd Hpl Hcd. rewrite app_nil_r. split; [by apply loaded_undo|].
    unfold lt_opened. rewrite Er. unfold lt_dlclose. simpl. by rewrite lookup_insert_eq. }
  step. unfold lt_opened in Hundo |- *. rewrite Er in Hundo |- *.
  set (s1 := set_modules (lt_insert h (modules s)) (<[h := 1%nat]> (refs s)) s).
  assert (new_plcl s1 = new_plcl s) as Ep by done. set (p := new_plcl s) in *.
  fold s1.
  destruct (malloc_plcl f); simpl.
  2:{ eexists. split; [reflexivity|]. pose proof (Hundo _ _ (λ _ _, eq_refl) (or_introl eq_refl)) as H.
      by destruct s. }
  step. step. rewrite Ep.
  pose proof (λ p', delete_fresh_class s (fill_plcl h) p') as Hdel. fold p in Hdel.
  destruct (required_symbols h); simpl.
  2:{ eexists. split; [reflexivity|]. pose proof (Hundo _ _ Hdel (or_introl eq_refl)) as H. by destruct s. }
  step. step. simpl. rewrite Ec. destruct (lt_dlgetinfo h) as [name|]; simpl.
  2:{ eexists. split; [reflexivity|]. pose proof (Hundo _ _ Hdel (or_intror (ex_intro _ p eq_refl))) as H.
      by destruct s. }
  assert (name ∉ L.*1) as Hname by by apply (Hn name h).
  assert (sh_plugins s !! name = None) as Es.
  { destruct (sh_plugins s !! name) as [nd|] eqn:E; [|done].
    apply (ld_hash _ _ HI) in E as (h' & _ & Hin). destruct Hname. apply list_elem_of_fmap. by exists (name, h'). }
  step. simpl. rewrite Es. step. simpl. unfold shash_add_once. rewrite Es. simpl.
  eexists. split; [reflexivity|]. split; [|done].
  by apply (loaded_snoc L s h name).
Qed.

Lemma loaded_foreach files L s :
  loaded L s → NoDup (L.*2 ++ omap lt_dlopenadvise files) →
  NoDup (L.*1 ++ (omap loadable files).*1) →
  ∃ s', lt_dlforeachfile files s = Ok (0, s') ∧ loaded (L ++ omap loadable files) s' ∧
    interface_id s' = interface_id s ∧ pl_log s' = pl_log s.
Proof.
  revert L s. induction files as [|f files IH]; intros L s HI Hh Hn.
  { exists s. by rewrite app_nil_r. }
  destruct (loaded_open L s f) as (s1 & E1 & H1 & Ei1 & El1); [done|..].
  { intros h Ef Hin. csimpl in *. rewrite Ef in Hh. apply NoDup_app in Hh as (_ & Hd & _).
    apply (Hd _ Hin). left. }
  { intros n h Ef Hin. csimpl in *. rewrite Ef in Hn. apply NoDup_app in Hn as (_ & Hd & _).
    apply (Hd _ Hin). left. }
  destruct (IH (L ++ option_list (loadable f)) s1) as (s' & E & H & Ei & El); [done|..].
  - csimpl in Hh. unfold loadable. destruct (lt_dlopenadvise f) as [h|]; [|by rewrite app_nil_r].
    destruct (_ && _), (lt_dlgetinfo h); simpl; rewrite ?app_nil_r;
      [|by apply NoDup_app in Hh as (? & Hd & Hc); apply NoDup_app; set_solver by eauto using NoDup_cons_1_2 ..].
    by rewrite fmap_app, <-app_assoc.
  - csimpl in Hn. rewrite fmap_app, <-app_assoc. by destruct (loadable f).
  - exists s'. cbn [lt_dlforeachfile]. erewrite bind_run by exact E1. simpl. split; [done|].
    split; [|by split; congruence]. csimpl. by destruct (loadable f); rewrite <-?app_assoc, ?app_nil_r in *.
Qed.
End Loading.

(** ** Initialising them *)

(** How often a name occurs. *)
Definition occurrences (n : string) (l : list string) : Z := Z.of_nat (length (filter (λ m, m = n) l)).

Lemma occurrences_app n l k : occurrences n (l ++ k) = occurrences n l + occurrences n k.
Proof. unfold occurrences. rewrite filter_app, length_app. lia. Qed.

Lemma occurrences_one n m : occurrences n [m] = if decide (m = n) then 1 else 0.
Proof. unfold occurrences. rewrite filter_cons. by case_decide. Qed.

Lemma occurrences_0 n l : occurrences n l = 0 ↔ n ∉ l.
Proof.
  unfold occurrences. split.
  - intros E Hn. assert (n ∈ filter (λ m, m = n) l) as Hin by by apply list_elem_of_filter.
    destruct (filter _ l); [set_solver|]. simpl in E. lia.
  - intros Hn. rewrite filter_none; [done|]. by intros x Hx ->.
Qed.

Section Initialising.
Context `{HL : OvsLib, LT : Ltdl}.
Context (L : list (string * handle)) (HLn : NoDup L.*1).

(** The plugin with a name. *)
Definition plugin_of (n : string) : option handle := (list_to_map L : gmap string handle) !! n.

Lemma plugin_of_Some n h : plugin_of n = Some h ↔ (n, h) ∈ L.
Proof. symmetry. by apply elem_of_list_to_map. Qed.

(** The calls for the names [l] of the yaml file when those of [before] have been
    handled: a name that occurs for the k-th time is called with phase k - 1. *)
Fixpoint yaml_events (before l : list string) : list plugin_event :=
  match l with
  | [] => []
  | n :: l' =>
      match plugin_of n with
      | Some h => [PluginInit (Sym h "init") (occurrences n before)]
      | None => []
      end ++ yaml_events (before ++ [n]) l'
  end.

(** The calls for the plugins that the file does not name. *)
Definition rest_events (l names : list string) : list plugin_event :=
  omap (λ n, if decide (n ∈ l) then None else (λ h, PluginInit (Sym h "init") 0) <$> plugin_of n) names.

(** The plugins are loaded and have been initialised [phase] times. *)
Record ready (phase : string → Z) (s : plst) : Prop := {
  rd_class : ∀ h, h ∈ L.*2 → has_class s h;
  rd_hash : ∀ n, sh_plugins s !! n = (λ h, HashNode (phase n) h) <$> plugin_of n;
  rd_init : ∀ h, h ∈ L.*2 → lt_dlsym h "init" = true;
}.

(** Only the hash table and the log have changed. *)
Record same_table (s s' : plst) : Prop := {
  st_interface : interface_id s' = interface_id s;
  st_modules : modules s' = modules s;
  st_caller : caller_data s' = caller_data s;
  st_plcls : plcls s' = plcls s;
}.

#[export] Instance same_table_preorder : PreOrder same_table.
Proof. split; [done|]. intros s1 s2 s3 [] []. split; congruence. Qed.

Lemma has_class_same s s' h : same_table s s' → has_class s h → has_class s' h.
Proof. intros [_ _ Ec Ep] (p & ? & ?). exists p. by rewrite Ec, Ep. Qed.

Lemma caller_class_run s h : has_class s h → caller_class h s = Ok (Some (fill_plcl h), s).
Proof.
  intros (p & Ec & Ep). unfold caller_class. step. rewrite Ec. unfold load_plcl.
  erewrite bind_run by (rewrite Ep; reflexivity). done.
Qed.

Lemma plugin_of_module n h : plugin_of n = Some h → h ∈ L.*2.
Proof. intros Hin%plugin_of_Some. apply list_elem_of_fmap. by exists (n, h). Qed.

(** One call of an init function. *)
Lemma init_step phase n s h :
  ready phase s → plugin_of n = Some h →
  let s' := next_phase n (HashNode (phase n) h) (pl_event (PluginInit (Sym h "init") (phase n)) s) in
  ready (λ m, if decide (m = n) then phase n + 1 else phase m) s' ∧ same_table s s'.
Proof.
  intros [Hc Hh Hi] En. split; [|done]. split; [|simpl|done].
  - intros h' Hh'. by apply (has_class_same s), Hc.
  - intros m. rewrite lookup_insert, Hh. case_decide as E; [subst m|]; case_decide; try done. by rewrite En.
Qed.

Lemma ready_ext phase phase' s : (∀ n, phase n = phase' n) → ready phase s → ready phase' s.
Proof. intros E [? Hh ?]. split; [done| |done]. intros n. by rewrite Hh, E. Qed.

Lemma init_from_yaml_run l before s :
  ready (λ n, occurrences n before) s →
  ∃ s', mfor l init_from_yaml s = Ok (tt, s') ∧ ready (λ n, occurrences n (before ++ l)) s' ∧
    same_table s s' ∧ pl_log s' = pl_log s ++ yaml_events before l.
Proof.
  revert before s. induction l as [|n l IH]; intros before s HR.
  { exists s. by rewrite !app_nil_r. }
  cbn [mfor yaml_events]. unfold init_from_yaml at 1. 
  assert (∃ s1, init_from_yaml n s = Ok (tt, s1) ∧ ready (λ m, occurrences m (before ++ [n])) s1 ∧ same_table s s1 ∧
    pl_log s1 = pl_log s ++ match plugin_of n with
      | Some h => [PluginInit (Sym h "init") (occurrences n before)] | None => [] end) as (s1 & E1 & HR1 & Hs1 & El1).
  { unfold init_from_yaml. step. rewrite (rd_hash _ _ HR n). destruct (plugin_of n) as [h|] eqn:En; simpl.
    - step (caller_class_run s h (rd_class _ _ HR h (plugin_of_module n h En))). simpl. unfold dlsym.
      rewrite (rd_init _ _ HR h) by by eapply plugin_of_module. step. eexists. split; [reflexivity|].
      destruct (init_step _ n s h HR En) as [H1 H2]. split; [|done]. revert H1. apply ready_ext. intros m.
      rewrite occurrences_app, occurrences_one. repeat case_decide; subst; try done; lia.
    - exists s. split; [done|]. split; [|by rewrite app_nil_r]. destruct HR as [? Hh ?]. split; [done| |done].
      intros m. rewrite Hh, occurrences_app, occurrences_one. case_decide; [subst m; by rewrite En|].
      by rewrite Z.add_0_r. }
  destruct (IH _ _ HR1) as (s' & E' & HR' & Hs' & El'). exists s'.
  erewrite bind_run by exact E1. split; [done|]. rewrite <-app_assoc in HR'. split; [done|].
  split; [by etrans|]. by rewrite El', El1, <-app_assoc.
Qed.

Lemma init_rest_run l names phase s :
  NoDup names → (∀ n, n ∈ names → phase n = occurrences n l) → ready phase s →
  ∃ s', mfor names init_rest s = Ok (tt, s') ∧ same_table s s' ∧
    pl_log s' = pl_log s ++ rest_events l names.
Proof.
  revert phase s. induction names as [|n names IH]; intros phase s Hnd Hph HR.
  { exists s. split; [done|]. by rewrite app_nil_r. }
  apply NoDup_cons in Hnd as [Hn Hnd]. cbn [mfor].
  assert (∃ phase1 s1, init_rest n s = Ok (tt, s1) ∧ ready phase1 s1 ∧ same_table s s1 ∧
    (∀ m, m ≠ n → phase1 m = phase m) ∧ pl_log s1 = pl_log s ++ rest_events l [n])
    as (phase1 & s1 & E1 & HR1 & Hs1 & Hph1 & El1).
  { unfold init_rest, rest_events. step. rewrite (rd_hash _ _ HR n). csimpl.
    specialize (Hph n (list_elem_of_here _ _)). destruct (plugin_of n) as [h|] eqn:En; simpl.
    2:{ exists phase, s. case_decide; by rewrite app_nil_r. }
    destruct (decide (n ∈ l)) as [Hl|Hl].
    - assert (phase n ≠ 0) as E0%Z.eqb_neq by (rewrite Hph, occurrences_0; naive_solver).
      rewrite E0. exists phase, s. by rewrite app_nil_r.
    - assert (phase n = 0) as E0 by by rewrite Hph, occurrences_0.
      rewrite E0. simpl. step (caller_class_run s h (rd_class _ _ HR h (plugin_of_module n h En))).
      simpl. unfold dlsym. rewrite (rd_init _ _ HR h) by by eapply plugin_of_module. step.
      destruct (init_step _ n s h HR En) as [H1 H2]. rewrite E0 in H1, H2.
      eexists _, _. split; [reflexivity|]. split; [exact H1|]. split; [done|]. split; [|done].
      intros m Hm. by rewrite decide_False. }
  destruct (IH phase1 s1) as (s' & E' & Hs' & El'); [done| |done|].
  { intros m Hm. rewrite Hph1; [apply Hph; by right|]. by intros ->. }
  exists s'. erewrite bind_run by exact E1. split; [done|]. split; [by etrans|].
  rewrite El', El1, <-app_assoc. unfold rest_events. csimpl. by destruct (decide (n ∈ l)), (plugin_of n).
Qed.

Lemma plugins_initializaton_run l s :
  ready (λ _, 0) s →
  ∃ s' names, plugins_initializaton (Some l) s = Ok (tt, s') ∧ same_table s s' ∧ names ≡ₚ L.*1 ∧
    pl_log s' = pl_log s ++ yaml_events [] l ++ rest_events l names.
Proof.
  intros HR. destruct (init_from_yaml_run l [] s) as (s1 & E1 & HR1 & Hs1 & El1); [done|].
  assert ((shash_nodes (sh_plugins s1)).*1 ≡ₚ L.*1) as Hnames.
  { apply NoDup_Permutation; [apply NoDup_shash_nodes|done|]. intros n. rewrite !list_elem_of_fmap. split.
    - intros ([m nd] & -> & Hin%elem_of_shash_nodes). rewrite (rd_hash _ _ HR1) in Hin.
      apply fmap_Some in Hin as (h & Eh & _). exists (m, h). by apply plugin_of_Some in Eh.
    - intros ([m h] & -> & Hin%plugin_of_Some). eexists (m, HashNode _ h). split; [done|].
      rewrite elem_of_shash_nodes, (rd_hash _ _ HR1), Hin. done. }
  destruct (init_rest_run l (shash_nodes (sh_plugins s1)).*1 (λ n, occurrences n l) s1) as (s' & E' & Hs' & El');
    [apply NoDup_shash_nodes|by intros n _|done|].
  exists s', (shash_nodes (sh_plugins s1)).*1. unfold plugins_initializaton. erewrite bind_run by exact E1.
  step. split; [done|]. split; [by etrans|]. split; [done|]. by rewrite El', El1, <-app_assoc.
Qed.

(** The calls of one plugin: phases 0, 1, ... *)
Definition inits_of (h : handle) (log : list plugin_event) : list Z :=
  omap (λ e, match e with
             | PluginInit f p => if decide (f = Sym h "init") then Some p else None
             | PluginCall _ => None
             end) log.

Lemma inits_of_app h k1 k2 : inits_of h (k1 ++ k2) = inits_of h k1 ++ inits_of h k2.
Proof. apply omap_app. Qed.

Lemma plugin_of_inj n m h : NoDup L.*2 → plugin_of n = Some h → plugin_of m = Some h → n = m.
Proof.
  intros Hnd Hn%plugin_of_Some Hm%plugin_of_Some.
  by injection (NoDup_fmap_elem snd L (n, h) (m, h) Hnd Hn Hm eq_refl).
Qed.

Lemma inits_of_yaml n h l before :
  NoDup L.*2 → plugin_of n = Some h →
  inits_of h (yaml_events before l) = seqZ (occurrences n before) (occurrences n l).
Proof.
  intros Hnd Hn. revert before. induction l as [|m l IH]; intros before; [done|].
  cbn [yaml_events]. rewrite inits_of_app, IH, occurrences_app, occurrences_one.
  change (m :: l) with ([m] ++ l). rewrite (occurrences_app n [m] l), occurrences_one.
  destruct (decide (m = n)) as [->|Hm].
  - rewrite Hn. unfold inits_of. csimpl. rewrite decide_True by done.
    rewrite (seqZ_cons _ (1 + _)) by (unfold occurrences; lia). f_equal. f_equal; lia.
  - assert (inits_of h match plugin_of m with
      | Some h => [PluginInit (Sym h "init") (occurrences m before)] | None => [] end = []) as ->.
    { destruct (plugin_of m) as [h'|] eqn:Em; [|done]. unfold inits_of. csimpl.
      rewrite decide_False; [done|]. intros [= ->]. apply Hm. by apply (plugin_of_inj m n h). }
    simpl. f_equal; lia.
Qed.

Lemma inits_of_rest n h l names :
  NoDup L.*2 → plugin_of n = Some h → NoDup names →
  inits_of h (rest_events l names) = if decide (n ∈ names ∧ n ∉ l) then [0] else [].
Proof.
  intros Hnd Hn. induction names as [|m names IH]; intros Hns.
  { rewrite decide_False; [done|]. set_solver. }
  apply NoDup_cons in Hns as [Hm Hns]. specialize (IH Hns).
  change (m :: names) with ([m] ++ names). unfold rest_events in *. rewrite omap_app, inits_of_app, IH.
  destruct (decide (m = n)) as [->|Hmn].
  - rewrite (decide_False (P := n ∈ names ∧ _)) by tauto. csimpl. rewrite Hn.
    destruct (decide (n ∈ l)); simpl.
    + by rewrite decide_False by tauto.
    + unfold inits_of. csimpl. rewrite decide_True by done. rewrite decide_True by set_solver. done.
  - assert (inits_of h (omap (λ n, if decide (n ∈ l) then None
      else (λ h, PluginInit (Sym h "init") 0) <$> plugin_of n) [m]) = []) as ->.
    { csimpl. destruct (decide (m ∈ l)); [done|]. destruct (plugin_of m) as [h'|] eqn:Em; [|done]. simpl.
      unfold inits_of. csimpl. rewrite decide_False; [done|]. intros [= ->]. apply Hmn.
      by apply (plugin_of_inj m n h). }
    simpl. destruct (decide (n ∈ names ∧ n ∉ l)) as [H|H].
    + rewrite decide_True; [done|]. set_solver.
    + rewrite decide_False; [done|]. set_solver.
Qed.

(** Each plugin is initialised as often as the file names it, and at least once. *)
Lemma inits_of_all n h l names :
  NoDup L.*2 → names ≡ₚ L.*1 → (n, h) ∈ L →
  inits_of h (yaml_events [] l ++ rest_events l names) = seqZ 0 (Z.max 1 (occurrences n l)).
Proof.
  intros Hnd Hnames Hin. assert (plugin_of n = Some h) as Hn by by apply plugin_of_Some.
  rewrite inits_of_app, (inits_of_yaml n), (inits_of_rest n) by (try done; by rewrite Hnames).
  change (occurrences n []) with 0. assert (n ∈ names) as Hnn.
  { rewrite Hnames. apply list_elem_of_fmap. by exists (n, h). }
  destruct (decide (n ∈ names ∧ n ∉ l)) as [[_ E]|E].
  - apply occurrences_0 in E as ->. done.
  - assert (occurrences n l ≠ 0) as Hne by (rewrite occurrences_0; tauto).
    rewrite app_nil_r. f_equal. unfold occurrences in *. lia.
Qed.

(** Calls of a function of all plugins. *)
Lemma plugins_call_run FUNC s :
  interface_id s = IfaceLive → (∀ h, h ∈ modules s → has_class s h) →
  ∃ s', PLUGINS_CALL FUNC s = Ok (tt, s') ∧ same_table s s' ∧
    pl_log s' = pl_log s ++ omap (λ h, PluginCall <$> FUNC (fill_plcl h)) (modules s).
Proof.
  intros Hi Hc. unfold PLUGINS_CALL. erewrite bind_run by (unfold lt_handles; rewrite Hi; reflexivity).
  revert Hc. generalize (modules s). intros ms. clear Hi. revert s.
  induction ms as [|h ms IH]; intros s Hc.
  { exists s. by rewrite app_nil_r. }
  cbn [mfor]. csimpl. 
  assert (∃ s1, (caller_class h ≫= λ plcl, match plcl ≫= FUNC with
      | Some f => modify (pl_event (PluginCall f)) | None => mret tt end) s = Ok (tt, s1) ∧ same_table s s1 ∧
      pl_log s1 = pl_log s ++ option_list (PluginCall <$> FUNC (fill_plcl h))) as (s1 & E1 & Hs1 & El1).
  { step (caller_class_run s h (Hc h (list_elem_of_here _ _))). simpl. destruct (FUNC (fill_plcl h)); simpl.
    - eexists. by split; [reflexivity|].
    - exists s. by rewrite app_nil_r. }
  destruct (IH s1) as (s' & E' & Hs' & El').
  { intros h' Hh'. eapply has_class_same; [done|]. apply Hc. by right. }
  exists s'. erewrite bind_run by exact E1. split; [done|]. split; [by etrans|].
  rewrite El', El1, <-app_assoc. by destruct (FUNC (fill_plcl h)).
Qed.
End Initialising.

(** ** The daemon's use of plugins *)

Section Properties.
Context `{HL : OvsLib, LT : Ltdl, YE : YamlEnv}.

(** libltdl starts up, and the files it finds under [path] are different modules
    with different names. *)
Record ltdl_works (path : option string) (L : list (string * handle)) : Prop := {
  lw_path : path ≠ Some "none";
  lw_init : lt_dlinit = 0;
  lw_search : lt_dlsetsearchpath (default ovs_pluginsdir path) = 0;
  lw_advise : lt_dladvise_init = 0;
  lw_register : lt_dlinterface_register = true;
  lw_local : lt_dladvise_local = 0;
  lw_ext : lt_dladvise_ext = 0;
  lw_modules : NoDup (omap lt_dlopenadvise (lt_files (default ovs_pluginsdir path)));
  lw_loadable : L = omap loadable (lt_files (default ovs_pluginsdir path));
  lw_names : NoDup L.*1;
}.

Lemma loadable_module files : (omap loadable files).*2 `sublist_of` omap lt_dlopenadvise files.
Proof.
  induction files as [|f files IH]; [done|]. csimpl. unfold loadable.
  destruct (lt_dlopenadvise f) as [h|]; [|done]. destruct (_ && _); simpl; [|by apply sublist_cons].
  destruct (lt_dlgetinfo h); simpl; [by apply sublist_skip|by apply sublist_cons].
Qed.

Lemma loadable_init files h : h ∈ (omap loadable files).*2 → lt_dlsym h "init" = true.
Proof.
  intros ([n h'] & -> & (f & _ & Ef)%list_elem_of_omap)%list_elem_of_fmap.
  unfold loadable in Ef. destruct (lt_dlopenadvise f) as [h|]; [|done].
  destruct (malloc_plcl f); [|done]. unfold required_symbols in Ef.
  destruct (lt_dlsym h "init") eqn:E; [|done]. simpl in Ef. case_match; [|done].
  destruct (lt_dlgetinfo h); [|done]. by injection Ef as <- <-.
Qed.

Lemma lw_handles path L : ltdl_works path L → NoDup L.*2.
Proof.
  intros H. rewrite (lw_loadable _ _ H). eapply sublist_NoDup; [apply (lw_modules _ _ H)|]. apply loadable_module.
Qed.

(** [plugins_init] as a whole. *)
Lemma plugins_init_run fuel path L yaml :
  ltdl_works path L → get_yaml_plugins fuel = Some (Ok yaml) →
  ∃ s names, plugins_init fuel path plst_start = Some (Ok (tt, s)) ∧ names ≡ₚ L.*1 ∧
    interface_id s = IfaceLive ∧ modules s ≡ₚ L.*2 ∧ (∀ h, h ∈ modules s → has_class s h) ∧
    pl_log s = yaml_events L [] (default [] yaml) ++ rest_events L (default [] yaml) names.
Proof.
  intros HW Ey. destruct (loaded_foreach (lt_files (default ovs_pluginsdir path)) []
    (set_interface_id IfaceLive plst_start)) as (s1 & E1 & H1 & Ei & El).
  { apply loaded_start. } { apply HW. } { rewrite <-(lw_loadable _ _ HW). apply HW. }
  rewrite <-(lw_loadable _ _ HW) in H1. simpl in H1, Ei, El.
  destruct (plugins_initializaton_run L (lw_names _ _ HW) (default [] yaml) s1)
    as (s & names & E & [Si Sm Sc Sp] & Hn & Hlog).
  { split; [apply H1| |].
    - intros n. destruct (plugin_of L n) as [h|] eqn:En; simpl.
      + apply (ld_hash _ _ H1). exists h. apply plugin_of_Some in En; [done|apply HW].
      + destruct (sh_plugins s1 !! n) as [nd|] eqn:Es; [|done].
        apply (ld_hash _ _ H1) in Es as (h & _ & Hin). apply plugin_of_Some in Hin; [|apply HW].
        congruence.
    - rewrite (lw_loadable _ _ HW). apply loadable_init. }
  exists s, names. split.
  { unfold plugins_init. rewrite bool_decide_false by apply HW.
    rewrite (lw_init _ _ HW), (lw_search _ _ HW), (lw_advise _ _ HW), (lw_register _ _ HW).
    rewrite (lw_local _ _ HW), (lw_ext _ _ HW). cbn [negb orb Z.eqb]. 
    change (set_sh_plugins ∅ plst_start) with plst_start. rewrite E1, Ey. simpl. f_equal. destruct yaml; exact E. }
  split; [done|]. split; [congruence|]. rewrite Sm. split; [apply H1|]. split.
  - intros h Hh. apply (has_class_same s1); [done|]. apply H1. by rewrite <-(ld_modules _ _ H1).
  - by rewrite Hlog, El.
Qed.

(** C28: plugins are initialised in the order of plugins.yaml: [plugins_init] calls
    the init function of a loaded plugin once for every time the file names it, in
    the order of the file, with phases 0, 1, ...; then, with phase 0, that of every
    plugin the file does not name; nothing else is called, and files that are not
    complete plugins are skipped. *)
Theorem plugins_initialised_in_order fuel path L yaml :
  ltdl_works path L → get_yaml_plugins fuel = Some (Ok yaml) →
  ∃ s names, plugins_init fuel path plst_start = Some (Ok (tt, s)) ∧ names ≡ₚ L.*1 ∧
    pl_log s = yaml_events L [] (default [] yaml) ++ rest_events L (default [] yaml) names ∧
    ∀ n h, (n, h) ∈ L → inits_of h (pl_log s) = seqZ 0 (Z.max 1 (occurrences n (default [] yaml))).
Proof.
  intros HW Ey. destruct (plugins_init_run _ _ _ _ HW Ey) as (s & names & E & Hn & _ & _ & _ & Hlog).
  exists s, names. split; [done|]. split; [done|]. split; [done|]. intros n h Hin. rewrite Hlog.
  apply inits_of_all; [apply HW|by eapply lw_handles|done|done].
Qed.

(** C29: after [plugins_init], whatever functions of the plugins the daemon calls and
    how often (run, wait, the registrations), no call touches a freed class, each
    call reaches exactly the loaded plugins that have the function, each once, and
    every plugin it reaches was initialised before. *)
Theorem plugin_calls_reach_initialised fuel path L yaml (calls : list (plugin_class → option symbol)) :
  ltdl_works path L → get_yaml_plugins fuel = Some (Ok yaml) →
  ∃ s s' ms, plugins_init fuel path plst_start = Some (Ok (tt, s)) ∧
    mfor calls PLUGINS_CALL s = Ok (tt, s') ∧ ms ≡ₚ L.*2 ∧
    pl_log s' = pl_log s ++ (calls ≫= λ FUNC, omap (λ h, PluginCall <$> FUNC (fill_plcl h)) ms) ∧
    ∀ h, h ∈ ms → PluginInit (Sym h "init") 0 ∈ pl_log s.
Proof.
  intros HW Ey. destruct (plugins_init_run _ _ _ _ HW Ey) as (s & names & E & Hn & Hi & Hm & Hc & Hlog).
  assert (∀ s0, interface_id s0 = IfaceLive → (∀ h, h ∈ modules s0 → has_class s0 h) → ∃ s',
    mfor calls PLUGINS_CALL s0 = Ok (tt, s') ∧
    pl_log s' = pl_log s0 ++ (calls ≫= λ FUNC, omap (λ h, PluginCall <$> FUNC (fill_plcl h)) (modules s0))) as Hcalls.
  { clear. induction calls as [|F calls IH]; intros s Hi Hc; [exists s; by rewrite app_nil_r|].
    destruct (plugins_call_run F s Hi Hc) as (s1 & E1 & S1 & El1). pose proof S1 as [Si Sm Sc Sp].
    destruct (IH s1) as (s' & E' & El'); [congruence|intros h Hh; rewrite Sm in Hh; by eapply has_class_same, Hc|].
    exists s'. cbn [mfor]. erewrite bind_run by exact E1. split; [done|]. csimpl.
    by rewrite El', El1, Sm, <-app_assoc. }
  destruct (Hcalls s Hi Hc) as (s' & E' & El'). exists s, s', (modules s).
  split; [done|]. split; [done|]. split; [done|]. split; [done|].
  intros h Hh. rewrite Hm in Hh. apply list_elem_of_fmap in Hh as ([n h'] & -> & Hin).
  assert (0 ∈ inits_of h' (pl_log s)) as H0.
  { rewrite Hlog, (inits_of_all L (lw_names _ _ HW) n);
      [|by eapply lw_handles|done|done]. apply elem_of_seqZ. lia. }
  apply list_elem_of_omap in H0 as ([f p|] & Hin0 & E0); [|done]. by case_decide; simplify_eq.
Qed.
End Properties.

(** ** plugins.yaml *)

Section YamlFile.
Context `{YE : YamlEnv}.

(** C39: the loop over the tokens of plugins.yaml ends if and only if libyaml
    finds the end of the stream, which it does not in a malformed file; then the
    result is the scalars before it, in order. *)
Theorem get_yaml_plugins_terminates fh :
  yaml_parser_initialize = true → open_yaml_file = Ok (Some fh) →
  ((∃ fuel r, get_yaml_plugins fuel = Some r) ↔ ∃ n, fh n = YAML_STREAM_END_TOKEN) ∧
  ∀ n fuel, fh n = YAML_STREAM_END_TOKEN → (∀ j, (j < n)%nat → fh j ≠ YAML_STREAM_END_TOKEN) →
    (n < fuel)%nat → get_yaml_plugins fuel = Some (Ok (Some (scalars fh n))).
Proof.
  intros Hp Ho. unfold get_yaml_plugins. rewrite Hp, Ho. simpl.
  assert (∀ n fuel, fh n = YAML_STREAM_END_TOKEN → (∀ j, (j < n)%nat → fh j ≠ YAML_STREAM_END_TOKEN) →
    (n < fuel)%nat → yaml_loop fuel fh 0 [] = Some (scalars fh n)) as Hend.
  { intros n fuel En Hj Hn. apply (yaml_loop_ends fh fuel n 0); [done|..]; intros; try apply Hj; lia. }
  split; [split|].
  - intros (fuel & r & E). destruct (decide (Exists (λ i, fh i = YAML_STREAM_END_TOKEN) (seq 0 fuel))) as [H|H].
    + apply Exists_exists in H as (n & _ & En). by exists n.
    + rewrite yaml_loop_stuck in E; [done|]. intros j Hj Ej. apply H, Exists_exists. exists j.
      split; [|done]. apply elem_of_seq. lia.
  - intros [n En]. induction n as [n IH] using lt_wf_ind.
    destruct (decide (Exists (λ i, fh i = YAML_STREAM_END_TOKEN) (seq 0 n))) as [H|H].
    + apply Exists_exists in H as (m & Hm%elem_of_seq & Em). apply (IH m); [lia|done].
    + exists (S n). rewrite (Hend n); [eauto|done| |lia].
      intros j Hj Ej. apply H, Exists_exists. exists j. split; [|done]. apply elem_of_seq. lia.
  - intros n fuel En Hj Hn. by rewrite (Hend n).
Qed.

(** Without dmidecode the loop over the paths leaves the array. *)
Theorem dmidecode_missing :
  (∀ path, path ∈ dmidecode_paths → executable (path +:+ "/" +:+ DMIDECODE_NAME) = false) →
  open_yaml_file = Fault BufferOverflow.
Proof.
  intros Hm. unfold open_yaml_file, dmidecode_exists, sizeof_paths.
  assert (∀ n i, (i + n = 32)%nat → (i < 5)%nat → dmidecode_from n i = Fault BufferOverflow) as H.
  { induction n as [|n IH]; intros i Hi Hi4; [lia|]. cbn [dmidecode_from].
    destruct (dmidecode_paths !! i) as [p|] eqn:E; [|done].
    rewrite Hm by by eapply list_elem_of_lookup_2. apply IH; [lia|].
    apply lookup_lt_Some in E. simpl in E. lia. }
  rewrite (H 32%nat 0%nat); [done|lia|lia].
Qed.

(** A command that prints only comments: the line that [getline] did not read is
    read. *)
Theorem output_without_line cmd lines :
  popen_lines cmd = Some lines → (∀ l, l ∈ lines → ∃ comment, l = String "#"%char comment) →
  get_sys_cmd_out cmd = Fault Uninitialised.
Proof.
  intros E Hl. unfold get_sys_cmd_out. rewrite E. clear E. induction lines as [|l lines IH]; [done|].
  destruct (Hl l (list_elem_of_here _ _)) as [comment ->]. cbn [first_line].
  rewrite bool_decide_true by done.
  apply IH. intros l' Hl'. apply Hl. by right.
Qed.

(** The path is complete when the build's YAML_PATH has at most 84 characters. *)
Lemma concat_path_fits manuf product :
  (String.length YAML_PATH ≤ 84)%nat →
  concat_path manuf product = (YAML_PATH +:+ "/" +:+ manuf +:+ "/" +:+ product +:+ "/plugins.yaml")%string.
Proof.
  intros Hl. unfold concat_path. apply substring_all.
  rewrite !string_length_app. cbn [String.length]. unfold YAML_PATH_LENGHT. lia.
Qed.
End YamlFile.

(** ** Examples *)

(** A platform with dmidecode, and the tokens of a file with the names b, a, b. *)
Definition ex_tokens (n : nat) : yaml_token :=
  nth n [YAML_STREAM_START_TOKEN; YAML_BLOCK_SEQUENCE_START_TOKEN; YAML_BLOCK_ENTRY_TOKEN;
         YAML_SCALAR_TOKEN "b"; YAML_BLOCK_ENTRY_TOKEN; YAML_SCALAR_TOKEN "a"; YAML_BLOCK_ENTRY_TOKEN;
         YAML_SCALAR_TOKEN "b"; YAML_BLOCK_END_TOKEN; YAML_STREAM_END_TOKEN] YAML_NO_TOKEN.

Definition nl : string := String "010"%char EmptyString.

Definition ex_yaml : YamlEnv := {|
  stat_mode path := if path =? "/sbin/dmidecode" then Some 493 else None;
  popen_lines cmd :=
    if cmd =? "/sbin/dmidecode -s system-manufacturer" then Some ["# comment" +:+ nl; "Acme" +:+ nl]
    else if cmd =? "/sbin/dmidecode -s system-product-name" then Some ["Switch 1" +:+ nl] else None;
  fopen_tokens path := if path =? "/etc/platform/Acme/Switch 1/plugins.yaml" then Some ex_tokens else None;
  YAML_PATH := "/etc/platform";
  yaml_parser_initialize := true;
|}%string.

(** A directory of plugins: the modules and names of its files; the module 9 is no
    plugin. *)
Program Definition ex_ltdl (dir : list (string * (handle * string))) : Ltdl := {|
  lt_dlopenadvise f := fst <$> (list_to_map dir : gmap string (handle * string)) !! f;
  lt_dlsym h sym := negb (h =? 9)%nat && negb (bool_decide (sym = "wait") && (h =? 8)%nat)
                    && bool_decide (sym ∈ ["init"; "run"; "wait"; "destroy"]);
  lt_dlgetinfo h := (λ p : string * (handle * string), p.2.2) <$> List.find (λ p, (p.2.1 =? h)%nat) dir;
  lt_insert h l := h :: l;
  lt_iterate_null l := Ok [];
  lt_dlinit := 0;
  lt_dlsetsearchpath _ := 0;
  lt_dladvise_init := 0;
  lt_dlinterface_register := true;
  lt_dladvise_local := 0;
  lt_dladvise_ext := 0;
  lt_files _ := dir.*1;
  malloc_plcl _ := true;
  ovs_pluginsdir := "/usr/lib/plugins";
|}.
Next Obligation. done. Qed.

Definition ex_dir : list (string * (handle * string)) :=
  [("a", (1%nat, "a")); ("b", (2%nat, "b")); ("c", (9%nat, "c")); ("d", (8%nat, "d")); ("e", (5%nat, "e"))].

(** The log of [plugins_init], and what calling [FUNC]s afterwards does. *)
Definition ex_init (dir : list (string * (handle * string))) : option (outcome (unit * plst)) :=
  plugins_init (HL := ref_lib) (LT := ex_ltdl dir) (H := ex_yaml) 20 None plst_start.

Definition ex_then (dir : list (string * (handle * string))) (calls : list (plugin_class → option symbol))
    : outcome (list plugin_event) :=
  match ex_init dir with
  | Some (Ok (_, s)) =>
      match mfor calls (PLUGINS_CALL (LT := ex_ltdl dir)) s with
      | Ok (_, s') => Ok (pl_log s')
      | Fault e => Fault e
      end
  | Some (Fault e) => Fault e
  | None => Ok []
  end.

Example ex_init_order :
  ex_then ex_dir [] = Ok [PluginInit (Sym 2%nat "init") 0; PluginInit (Sym 1%nat "init") 0;
                          PluginInit (Sym 2%nat "init") 1; PluginInit (Sym 5%nat "init") 0].
Proof. vm_compute. reflexivity. Qed.

(** Two files of one module: the class of the second is freed although it has
    become the caller data of the module; its init function is read from it. *)
Example same_module_twice :
  ex_then [("a.la", (1%nat, "a")); ("a.so", (1%nat, "a"))] [] = Fault UseAfterFree.
Proof. vm_compute. reflexivity. Qed.

(** Two modules of one name, in two directories: the second is called but never
    initialised. *)
Example same_name_twice :
  ex_then [("x/a", (1%nat, "a")); ("y/a", (2%nat, "a"))] [pc_run] =
  Ok [PluginInit (Sym 1%nat "init") 0; PluginCall (Sym 2%nat "run"); PluginCall (Sym 1%nat "run")].
Proof. vm_compute. reflexivity. Qed.

Lemma plugins_initialised_in_order_witness :
  ltdl_works (LT := ex_ltdl ex_dir) None [("a", 1%nat); ("b", 2%nat); ("e", 5%nat)] ∧
  ∃ s names, ex_init ex_dir = Some (Ok (tt, s)) ∧ names ≡ₚ ["a"; "b"; "e"] ∧
    inits_of 2%nat (pl_log s) = [0; 1] ∧ inits_of 5%nat (pl_log s) = [0].
Proof.
  assert (ltdl_works (LT := ex_ltdl ex_dir) None [("a", 1%nat); ("b", 2%nat); ("e", 5%nat)]) as HW.
  { split; try done; by_compute. }
  split; [exact HW|].
  destruct (plugins_initialised_in_order (HL := ref_lib) (LT := ex_ltdl ex_dir) (YE := ex_yaml) 20 None
    [("a", 1%nat); ("b", 2%nat); ("e", 5%nat)] (Some ["b"; "a"; "b"]) HW) as (s & names & E & Hn & _ & Hi).
  { vm_compute. reflexivity. }
  exists s, names. split; [exact E|]. split; [exact Hn|]. split.
  - rewrite (Hi "b" 2%nat); [vm_compute; reflexivity|]. by_compute.
  - rewrite (Hi "e" 5%nat); [vm_compute; reflexivity|]. by_compute.
Defined.

Lemma plugin_calls_reach_initialised_witness :
  ltdl_works (LT := ex_ltdl ex_dir) None [("a", 1%nat); ("b", 2%nat); ("e", 5%nat)] ∧
  ∃ s s' ms, ex_init ex_dir = Some (Ok (tt, s)) ∧
    mfor [pc_netdev_register; pc_run; pc_run] (PLUGINS_CALL (LT := ex_ltdl ex_dir)) s = Ok (tt, s') ∧
    ms ≡ₚ [1; 2; 5]%nat.
Proof.
  assert (ltdl_works (LT := ex_ltdl ex_dir) None [("a", 1%nat); ("b", 2%nat); ("e", 5%nat)]) as HW.
  { split; try done; by_compute. }
  split; [exact HW|].
  destruct (plugin_calls_reach_initialised (HL := ref_lib) (LT := ex_ltdl ex_dir) (YE := ex_yaml) 20 None
    [("a", 1%nat); ("b", 2%nat); ("e", 5%nat)] (Some ["b"; "a"; "b"]) [pc_netdev_register; pc_run; pc_run] HW)
    as (s & s' & ms & E & E' & Hm & _).
  { vm_compute. reflexivity. }
  exists s, s', ms. split; [exact E|]. split; [exact E'|exact Hm].
Defined.

Lemma get_yaml_plugins_terminates_witness :
  open_yaml_file (YE := ex_yaml) = Ok (Some ex_tokens) ∧
  get_yaml_plugins (YE := ex_yaml) 10 = Some (Ok (Some ["b"; "a"; "b"])).
Proof.
  assert (open_yaml_file (YE := ex_yaml) = Ok (Some ex_tokens)) as E by (vm_compute; reflexivity).
  split; [exact E|].
  destruct (get_yaml_plugins_terminates (YE := ex_yaml) ex_tokens eq_refl E) as [_ H].
  rewrite (H 9%nat 10%nat); [vm_compute; reflexivity|reflexivity| |lia].
  intros j Hj. do 9 (destruct j as [|j]; [discriminate|]). lia.
Defined.
