(* ===== verification/BridgeConfigure.v ===== *)
(** * The configuration of a bridge: the first loop of [bridge_reconfigure]

    "Complete the configuration" for one bridge: its datapath identifier, its
    modified ports, VLANs, mirrors, MAC table, sFlow settings, controllers and
    flow tables, in terms of the components that model each of them.  Then the
    two loops over all bridges and VRFs, which share the sFlow number and, among
    VRFs, the variables of the process. *)

From S2P Require Import Prelude OvsLib Blocks.
From S2P Require PortConfig Sflow DatapathId Remotes.
From S2P Require Import Vlan Mirror.
Import ReconfigureBlocks.
Local Open Scope Z_scope.

(** ** State *)

(** An interface of a port: its device, and of its row whether it was made up by
    the daemon and whether it was modified. *)
Record bc_iface `{DatapathId.EthLib} := BcIface {
  bi_hw : DatapathId.hw_iface;
  bi_synthetic : bool;
  bi_modified : bool;
}.

(** A port of a bridge: the port as [port_configure] sees it, its mac and tag
    columns, its change flag and address columns, and its interfaces. *)
Record bc_port `{DatapathId.EthLib} := BcPort {
  bq_port : PortConfig.port;
  bq_mac : option string;
  bq_vlan_tag : option Z;
  bq_modified : bool;
  bq_ip : PortConfig.ip_columns;
  bq_ifaces : list bc_iface;
}.

Arguments BcIface {_} _ _ _.
Arguments BcPort {_} _ _ _ _ _ _.

(** What the code reads of the Bridge row and of the rows it refers to, and what
    the switch answers. *)
Record bc_cfg := BcCfg {
  cf_other_config : smap;
  cf_fail_mode : option string;
  cf_protocols : list string;
  cf_vlans : list ovsrec_vlan;
  cf_mirrors : list ovsrec_mirror;
  cf_controllers : list Remotes.ovsrec_controller;
  cf_flow_tables : list (Z * Remotes.ovsrec_flow_table);
  cf_n_tables : nat;
  cf_dpid_now : Z;
  cf_has_snoops : bool;
}.

Inductive bc_event `{Sflow.SflowDefs} {F : Type} :=
| BridgeBlock (id : block_id) (port : option string)
| SetOfport (iface : string) (ofport : Z)
| SetMacTable (config : Z * Z)
| SetBridgeSflow (options : option Sflow.ofproto_sflow_options)
| RemoteCalls (calls : list Remotes.rm_event)
| SetTables (tables : list (Remotes.table_settings F))
| SetDpDesc (desc : option string).
Arguments bc_event {_} F.

Section State.
Context `{PortConfig.PortLib, Sflow.SflowDefs, DatapathId.EthLib} (F : Type).

Record bcst := BcSt {
  bc_name : string;
  bc_default_ea : DatapathId.eth_addr;
  bc_ports : list bc_port;
  bc_pst : PortConfig.pst;
  bc_vlans : vlst;
  bc_mirrors : mist;
  bc_ea : DatapathId.eth_addr;
  bc_dp_log : list DatapathId.dp_event;
  bc_log : list (bc_event F);
}.
End State.
Arguments BcSt {_ _ _ _} _ _ _ _ _ _ _ _ _.
Arguments bc_name {_ _ _ _} _.
Arguments bc_default_ea {_ _ _ _} _.
Arguments bc_ports {_ _ _ _} _.
Arguments bc_pst {_ _ _ _} _.
Arguments bc_vlans {_ _ _ _} _.
Arguments bc_mirrors {_ _ _ _} _.
Arguments bc_ea {_ _ _ _} _.
Arguments bc_dp_log {_ _ _ _} _.
Arguments bc_log {_ _ _ _} _.

Section BridgeConfigure.
Context `{HL : OvsLib, HV : VlanSchema, HM : MirrorProvider, HMS : MirrorSchema}.
Context `{HPL : PortConfig.PortLib, HPP : !PortConfig.PortProvider, HSF : Sflow.SflowDefs}.
Context `{HE : DatapathId.EthLib, HR : Remotes.RemoteLib}.
Context {F : Type} (parse_subfield : string → option (F * string)).
(** [ofputil_versions_from_strings], [OFPP_NONE], [OFPP_LOCAL]. *)
Context (ofputil_versions_from_strings : list string → Z) (OFPP_NONE : Z).
(** All bridges and VRFs as the code on mirrors sees them. *)
Context (all_bridges all_vrfs : list bridge_view).
Local Abbreviation bcst := (bcst F).

(** Writes of one field. *)
Definition set_bc_ports (v : list bc_port) (s : bcst) : bcst :=
  BcSt (bc_name s) (bc_default_ea s) v (bc_pst s) (bc_vlans s) (bc_mirrors s) (bc_ea s) (bc_dp_log s) (bc_log s).
Definition set_bc_pst (v : PortConfig.pst) (s : bcst) : bcst :=
  BcSt (bc_name s) (bc_default_ea s) (bc_ports s) v (bc_vlans s) (bc_mirrors s) (bc_ea s) (bc_dp_log s) (bc_log s).
Definition set_bc_vlans (v : vlst) (s : bcst) : bcst :=
  BcSt (bc_name s) (bc_default_ea s) (bc_ports s) (bc_pst s) v (bc_mirrors s) (bc_ea s) (bc_dp_log s) (bc_log s).
Definition set_bc_mirrors (v : mist) (s : bcst) : bcst :=
  BcSt (bc_name s) (bc_default_ea s) (bc_ports s) (bc_pst s) (bc_vlans s) v (bc_ea s) (bc_dp_log s) (bc_log s).
Definition set_bc_ea (v : DatapathId.eth_addr) (s : bcst) : bcst :=
  BcSt (bc_name s) (bc_default_ea s) (bc_ports s) (bc_pst s) (bc_vlans s) (bc_mirrors s) v (bc_dp_log s) (bc_log s).
Definition set_bc_dp_log (v : list DatapathId.dp_event) (s : bcst) : bcst :=
  BcSt (bc_name s) (bc_default_ea s) (bc_ports s) (bc_pst s) (bc_vlans s) (bc_mirrors s) (bc_ea s) v (bc_log s).
Definition set_bc_log (v : list (bc_event F)) (s : bcst) : bcst :=
  BcSt (bc_name s) (bc_default_ea s) (bc_ports s) (bc_pst s) (bc_vlans s) (bc_mirrors s) (bc_ea s) (bc_dp_log s) v.

Definition bc_emit (e : bc_event F) : M bcst unit := modify (λ s, set_bc_log (bc_log s ++ [e]) s).

(** Code of the other components on their part of the state. *)
Definition bc_on_pst {A} (c : M PortConfig.pst A) : M bcst A := λ s,
  match c (bc_pst s) with Ok (a, t) => Ok (a, set_bc_pst t s) | Fault e => Fault e end.
Definition bc_on_vlans {A} (c : M vlst A) : M bcst A := λ s,
  match c (bc_vlans s) with Ok (a, t) => Ok (a, set_bc_vlans t s) | Fault e => Fault e end.
Definition bc_on_mirrors {A} (c : M mist A) : M bcst A := λ s,
  match c (bc_mirrors s) with Ok (a, t) => Ok (a, set_bc_mirrors t s) | Fault e => Fault e end.
Definition bc_on_dp {A} (c : M (list DatapathId.dp_event) A) : M bcst A := λ s,
  match c (bc_dp_log s) with Ok (a, t) => Ok (a, set_bc_dp_log t s) | Fault e => Fault e end.

Definition bq_name (p : bc_port) : string := PortConfig.p_name (bq_port p).
Definition bc_put_port (p : bc_port) : M bcst unit :=
  modify (λ s, set_bc_ports ((λ x, if bool_decide (bq_name x = bq_name p) then p else x) <$> bc_ports s) s).

(** ** Small functions *)

(** The ports as [bridge_configure_datapath_id] sees them. *)
Definition hw_port_of (p : bc_port) : DatapathId.hw_port :=
  DatapathId.HwPort (bq_mac p) (bq_vlan_tag p) (bi_hw <$> bq_ifaces p).

Definition iface_from_ofp_port (ps : list bc_port) (ofp_port : Z) : option bc_iface :=
  List.find (λ i, DatapathId.hi_ofp_port (bi_hw i) =? ofp_port) (ps ≫= bq_ifaces).

Definition iface_set_ofport (i : bc_iface) (ofport : Z) : M bcst unit :=
  if bi_synthetic i then mret tt
  else bc_emit (SetOfport (DatapathId.hi_name (bi_hw i)) (if ofport =? OFPP_NONE then -1 else ofport)).

Definition bridge_get_allowed_versions (protocols : list string) : Z :=
  match protocols with [] => 0 | _ => ofputil_versions_from_strings protocols end.

Definition bridge_get_controllers (controllers : list Remotes.ovsrec_controller) : list Remotes.ovsrec_controller :=
  match controllers with
  | [c] => if bool_decide (Remotes.ct_target c = "none") then [] else [c]
  | _ => controllers
  end.

Definition bridge_configure_dp_desc (cfg : bc_cfg) : M bcst unit :=
  bc_emit (SetDpDesc (cf_other_config cfg !! "dp-desc")).

(** ** Ports *)

(** The loop over the interfaces of the port ends at the first modified one. *)
Definition port_iface_changed (p : bc_port) : bool := existsb bi_modified (bq_ifaces p).

Definition configure_bridge_port (p : bc_port) : M bcst unit :=
  if bq_modified p || port_iface_changed p then
    q ← bc_on_pst (PortConfig.port_configure (bq_ip p) (bq_port p));
    bc_put_port (BcPort q (bq_mac p) (bq_vlan_tag p) (bq_modified p) (bq_ip p) (bq_ifaces p)) ;;
    bc_emit (BridgeBlock BLK_BR_PORT_UPDATE (Some (bq_name p))) ;;
    mfor (bq_ifaces p) (λ i, mwhen (bi_modified i) (iface_set_ofport i (DatapathId.hi_ofp_port (bi_hw i))))
  else mret tt.

(** ** The whole step *)

(** [sflow]: the sFlow row of the System row, if there are both; the result is
    the next sFlow number. *)
Definition configure_bridge_sflow (sflow : option Sflow.ovsrec_sflow) (ports : list Sflow.sflow_port) (number : Z)
    : M bcst Z :=
  match sflow with
  | Some row =>
    let '(options, next) := Sflow.bridge_configure_sflow ports (Some row) number in
    bc_emit (SetBridgeSflow options) ;; mret next
  | None => bc_emit (SetBridgeSflow None) ;; mret number
  end.

Definition configure_bridge (managers : list Z) (sflow : option Sflow.ovsrec_sflow) (sflow_ports : list Sflow.sflow_port)
    (cfg : bc_cfg) (number : Z) : M bcst Z :=
  ps ← gets bc_ports;
  name ← gets bc_name;
  default_ea ← gets bc_default_ea;
  let local := bool_decide (is_Some (iface_from_ofp_port ps DatapathId.OFPP_LOCAL)) in
  ea ← bc_on_dp (DatapathId.bridge_configure_datapath_id (cf_other_config cfg) default_ea (hw_port_of <$> ps)
                   local (cf_dpid_now cfg));
  modify (set_bc_ea ea) ;;
  mfor ps configure_bridge_port ;;
  bc_on_vlans (bridge_configure_vlans (cf_vlans cfg)) ;;
  bc_on_mirrors (bridge_configure_mirrors all_bridges all_vrfs true (cf_mirrors cfg)) ;;
  bc_emit (SetMacTable (Remotes.bridge_configure_mac_table (cf_other_config cfg))) ;;
  next ← configure_bridge_sflow sflow sflow_ports number;
  bc_emit (RemoteCalls (Remotes.bridge_configure_remotes name (cf_other_config cfg) (cf_fail_mode cfg)
    (bridge_get_allowed_versions (cf_protocols cfg)) local (cf_has_snoops cfg) managers
    (bridge_get_controllers (cf_controllers cfg)))) ;;
  bc_emit (SetTables (Remotes.bridge_configure_tables parse_subfield (cf_n_tables cfg) (cf_flow_tables cfg))) ;;
  bridge_configure_dp_desc cfg ;;
  bc_emit (BridgeBlock BLK_BR_FEATURE_RECONFIG None) ;;
  mret next.
End BridgeConfigure.

(** ** All bridges and VRFs *)

(** A loop over structures with states of their own that share a value. *)
Fixpoint complete_loop {I S A} (f : I → A → M S A) (l : list (I * S)) (a : A) : outcome (list S * A) :=
  match l with
  | [] => Ok ([], a)
  | (i, s) :: l' =>
    match f i a s with
    | Fault e => Fault e
    | Ok (next, s') =>
      match complete_loop f l' next with
      | Fault e => Fault e
      | Ok (rest, last) => Ok (s' :: rest, last)
      end
    end
  end.

(** The bridges are completed before the VRFs.  Bridges share the sFlow number;
    VRFs go on with it and share the variables of the process, [g]. *)
Definition complete_configuration {I J S T G} (bridge : I → Z → M S Z) (vrf : J → Z * G → M T (Z * G))
    (bridges : list (I * S)) (vrfs : list (J * T)) (g : G) : outcome (list S * list T * G) :=
  match complete_loop bridge bridges 0 with
  | Fault e => Fault e
  | Ok (bs, next) =>
    match complete_loop vrf vrfs (next, g) with
    | Fault e => Fault e
    | Ok (vs, (_, g')) => Ok (bs, vs, g')
    end
  end.
