(* ===== verification/BridgeConfigureFacts.v ===== *)
(** * Theorems on the configuration of bridges and VRFs

    The last part of [bridge_reconfigure] as a whole: every bridge and VRF ends
    with what the components promise for each step, and the sFlow numbers they
    are given are distinct. *)

From S2P Require Import Prelude OvsLib Blocks.
From S2P Require Import Vlan Mirror MirrorFacts Vrf VrfFacts Neighbor NeighborFacts.
From S2P Require PortConfig Sflow SflowFacts DatapathId Remotes RemotesFacts VrfConfigure VrfWitness NeighborPoll.
From S2P Require Import VrfConfigureFacts BridgeConfigure.
Import ReconfigureBlocks.
Local Open Scope Z_scope.

(** ** One bridge *)

Section Bridge.
Context `{HL : OvsLib, HV : VlanSchema, HM : MirrorProvider, HMS : MirrorSchema}.
Context `{HPL : PortConfig.PortLib, HPP : !PortConfig.PortProvider, HSF : Sflow.SflowDefs}.
Context `{HE : DatapathId.EthLib, HR : Remotes.RemoteLib}.
Context {F : Type} (parse_subfield : string → option (F * string)).
Context (ofputil_versions_from_strings : list string → Z) (OFPP_NONE : Z).
Context (all_bridges all_vrfs : list bridge_view).
Context (Hun : ∀ l u, ofproto_mirror_unregister l u = 0).
Local Abbreviation bcst := (bcst F).
Implicit Types s : bcst.

(** Port updates run for plugins, and sFlow settings, in order. *)
Definition updated (l : list (bc_event F)) : list string :=
  omap (λ e, match e with BridgeBlock BLK_BR_PORT_UPDATE p => p | _ => None end) l.
Definition bridge_sflow (l : list (bc_event F)) : list (option Sflow.ofproto_sflow_options) :=
  omap (λ e, match e with SetBridgeSflow o => Some o | _ => None end) l.

(** The port or one of its interfaces was modified. *)
Definition bq_needs (p : bc_port) : bool := bq_modified p || port_iface_changed p.

(** All but the ports and the logs. *)
Definition same_rest (s s' : bcst) : Prop :=
  bc_vlans s' = bc_vlans s ∧ bc_mirrors s' = bc_mirrors s ∧ bc_ea s' = bc_ea s ∧
  bc_name s' = bc_name s ∧ bc_default_ea s' = bc_default_ea s ∧ bc_dp_log s' = bc_dp_log s ∧
  bridge_sflow (bc_log s') = bridge_sflow (bc_log s).

Lemma same_rest_trans s1 s2 s3 : same_rest s1 s2 → same_rest s2 s3 → same_rest s1 s3.
Proof. unfold same_rest. intuition congruence. Qed.

Lemma set_ofports_run l s :
  ∃ s', mfor l (λ i, mwhen (bi_modified i) (iface_set_ofport OFPP_NONE i (DatapathId.hi_ofp_port (bi_hw i)))) s =
      Ok (tt, s') ∧
    same_rest s s' ∧ bc_pst s' = bc_pst s ∧ bc_ports s' = bc_ports s ∧ updated (bc_log s') = updated (bc_log s).
Proof.
  revert s. induction l as [|i l IH]; intros s; [by exists s|]. cbn [mfor].
  assert (∃ s1, mwhen (bi_modified i) (iface_set_ofport OFPP_NONE i (DatapathId.hi_ofp_port (bi_hw i))) s = Ok (tt, s1) ∧
    same_rest s s1 ∧ bc_pst s1 = bc_pst s ∧ bc_ports s1 = bc_ports s ∧ updated (bc_log s1) = updated (bc_log s))
    as (s1 & E1 & R1 & P1 & Q1 & U1).
  { unfold iface_set_ofport. destruct (bi_modified i), (bi_synthetic i); simpl; try by exists s.
    eexists. split; [reflexivity|]. unfold same_rest, bridge_sflow, updated. simpl. by rewrite !omap_app, !app_nil_r. }
  destruct (IH s1) as (s' & E & R & P & Q & U). exists s'. erewrite bind_run by exact E1. split; [done|].
  split; [by eapply same_rest_trans|]. split_and!; congruence.
Qed.

Lemma configure_bridge_port_run p s :
  ∃ s', configure_bridge_port OFPP_NONE p s = Ok (tt, s') ∧ same_rest s s' ∧
    bq_name <$> bc_ports s' = bq_name <$> bc_ports s ∧
    registered (PortConfig.port_log (bc_pst s')) =
      registered (PortConfig.port_log (bc_pst s)) ++ (if bq_needs p then [bq_name p] else []) ∧
    updated (bc_log s') = updated (bc_log s) ++ (if bq_needs p then [bq_name p] else []).
Proof.
  unfold configure_bridge_port, bq_needs.
  destruct (bq_modified p || port_iface_changed p); [|exists s; by rewrite !app_nil_r].
  destruct (port_configure_run (bq_ip p) (bq_port p) (bc_pst s)) as (q & t & E1 & Hq & Hreg).
  erewrite bind_run by (unfold bc_on_pst; rewrite E1; reflexivity). step. step.
  match goal with |- context [mfor _ _ ?s0] => destruct (set_ofports_run (bq_ifaces p) s0) as (s' & E & R & P & Q & U) end.
  exists s'. split; [exact E|]. simpl in *. split; [|split; [|split]].
  - eapply same_rest_trans; [|exact R]. unfold same_rest, bridge_sflow. simpl. by rewrite omap_app, app_nil_r.
  - rewrite Q, <-list_fmap_compose. apply list_fmap_ext. intros j x _. simpl. unfold bq_name at 3. simpl.
    case_bool_decide as Ex; [|done]. by rewrite Ex.
  - by rewrite P, Hreg.
  - rewrite U. unfold updated. by rewrite omap_app.
Qed.

Lemma configure_bridge_ports_run l s :
  ∃ s', mfor l (configure_bridge_port OFPP_NONE) s = Ok (tt, s') ∧ same_rest s s' ∧
    bq_name <$> bc_ports s' = bq_name <$> bc_ports s ∧
    registered (PortConfig.port_log (bc_pst s')) =
      registered (PortConfig.port_log (bc_pst s)) ++ (bq_name <$> filter (λ p, bq_needs p = true) l) ∧
    updated (bc_log s') = updated (bc_log s) ++ (bq_name <$> filter (λ p, bq_needs p = true) l).
Proof.
  revert s. induction l as [|p l IH]; intros s; [exists s; by rewrite !app_nil_r|]. cbn [mfor].
  destruct (configure_bridge_port_run p s) as (s1 & E1 & R1 & N1 & G1 & U1).
  destruct (IH s1) as (s' & E & R & N & G & U). exists s'. erewrite bind_run by exact E1. split; [done|].
  split; [by eapply same_rest_trans|]. split; [congruence|]. rewrite G, G1, U, U1, <-!app_assoc, filter_cons.
  by destruct (bq_needs p).
Qed.

Lemma configure_bridge_sflow_run sflow ports number s :
  ∃ s', configure_bridge_sflow sflow ports number s = Ok (number + sflow_step sflow, s') ∧
    s' = set_bc_log (bc_log s ++ [SetBridgeSflow (sflow_sent sflow ports number)]) s.
Proof.
  unfold configure_bridge_sflow. destruct sflow as [row|]; simpl; eexists;
    (split; [step; rewrite ?Z.add_0_r; reflexivity|done]).
Qed.

(** Some events. *)
Definition emitted (l : list (bc_event F)) s : bcst :=
  set_bc_log (bc_log s ++ l) s.

Lemma emit_last_run (e1 e2 e3 e4 : bc_event F) (n : Z) s :
  (bc_emit e1 ;; bc_emit e2 ;; bc_emit e3 ;; bc_emit e4 ;; mret n) s = Ok (n, emitted [e1; e2; e3; e4] s).
Proof. do 4 step. unfold emitted, set_bc_log. simpl. by rewrite <-!app_assoc. Qed.

(** What the steps rely on: ports with interfaces or addresses, consistent VLANs
    and mirrors, and rows of the database that are distinct. *)
Record bridge_configurable (cfg : bc_cfg) (s : bcst) : Prop := {
  bk_ports : Forall DatapathId.port_ok (hw_port_of <$> bc_ports s);
  bk_vlans : vlan_inv (bc_vlans s);
  bk_vlan_rows : vlan_rows_ok (cf_vlans cfg) (bc_vlans s);
  bk_mirrors : mirrors_distinct (bc_mirrors s);
  bk_mirror_rows : NoDup (mr_uuid <$> cf_mirrors cfg);
}.

(** The bridge with number [number] is configured. *)
Record bridge_configured (sflow : option Sflow.ovsrec_sflow) (ports : list Sflow.sflow_port) (number : Z)
    (cfg : bc_cfg) (s s' : bcst) : Prop := {
  bd_address : match DatapathId.requested_addr (cf_other_config cfg) with
               | Some ea => bc_ea s' = ea
               | None => DatapathId.local_hw_addr (bc_default_ea s) (bc_ea s') (hw_port_of <$> bc_ports s)
               end;
  bd_registered : registered (PortConfig.port_log (bc_pst s')) =
    registered (PortConfig.port_log (bc_pst s)) ++ (bq_name <$> filter (λ p, bq_needs p = true) (bc_ports s));
  bd_updated : updated (bc_log s') = updated (bc_log s) ++ (bq_name <$> filter (λ p, bq_needs p = true) (bc_ports s));
  bd_vlans : vlans_follow (cf_vlans cfg) (bc_vlans s');
  bd_mirrors : mirrors_follow all_bridges all_vrfs (cf_mirrors cfg) (bc_mirrors s) (bc_mirrors s');
  bd_sflow : bridge_sflow (bc_log s') = bridge_sflow (bc_log s) ++ [sflow_sent sflow ports number];
  bd_last : last (bc_log s') = Some (BridgeBlock BLK_BR_FEATURE_RECONFIG None);
}.

Lemma configure_bridge_run managers sflow ports cfg number s :
  bridge_configurable cfg s →
  ∃ s', configure_bridge parse_subfield ofputil_versions_from_strings OFPP_NONE all_bridges all_vrfs
          managers sflow ports cfg number s = Ok (number + sflow_step sflow, s') ∧
    bridge_configured sflow ports number cfg s s'.
Proof.
  intros [Hp Hvl Hvr Hmi Hmr]. unfold configure_bridge. step. step. step.
  set (local := bool_decide _).
  destruct (DatapathId.bridge_configure_datapath_id_stable (cf_other_config cfg) (bc_default_ea s)
    (hw_port_of <$> bc_ports s) local (cf_dpid_now cfg) (bc_dp_log s) Hp) as (ea & Haddr & Hdp).
  specialize (Hdp _ (reflexivity _)).
  erewrite bind_run by (unfold bc_on_dp; rewrite Hdp; reflexivity). step.
  match goal with |- context [mbind (M := M _) _ _ ?s0] =>
    destruct (configure_bridge_ports_run (bc_ports s) s0) as (s2 & E2 & R2 & N2 & G2 & U2) end.
  step E2. simpl in *. destruct R2 as (Rv & Rm & Re & Rn & Rd & Rl & Rs). simpl in *.
  destruct (configure_vlans_follow (cf_vlans cfg) (bc_vlans s2)) as (vl & Evl & Hvf); [by rewrite Rv..|].
  erewrite bind_run by (unfold bc_on_vlans; rewrite Evl; reflexivity).
  destruct (configure_mirrors_follow all_bridges all_vrfs Hun (cf_mirrors cfg) (bc_mirrors s2)) as (mi & Emi & Hmf);
    [by rewrite Rm|done|].
  erewrite bind_run by (unfold bc_on_mirrors; simpl; rewrite Emi; reflexivity). step.
  match goal with |- context [mbind (M := M _) _ (configure_bridge_sflow _ _ _) ?s0] =>
    destruct (configure_bridge_sflow_run sflow ports number s0) as (s3 & E3 & ->) end.
  step E3. unfold bridge_configure_dp_desc.
  match goal with |- context [(bc_emit (RemoteCalls ?a) ;; bc_emit (SetTables ?b) ;; bc_emit (SetDpDesc ?c) ;;
    bc_emit ?e ;; mret ?n) ?s0] => eexists; split; [exact (emit_last_run _ _ _ _ n s0)|]; generalize a, b, c end.
  intros a b c. set (m := Remotes.bridge_configure_mac_table _). clearbody m.
  split; [simpl; by rewrite Re|exact G2| |exact Hvf|simpl; by rewrite <-Rm| |].
  - unfold updated in *. simpl. rewrite !omap_app. simpl. by rewrite !app_nil_r, U2.
  - unfold bridge_sflow in *. simpl. rewrite !omap_app. simpl. by rewrite !app_nil_r, Rs.
  - simpl. by rewrite last_app.
Qed.
End Bridge.

(** ** All of them *)

(** A loop over structures that share a number and perhaps more; the body adds
    [k] to the number. *)
Lemma complete_loop_run {I S A} (num : A → Z) (f : I → A → M S A) (ok : I → S → Prop) (post : Z → I → S → S → Prop) k l a :
  (∀ i a s, ok i s → ∃ a' s', f i a s = Ok (a', s') ∧ num a' = num a + k ∧ post (num a) i s s') →
  Forall (λ p, ok p.1 p.2) l →
  ∃ ss a', complete_loop f l a = Ok (ss, a') ∧ num a' = num a + k * Z.of_nat (length l) ∧
    ∀ j i s, l !! j = Some (i, s) → ∃ s', ss !! j = Some s' ∧ post (num a + k * Z.of_nat j) i s s'.
Proof.
  intros Hf. revert a. induction l as [|[i s] l IH]; intros a Hl.
  { exists [], a. split_and!; [done|simpl; lia|]. intros j i s. by rewrite lookup_nil. }
  apply Forall_cons in Hl as [Hi Hl]. destruct (Hf i a s Hi) as (a1 & s' & E & En & Hp).
  destruct (IH a1 Hl) as (ss & a' & El & En' & Hss). exists (s' :: ss), a'. cbn [complete_loop]. rewrite E, El.
  split_and!; [done|simpl length; lia|]. intros [|j] i0 s0 Hj; simpl in Hj.
  - injection Hj as <- <-. exists s'. split; [done|]. by replace (num a + k * Z.of_nat 0) with (num a) by lia.
  - destruct (Hss j i0 s0 Hj) as (t & Ht & Hpt). exists t. split; [done|].
    by replace (num a + k * Z.of_nat (Datatypes.S j)) with (num a1 + k * Z.of_nat j) by lia.
Qed.

Section Complete.
Context `{HL : OvsLib, HV : VlanSchema, HM : MirrorProvider, HMS : MirrorSchema}.
Context `{HPL : PortConfig.PortLib, HPP : !PortConfig.PortProvider, HSF : Sflow.SflowDefs}.
Context `{HE : DatapathId.EthLib, HR : Remotes.RemoteLib}.
Context `{HS : Schema, HX : Posix, HP : L3Provider} (ips ports : gset string).
Context {F : Type} (parse_subfield : string → option (F * string)).
Context (ofputil_versions_from_strings : list string → Z) (OFPP_NONE : Z).
Context (all_bridges all_vrfs : list bridge_view) (type_internal type_vlansubint : string).
Context (Hun : ∀ l u, ofproto_mirror_unregister l u = 0) (Hsep : hashes_apart ips ports).
Context (managers : list Z) (sflow : option Sflow.ovsrec_sflow) (sflow_ports : list Sflow.sflow_port).
Context (dbn : idl_neighbors) (dbr : idl_routes).

(** The VRF with number [number] is configured. *)
Record vrf_configured (number : Z) (s s' : VrfConfigure.vcst) : Prop := {
  vd_name : vrf_name (VrfConfigure.vc_l3 s') = vrf_name (VrfConfigure.vc_l3 s);
  vd_caches : configured ips ports dbn dbr (VrfConfigure.vc_l3 s');
  vd_registered : registered (PortConfig.port_log (VrfConfigure.vc_pst s')) =
    registered (PortConfig.port_log (VrfConfigure.vc_pst s)) ++
    (VrfConfigure.vp_name <$> filter (λ p, port_needs p = true) (VrfConfigure.vc_ports s));
  vd_sflow : vrf_sflow (VrfConfigure.vc_log s') =
    vrf_sflow (VrfConfigure.vc_log s) ++ [sflow_sent sflow sflow_ports number];
}.

(** C3: the last part of [bridge_reconfigure], "Complete the configuration", is a
    whole.  It returns, and then every bridge has its address, exactly its
    enabled VLANs and its mirrors, and every VRF mirrors its rows of the tables of
    neighbors and routes, which all VRFs share; of both exactly the ports that
    were modified themselves or in an interface were registered with the switch,
    and the plugins were told of those of bridges; and each got the sFlow settings
    of the System row with a number of its own, counting bridges before VRFs.  VRFs
    have different names and ports, neighbors of different VRFs different
    addresses; a VRF also keeps the neighbors of others that lack a port or a MAC
    address.  A route row with the protocol and prefix of a row of another VRF has
    no modified nexthops. *)
Theorem complete_configuration_converges (bridges : list (bc_cfg * bcst F)) (vrfs : list VrfConfigure.vcst) g :
  (∀ cfg s, (cfg, s) ∈ bridges → bridge_configurable cfg s) →
  (∀ s, s ∈ vrfs → configurable ips ports dbn dbr (VrfConfigure.vc_l3 s) ∧ Forall types_ok (VrfConfigure.vc_ports s)) →
  ∃ bs vs g',
    complete_configuration
      (configure_bridge parse_subfield ofputil_versions_from_strings OFPP_NONE all_bridges all_vrfs managers sflow sflow_ports)
      (λ _, VrfConfigure.configure_vrf_sharing type_internal type_vlansubint dbn dbr sflow sflow_ports)
      bridges (pair tt <$> vrfs) g = Ok (bs, vs, g') ∧
    (∀ i cfg s, bridges !! i = Some (cfg, s) → ∃ s', bs !! i = Some s' ∧
       bridge_configured all_bridges all_vrfs sflow sflow_ports (sflow_step sflow * Z.of_nat i) cfg s s') ∧
    (∀ i s, vrfs !! i = Some s → ∃ s', vs !! i = Some s' ∧
       vrf_configured (sflow_step sflow * Z.of_nat (length bridges + i)) s s').
Proof.
  intros Hb Hv. unfold complete_configuration.
  destruct (complete_loop_run id
    (configure_bridge parse_subfield ofputil_versions_from_strings OFPP_NONE all_bridges all_vrfs managers sflow sflow_ports)
    bridge_configurable (λ n cfg s s', bridge_configured all_bridges all_vrfs sflow sflow_ports n cfg s s')
    (sflow_step sflow) bridges 0) as (bs & next & -> & En & Hbs).
  { intros cfg n s Hs. destruct (configure_bridge_run parse_subfield ofputil_versions_from_strings OFPP_NONE all_bridges
      all_vrfs Hun managers sflow sflow_ports cfg n s Hs) as (s' & E & ?). by exists (n + sflow_step sflow), s'. }
  { apply Forall_forall. intros [cfg s] Hin. by apply Hb. }
  destruct (complete_loop_run fst
    (λ _ : unit, VrfConfigure.configure_vrf_sharing type_internal type_vlansubint dbn dbr sflow sflow_ports)
    (λ _ s, configurable ips ports dbn dbr (VrfConfigure.vc_l3 s) ∧ Forall types_ok (VrfConfigure.vc_ports s))
    (λ n _ s s', vrf_configured n s s') (sflow_step sflow) (pair tt <$> vrfs) (next, g)) as (vs & [n' g'] & -> & _ & Hvs).
  { intros _ a s [Hc Ht]. destruct (configure_vrf_sharing_run ips ports Hsep type_internal type_vlansubint dbn dbr sflow
      sflow_ports a s Hc Ht) as (g1 & s' & E & ? & _ & ? & ? & ?).
    exists (a.1 + sflow_step sflow, g1), s'. by split. }
  { apply Forall_fmap, Forall_forall. intros s Hs. by apply Hv. }
  exists bs, vs, g'. unfold id in *. split; [done|]. split.
  - intros i cfg s Hi. by apply Hbs in Hi.
  - intros i s Hi. destruct (Hvs i tt s) as (s' & Hs' & Hp); [by rewrite list_lookup_fmap, Hi|].
    exists s'. split; [done|]. simpl in Hp. rewrite En in Hp.
    by replace (sflow_step sflow * Z.of_nat (length bridges + i)) with
      (0 + sflow_step sflow * Z.of_nat (length bridges) + sflow_step sflow * Z.of_nat i) by lia.
Qed.
End Complete.

(** A bridge or VRF that was destroyed and created again, because its type
    changed or another process had the lock, has the same rows as before: none of
    its ports is registered with the new switch. *)
Theorem recreated_bridge_loses_ports `{HL : OvsLib, HV : VlanSchema, HM : MirrorProvider, HMS : MirrorSchema,
    HPL : PortConfig.PortLib, HPP : !PortConfig.PortProvider, HSF : Sflow.SflowDefs,
    HE : DatapathId.EthLib, HR : Remotes.RemoteLib} {F} (parse_subfield : string → option (F * string))
    versions OFPP_NONE all_bridges all_vrfs managers sflow ports cfg number (s : bcst F) :
  (∀ l u, ofproto_mirror_unregister l u = 0) → bridge_configurable cfg s →
  PortConfig.port_log (bc_pst s) = [] → (∀ p, p ∈ bc_ports s → bq_needs p = false) →
  ∃ next s', configure_bridge parse_subfield versions OFPP_NONE all_bridges all_vrfs managers sflow ports cfg number s =
    Ok (next, s') ∧ registered (PortConfig.port_log (bc_pst s')) = [].
Proof.
  intros Hun Hk Hlog Hno. edestruct (configure_bridge_run parse_subfield versions OFPP_NONE all_bridges all_vrfs Hun)
    as (s' & E & Hd); [done|]. eexists _, s'. split; [exact E|]. rewrite (bd_registered _ _ _ _ _ _ _ _ Hd), Hlog.
  rewrite filter_none; [done|]. intros p Hp. by rewrite Hno.
Qed.

(** ** Instance *)

Module BridgeConfigureExample.
Import VrfWitness NeighborPoll VrfConfigureExample.
#[local] Existing Instances ref_lib ref_schema ref_l3 ref_posix ref_vlan_schema ref_mirror_schema
  VrfConfigureExample.port_lib VrfConfigureExample.port_provider SflowFacts.SflowExample.defs
  DatapathId.DatapathExample.eth RemotesFacts.RemotesExample.rl.
#[local] Instance mirrors_work : MirrorProvider := mirror_provider 0.

(** The port "1" with a modified interface, and the port "2". *)
Definition bridge_port (name : string) (modified : bool) : bc_port :=
  BcPort (PortConfig.Port name eth1_row [PortConfig.PortIface name 4 ∅] (-1)) None None false
    (PortConfig.IpColumns false false false false)
    [BcIface (DatapathId.DatapathExample.if_of name 5) false modified].

Definition bridge_start : bcst unit :=
  BcSt "bridge_normal" DatapathId.DatapathExample.system_addr [bridge_port "1" true; bridge_port "2" false]
    (PortConfig.PSt _ ∅ []) ex_vlans ex_mirrors DatapathId.DatapathExample.ten [] [].

Definition cfg : bc_cfg :=
  BcCfg ∅ None [] ex_vlan_rows [ex_mirror 1 false []; ex_mirror 2 true ["1"]] [] [] 2 0 false.

Definition sflow_row : Sflow.ovsrec_sflow := Sflow.SflowRow ["10.1.1.1"] None None None None None None.

Lemma bridge_start_configurable : bridge_configurable cfg bridge_start.
Proof.
  split.
  - repeat apply Forall_cons_2; [by left..|constructor].
  - apply ex_vlans_inv.
  - apply ex_vlan_rows_ok.
  - by_compute.
  - by_compute.
Qed.

Definition shared_globals : VrfConfigure.l3_globals :=
  VrfConfigure.L3Globals ecmp_default {[ 11 := ∅; 12 := ∅; 13 := ∅; 14 := ∅ ]}.

(** Two VRFs over the same tables. *)
Definition both_vrfs : list VrfConfigure.vcst := [start; blue_start].
Abbreviation complete_both := (complete_configuration
  (configure_bridge (λ _, None : option (unit * string)) (λ _, 0) 65535 ex_bridges ex_vrfs [] (Some sflow_row) [])
  (λ _, VrfConfigure.configure_vrf_sharing "internal" "vlansubint" neighbors routes (Some sflow_row) [])
  [(cfg, bridge_start)] (pair tt <$> both_vrfs) shared_globals).

Lemma complete_configuration_converges_witness :
  ∃ bs vs g b v w,
    complete_both = Ok (bs, vs, g) ∧ bs !! 0%nat = Some b ∧ vs !! 0%nat = Some v ∧ vs !! 1%nat = Some w ∧
    bridge_configured ex_bridges ex_vrfs (Some sflow_row) [] 0 cfg bridge_start b ∧
    vrf_configured ex_ips ex_ports (Some sflow_row) [] neighbors routes 1 start v ∧
    vrf_configured ex_ips ex_ports (Some sflow_row) [] neighbors routes 2 blue_start w.
Proof.
  destruct (complete_configuration_converges (HM := mirrors_work) ex_ips ex_ports (λ _, None : option (unit * string)) (λ _, 0) 65535
    ex_bridges ex_vrfs "internal" "vlansubint" (λ _ _, eq_refl) ex_apart [] (Some sflow_row) [] neighbors routes
    [(cfg, bridge_start)] both_vrfs shared_globals) as (bs & vs & g & E & Hb & Hv).
  - intros c s Hin. apply list_elem_of_singleton in Hin as [= -> ->]. exact bridge_start_configurable.
  - intros s [->| ->%list_elem_of_singleton]%elem_of_cons; (split; [first [exact start_configurable|exact blue_configurable]|]);
      apply Forall_singleton; intros i ->%list_elem_of_singleton; by eexists.
  - destruct (Hb 0%nat cfg bridge_start eq_refl) as (b & Eb & Db). destruct (Hv 0%nat start eq_refl) as (v & Ev & Dv).
    destruct (Hv 1%nat blue_start eq_refl) as (w & Ew & Dw).
    exists bs, vs, g, b, v, w. split; [exact E|]. split; [exact Eb|]. split; [exact Ev|]. split; [exact Ew|].
    split; [exact Db|]. split; [exact Dv|exact Dw].
Defined.

(** The neighbors and routes of both afterwards. *)
Example both_vrfs_follow :
  match complete_both with
  | Ok (_, vs, _) => (λ v, (nkeys (VrfConfigure.vc_l3 v),
                            (λ r, nh_key <$> r_nexthops r) <$> all_routes (VrfConfigure.vc_l3 v))) <$> vs
  | Fault _ => []
  end = [(["1.1.1.1"], [["eth1"; "1.1.1.1"]]); (["2.2.2.2"], [["2.2.2.2"]])].
Proof. vm_compute. reflexivity. Qed.

(** A change of the ECMP settings is told to the switch of the first VRF only: its
    run updates the settings of the process, and the second VRF finds no
    difference. *)
Definition ecmp_calls (t : st) : list l3_event :=
  List.filter (λ e, match e with EcmpSet _ | EcmpHashSet _ _ => true | _ => false end) (log t).

Example ecmp_change_told_once :
  match complete_both with
  | Ok (_, vs, g) => ((λ v, length (ecmp_calls (VrfConfigure.vc_l3 v))) <$> vs, VrfConfigure.gl_ecmp g)
  | Fault _ => ([], ecmp_default)
  end = ([1%nat; 0%nat], set_ecmp_field (Some OFPROTO_ECMP_HASH_SRCIP) false ecmp_default).
Proof. vm_compute. reflexivity. Qed.
End BridgeConfigureExample.
