(* ===== verification/MainLoop.v ===== *)
(** * The main loop of the daemon: bridge.c

    [bridge_run] with the lock of the database, the reconfiguration when the
    database changed and the transaction that ends the start of the daemon,
    [bridge_wait] and [bridge_exit].  The structures of bridges and VRFs are
    those of [Reconfigure]; the components that the loop calls otherwise work on
    a state of their own, through the class [Components] ([World] has its
    instance). *)

From S2P Require Import Prelude OvsLib BridgePorts Lifecycle Reconfigure.
Local Open Scope Z_scope.

(** ** Rows *)

(** What this code reads of the Open_vSwitch row. *)
Record daemon_cfg := DaemonCfg {
  dc_bridges : list ovsrec_bridge;
  dc_vrfs : list ovsrec_vrf;
  dc_other_config : smap;
  dc_next_cfg : Z;
  dc_ssl : bool;
}.

Definition null_cfg : daemon_cfg := DaemonCfg [] [] ∅ 0 false.

(** [struct iface_hint], with the name of its interface. *)
Record iface_hint := IfaceHint {
  ih_name : string;
  ih_br_name : string;
  ih_br_type : string;
  ih_ofp_port : Z;
}.

(** The arguments of the functions at the start of [bridge_reconfigure]. *)
Record flow_settings := FlowSettings {
  fs_flow_limit : Z;
  fs_max_idle : Z;
  fs_n_dpdk_rxqs : Z;
  fs_cpu_mask : option string;
  fs_n_handlers : Z;
  fs_n_revalidators : Z;
}.

(** ** One trip through the loop *)

(** The state of the database connection and the switches during one trip:
    [ovsdb_idl_is_lock_contended], [ovsdb_idl_has_lock], the first Open_vSwitch
    row, [ovsdb_idl_get_seqno], the result of the commit of [daemonize_txn], the
    system_mac column, the datapath types, the switches there are and their ports;
    and what the other components see, in [tr_env]. *)
Record trip {Env : Type} := Trip {
  tr_contended : bool;
  tr_has_lock : bool;
  tr_cfg : option daemon_cfg;
  tr_seqno : Z;
  tr_commit : txn_status;
  tr_system_mac : option string;
  tr_types : list string;
  tr_existing : list (string * string);
  tr_dump : string → list ofproto_port;
  tr_env : Env;
}.
Arguments trip Env : clear implicits.
Arguments Trip {Env} _ _ _ _ _ _ _ _ _ _.

(** The part of the Open_vSwitch row that is read. *)
Definition tr_config {Env} (t : trip Env) : daemon_cfg := default null_cfg (tr_cfg t).

(** Calls to other components, in the log. *)
Inductive component :=
| CRefreshCreated | CReconfigureSystemStats | CCompleteConfiguration | CStatusTryAgain
| CRunStats | CRunStatus | CRunSystemStats | CRunNeighbor | CRunBlock | CDisableSystemStats.

Inductive loop_event :=
| OfprotoInit (hints : list iface_hint)        (* after plugins_ofproto_register *)
| SetFlowRestoreWait (wait : bool)
| TypeRun (type : string)
| OfprotoRun (name : string)
| SslConfigured
| Reconfiguring (settings : flow_settings)
| SetCurCfg (n : Z)
| TxnCommitted
| DaemonizeCommit (status : txn_status)
| DaemonizeComplete
| Called (c : component).

#[export] Instance component_eq_dec : EqDecision component.
Proof. solve_decision. Defined.

(** The other components: the system statistics ([SystemStats]), the completion of
    the configuration ([BridgeConfigure]), the flag [status_txn_try_again] and the
    status update ([Status]), the statistics ([Stats]), the hit bits of neighbors
    ([Neighbor]) and the callbacks of BLK_RUN_COMPLETE ([Blocks]).
    [refresh_created] is what [iface_create] does to the status and statistics of
    the interfaces with an [IfaceRefresh] event among the new events; it is
    called once for all of them when the structures are complete. *)
Class Components (Env W : Type) := {
  system_stats_enable : bool → M W unit;
  reconfigure_system_stats : smap → M W unit;
  refresh_created : trip Env → list rc_event → swst → M W unit;
  complete_configuration : trip Env → swst → daemon_cfg → M W unit;
  status_try_again : M W unit;
  run_stats_update : trip Env → swst → M W unit;
  run_status_update : trip Env → swst → M W unit;
  run_system_stats : trip Env → M W unit;
  run_neighbor_update : trip Env → M W unit;
  run_complete_block : trip Env → M W unit;
}.

(** [initialized] is the static variable of [bridge_init_ofproto]; [restore_wait]
    what [ofproto_get_flow_restore_wait] returns. *)
Record mst {W : Type} := Mst {
  sw : swst;
  world : W;
  idl_seqno : Z;
  initialized : bool;
  restore_wait : bool;
  initial_config_done : bool;
  daemonize_txn : bool;
  ml_log : list loop_event;
}.
Arguments mst W : clear implicits.
Arguments Mst {W} _ _ _ _ _ _ _ _.

Section Setters.
Context {W : Type}.
Definition set_sw (v : swst) (s : mst W) : mst W :=
  Mst v (world s) (idl_seqno s) (initialized s) (restore_wait s) (initial_config_done s) (daemonize_txn s) (ml_log s).
Definition set_world (v : W) (s : mst W) : mst W :=
  Mst (sw s) v (idl_seqno s) (initialized s) (restore_wait s) (initial_config_done s) (daemonize_txn s) (ml_log s).
Definition set_idl_seqno (v : Z) (s : mst W) : mst W :=
  Mst (sw s) (world s) v (initialized s) (restore_wait s) (initial_config_done s) (daemonize_txn s) (ml_log s).
Definition set_initialized (s : mst W) : mst W :=
  Mst (sw s) (world s) (idl_seqno s) true (restore_wait s) (initial_config_done s) (daemonize_txn s) (ml_log s).
Definition set_restore_wait (v : bool) (s : mst W) : mst W :=
  Mst (sw s) (world s) (idl_seqno s) (initialized s) v (initial_config_done s) (daemonize_txn s) (ml_log s).
Definition set_initial_config_done (s : mst W) : mst W :=
  Mst (sw s) (world s) (idl_seqno s) (initialized s) (restore_wait s) true (daemonize_txn s) (ml_log s).
Definition set_daemonize_txn (v : bool) (s : mst W) : mst W :=
  Mst (sw s) (world s) (idl_seqno s) (initialized s) (restore_wait s) (initial_config_done s) v (ml_log s).
Definition ml_event (e : loop_event) (s : mst W) : mst W :=
  Mst (sw s) (world s) (idl_seqno s) (initialized s) (restore_wait s) (initial_config_done s) (daemonize_txn s)
    (ml_log s ++ [e]).
End Setters.

(** Defaults of the ofproto library. *)
Class OfprotoDefaults := {
  OFPROTO_FLOW_LIMIT_DEFAULT : Z;
  OFPROTO_MAX_IDLE_DEFAULT : Z;
}.

Section MainLoop.
Context `{HL : OvsLib, HD : SwitchDev, HP : Posix, HT : SwitchTypes, HO : OfprotoDefaults}.
Context {Env W : Type} {HC : Components Env W}.
Local Abbreviation mst := (mst W).
Local Abbreviation trip := (trip Env).

(** Code on the bridges and VRFs, and of the other components. *)
Definition on_sw {A} (c : M swst A) : M mst A := λ s,
  match c (sw s) with Ok (a, t) => Ok (a, set_sw t s) | Fault e => Fault e end.
Definition call (tag : component) (c : M W unit) : M mst unit := λ s,
  match c (world s) with
  | Ok (_, w) => Ok (tt, ml_event (Called tag) (set_world w s))
  | Fault e => Fault e
  end.
Definition emit (e : loop_event) : M mst unit := modify (ml_event e).

(** ** Start of the ofproto library *)

Definition port_hints (name type : string) (ports : list ovsrec_port) : list iface_hint :=
  p ← ports; (λ i, IfaceHint (ir_name i) name type (iface_pick_ofport i)) <$> pr_interfaces p.

Definition iface_hints (cfg : daemon_cfg) : list iface_hint :=
  (b ← dc_bridges cfg; port_hints (brr_name b) (brr_datapath_type b) (brr_ports b)) ++
  (v ← dc_vrfs cfg; port_hints (vrr_name v) "vrf" (vrr_ports v)).

Definition bridge_init_ofproto (cfg : option daemon_cfg) : M mst unit :=
  done ← gets initialized;
  if done : bool then mret tt else
  emit (OfprotoInit (match cfg with Some c => iface_hints c | None => [] end)) ;;
  modify set_initialized.

(** ** Running the switches *)

Definition bridge_run__ (types : list string) : M mst unit :=
  mfor types (λ t, emit (TypeRun t)) ;;
  bs ← gets (λ s, members (all_bridges (sw s)));
  mfor bs (λ b, emit (OfprotoRun (b_name b))) ;;
  vs ← gets (λ s, members (all_vrfs (sw s)));
  mfor vs (λ v, emit (OfprotoRun (v_name v))).

(** ** Reconfiguring *)

Definition flow_settings_of (other_config : smap) : flow_settings :=
  FlowSettings
    (smap_get_int other_config "flow-limit" OFPROTO_FLOW_LIMIT_DEFAULT)
    (smap_get_int other_config "max-idle" OFPROTO_MAX_IDLE_DEFAULT)
    (smap_get_int other_config "n-dpdk-rxqs" 0)
    (other_config !! "pmd-cpu-mask")
    (smap_get_int other_config "n-handler-threads" 0)
    (smap_get_int other_config "n-revalidator-threads" 0).

(** [bridge_reconfigure] *)
Definition bridge_reconfigure (t : trip) (cfg : daemon_cfg) : M mst unit :=
  emit (Reconfiguring (flow_settings_of (dc_other_config cfg))) ;;
  before ← gets (λ s, length (trace (sw s)));
  on_sw (reconfigure_structures (tr_system_mac t) (tr_existing t) (tr_dump t) (dc_bridges cfg) (dc_vrfs cfg)) ;;
  st ← gets sw;
  call CRefreshCreated (refresh_created t (drop before (trace st)) st) ;;
  call CReconfigureSystemStats (reconfigure_system_stats (dc_other_config cfg)) ;;
  call CCompleteConfiguration (complete_configuration t st cfg) ;;
  bridge_run__ (tr_types t).

(** ** [bridge_run] *)

(** Another process has the lock. *)
Definition destroy_everything : M mst unit :=
  bs ← gets (λ s, members (all_bridges (sw s)));
  mfor bs (λ b, on_sw (on_coll (bridge_destroy b))) ;;
  vs ← gets (λ s, members (all_vrfs (sw s)));
  mfor vs (λ v, on_sw (on_coll (vrf_destroy v))) ;;
  call CDisableSystemStats (system_stats_enable false).

(** The body of [if (ovsdb_idl_get_seqno(idl) != idl_seqno)]. *)
Definition reconfigure_on_change (t : trip) : M mst unit :=
  bridge_reconfigure t (tr_config t) ;;
  modify (set_idl_seqno (tr_seqno t)) ;;
  match tr_cfg t with Some c => emit (SetCurCfg (dc_next_cfg c)) | None => mret tt end ;;
  done ← gets initial_config_done;
  if done : bool then call CStatusTryAgain status_try_again ;; emit TxnCommitted
  else modify set_initial_config_done ;; modify (set_daemonize_txn true).

(** The body of [if (daemonize_txn)]. *)
Definition commit_daemonize (status : txn_status) : M mst unit :=
  emit (DaemonizeCommit status) ;;
  if bool_decide (status = TXN_INCOMPLETE) then mret tt
  else modify (set_daemonize_txn false) ;; emit DaemonizeComplete.

Definition run_components (t : trip) : M mst unit :=
  st ← gets sw;
  call CRunStats (run_stats_update t st) ;;
  call CRunStatus (run_status_update t st) ;;
  call CRunSystemStats (run_system_stats t) ;;
  call CRunNeighbor (run_neighbor_update t) ;;
  call CRunBlock (run_complete_block t).

Definition bridge_run (t : trip) : M mst unit :=
  if tr_contended t then destroy_everything else
  if negb (tr_has_lock t) then mret tt else
  bridge_init_ofproto (tr_cfg t) ;;
  wait ← gets restore_wait;
  match tr_cfg t with
  | Some c =>
    mwhen wait (let w := smap_get_bool (dc_other_config c) "flow-restore-wait" false in
                modify (set_restore_wait w) ;; emit (SetFlowRestoreWait w))
  | None => mret tt
  end ;;
  bridge_run__ (tr_types t) ;;
  mwhen (dc_ssl (tr_config t)) (emit SslConfigured) ;;
  seen ← gets idl_seqno;
  mwhen (negb (tr_seqno t =? seen)) (reconfigure_on_change t) ;;
  pending ← gets daemonize_txn;
  mwhen pending (commit_daemonize (tr_commit t)) ;;
  run_components t.

(** ** [bridge_wait] *)

Inductive wake :=
| WaitIdl | WaitDaemonizeTxn | WaitType (type : string) | WaitOfproto (name : string) | WaitTimer (at_ : Z)
| WaitStatusTxn | WaitConnectivity (seqno : Z) | WaitSystemStats | WaitBlock.

Definition STATUS_CHECK_AGAIN_MSEC : Z := 100.

(** [now]: [time_msec()]. *)
Definition status_update_wait (has_lock status_txn status_txn_try_again : bool) (connectivity_seqno now : Z) : list wake :=
  if negb has_lock then [] else
  if status_txn then [WaitStatusTxn] else
  if status_txn_try_again then [WaitTimer (now + STATUS_CHECK_AGAIN_MSEC)] else [WaitConnectivity connectivity_seqno].

(** [status]: what [status_update_wait] waits for. *)
Definition bridge_wait (types : list string) (stats_timer : Z) (status : list wake) (s : mst) : list wake :=
  [WaitIdl] ++ (if daemonize_txn s then [WaitDaemonizeTxn] else []) ++
  (WaitType <$> types) ++
  (match members (all_bridges (sw s)) with
   | [] => []
   | bs => ((λ b, WaitOfproto (b_name b)) <$> bs) ++ [WaitTimer stats_timer]
   end) ++ status ++ [WaitSystemStats; WaitBlock].

(** [bridge_exit], up to the end of the connection. *)
Definition bridge_exit : M mst unit :=
  bs ← gets (λ s, members (all_bridges (sw s)));
  mfor bs (λ b, on_sw (on_coll (bridge_destroy b))).
End MainLoop.
