(* ===== verification/MainLoopFacts.v ===== *)
(** * Theorems on the main loop

    The structures follow the database in every history of the daemon, nothing
    happens without the lock, and the start ends once. *)

From S2P Require Import Prelude OvsLib BridgePorts Lifecycle Reconfigure ReconfigureFacts MainLoop.
Local Open Scope Z_scope.

Section Contract.
Context `{HL : OvsLib, HD : SwitchDev, HP : Posix, HT : SwitchTypes}.

(** The structures follow the rows of a configuration. *)
Definition cfg_followed (cfg : daemon_cfg) (st : swst) : Prop :=
  structures_follow (dc_bridges cfg) (dc_vrfs cfg) st.

(** ** What the components promise

    Each returns, whenever the main loop calls it, and keeps the invariant
    [world_ok] of its state and the structures.  [trip_fine] is what the
    components rely on in a trip.  When the structures change, the refresh after
    the reconfiguration brings the invariant about again, and structures that
    are all gone do not break it. *)

(** No bridges and VRFs. *)
Definition nothing_left (st : swst) : Prop := members (all_bridges st) = [] ∧ members (all_vrfs st) = [].

Definition served {W} (ok : W → Prop) (c : M W unit) : Prop :=
  ∀ w, ok w → ∃ w', c w = Ok (tt, w') ∧ ok w'.

Class Contract (Env W : Type) {HC : Components Env W} := {
  world_ok : swst → W → Prop;
  trip_fine : trip Env → Prop;
  cr_destroyed st st' w : nothing_left st' → world_ok st w → world_ok st' w;
  cr_enable st b : served (world_ok st) (system_stats_enable b);
  cr_refresh t l st st' w : trip_fine t → state_ok st' → cfg_followed (tr_config t) st' → world_ok st w →
    ∃ w', refresh_created t l st' w = Ok (tt, w') ∧ world_ok st' w';
  cr_reconfigure st m : served (world_ok st) (reconfigure_system_stats m);
  cr_complete t st : trip_fine t → state_ok st → cfg_followed (tr_config t) st →
    served (world_ok st) (complete_configuration t st (tr_config t));
  cr_again st : served (world_ok st) status_try_again;
  cr_stats t st : trip_fine t → state_ok st → served (world_ok st) (run_stats_update t st);
  cr_status t st : trip_fine t → state_ok st → served (world_ok st) (run_status_update t st);
  cr_system t st : trip_fine t → served (world_ok st) (run_system_stats t);
  cr_neighbor t st : trip_fine t → served (world_ok st) (run_neighbor_update t);
  cr_block t st : trip_fine t → served (world_ok st) (run_complete_block t);
}.
End Contract.

Section Facts.
Context `{HL : OvsLib, HD : SwitchDev, HP : Posix, HT : SwitchTypes, HO : OfprotoDefaults}.
Context {Env W : Type} {HC : Components Env W} {HK : Contract Env W}.
Local Abbreviation mst := (mst W).
Implicit Types s : mst.

(** ** Code that leaves the structures alone

    [calm st c]: with the structures [st], [c] returns, keeps the invariant of the
    components and changes at most their state, the flags and the log. *)

Definition calm (st : swst) (c : M mst unit) : Prop :=
  ∀ s, sw s = st → world_ok st (world s) →
  ∃ s', c s = Ok (tt, s') ∧ sw s' = st ∧ idl_seqno s' = idl_seqno s ∧ world_ok st (world s').

Lemma calm_ret st : calm st (mret tt).
Proof. intros s Es Hw. by exists s. Qed.

Lemma calm_bind st (c d : M mst unit) : calm st c → calm st d → calm st (c ;; d).
Proof.
  intros Hc Hd s Es Hw. destruct (Hc s Es Hw) as (s1 & E1 & S1 & I1 & W1).
  destruct (Hd s1 S1 W1) as (s2 & E2 & S2 & I2 & W2).
  exists s2. erewrite bind_run by exact E1. split_and!; [done|done|congruence|done].
Qed.

Lemma calm_gets_sw st (f : swst → M mst unit) : calm st (f st) → calm st (gets sw ≫= f).
Proof. intros Hf s Es Hw. step. rewrite Es. by apply Hf. Qed.

Lemma calm_gets st {A} (g : mst → A) (f : A → M mst unit) : (∀ a, calm st (f a)) → calm st (gets g ≫= f).
Proof. intros Hf s Es Hw. step. by apply Hf. Qed.

Lemma calm_modify st (f : mst → mst) :
  (∀ s, sw (f s) = sw s ∧ idl_seqno (f s) = idl_seqno s ∧ world (f s) = world s) → calm st (modify f).
Proof. intros Hf s Es Hw. exists (f s). destruct (Hf s) as (Ew & ? & ->). by rewrite Ew. Qed.

Lemma calm_when st b (c : M mst unit) : calm st c → calm st (mwhen b c).
Proof. intros Hc. destruct b; [done|apply calm_ret]. Qed.

Lemma calm_for st {A} (l : list A) (f : A → M mst unit) : (∀ x, calm st (f x)) → calm st (mfor l f).
Proof. intros Hf. induction l as [|x l IH]; [apply calm_ret|]. by apply calm_bind. Qed.

Lemma calm_emit st e : calm st (emit e).
Proof. by apply calm_modify. Qed.

Lemma calm_call st tag (c : M W unit) : served (world_ok st) c → calm st (call tag c).
Proof.
  intros Hc s Es Hw. unfold call. destruct (Hc (world s) Hw) as (w & -> & ?). eexists. split; [reflexivity|done].
Qed.
End Facts.

Create HintDb calm.
#[export] Hint Resolve calm_ret calm_emit cr_enable cr_reconfigure cr_complete cr_again cr_stats cr_status cr_system
  cr_neighbor cr_block : calm.

Ltac calm_step :=
  match goal with
  | |- ∀ _, _ => intro
  | |- calm _ (gets sw ≫= _) => apply calm_gets_sw
  | |- calm _ (gets _ ≫= _) => apply calm_gets
  | |- calm _ (_ ≫= λ _ : unit, _) => apply calm_bind
  | |- calm _ (mfor _ _) => apply calm_for
  | |- calm _ (mwhen _ _) => apply calm_when
  | |- calm _ (modify _) => apply calm_modify; intros; done
  | |- calm _ (call _ _) => apply calm_call; auto with calm
  | |- calm _ (match ?x with _ => _ end) => destruct x
  | |- calm _ _ => solve [auto with calm]
  end.
Ltac calm_auto := repeat calm_step; eauto.

Section Histories.
Context `{HL : OvsLib, HD : SwitchDev, HP : Posix, HT : SwitchTypes, HO : OfprotoDefaults}.
Context {Env W : Type} {HC : Components Env W} {HK : Contract Env W}.
Local Abbreviation mst := (mst W).
Implicit Types s : mst.

Lemma init_ofproto_calm st cfg : calm st (bridge_init_ofproto cfg).
Proof. unfold bridge_init_ofproto. calm_auto. Qed.
Lemma bridge_run___calm st types : calm st (bridge_run__ types).
Proof. unfold bridge_run__. calm_auto. Qed.
Lemma commit_daemonize_calm st status : calm st (commit_daemonize status).
Proof. unfold commit_daemonize. calm_auto. Qed.
Lemma run_components_calm st t : trip_fine t → state_ok st → calm st (run_components t).
Proof. intros Ht Hs. unfold run_components. calm_auto. Qed.

(** The rows of a trip are consistent, and the components can rely on it. *)
Definition trip_ok (t : trip Env) : Prop :=
  rows_ok (tr_system_mac t) (dc_bridges (tr_config t)) (dc_vrfs (tr_config t)) ∧ trip_fine t.

(** The invariant of the daemon. *)
Definition daemon_ok s : Prop := state_ok (sw s) ∧ world_ok (sw s) (world s).

Lemma reconfigure_run t s :
  trip_ok t → daemon_ok s →
  ∃ s', bridge_reconfigure t (tr_config t) s = Ok (tt, s') ∧ daemon_ok s' ∧ cfg_followed (tr_config t) (sw s') ∧
    idl_seqno s' = idl_seqno s.
Proof.
  intros [Hr Ht] [Hs Hw]. unfold bridge_reconfigure. step. step.
  destruct (reconfigure_structures_follow (tr_system_mac t) (tr_existing t) (tr_dump t) (dc_bridges (tr_config t))
    (dc_vrfs (tr_config t)) (sw s) Hr Hs) as (st & E & Hst & Hf).
  erewrite bind_run by (unfold on_sw; simpl; rewrite E; reflexivity). step. cbn [sw set_sw].
  match goal with |- context [refresh_created t ?l st] =>
    destruct (cr_refresh t l (sw s) st (world s) Ht Hst Hf Hw) as (w & Ew & Hw') end.
  erewrite bind_run by (unfold call; cbn [world set_sw ml_event]; rewrite Ew; reflexivity).
  match goal with |- context [(?c ;; ?d) ?s0] => assert (calm st (c ;; d)) as Hcalm; [|destruct (Hcalm s0 eq_refl Hw')
    as (s' & E' & S' & I' & W')] end.
  { pose proof (bridge_run___calm st (tr_types t)). calm_auto. }
  exists s'. split; [exact E'|]. unfold daemon_ok. by rewrite S', I'.
Qed.

Lemma reconfigure_on_change_run t s :
  trip_ok t → daemon_ok s →
  ∃ s', reconfigure_on_change t s = Ok (tt, s') ∧ daemon_ok s' ∧ cfg_followed (tr_config t) (sw s') ∧
    idl_seqno s' = tr_seqno t.
Proof.
  intros Ht Hs. destruct (reconfigure_run t s Ht Hs) as (s1 & E1 & [H1 W1] & F1 & _). unfold reconfigure_on_change.
  step E1. step.
  assert (calm (sw s1) (match tr_cfg t with Some c => emit (SetCurCfg (dc_next_cfg c)) | None => mret tt end ;;
    (done ← gets initial_config_done;
     if done : bool then call CStatusTryAgain status_try_again ;; emit TxnCommitted
     else modify set_initial_config_done ;; modify (set_daemonize_txn true)))) as Hcalm by calm_auto.
  destruct (Hcalm (set_idl_seqno (tr_seqno t) s1) eq_refl W1) as (s' & E' & S' & I' & W').
  exists s'. split; [exact E'|]. unfold daemon_ok. by rewrite S', I'.
Qed.

(** A trip with the lock. *)
Lemma bridge_run_locked t s :
  tr_contended t = false → tr_has_lock t = true → trip_ok t → daemon_ok s →
  ∃ s', bridge_run t s = Ok (tt, s') ∧ daemon_ok s' ∧ idl_seqno s' = tr_seqno t ∧
    if tr_seqno t =? idl_seqno s then sw s' = sw s else cfg_followed (tr_config t) (sw s').
Proof.
  intros Hc Hl Ht [Hs Hw]. unfold bridge_run. rewrite Hc, Hl. cbn [negb].
  destruct (init_ofproto_calm (sw s) (tr_cfg t) s eq_refl Hw) as (s1 & E1 & S1 & I1 & W1). step E1. step.
  set (front := match tr_cfg t with Some _ => _ | None => _ end).
  assert (calm (sw s) (front ;; bridge_run__ (tr_types t) ;; mwhen (dc_ssl (tr_config t)) (emit SslConfigured))) as Hfront.
  { pose proof (bridge_run___calm (sw s) (tr_types t)). subst front. calm_auto. }
  destruct (Hfront s1 S1 W1) as (s4 & E4 & S4 & I4 & W4).
  apply bind_Ok in E4 as ([] & s2 & E2 & ([] & s3 & E3 & E4)%bind_Ok). step E2. step E3. step E4. step.
  assert (∀ st, state_ok st →
    calm st (pending ← gets daemonize_txn; mwhen pending (commit_daemonize (tr_commit t)) ;; run_components t)) as Hback.
  { intros st Hst. pose proof (commit_daemonize_calm st). pose proof (run_components_calm st t (proj2 Ht) Hst). calm_auto. }
  rewrite <-I1, <-I4. destruct (tr_seqno t =? idl_seqno s4) eqn:Eq; cbn [negb mwhen].
  - step. destruct (Hback _ Hs s4 S4 W4) as (s' & E' & S' & I' & W'). exists s'. split; [exact E'|].
    apply Z.eqb_eq in Eq. unfold daemon_ok. by rewrite S', I', Eq.
  - destruct (reconfigure_on_change_run t s4) as (s5 & E5 & [H5 W5] & F5 & I5);
      [done|by split; rewrite S4|].
    step E5. destruct (Hback _ H5 s5 eq_refl W5) as (s' & E' & S' & I' & W'). exists s'. split; [exact E'|].
    unfold daemon_ok. by rewrite S', I'.
Qed.

(** *** Another process has the lock *)

Lemma destroy_bridges_run bs s :
  members (all_bridges (sw s)) = bs → NoDup (b_name <$> bs) → (∀ b, b ∈ bs → ports_good b) →
  ∃ st, mfor bs (λ b, on_sw (on_coll (bridge_destroy b))) s = Ok (tt, set_sw st s) ∧
    members (all_bridges st) = [] ∧ all_vrfs st = all_vrfs (sw s).
Proof using Type.
  revert s. induction bs as [|b bs IH]; intros s Hbs Hnd Hg.
  { exists (sw s). by destruct s. }
  destruct (all_bridges (sw s)) as [l log] eqn:Eb. simpl in Hbs. subst l.
  destruct (bridge_destroy_run [] b b bs log) as (log' & E); [apply Hg; left|done|done|]. simpl in E.
  destruct (on_coll_run (HM := bridge_member) (bridge_destroy b) (sw s) tt (Coll bs log')) as (st1 & E1 & C1 & F1%frame_bridge).
  { simpl. by rewrite Eb. }
  destruct (IH (set_sw st1 s)) as (st & E2 & H2 & V2).
  { simpl in *. by rewrite C1. }
  { apply NoDup_cons in Hnd as [_ ?]. done. }
  { intros x Hx. apply Hg. by right. }
  exists st. cbn [mfor]. erewrite bind_run by (unfold on_sw; rewrite E1; reflexivity). split; [exact E2|].
  split; [done|]. rewrite V2. done.
Qed.

Lemma destroy_vrfs_run vs s :
  members (all_vrfs (sw s)) = vs → NoDup (v_name <$> vs) → (∀ v, v ∈ vs → ports_good (up v)) →
  ∃ st, mfor vs (λ v, on_sw (on_coll (vrf_destroy v))) s = Ok (tt, set_sw st s) ∧
    members (all_vrfs st) = [] ∧ all_bridges st = all_bridges (sw s).
Proof using Type.
  revert s. induction vs as [|v vs IH]; intros s Hvs Hnd Hg.
  { exists (sw s). by destruct s. }
  destruct (all_vrfs (sw s)) as [l log] eqn:Ev. simpl in Hvs. subst l.
  destruct (vrf_destroy_run [] v v vs log) as (log' & E); [apply Hg; left|done|done|]. simpl in E.
  destruct (on_coll_run (HM := vrf_member) (vrf_destroy v) (sw s) tt (Coll vs log')) as (st1 & E1 & C1 & F1%frame_vrf).
  { simpl. by rewrite Ev. }
  destruct (IH (set_sw st1 s)) as (st & E2 & H2 & V2).
  { simpl in *. by rewrite C1. }
  { apply NoDup_cons in Hnd as [_ ?]. done. }
  { intros x Hx. apply Hg. by right. }
  exists st. cbn [mfor]. erewrite bind_run by (unfold on_sw; rewrite E1; reflexivity). split; [exact E2|].
  split; [done|]. rewrite V2. done.
Qed.

Lemma nothing_left_ok st : nothing_left st → state_ok st.
Proof using Type.
  intros [Eb Ev]. split; rewrite ?Eb, ?Ev; [constructor|constructor| | |by intros v ?%elem_of_nil].
  - by intros b ?%elem_of_nil.
  - by intros v ?%elem_of_nil.
Qed.

Lemma destroy_everything_run s :
  state_ok (sw s) →
  ∃ st, nothing_left st ∧
    destroy_everything s = call CDisableSystemStats (system_stats_enable false) (set_sw st s).
Proof.
  intros [Nb Nv Gb Gv _]. destruct (destroy_bridges_run _ s eq_refl Nb Gb) as (st1 & E1 & B1 & V1).
  destruct (destroy_vrfs_run (members (all_vrfs (sw s))) (set_sw st1 s)) as (st2 & E2 & V2 & B2); [simpl; by rewrite V1|done|done|].
  exists st2. split; [split; [by rewrite B2|done]|].
  unfold destroy_everything. step. step E1. erewrite bind_run by reflexivity. simpl. rewrite V1. by step E2.
Qed.

Lemma bridge_run_contended t s :
  tr_contended t = true → daemon_ok s → ∃ s', bridge_run t s = Ok (tt, s') ∧ daemon_ok s' ∧ idl_seqno s' = idl_seqno s.
Proof.
  intros Hc [Hs Hw]. destruct (destroy_everything_run s Hs) as (st & Hn & E).
  destruct (calm_call st CDisableSystemStats _ (cr_enable st false) (set_sw st s) eq_refl) as (s' & E' & S' & I' & W').
  { by apply (cr_destroyed (sw s)). }
  exists s'. unfold bridge_run. rewrite Hc, E. split; [done|]. split; [|done]. split; rewrite S'; [|done].
  by apply nothing_left_ok.
Qed.

(** One trip, in whatever state the lock is. *)
Lemma bridge_run_ok t s :
  trip_ok t → daemon_ok s → ∃ s', bridge_run t s = Ok (tt, s') ∧ daemon_ok s'.
Proof.
  intros Ht Hs. destruct (tr_contended t) eqn:Hc.
  { destruct (bridge_run_contended t s Hc Hs) as (s' & E & H & _). eauto. }
  destruct (tr_has_lock t) eqn:Hl.
  - destruct (bridge_run_locked t s Hc Hl Ht Hs) as (s' & E & H & _). eauto.
  - exists s. unfold bridge_run. by rewrite Hc, Hl.
Qed.

(** C9: the structures of the daemon are well-formed in every history: from
    well-formed bridges and VRFs (distinct names; ports and interfaces
    that belong together) and components in their invariants, every sequence of
    trips through [bridge_run], with any database contents, with and without the
    lock, returns and ends in such a state. *)
Theorem daemon_structures_well_formed ts s :
  Forall trip_ok ts → daemon_ok s → ∃ s', mfor ts bridge_run s = Ok (tt, s') ∧ daemon_ok s'.
Proof.
  intros Hts. revert s. induction Hts as [|t ts Ht _ IH]; intros s Hs; [by exists s|].
  destruct (bridge_run_ok t s Ht Hs) as (s1 & E1 & H1). destruct (IH s1 H1) as (s' & E' & H').
  exists s'. cbn [mfor]. step E1. by split.
Qed.

(** A history as the database library reports it: the contents depend on the
    sequence number only, which changes when the lock is acquired.  [seen] is the
    number seen last, [lost]: nothing was configured since the lock was lost. *)
Fixpoint history (contents : Z → daemon_cfg) (lost : bool) (seen : Z) (ts : list (trip Env)) : Prop :=
  match ts with
  | [] => True
  | t :: ts' =>
    trip_ok t ∧
    if tr_contended t then history contents true seen ts'
    else if negb (tr_has_lock t) then history contents lost seen ts'
    else tr_config t = contents (tr_seqno t) ∧ (lost = true → tr_seqno t ≠ seen) ∧
         history contents false (tr_seqno t) ts'
  end.

(** What it says of each trip. *)
Lemma history_trips contents ts lost seen :
  history contents lost seen ts →
  Forall (λ t, trip_ok t ∧ (tr_contended t = false → tr_has_lock t = true → tr_config t = contents (tr_seqno t))) ts.
Proof.
  revert lost seen. induction ts as [|t ts IH]; intros lost seen Hh; [constructor|]. destruct Hh as [Ht Hh].
  destruct (tr_contended t) eqn:Hc; [constructor; [split; [done|congruence]|by eapply IH]|].
  destruct (tr_has_lock t) eqn:Hl; simpl in Hh; [|constructor; [split; [done|congruence]|by eapply IH]].
  destruct Hh as (Ec & _ & Hh). constructor; [by split|by eapply IH].
Qed.

Lemma history_run contents ts lost s :
  history contents lost (idl_seqno s) ts → daemon_ok s →
  (lost = false → cfg_followed (contents (idl_seqno s)) (sw s)) →
  ∃ s', mfor ts bridge_run s = Ok (tt, s') ∧ daemon_ok s' ∧
    ∀ ts' t, ts = ts' ++ [t] → tr_contended t = false → tr_has_lock t = true →
      idl_seqno s' = tr_seqno t ∧ cfg_followed (contents (tr_seqno t)) (sw s').
Proof.
  revert lost s. induction ts as [|t ts IH]; intros lost s Hh Hs Hf.
  { exists s. split; [done|]. split; [done|]. by intros [|] ? ?. }
  destruct Hh as [Ht Hh]. cbn [mfor].
  assert (∃ lost1 s1, bridge_run t s = Ok (tt, s1) ∧ history contents lost1 (idl_seqno s1) ts ∧ daemon_ok s1 ∧
    (lost1 = false → cfg_followed (contents (idl_seqno s1)) (sw s1)) ∧
    (tr_contended t = false → tr_has_lock t = true → lost1 = false ∧ idl_seqno s1 = tr_seqno t))
    as (lost1 & s1 & E1 & Hh1 & H1 & Hf1 & Hl1).
  { destruct (tr_contended t) eqn:Hc.
    { destruct (bridge_run_contended t s Hc Hs) as (s1 & E & H1 & I1). exists true, s1. by rewrite I1. }
    destruct (tr_has_lock t) eqn:Hl; simpl in Hh.
    2:{ exists lost, s. unfold bridge_run. by rewrite Hc, Hl. }
    destruct Hh as (Ec & Hlost & Hh). destruct (bridge_run_locked t s Hc Hl Ht Hs) as (s1 & E1 & H1 & I1 & F1).
    exists false, s1. rewrite I1. split; [done|]. split; [done|]. split; [done|]. split; [|done]. intros _.
    destruct (Z.eqb_spec (tr_seqno t) (idl_seqno s)) as [Eq|Ne]; [|by rewrite <-Ec].
    rewrite F1, Eq. apply Hf. destruct lost; [by destruct Hlost|done]. }
  destruct (IH lost1 s1 Hh1 H1 Hf1) as (s' & E' & H' & Hlast). exists s'. step E1. split; [done|]. split; [done|].
  intros [|t0 ts'] u Ets Hc Hl; simplify_eq/=; [|by eapply Hlast].
  injection E' as <-. destruct (Hl1 Hc Hl) as [-> Is]. rewrite Is in Hf1. split; [done|]. by apply Hf1.
Qed.

(** C5: the daemon follows the database.  In every history in which the sequence
    number of the database tells its contents, and changes when the lock is
    acquired, every trip returns, and after a trip with the lock the structures
    follow the contents of the database, also when another process had the lock
    in between. *)
Theorem daemon_follows_database contents ts t s :
  history contents true (idl_seqno s) (ts ++ [t]) → daemon_ok s →
  tr_contended t = false → tr_has_lock t = true →
  ∃ s', mfor (ts ++ [t]) bridge_run s = Ok (tt, s') ∧ daemon_ok s' ∧ idl_seqno s' = tr_seqno t ∧
    structures_follow (dc_bridges (contents (tr_seqno t))) (dc_vrfs (contents (tr_seqno t))) (sw s').
Proof.
  intros Hh Hs Hc Hl. destruct (history_run contents (ts ++ [t]) true s Hh Hs) as (s' & E & H & Hlast); [done|].
  exists s'. split; [done|]. split; [done|]. by apply (Hlast ts).
Qed.

(** C10: without the lock the daemon configures nothing.  A trip without the lock
    changes nothing at all; when another process has the lock, the bridges and
    VRFs are destroyed and the collection of system statistics is disabled, and
    nothing else: no transaction, no reconfiguration and no other component
    runs, and the state of the start and of the database is kept. *)
Theorem nothing_without_lock t s s' :
  state_ok (sw s) → tr_has_lock t = false ∨ tr_contended t = true → bridge_run t s = Ok (tt, s') →
  if tr_contended t
  then nothing_left (sw s') ∧ system_stats_enable false (world s) = Ok (tt, world s') ∧
       ml_log s' = ml_log s ++ [Called CDisableSystemStats] ∧
       idl_seqno s' = idl_seqno s ∧ initialized s' = initialized s ∧ restore_wait s' = restore_wait s ∧
       initial_config_done s' = initial_config_done s ∧ daemonize_txn s' = daemonize_txn s
  else s' = s.
Proof.
  intros Hs Hl. unfold bridge_run. destruct (tr_contended t).
  - destruct (destroy_everything_run s Hs) as (st & Hn & ->). unfold call. simpl.
    destruct (system_stats_enable false (world s)) as [[[] w]|]; [|done]. by intros [= <-].
  - destruct Hl as [->|?]; [|done]. simpl. by intros [= <-].
Qed.
End Histories.

(** ** What reaches the components

    [reaches st c d]: with the structures [st], [c] runs the code [d] of the
    components and leaves the rest of what matters here alone. *)

Section Reaches.
Context `{HL : OvsLib, HD : SwitchDev, HP : Posix, HT : SwitchTypes, HO : OfprotoDefaults}.
Context {Env W : Type} {HC : Components Env W}.
Local Abbreviation mst := (mst W).
Implicit Types s : mst.

Definition reaches (st : swst) (c : M mst unit) (d : M W unit) : Prop :=
  ∀ s s', c s = Ok (tt, s') → sw s = st →
  sw s' = st ∧ idl_seqno s' = idl_seqno s ∧ initial_config_done s' = initial_config_done s ∧
  d (world s) = Ok (tt, world s').

Lemma reaches_bind st (c1 c2 : M mst unit) d1 d2 :
  reaches st c1 d1 → reaches st c2 d2 → reaches st (c1 ;; c2) (d1 ;; d2).
Proof.
  intros H1 H2 s s' ([] & s1 & E1 & E2)%bind_Ok Es. destruct (H1 _ _ E1 Es) as (S1 & I1 & D1 & W1).
  destruct (H2 _ _ E2 S1) as (S2 & I2 & D2 & W2). split_and!; [done|congruence|congruence|]. by step W1.
Qed.

Lemma reaches_nothing st (c1 c2 : M mst unit) d :
  reaches st c1 (mret tt) → reaches st c2 d → reaches st (c1 ;; c2) d.
Proof. intros H1 H2. exact (reaches_bind _ _ _ _ _ H1 H2). Qed.

Lemma reaches_gets st {B} (g : mst → B) (f : B → M mst unit) d :
  (∀ b, reaches st (f b) d) → reaches st (gets g ≫= f) d.
Proof. intros Hf s s' (b & s1 & [= <- <-] & E)%bind_Ok. by eapply Hf. Qed.

Lemma reaches_gets_sw st (f : swst → M mst unit) d : reaches st (f st) d → reaches st (gets sw ≫= f) d.
Proof. intros Hf s s' (b & s1 & [= <- <-] & E)%bind_Ok Es. rewrite Es in E. by eapply Hf. Qed.

Lemma reaches_modify st (f : mst → mst) :
  (∀ s, sw (f s) = sw s ∧ idl_seqno (f s) = idl_seqno s ∧ initial_config_done (f s) = initial_config_done s ∧
    world (f s) = world s) → reaches st (modify f) (mret tt).
Proof. intros Hf s s' [= <-] Es. destruct (Hf s) as (-> & -> & -> & ->). done. Qed.

Lemma reaches_ret st : reaches st (mret tt) (mret tt).
Proof. by intros s s' [= <-] Es. Qed.

Lemma reaches_when st b (c : M mst unit) d : reaches st c d → reaches st (mwhen b c) (mwhen b d).
Proof. intros Hc. destruct b; [done|apply reaches_ret]. Qed.

Lemma reaches_for st {B} (l : list B) (f : B → M mst unit) :
  (∀ x, reaches st (f x) (mret tt)) → reaches st (mfor l f) (mret tt).
Proof. intros Hf. induction l as [|x l IH]; [apply reaches_ret|]. by apply reaches_nothing. Qed.

Lemma reaches_call st tag c : reaches st (call tag c) c.
Proof.
  intros s s'. unfold call. destruct (c (world s)) as [[[] w]|] eqn:E; [|done]. by intros [= <-] Es.
Qed.
End Reaches.

Ltac quiet_auto :=
  repeat match goal with
  | |- ∀ _, _ => intro
  | |- reaches _ (gets sw ≫= _) _ => apply reaches_gets_sw
  | |- reaches _ (gets _ ≫= _) _ => apply reaches_gets
  | |- reaches _ (mfor _ _) (mret tt) => apply reaches_for
  | |- reaches _ (mret tt) (mret tt) => apply reaches_ret
  | |- reaches _ (mwhen ?b _) (mret tt) => destruct b; cbn [mwhen]
  | |- reaches _ (emit _) _ => apply reaches_modify; intros; done
  | |- reaches _ (modify _) _ => apply reaches_modify; intros; done
  | |- reaches _ (match ?x with _ => _ end) (mret tt) => destruct x
  | |- reaches _ (_ ≫= λ _ : unit, _) (mret tt) => apply reaches_nothing
  end.

Section World.
Context `{HL : OvsLib, HD : SwitchDev, HP : Posix, HT : SwitchTypes, HO : OfprotoDefaults}.
Context {Env W : Type} {HC : Components Env W}.
Local Abbreviation mst := (mst W).
Implicit Types s : mst.

(** The components at the end of a trip, and when the database changed. *)
Definition components_run (t : trip Env) (st : swst) : M W unit :=
  run_stats_update t st ;; run_status_update t st ;; run_system_stats t ;; run_neighbor_update t ;;
  run_complete_block t.
Definition components_changed (t : trip Env) (l : list rc_event) (st : swst) (started : bool) : M W unit :=
  refresh_created t l st ;; reconfigure_system_stats (dc_other_config (tr_config t)) ;;
  complete_configuration t st (tr_config t) ;; mwhen started status_try_again.

Lemma init_reaches st cfg : reaches (W := W) st (bridge_init_ofproto cfg) (mret tt).
Proof. unfold bridge_init_ofproto. quiet_auto. Qed.
Lemma bridge_run___reaches st types : reaches (W := W) st (bridge_run__ types) (mret tt).
Proof. unfold bridge_run__. quiet_auto. Qed.
Lemma commit_daemonize_reaches st status : reaches (W := W) st (commit_daemonize status) (mret tt).
Proof. unfold commit_daemonize. quiet_auto. Qed.
Lemma run_components_reaches st t : reaches st (run_components t) (components_run t st).
Proof. unfold run_components, components_run. apply reaches_gets_sw. repeat apply reaches_bind; apply reaches_call. Qed.

(** The transaction of the start, and the components at the end. *)
Lemma tail_reaches st t :
  reaches st (pending ← gets daemonize_txn; mwhen pending (commit_daemonize (tr_commit t)) ;; run_components t)
    (components_run t st).
Proof.
  apply reaches_gets. intros b. apply reaches_nothing; [|apply run_components_reaches].
  pose proof (commit_daemonize_reaches st (tr_commit t)). destruct b; [done|apply reaches_ret].
Qed.

(** A reconfiguration, up to its end. *)
Lemma change_reaches t s s' :
  reconfigure_on_change t s = Ok (tt, s') →
  ∃ l, idl_seqno s' = tr_seqno t ∧ initial_config_done s' = true ∧
    components_changed t l (sw s') (initial_config_done s) (world s) = Ok (tt, world s').
Proof.
  intros E. unfold reconfigure_on_change in E. apply bind_Ok in E as ([] & s1 & E1 & E).
  unfold bridge_reconfigure in E1. apply bind_Ok in E1 as ([] & s2 & [= <-] & E1).
  apply bind_Ok in E1 as (before & s2 & [= <- <-] & E1). apply bind_Ok in E1 as ([] & s3 & E3 & E1).
  unfold on_sw in E3. destruct (reconfigure_structures _ _ _ _ _ _) as [[[] st]|] in E3; [|done]. injection E3 as <-.
  apply bind_Ok in E1 as (st' & s4 & [= <- <-] & E1). simpl in E1.
  match type of E1 with context [refresh_created t ?l st] => exists l; set (l0 := l) in * end.
  match type of E1 with ?c ?s0 = _ => assert (reaches st c (refresh_created t l0 st ;;
    reconfigure_system_stats (dc_other_config (tr_config t)) ;; complete_configuration t st (tr_config t) ;; mret tt)) as H1 end.
  { do 3 (apply reaches_bind; [apply reaches_call|]). apply bridge_run___reaches. }
  destruct (H1 _ _ E1 eq_refl) as (S1 & I1 & D1 & W1). simpl in S1, I1, D1, W1. clear H1 E1.
  apply bind_Ok in E as ([] & s5 & [= <-] & E). apply bind_Ok in E as ([] & s6 & E6 & E).
  assert (sw s6 = st ∧ idl_seqno s6 = tr_seqno t ∧ initial_config_done s6 = initial_config_done s ∧ world s6 = world s1)
    as (S6 & I6 & D6 & W6) by (destruct (tr_cfg t); by injection E6 as <-).
  apply bind_Ok in E as (d & s7 & [= <- <-] & E). rewrite D6 in E. unfold components_changed.
  apply bind_Ok in W1 as ([] & w1 & E1 & ([] & w2 & E2 & ([] & w3 & E3 & [= Ew3])%bind_Ok)%bind_Ok).
  destruct (initial_config_done s) eqn:Hd.
  - apply bind_Ok in E as ([] & s8 & E8 & [= <-]). destruct (reaches_call st _ _ _ _ E8 S6) as (S8 & I8 & D8 & W8).
    simpl. split; [congruence|]. split; [congruence|]. rewrite S8. step E1. step E2. step E3. by rewrite Ew3, <-W6.
  - apply bind_Ok in E as ([] & s8 & [= <-] & [= <-]). simpl. split; [done|]. split; [done|]. rewrite S6.
    step E1. step E2. step E3. by rewrite Ew3, W6.
Qed.

(** A trip with the lock, for the components. *)
Lemma locked_reaches t s s' :
  tr_contended t = false → tr_has_lock t = true → bridge_run t s = Ok (tt, s') →
  if tr_seqno t =? idl_seqno s
  then sw s' = sw s ∧ initial_config_done s' = initial_config_done s ∧
       components_run t (sw s) (world s) = Ok (tt, world s')
  else initial_config_done s' = true ∧
       ∃ l, (components_changed t l (sw s') (initial_config_done s) ;; components_run t (sw s')) (world s) =
         Ok (tt, world s').
Proof.
  intros Hc Hl E. unfold bridge_run in E. rewrite Hc, Hl in E. cbn [negb] in E.
  apply bind_Ok in E as ([] & s1 & E1 & E). destruct (init_reaches _ _ _ _ E1 eq_refl) as (S1 & I1 & D1 & [= W1]).
  apply bind_Ok in E as (w & s1' & [= <- <-] & E). apply bind_Ok in E as ([] & s2 & E2 & E).
  match type of E2 with ?c _ = _ => assert (reaches (sw s) c (mret tt)) as H2 by quiet_auto end.
  destruct (H2 _ _ E2 S1) as (S2 & I2 & D2 & [= W2]). apply bind_Ok in E as ([] & s3 & E3 & E).
  destruct (bridge_run___reaches _ _ _ _ E3 S2) as (S3 & I3 & D3 & [= W3]).
  apply bind_Ok in E as ([] & s4 & E4 & E).
  match type of E4 with ?c _ = _ => assert (reaches (sw s) c (mret tt)) as H4 by quiet_auto end.
  destruct (H4 _ _ E4 S3) as (S4 & I4 & D4 & [= W4]). apply bind_Ok in E as (seen & s4' & [= <- <-] & E).
  assert (idl_seqno s4 = idl_seqno s) as I by congruence.
  assert (initial_config_done s4 = initial_config_done s) as D by congruence.
  assert (world s4 = world s) as Hw by congruence. clear - S4 I D Hw E.
  apply bind_Ok in E as ([] & s5 & E5 & E). rewrite I in E5. destruct (tr_seqno t =? idl_seqno s); cbn [negb mwhen] in E5.
  - injection E5 as <-. destruct (tail_reaches _ _ _ _ E S4) as (S' & I' & D' & W'). rewrite <-Hw. by rewrite D', D.
  - destruct (change_reaches _ _ _ E5) as (l & I5 & D5 & W5).
    destruct (tail_reaches _ _ _ _ E eq_refl) as (S' & I' & D' & W'). split; [congruence|]. exists l.
    rewrite S', <-Hw, <-D. by step W5.
Qed.
End World.

(** ** The start of the daemon

    A reference for the order in which the daemon starts, as an automaton over
    the log. *)

Inductive phase := Starting | Initialised | Configured | Committed | Started.

#[export] Instance phase_eq_dec : EqDecision phase.
Proof. solve_decision. Defined.

(** The phases in which the daemon runs. *)
Definition steady (p : phase) : bool := match p with Starting | Committed => false | _ => true end.

(** Without the lock at most the system statistics are disabled; with it the
    ofproto library is initialised once, before anything else; the first
    reconfiguration configures the daemon; its transaction is committed until it
    is complete, and right after that the start is complete, once. *)
Definition next_phase (p : phase) (e : loop_event) : option phase :=
  match e with
  | OfprotoInit _ => if decide (p = Starting) then Some Initialised else None
  | Called CDisableSystemStats => if decide (p = Committed) then None else Some p
  | Reconfiguring _ => if steady p then Some (if decide (p = Initialised) then Configured else p) else None
  | DaemonizeCommit status =>
    if decide (p = Configured) then Some (if bool_decide (status = TXN_INCOMPLETE) then Configured else Committed) else None
  | DaemonizeComplete => if decide (p = Committed) then Some Started else None
  | SetCurCfg _ | TxnCommitted => if decide (p = Configured ∨ p = Started) then Some p else None
  | _ => if steady p then Some p else None
  end.

Definition scan (l : list loop_event) : option phase :=
  fold_left (λ o e, p ← o; next_phase p e) l (Some Starting).

Lemma scan_snoc l e : scan (l ++ [e]) = p ← scan l; next_phase p e.
Proof. unfold scan. by rewrite fold_left_app. Qed.

(** [daemonize_complete] is called once the automaton has arrived. *)
Lemma scan_complete l p :
  scan l = Some p →
  length (filter (λ e, match e with DaemonizeComplete => true | _ => false end = true) l) =
    if decide (p = Started) then 1%nat else 0%nat.
Proof.
  revert p. induction l as [|e l IH] using rev_ind; intros p; [by intros [= <-]|].
  rewrite scan_snoc, filter_app, length_app. destruct (scan l) as [q|]; [|done]. simpl. rewrite (IH q eq_refl).
  destruct e as [| | | | | | | | | |[]], q; simpl; repeat case_decide; try case_bool_decide; intros [= <-]; done.
Qed.

Section Start.
Context `{HL : OvsLib, HD : SwitchDev, HP : Posix, HT : SwitchTypes, HO : OfprotoDefaults}.
Context {Env W : Type} {HC : Components Env W}.
Local Abbreviation mst := (mst W).
Implicit Types s : mst.

(** The phase the variables stand for. *)
Definition phase_of s : phase :=
  if negb (initialized s) then Starting else
  if negb (initial_config_done s) then Initialised else
  if daemonize_txn s then Configured else Started.

(** What most code does to a running daemon: the phase stays. *)
Definition neutral s s' : Prop :=
  phase_of s' = phase_of s ∧ initial_config_done s' = initial_config_done s ∧ daemonize_txn s' = daemonize_txn s ∧
  initialized s' = initialized s ∧
  ∀ p, steady p = true → scan (ml_log s) = Some p → scan (ml_log s') = Some p.

#[local] Instance neutral_preorder : PreOrder neutral.
Proof. split; [by split|]. unfold neutral. intros ???. naive_solver congruence. Qed.

Lemma emit_neutral e : (∀ p, steady p = true → next_phase p e = Some p) → keeps neutral (emit e).
Proof.
  intros He. apply keeps_modify. intros s. split_and!; try done. intros p Hp E. simpl. rewrite scan_snoc, E. by apply He.
Qed.

Lemma call_neutral tag c : keeps neutral (call tag c).
Proof.
  intros s a s'. unfold call. destruct (c (world s)) as [[x w]|]; [|done]. intros [= _ <-].
  split_and!; try done. intros p Hp E. simpl. rewrite scan_snoc, E. simpl. destruct tag, p; done.
Qed.

Lemma on_sw_neutral {A} (c : M swst A) : keeps neutral (on_sw c).
Proof. intros s a s'. unfold on_sw. destruct (c (sw s)) as [[x w]|]; [|done]. by intros [= _ <-]. Qed.
#[local] Hint Resolve call_neutral on_sw_neutral : keeps.
#[local] Hint Extern 1 (keeps neutral (emit _)) => (apply emit_neutral; by intros []) : keeps.

Lemma bridge_run___neutral types : keeps neutral (bridge_run__ types).
Proof. unfold bridge_run__. keeps_auto. Qed.
Lemma run_components_neutral t : keeps neutral (run_components t).
Proof. unfold run_components. keeps_auto. Qed.
#[local] Hint Resolve bridge_run___neutral run_components_neutral : keeps.

(** The log is that of the phase. *)
Definition on_course s : Prop := scan (ml_log s) = Some (phase_of s) ∧ (daemonize_txn s = true → initial_config_done s = true) ∧
  (initial_config_done s = true → initialized s = true).

Lemma neutral_on_course s s' : neutral s s' → initialized s = true → on_course s → on_course s'.
Proof.
  intros (E1 & E2 & E3 & E4 & Hs) Hi (Hc & H1 & H2). unfold on_course. rewrite E1, E2, E3, E4.
  split_and!; [|done|done]. apply Hs; [|done]. unfold phase_of. rewrite Hi. by repeat case_match.
Qed.

Lemma init_on_course cfg s s' : bridge_init_ofproto cfg s = Ok (tt, s') → on_course s → on_course s' ∧ initialized s' = true.
Proof.
  unfold bridge_init_ofproto. intros E (Hc & H1 & H2). apply bind_Ok in E as (b & s0 & [= <- <-] & E).
  destruct (initialized s) eqn:Hi; [by injection E as <-|].
  apply bind_Ok in E as ([] & s1 & [= <-] & [= <-]). split; [|done]. split_and!; [|done|done]. simpl.
  assert (initial_config_done s = false) as Hd by (destruct (initial_config_done s); naive_solver).
  unfold phase_of in *. rewrite Hi in Hc. simpl in *. rewrite scan_snoc, Hc, Hd. done.
Qed.

(** After "Reconfiguring" the automaton is past the initialisation. *)
Lemma reconfigure_scan t cfg s s' :
  bridge_reconfigure t cfg s = Ok (tt, s') → initialized s = true → on_course s →
  initialized s' = true ∧ initial_config_done s' = initial_config_done s ∧ daemonize_txn s' = daemonize_txn s ∧
  scan (ml_log s') = Some (if initial_config_done s then phase_of s else Configured).
Proof.
  intros E Hi (Hc & H1 & H2). unfold bridge_reconfigure in E. apply bind_Ok in E as ([] & s1 & [= <-] & E).
  match type of E with ?c _ = _ => assert (keeps neutral c) as K by keeps_auto end.
  apply K in E as (_ & -> & -> & -> & Hs). split; [done|]. split; [done|]. split; [done|].
  apply Hs; [unfold phase_of; rewrite Hi; by repeat case_match|]. simpl. rewrite scan_snoc, Hc. simpl.
  unfold phase_of. rewrite Hi. simpl. destruct (initial_config_done s), (daemonize_txn s); simpl; naive_solver.
Qed.

(** The reconfiguration and the start of its transaction. *)
Lemma change_on_course t s s' :
  reconfigure_on_change t s = Ok (tt, s') → initialized s = true → on_course s → on_course s' ∧ initialized s' = true.
Proof.
  intros E Hi Hs. unfold reconfigure_on_change in E. apply bind_Ok in E as ([] & s1 & E1 & E).
  destruct (reconfigure_scan _ _ _ _ E1 Hi Hs) as (I1 & D1 & T1 & S1). destruct Hs as (Hc & H1 & H2).
  apply bind_Ok in E as ([] & s2 & [= <-] & E). apply bind_Ok in E as ([] & s3 & E3 & E).
  set (q := if initial_config_done s then phase_of s else Configured) in *.
  assert (q = Configured ∨ q = Started) as Hq.
  { subst q. unfold phase_of. rewrite Hi. destruct (initial_config_done s), (daemonize_txn s); naive_solver. }
  assert (scan (ml_log s3) = Some q ∧ initialized s3 = true ∧ initial_config_done s3 = initial_config_done s ∧
    daemonize_txn s3 = daemonize_txn s) as (S3 & I3 & D3 & T3).
  { destruct (tr_cfg t) as [c|]; injection E3 as <-; [|done]. simpl. rewrite scan_snoc, S1. simpl.
    by rewrite decide_True by done. }
  apply bind_Ok in E as (d & s4 & [= <- <-] & E). rewrite D3 in E. destruct (initial_config_done s) eqn:Hd.
  - apply bind_Ok in E as ([] & s5 & E5 & [= <-]).
    apply call_neutral in E5 as (_ & D5 & T5 & I5 & S5). split; [|simpl; congruence].
    assert (scan (ml_log s5) = Some q) as Hs5 by (apply S5; [by destruct Hq as [->| ->]|done]).
    split_and!; simpl; [|congruence|congruence]. rewrite scan_snoc, Hs5. simpl. rewrite decide_True by done.
    unfold q, phase_of. simpl. by rewrite I5, I3, D5, D3, T5, T3, Hi, Hd.
  - apply bind_Ok in E as ([] & s5 & [= <-] & [= <-]). split; [|done]. split_and!; [|done|done]. simpl.
    rewrite S3. unfold phase_of. simpl. by rewrite I3.
Qed.

Lemma daemonize_on_course status s s' :
  commit_daemonize status s = Ok (tt, s') → initialized s = true → daemonize_txn s = true → on_course s →
  on_course s' ∧ initialized s' = true.
Proof.
  intros E Hi Ht (Hc & H1 & H2). unfold commit_daemonize in E. apply bind_Ok in E as ([] & s1 & [= <-] & E).
  assert (phase_of s = Configured) as Hp by (unfold phase_of; by rewrite Hi, (H1 Ht), Ht).
  rewrite Hp in Hc. case_bool_decide as Es.
  - injection E as <-. split; [|done]. split_and!; [|done|done]. simpl. rewrite scan_snoc, Hc. simpl.
    rewrite bool_decide_true by done. by rewrite <-Hp.
  - apply bind_Ok in E as ([] & s2 & [= <-] & [= <-]). split; [|done]. split_and!; [|done|done]. simpl.
    rewrite !scan_snoc, Hc. simpl. rewrite bool_decide_false by done. unfold phase_of. simpl.
    by rewrite Hi, (H1 Ht).
Qed.

(** The destruction of the structures leaves the start alone. *)
Definition same_start s s' : Prop :=
  ml_log s' = ml_log s ∧ initialized s' = initialized s ∧ initial_config_done s' = initial_config_done s ∧
  daemonize_txn s' = daemonize_txn s.

#[local] Instance same_start_preorder : PreOrder same_start.
Proof. split; [by split|]. unfold same_start. intros ???. naive_solver congruence. Qed.

Lemma on_sw_same_start {A} (c : M swst A) : keeps same_start (on_sw c).
Proof. intros s a s'. unfold on_sw. destruct (c (sw s)) as [[x w]|]; [|done]. by intros [= _ <-]. Qed.
#[local] Hint Resolve on_sw_same_start : keeps.

Lemma destroy_on_course s s' : destroy_everything s = Ok (tt, s') → on_course s → on_course s'.
Proof.
  unfold destroy_everything. intros E (Hc & H1 & H2).
  apply bind_Ok in E as (bs & s0 & [= <- <-] & E). apply bind_Ok in E as ([] & s1 & E1 & E).
  apply bind_Ok in E as (vs & s2 & [= <- <-] & E). apply bind_Ok in E as ([] & s2 & E2 & E).
  assert (same_start s s2) as (El & Ei & Ed & Et).
  { etrans; [eapply (keeps_for _); [|exact E1]|eapply (keeps_for _); [|exact E2]]; intros x; apply on_sw_same_start. }
  unfold call in E. destruct (system_stats_enable false (world s2)) as [[x w]|]; [|done]. injection E as <-.
  split_and!; simpl; rewrite ?Et, ?Ed, ?Ei; [|done|done]. rewrite scan_snoc, El, Hc. simpl.
  unfold phase_of. simpl. rewrite Ei, Ed, Et. by repeat case_match.
Qed.

Lemma bridge_run_on_course t s s' : bridge_run t s = Ok (tt, s') → on_course s → on_course s'.
Proof.
  intros E Hs. unfold bridge_run in E. destruct (tr_contended t); [by eapply destroy_on_course|].
  destruct (tr_has_lock t); simpl in E; [|by injection E as <-].
  apply bind_Ok in E as ([] & s1 & E1 & E). destruct (init_on_course _ _ _ E1 Hs) as [H1 I1].
  apply bind_Ok in E as (w & s1' & [= <- <-] & E).
  assert (∀ c s s', keeps neutral c → c s = Ok (tt, s') → initialized s = true → on_course s →
    on_course s' ∧ initialized s' = true) as Hneutral.
  { intros c u u' K Ec Iu Hu. apply K in Ec as K'. split; [by eapply neutral_on_course|].
    destruct K' as (_ & _ & _ & -> & _). done. }
  apply bind_Ok in E as ([] & s2 & E2 & E). eapply Hneutral in E2 as [H2 I2]; [|keeps_auto|done|done].
  apply bind_Ok in E as ([] & s3 & E3 & E). eapply Hneutral in E3 as [H3 I3]; [|apply bridge_run___neutral|done|done].
  apply bind_Ok in E as ([] & s4 & E4 & E). eapply Hneutral in E4 as [H4 I4]; [|keeps_auto|done|done].
  apply bind_Ok in E as (seen & s4' & [= <- <-] & E). apply bind_Ok in E as ([] & s5 & E5 & E).
  assert (on_course s5 ∧ initialized s5 = true) as [H5 I5].
  { destruct (negb _); simpl in E5; [by eapply change_on_course|by injection E5 as <-]. }
  apply bind_Ok in E as (pending & s5' & [= <- <-] & E). apply bind_Ok in E as ([] & s6 & E6 & E).
  assert (on_course s6 ∧ initialized s6 = true) as [H6 I6].
  { destruct (daemonize_txn s5) eqn:Ht; simpl in E6; [by eapply daemonize_on_course|by injection E6 as <-]. }
  eapply Hneutral in E as [? _]; [done|apply run_components_neutral|done|done].
Qed.

(** The state of the variables when the process starts. *)
Definition fresh_start s : Prop :=
  ml_log s = [] ∧ initialized s = false ∧ initial_config_done s = false ∧ daemonize_txn s = false.

(** C8: the daemon starts once and in order.  In every history what it does
    follows the automaton of the start, and the variables say how far it is:
    the ofproto library is initialised once, with the lock and before everything
    else; nothing is committed before a reconfiguration; [daemonize_complete],
    which lets the parent process exit, is called at most once, right after the
    transaction of the first reconfiguration is complete. *)
Theorem daemon_starts_once ts s s' :
  fresh_start s → mfor ts bridge_run s = Ok (tt, s') →
  scan (ml_log s') = Some (phase_of s') ∧
  length (filter (λ e, match e with DaemonizeComplete => true | _ => false end = true) (ml_log s')) =
    (if decide (phase_of s' = Started) then 1%nat else 0%nat).
Proof.
  intros (El & Ei & Ed & Et) E. assert (on_course s) as Hs.
  { unfold on_course, phase_of. rewrite El, Ei, Ed, Et. split_and!; [done|done|done]. }
  assert (on_course s') as (Hc & _); [|by split; [|apply scan_complete]].
  clear El Ei Ed Et. revert s E Hs. induction ts as [|t ts IH]; intros s E Hs; [by injection E as <-|].
  apply bind_Ok in E as ([] & s1 & E1 & E). eapply IH; [exact E|]. by eapply bridge_run_on_course.
Qed.
End Start.
