(* ===== verification/World.v ===== *)
(** * The components around the main loop together

    The other components that [bridge_run] calls, as one state: the collector of
    system statistics ([SystemStats]) with its thread, the statistics ([Stats]),
    the status of interfaces ([Status]) and the callbacks of BLK_RUN_COMPLETE
    ([Blocks]), on the interfaces of the bridges and VRFs of [Reconfigure].  The
    completion of the configuration and the polling of neighbors stay the
    operations of the class [RestOps]. *)

From S2P Require Import Prelude OvsLib BridgePorts Lifecycle Reconfigure MainLoop.
From S2P Require Blocks Mirror Stats Status SystemStats.
Local Open Scope Z_scope.

(** ** What a trip brings *)

(** In one trip through the loop: the two readings of the clock by the
    statistics; what the commits of the transactions of statistics and status
    return; whether the transactions of the system statistics and of the
    reconfiguration succeed; the status and statistics of devices and the
    connectivity sequence number; the VLANs of the bridges, before and after the
    reconfiguration, and the versions of their switches; the controllers; and the
    turns of the thread that collects system statistics since the last trip, with
    what it finds. *)
Record env {A : Type} := Env {
  e_now : Z;
  e_now' : Z;
  e_stats_commit : txn_status;
  e_status_commit : txn_status;
  e_system_committed : bool;
  e_reconfigured : bool;
  e_devices : string → Status.netdev_status;
  e_statistics : string → Stats.netdev_stats;
  e_conn : Z;
  e_vlans_before : list (list (Z * option string));
  e_vlans : list (list (Z * option string));
  e_versions : string → option string;
  e_controllers : list string;
  e_controller_info : string → gmap string Stats.controller_info → gmap string Stats.controller_info;
  e_turns : list A;
}.
Arguments env A : clear implicits.
Arguments Env {A} _ _ _ _ _ _ _ _ _ _ _ _ _ _ _.

(** [CB], [RB]: the handlers in the blocks of statistics and of the main loop;
    [PW]: the state of the plugins; [C]: that of the rest. *)
Record parts {A CB RB PW C : Type} := Parts {
  p_collector : SystemStats.Collector.shared A;
  p_stats : Stats.bst CB PW;
  p_status : Status.ststate;
  p_run_blocks : Blocks.blocks RB;
  p_rest : C;
}.
Arguments parts A CB RB PW C : clear implicits.
Arguments Parts {A CB RB PW C} _ _ _ _ _.

(** Calls of handlers: with the parameters, which they may change, and the number
    of the block; those of the main loop get the sequence number. *)
Class PluginHandlers (CB RB PW : Type) := {
  call_stats : CB → Stats.stats_blk_params → Z → PW → Stats.stats_blk_params * PW;
  call_run : RB → option Z → PW → option Z * PW;
}.

Class RestOps (A C : Type) := {
  rest_complete : trip (env A) → swst → daemon_cfg → M C unit;
  rest_neighbor : trip (env A) → M C unit;
  rest_mirrors : C → string → Mirror.mist;
}.

(** ** Interfaces *)

(** The interfaces in the list of a port, and of a bridge. *)
Definition port_members (p : port) (s : bpst) : list iface :=
  omap (λ n, List.find (λ f, bool_decide (f_name f = n)) (ifaces s)) (bp_ifaces p).
Definition bridge_ifaces (b : bridge) : list iface :=
  p ← ports (b_ports b); port_members p (b_ports b).

(** The bridges and the bridge parts of VRFs, and their interfaces. *)
Definition all_members (st : swst) : list bridge := members (all_bridges st) ++ (up <$> members (all_vrfs st)).
Definition owned_ifaces (st : swst) : list (string * iface) :=
  b ← all_members st; pair (b_name b) <$> bridge_ifaces b.

(** The interfaces created in the course of [l], in order. *)
Definition created (l : list rc_event) (st : swst) : list (string * iface) :=
  omap (λ e, match e with
             | PortCall owner (IfaceRefresh n) =>
               List.find (λ x : string * iface, bool_decide (x.1 = owner ∧ f_name x.2 = n)) (owned_ifaces st)
             | _ => None
             end) l.

Section World.
Context `{HL : OvsLib, HMP : Mirror.MirrorProvider, HS : Status.StatusSchema}.
Context {A CB RB PW C : Type} {HH : PluginHandlers CB RB PW} {HR : RestOps A C}.
Local Abbreviation parts := (parts A CB RB PW C).
Local Abbreviation env := (env A).
Local Abbreviation trip := (trip env).

Definition set_collector (x : SystemStats.Collector.shared A) (w : parts) : parts :=
  Parts x (p_stats w) (p_status w) (p_run_blocks w) (p_rest w).
Definition set_stats (x : Stats.bst CB PW) (w : parts) : parts :=
  Parts (p_collector w) x (p_status w) (p_run_blocks w) (p_rest w).
Definition set_status (x : Status.ststate) (w : parts) : parts :=
  Parts (p_collector w) (p_stats w) x (p_run_blocks w) (p_rest w).
Definition set_run_blocks (x : Blocks.blocks RB) (w : parts) : parts :=
  Parts (p_collector w) (p_stats w) (p_status w) x (p_rest w).
Definition set_rest (x : C) (w : parts) : parts :=
  Parts (p_collector w) (p_stats w) (p_status w) (p_run_blocks w) x.

(** Code of one component on its part of the state. *)
Definition on_part {S} (part : parts → S) (set_part : S → parts → parts) (c : M S unit) : M parts unit := λ w,
  match c (part w) with
  | Ok (_, x) => Ok (tt, set_part x w)
  | Fault e => Fault e
  end.
Definition on_collector : M (SystemStats.Collector.shared A) unit → M parts unit := on_part p_collector set_collector.
Definition on_stats : M (Stats.bst CB PW) unit → M parts unit := on_part p_stats set_stats.
Definition on_status : M Status.ststate unit → M parts unit := on_part p_status set_status.
Definition on_rest : M C unit → M parts unit := on_part p_rest set_rest.

(** ** The interfaces as the components see them *)

(** [change_seq] of an interface: what the status update left in it; 0 in a new
    structure. *)
Definition change_seq (s : Status.ststate) (name : string) : Z :=
  match List.find (λ i, bool_decide (Status.si_name i = name)) (Status.st_ifaces s) with
  | Some i => Status.si_change_seq i
  | None => 0
  end.

Definition status_iface (s : Status.ststate) (f : iface) : Status.st_iface :=
  Status.StIface (f_name f) (Some (f_type f)) (ir_synthetic (f_cfg f)) (change_seq s (f_name f)).

(** The status component with the interfaces and bridges there are. *)
Definition status_view (e : env) (st : swst) (s : Status.ststate) : Status.ststate :=
  Status.StState (status_iface s <$> (owned_ifaces st).*2)
    ((λ b, (b_name b, e_versions e (b_name b))) <$> members (all_bridges st))
    (Status.connectivity_seqno s) (Status.status_txn_try_again s) (Status.status_txn s) (Status.database s).

Definition stats_iface (e : env) (f : iface) : Stats.stats_iface :=
  Stats.StatsIface (f_name f) (Some (f_type f)) (ir_synthetic (f_cfg f)) (Some (e_statistics e (f_name f))).

Definition stats_bridge (e : env) (c : C) (b : bridge) : Stats.stats_bridge :=
  Stats.StatsBridge (b_name b)
    ((λ p, Stats.StatsPort (bp_name p) (stats_iface e <$> port_members p (b_ports b))) <$> ports (b_ports b))
    (rest_mirrors c (b_name b)).

(** ** New interfaces

    "Populate initial status in database" of [iface_create]: the writes go to the
    transaction of the reconfiguration.  A transaction of the status or the
    statistics that is in progress is not touched. *)

Definition new_status (e : env) (names : list string) (i : Status.st_iface) : M Status.ststate Status.st_iface :=
  if bool_decide (Status.si_name i ∈ names)
  then Status.iface_refresh_netdev_status (e_devices e) (e_vlans_before e)
         (Status.StIface (Status.si_name i) (Status.si_type i) (Status.si_synthetic i) 0)
  else mret i.

Fixpoint new_statuses (e : env) (names : list string) (l : list Status.st_iface)
    : M Status.ststate (list Status.st_iface) :=
  match l with
  | [] => mret []
  | i :: l => i' ← new_status e names i; l' ← new_statuses e names l; mret (i' :: l')
  end.

(** [txn]: the status transaction in progress. *)
Definition refresh_new_status (e : env) (names : list string) (st : swst) : M Status.ststate unit :=
  modify (status_view e st) ;;
  txn ← gets Status.status_txn;
  modify (Status.set_txn (Some (Status.Rows ∅ ∅))) ;;
  l ← gets Status.st_ifaces;
  l' ← new_statuses e names l;
  modify (Status.set_st_ifaces l') ;;
  w ← gets Status.status_txn;
  modify (Status.set_txn txn) ;;
  mwhen (e_reconfigured e) (modify (λ s,
    Status.set_database (Status.written (default (Status.Rows ∅ ∅) w) (Status.database s)) s)).

(** [sblk] of [iface_create]; [br] is the bridge part of a VRF, too. *)
Definition create_sblk (owner name : string) : Stats.stats_blk_params :=
  Stats.Sblk 0 (Some owner) None None (Some name) (Some name).

Definition new_statistics (e : env) (x : string * iface) : M (Stats.bst CB PW) unit :=
  Stats.iface_refresh_stats (stats_iface e x.2) ;;
  Stats.execute call_stats Blocks.StatsBlocks.STATS_BRIDGE_CREATE_NETDEV (create_sblk x.1 (f_name x.2)) ;;
  mret tt.

Definition refresh_new_stats (e : env) (l : list (string * iface)) : M (Stats.bst CB PW) unit :=
  txn ← gets Stats.stats_txn;
  modify (Stats.set_stats_txn (Some Stats.no_rows)) ;;
  mfor l (new_statistics e) ;;
  w ← gets Stats.stats_txn;
  modify (Stats.set_stats_txn txn) ;;
  mwhen (e_reconfigured e) (modify (λ s,
    Stats.set_rows (Stats.rows_written (default Stats.no_rows w) (Stats.database s)) s)).

Definition refresh_created (t : trip) (l : list rc_event) (st : swst) : M parts unit :=
  on_stats (refresh_new_stats (tr_env t) (created l st)) ;;
  on_status (refresh_new_status (tr_env t) ((λ x, f_name x.2) <$> created l st) st).

(** ** The operations of the main loop *)

Definition run_stats_update (t : trip) (st : swst) : M parts unit := λ w,
  let e := tr_env t in
  on_stats (Stats.run_stats_update call_stats (e_controller_info e)
    (stats_bridge e (p_rest w) <$> members (all_bridges st))
    (stats_bridge e (p_rest w) ∘ up <$> members (all_vrfs st))
    (e_controllers e) (tr_seqno t) (dc_other_config <$> tr_cfg t) (e_now e) (e_now' e) (e_stats_commit e)) w.

Definition run_status_update (t : trip) (st : swst) : M parts unit :=
  let e := tr_env t in
  on_status (modify (status_view e st) ;;
             Status.run_status_update (e_devices e) (e_vlans e) (e_conn e) (e_status_commit e)).

(** One turn of [system_stats_thread_func]; [x]: what it collects. *)
Definition thread_turn (x : A) : M (SystemStats.Collector.shared A) unit :=
  at_ ← gets SystemStats.Collector.pc;
  match at_ with
  | SystemStats.Collector.NotStarted | SystemStats.Collector.AtCondWait => mret tt
  | SystemStats.Collector.AtTest => SystemStats.Collector.thread_test
  | SystemStats.Collector.AtCollect =>
    modify (SystemStats.Collector.set_pc (SystemStats.Collector.AtPublish x))
  | SystemStats.Collector.AtPublish y => SystemStats.Collector.thread_publish y
  | SystemStats.Collector.Asleep => modify (SystemStats.Collector.set_pc SystemStats.Collector.AtTest)
  end.

Definition run_system_stats (t : trip) : M parts unit :=
  on_collector (mfor (e_turns (tr_env t)) thread_turn ;;
                SystemStats.Collector.run_system_stats (bool_decide (is_Some (tr_cfg t)))
                  (e_system_committed (tr_env t)) ;;
                mret tt).

(** [execute_run_block(&run_params, BLK_RUN_COMPLETE)] *)
Definition run_complete_block (t : trip) : M parts unit := λ w,
  let '(_, b, _, pw) := Blocks.RunBlocks.execute_run_block call_run (Some (tr_seqno t))
      (Blocks.RunBlocks.run_block_id_int Blocks.RunBlocks.BLK_RUN_COMPLETE) (p_run_blocks w)
      (Stats.world (p_stats w)) in
  Ok (tt, set_run_blocks b (set_stats (Stats.set_world (Stats.stats_blocks (p_stats w)) pw (p_stats w)) w)).

#[export] Instance all_components : Components env parts := {|
  MainLoop.system_stats_enable b := on_collector (SystemStats.Collector.system_stats_enable b);
  MainLoop.reconfigure_system_stats oc := on_collector (SystemStats.Collector.reconfigure_system_stats oc);
  MainLoop.refresh_created := refresh_created;
  MainLoop.complete_configuration t st cfg := on_rest (rest_complete t st cfg);
  MainLoop.status_try_again := on_status (modify (Status.set_try_again true));
  MainLoop.run_stats_update := run_stats_update;
  MainLoop.run_status_update := run_status_update;
  MainLoop.run_system_stats := run_system_stats;
  MainLoop.run_neighbor_update t := on_rest (rest_neighbor t);
  MainLoop.run_complete_block := run_complete_block;
|}.
End World.
