(* ===== verification/WorldFacts.v ===== *)
(** * Theorems on the components together

    The structures the components see are those of the bridges and VRFs; every
    history of the daemon with all these components returns; and the statistics
    and the status of the interfaces that the database configures reach the
    database. *)

From S2P Require Import Prelude OvsLib BridgePorts BridgePortsFacts BridgePortsReconf.
From S2P Require Import Lifecycle Reconfigure ReconfigureFacts MainLoop MainLoopFacts World.
From S2P Require Blocks Mirror Stats StatsFacts Status StatusFacts SystemStats SystemStatsFacts.
Local Open Scope Z_scope.

(** ** The interfaces of the structures *)

Section Ifaces.
Context `{HL : OvsLib, HD : SwitchDev, HP : Posix, HT : SwitchTypes, HS : Status.StatusSchema}.

Lemma find_by_key {X} (key : X → string) (l : list X) n x :
  NoDup (key <$> l) → List.find (λ y, bool_decide (key y = n)) l = Some x ↔ x ∈ l ∧ key x = n.
Proof.
  intros Hnd. split.
  - intros [Hx Hn%bool_decide_eq_true]%List.find_some. split; [by apply list_elem_of_In|done].
  - intros [Hx <-]. destruct (List.find _ l) as [y|] eqn:E.
    + apply List.find_some in E as [Hy%list_elem_of_In Hn%bool_decide_eq_true]. f_equal. by eapply NoDup_fmap_elem.
    + apply list_elem_of_In in Hx. apply (List.find_none _ _ E) in Hx. by rewrite bool_decide_eq_false in Hx.
Qed.

Lemma port_members_elem s p f :
  bwf s → p ∈ ports s → f ∈ port_members p s ↔ f ∈ ifaces s ∧ f_port f = bp_name p.
Proof.
  intros Hw Hp. destruct (bw_lists _ Hw p Hp) as [Hnd Hl]. unfold port_members. rewrite list_elem_of_omap. split.
  - intros (n & Hn & [Hf En]%find_by_key); [|apply Hw]. apply Hl in Hn as (g & Hg & Eg & Ep). split; [done|].
    rewrite (iface_unique s f g); congruence.
  - intros [Hf Ep]. exists (f_name f). split; [apply Hl; by exists f|]. apply find_by_key; [apply Hw|done].
Qed.

Lemma port_members_names s p : bwf s → p ∈ ports s → f_name <$> port_members p s = bp_ifaces p.
Proof.
  intros Hw Hp. destruct (bw_lists _ Hw p Hp) as [_ Hl]. unfold port_members.
  assert (∀ l : list string, (∀ n, n ∈ l → n ∈ bp_ifaces p) →
    f_name <$> omap (λ n, List.find (λ f, bool_decide (f_name f = n)) (ifaces s)) l = l)
    as H; [|by apply H].
  induction l as [|n l IH]; intros Hn; [done|]. csimpl.
  destruct (proj1 (Hl n) (Hn n (list_elem_of_here _ _))) as (f & Hf & En & _).
  rewrite (proj2 (find_by_key f_name _ n f (bw_ifaces _ Hw))) by done. simpl. rewrite En. f_equal. apply IH.
  intros m Hm. apply Hn. by right.
Qed.

Lemma bridge_ifaces_elem b f : ports_good b → f ∈ bridge_ifaces b ↔ f ∈ ifaces (b_ports b).
Proof.
  intros [Hw _]. unfold bridge_ifaces. rewrite list_elem_of_bind. split.
  - intros (p & Hf & Hp). by apply port_members_elem in Hf as [? _].
  - intros Hf. destruct (proj1 (list_elem_of_fmap _ _ _) (bw_owned _ Hw f Hf)) as (p & Ep & Hp).
    exists p. split; [|done]. by apply port_members_elem.
Qed.

Lemma bridge_ifaces_names b : ports_good b → NoDup (f_name <$> bridge_ifaces b).
Proof.
  intros [Hw _]. unfold bridge_ifaces. pose proof (bw_ports _ Hw) as Hnd. unfold port_names in Hnd.
  assert (∀ l, NoDup (bp_name <$> l) → (∀ p, p ∈ l → p ∈ ports (b_ports b)) →
    NoDup (f_name <$> (l ≫= λ p, port_members p (b_ports b)))) as H; [|by apply H].
  induction l as [|p l IH]; intros Hl Hin; [constructor|]. csimpl. rewrite fmap_app.
  apply NoDup_cons in Hl as [Hp Hl]. apply NoDup_app. split_and!.
  - rewrite port_members_names; [|done|apply Hin; left]. apply (bw_lists _ Hw). apply Hin. left.
  - intros n (f & -> & Hf)%list_elem_of_fmap (g & En & (q & Hg & Hq)%list_elem_of_bind)%list_elem_of_fmap.
    apply port_members_elem in Hf as [Hf Epf]; [|done|apply Hin; left].
    apply port_members_elem in Hg as [Hg Epg]; [|done|apply Hin; by right].
    rewrite (iface_unique _ f g Hw Hf Hg En) in Epf. apply Hp. rewrite <-Epf, Epg. by apply list_elem_of_fmap_2.
  - apply IH; [done|]. intros q Hq. apply Hin. by right.
Qed.

(** ** Interfaces of a configuration *)

(** The row [o] wants an interface [row]; [c]: the row if it is a bridge. *)
Definition wants (cfg : daemon_cfg) (o : string) (c : option ovsrec_bridge) (row : ovsrec_interface) : Prop :=
  (∃ r q, r ∈ dc_bridges cfg ∧ brr_name r = o ∧ c = Some r ∧ wanted_row (bridge_collect_wanted_ports r) q row) ∨
  (∃ r q, r ∈ dc_vrfs cfg ∧ vrr_name r = o ∧ c = None ∧ wanted_row (vrf_collect_wanted_ports (vrr_ports r)) q row).

(** Names are keys, bridges and VRFs have different names, an interface belongs
    to one of them, and the name of an internal interface has the prefix that the status update
    skips. *)
Record rows_apart (cfg : daemon_cfg) : Prop := RowsApart {
  ra_bridges : NoDup (brr_name <$> dc_bridges cfg);
  ra_vrfs : NoDup (vrr_name <$> dc_vrfs cfg);
  ra_owners : ∀ b v, b ∈ dc_bridges cfg → v ∈ dc_vrfs cfg → brr_name b ≠ vrr_name v;
  ra_names : ∀ o1 o2 c1 c2 row1 row2, wants cfg o1 c1 row1 → wants cfg o2 c2 row2 → ir_name row1 = ir_name row2 → o1 = o2;
  ra_internal : ∀ o c row, wants cfg o c row → ir_synthetic row = false →
    iface_get_type c row = Status.OVSREC_INTERFACE_TYPE_INTERNAL → (4 ≤ String.length (ir_name row))%nat;
}.

(** The same for structures. *)
Definition long_name (f : iface) : Prop :=
  ir_synthetic (f_cfg f) = false → f_type f = Status.OVSREC_INTERFACE_TYPE_INTERNAL →
  (4 ≤ String.length (f_name f))%nat.

Definition structures_apart (st : swst) : Prop :=
  NoDup ((λ x : string * iface, f_name x.2) <$> owned_ifaces st) ∧ ∀ x, x ∈ owned_ifaces st → long_name x.2.

Lemma all_members_elem st b :
  b ∈ all_members st ↔ b ∈ members (all_bridges st) ∨ ∃ v, v ∈ members (all_vrfs st) ∧ b = up v.
Proof. unfold all_members. rewrite elem_of_app, list_elem_of_fmap. naive_solver. Qed.

Lemma members_good st b : state_ok st → b ∈ all_members st → ports_good b.
Proof. intros Hs [Hb|(v & Hv & ->)]%all_members_elem; [by apply (so_bridges _ Hs)|by apply (so_vrfs _ Hs)]. Qed.

Lemma owned_elem st x :
  state_ok st → x ∈ owned_ifaces st ↔ ∃ b, b ∈ all_members st ∧ x.1 = b_name b ∧ x.2 ∈ ifaces (b_ports b).
Proof.
  intros Hs. unfold owned_ifaces. rewrite list_elem_of_bind. split.
  - intros (b & (f & -> & Hf)%list_elem_of_fmap & Hb). exists b. split; [done|]. split; [done|]. simpl.
    apply bridge_ifaces_elem; [by eapply members_good|done].
  - intros (b & Hb & E1 & Hf). exists b. split; [|done]. apply list_elem_of_fmap. exists x.2.
    split; [rewrite <-E1; by destruct x|]. apply bridge_ifaces_elem; [by eapply members_good|done].
Qed.

(** In structures that follow a configuration every interface is wanted. *)
Lemma owned_wanted cfg st x :
  state_ok st → cfg_followed cfg st → x ∈ owned_ifaces st →
  ∃ c, wants cfg x.1 c (f_cfg x.2) ∧ ir_name (f_cfg x.2) = f_name x.2 ∧ f_type x.2 = iface_get_type c (f_cfg x.2).
Proof.
  intros Hs (Hb & Hv & _) (b & [Hin|(v & Hin & ->)]%all_members_elem & E1 & Hf)%owned_elem; [| |done]; rewrite E1.
  - destruct (Hb b Hin) as (_ & r & Hr & _ & En & _ & Hfresh & _). destruct (Hfresh _ Hf) as (Hw & Ei & Et).
    exists (Some r). split; [|done]. left. by exists r, (f_port x.2).
  - destruct (Hv v Hin) as (_ & r & Hr & _ & En & Hfresh & _). destruct (Hfresh _ Hf) as (Hw & Ei & Et).
    exists None. split; [|done]. right. by exists r, (f_port x.2).
Qed.

(** A wanted interface whose switch and device work is there, with its row. *)
Definition switch_works (o : string) : Prop := ∀ l t, ofproto_create l o t = 0.

Lemma wanted_owned cfg st mac o c row :
  rows_apart cfg → rows_ok mac (dc_bridges cfg) (dc_vrfs cfg) → state_ok st → cfg_followed cfg st →
  wants cfg o c row → switch_works o → device_works c row →
  ∃ x, x ∈ owned_ifaces st ∧ x.1 = o ∧ f_name x.2 = ir_name row ∧ f_type x.2 = iface_get_type c row ∧ f_cfg x.2 = row.
Proof.
  intros Hr Hok Hs (Hb & Hv & Hcb & Hcv) Hw Hswitch Hdev.
  assert (∃ b w, b ∈ all_members st ∧ b_name b = o ∧ wanted_ok w ∧ follows (b_ports b) c w ∧ ∃ q, wanted_row w q row)
    as (b & w & Hin & En & Hwok & [Hfresh Hhas] & q & Hq).
  { destruct Hw as [(r & q & Hrow & En & -> & Hq)|(r & q & Hrow & En & -> & Hq)]; subst o.
    - specialize (Hcb r Hrow Hswitch). apply list_elem_of_fmap in Hcb as (b & En & Hbin).
      destruct (Hb b Hbin) as (_ & r' & Hrow' & _ & En' & _ & Hf).
      assert (r' = r) as -> by (eapply (NoDup_fmap_elem brr_name); [exact (ra_bridges _ Hr)|done|done|congruence]).
      exists b, (bridge_collect_wanted_ports r). split; [apply all_members_elem; by left|].
      split; [done|]. split; [by apply (ro_bridges _ _ _ Hok)|]. split; [done|]. by exists q.
    - specialize (Hcv r Hrow (λ l, Hswitch l "vrf")). apply list_elem_of_fmap in Hcv as (v & En & Hvin).
      destruct (Hv v Hvin) as (_ & r' & Hrow' & _ & En' & Hf).
      assert (r' = r) as -> by (eapply (NoDup_fmap_elem vrr_name); [exact (ra_vrfs _ Hr)|done|done|congruence]).
      exists (up v), (vrf_collect_wanted_ports (vrr_ports r)). split; [apply all_members_elem; right; by exists v|].
      split; [done|]. split; [by apply (ro_vrfs _ _ _ Hok)|]. split; [done|]. by exists q. }
  destruct (Hhas q row Hq Hdev) as (f & Hf & Ef & _). destruct (Hfresh f Hf) as (Hw' & Ei & Et).
  destruct (wo_once _ Hwok _ _ _ _ Hw' Hq) as [_ Erow]; [congruence|].
  exists (b_name b, f). split; [apply owned_elem; [done|]; by exists b|]. simpl. split_and!; congruence.
Qed.

Lemma members_apart cfg st :
  rows_apart cfg → state_ok st → cfg_followed cfg st → NoDup (b_name <$> all_members st).
Proof.
  intros Hr Hs (Hb & Hv & _). unfold all_members. rewrite fmap_app. apply NoDup_app. split; [apply Hs|]. split.
  - intros n (b & -> & Hin)%list_elem_of_fmap (b' & En & (v & -> & Hin')%list_elem_of_fmap)%list_elem_of_fmap.
    destruct (Hb b Hin) as (_ & r & Hrb & _ & Er & _). destruct (Hv v Hin') as (_ & r' & Hrv & _ & Er' & _).
    apply (ra_owners _ Hr r r' Hrb Hrv). unfold v_name in Er'. congruence.
  - rewrite <-list_fmap_compose. apply Hs.
Qed.

Lemma followed_apart cfg st :
  rows_apart cfg → state_ok st → cfg_followed cfg st → structures_apart st.
Proof.
  intros Hr Hs Hf. split.
  - assert (∀ x y, x ∈ owned_ifaces st → y ∈ owned_ifaces st → f_name x.2 = f_name y.2 → x.1 = y.1) as Happ.
    { intros x y Hx Hy E. destruct (owned_wanted _ _ _ Hs Hf Hx) as (c1 & H1 & E1 & _).
      destruct (owned_wanted _ _ _ Hs Hf Hy) as (c2 & H2 & E2 & _).
      by eapply (ra_names _ Hr); [exact H1|exact H2|congruence]. }
    pose proof (members_apart _ _ Hr Hs Hf) as Hnd. unfold owned_ifaces in *.
    assert (∀ b, b ∈ all_members st → ports_good b) as Hg by (intros; by eapply members_good).
    revert Happ Hnd Hg. generalize (all_members st). induction l as [|b l IH]; intros Happ Hnd Hg; [constructor|].
    csimpl in *. apply NoDup_cons in Hnd as [Hb Hnd]. rewrite fmap_app. apply NoDup_app. split; [|split].
    + rewrite <-list_fmap_compose. apply bridge_ifaces_names, Hg. left.
    + intros n (x & -> & Hx)%list_elem_of_fmap (y & En & Hy)%list_elem_of_fmap. apply Hb.
      assert (x.1 = y.1) as E by (apply Happ; [apply elem_of_app; by left|apply elem_of_app; by right|done]).
      apply list_elem_of_fmap in Hx as (f & -> & _). apply list_elem_of_bind in Hy as (b' & (g & -> & _)%list_elem_of_fmap & Hb').
      simpl in E. rewrite E. by apply list_elem_of_fmap_2.
    + apply IH; [|done|intros; apply Hg; by right]. intros x y Hx Hy. apply Happ; apply elem_of_app; by right.
  - intros x Hx Hsyn Ht. destruct (owned_wanted _ _ _ Hs Hf Hx) as (c & Hw & En & Et). rewrite <-En.
    apply (ra_internal _ Hr x.1 c); [done|done|]. congruence.
Qed.

Lemma nothing_apart st : nothing_left st → structures_apart st.
Proof.
  intros [Eb Ev]. assert (owned_ifaces st = []) as E by (unfold owned_ifaces, all_members; by rewrite Eb, Ev).
  unfold structures_apart. rewrite E. split; [constructor|]. by intros x ?%elem_of_nil.
Qed.
End Ifaces.

(** ** Status and statistics of the interfaces *)

Section Views.
Context `{HL : OvsLib, HMP : Mirror.MirrorProvider, HS : Status.StatusSchema}.
Context {A CB RB PW C : Type} {HH : PluginHandlers CB RB PW} {HR : RestOps A C}.
Implicit Types (e : env A) (st : swst) (s : Status.ststate) (b : Stats.bst CB PW).

Lemma status_iface_short s f : long_name f → StatusFacts.short (status_iface s f) = false.
Proof.
  intros Hl. unfold StatusFacts.short, Status.is_internal, Status.status_skipped, status_iface. simpl.
  destruct (ir_synthetic (f_cfg f)) eqn:Es; [done|]. simpl. apply andb_false_intro2.
  destruct (bool_decide (_ = Some Status.OVSREC_INTERFACE_TYPE_INTERNAL)) eqn:Et; [|done].
  apply bool_decide_eq_true in Et. injection Et as Et. apply Nat.ltb_ge. by apply Hl.
Qed.

Lemma view_short e st s i :
  structures_apart st → i ∈ Status.st_ifaces (status_view e st s) → StatusFacts.short i = false.
Proof.
  intros [_ Hl] (f & -> & (x & -> & Hx)%list_elem_of_fmap)%list_elem_of_fmap. by apply status_iface_short, Hl.
Qed.

(** The same interfaces, but for what was seen of their devices. *)
Definition same_iface (i j : Status.st_iface) : Prop :=
  Status.si_name i = Status.si_name j ∧ Status.si_type i = Status.si_type j ∧
  Status.si_synthetic i = Status.si_synthetic j.

Lemma change_seq_elem s i :
  NoDup (Status.si_name <$> Status.st_ifaces s) → i ∈ Status.st_ifaces s →
  change_seq s (Status.si_name i) = Status.si_change_seq i.
Proof. intros Hnd Hi. unfold change_seq. by rewrite (proj2 (find_by_key Status.si_name _ _ i Hnd)). Qed.

Lemma view_names e st s :
  Status.si_name <$> Status.st_ifaces (status_view e st s) = (λ x : string * iface, f_name x.2) <$> owned_ifaces st.
Proof. simpl. by rewrite <-!list_fmap_compose. Qed.

(** A status component that has the interfaces of the structures stays as it is. *)
Lemma view_same e e' st s s' :
  structures_apart st → Forall2 same_iface (Status.st_ifaces s') (Status.st_ifaces (status_view e st s)) →
  Status.st_ifaces (status_view e' st s') = Status.st_ifaces s'.
Proof.
  intros [Hnd _] HF. rewrite <-(view_names e st s) in Hnd.
  assert (Status.si_name <$> Status.st_ifaces s' = Status.si_name <$> Status.st_ifaces (status_view e st s)) as En.
  { clear Hnd. induction HF as [|i j l l' (E & _) _ IH]; [done|]. csimpl. by rewrite E, IH. }
  rewrite <-En in Hnd. simpl in *.
  assert (∀ i, i ∈ Status.st_ifaces s' → change_seq s' (Status.si_name i) = Status.si_change_seq i) as Hseq
    by (intros; by apply change_seq_elem).
  revert HF Hseq. clear En Hnd. generalize (Status.st_ifaces s'), (owned_ifaces st).*2.
  intros l k. revert l. induction k as [|f k IH]; intros l HF Hseq; [by inversion HF|].
  inversion HF as [|i j l' k' (E1 & E2 & E3) HF' El Ek]; subst. csimpl. f_equal.
  - simpl in *. specialize (Hseq i (list_elem_of_here _ _)). destruct i as [n t y q]. simpl in *. by subst.
  - apply IH; [done|]. intros j' Hj. apply Hseq. by right.
Qed.

(** ** New interfaces *)

Definition renewed e (names : list string) (again : bool) (i : Status.st_iface) : Status.st_iface :=
  if bool_decide (Status.si_name i ∈ names)
  then StatusFacts.refreshed (e_devices e) again
         (Status.StIface (Status.si_name i) (Status.si_type i) (Status.si_synthetic i) 0)
  else i.

Lemma refreshed_same dv again i : same_iface (StatusFacts.refreshed dv again i) i.
Proof. unfold StatusFacts.refreshed, same_iface. by destruct (StatusFacts.needs _ _ _). Qed.

Lemma renewed_same e names again i : same_iface (renewed e names again i) i.
Proof. unfold renewed. case_bool_decide; [|done]. exact (refreshed_same _ _ (Status.StIface _ _ _ 0)). Qed.

Lemma new_statuses_run e names l s w :
  Status.status_txn s = Some w → (∀ i, i ∈ l → StatusFacts.short i = false) →
  ∃ w', new_statuses e names l s =
    Ok (renewed e names (Status.status_txn_try_again s) <$> l, Status.set_txn (Some w') s).
Proof.
  revert s w. induction l as [|i l IH]; intros s w Ew Hl.
  { exists w. destruct s. simpl in *. by subst. }
  assert (∃ w1, new_status e names i s =
    Ok (renewed e names (Status.status_txn_try_again s) i, Status.set_txn (Some w1) s)) as (w1 & E1).
  { unfold new_status, renewed. case_bool_decide.
    - rewrite (StatusFacts.iface_refresh_run _ _ _ _ w Ew).
      assert (StatusFacts.short (Status.StIface (Status.si_name i) (Status.si_type i) (Status.si_synthetic i) 0) = false)
        as -> by exact (Hl i (list_elem_of_here _ _)).
      rewrite andb_false_r. by eexists.
    - exists w. destruct s. simpl in *. by subst. }
  destruct (IH (Status.set_txn (Some w1) s) w1) as (w' & E'); [by destruct s|intros j Hj; apply Hl; by right|].
  exists w'. cbn [new_statuses]. step E1. step E'. by destruct s.
Qed.

Lemma refresh_new_status_run e names st s :
  structures_apart st →
  ∃ d, refresh_new_status e names st s =
    Ok (tt, Status.StState (renewed e names (Status.status_txn_try_again s) <$> Status.st_ifaces (status_view e st s))
              (Status.st_bridges (status_view e st s)) (Status.connectivity_seqno s) (Status.status_txn_try_again s)
              (Status.status_txn s) d).
Proof.
  intros Ha. unfold refresh_new_status. step. step. step. step.
  set (s1 := Status.set_txn _ _).
  destruct (new_statuses_run e names (Status.st_ifaces (status_view e st s)) s1 (Status.Rows ∅ ∅) eq_refl) as (w & E).
  { intros i. by apply view_short. }
  step E. step. step. step. destruct (e_reconfigured e); by eexists.
Qed.

Lemma view_iface_has_device e f : StatsFacts.has_device (stats_iface e f).
Proof. intros _. by eexists. Qed.

Definition same_timers b b' : Prop :=
  Stats.stats_timer_interval b' = Stats.stats_timer_interval b ∧ Stats.stats_timer b' = Stats.stats_timer b ∧
  (is_Some (Stats.stats_txn b') ↔ is_Some (Stats.stats_txn b)).

#[local] Instance same_timers_preorder : PreOrder same_timers.
Proof. split; [by split|]. unfold same_timers. intros ???. naive_solver congruence. Qed.

Lemma new_statistics_run e l b :
  ∃ b', mfor l (new_statistics e) b = Ok (tt, b') ∧ same_timers b b'.
Proof.
  revert b. induction l as [|x l IH]; intros b; [by exists b|].
  assert (∃ b1, new_statistics e x b = Ok (tt, b1) ∧ same_timers b b1) as (b1 & E1 & H1).
  { unfold new_statistics. step (StatsFacts.iface_refresh_stats_writes _ (view_iface_has_device e x.2) b).
    unfold Stats.execute, mbind, M_bind.
    destruct (Blocks.StatsBlocks.execute_stats_block _ _ _ _ _) as [[[rc bl] p] pw]. eexists. split; [reflexivity|].
    unfold Stats.put_rows. destruct b as [? ? [w|] ? ? ?]; repeat split; simpl; auto. }
  destruct (IH b1) as (b' & E' & H'). exists b'. cbn [mfor]. step E1. split; [done|]. by etrans.
Qed.

Lemma refresh_new_stats_run e l b :
  ∃ b', refresh_new_stats e l b = Ok (tt, b') ∧ same_timers b b'.
Proof.
  unfold refresh_new_stats. step. step.
  destruct (new_statistics_run e l (Stats.set_stats_txn (Some Stats.no_rows) b)) as (b1 & E1 & I1 & T1 & _). step E1. step. step.
  destruct (e_reconfigured e); (eexists; split; [reflexivity|]); done.
Qed.
End Views.

(** ** The contract

    What the configuration and the polling of neighbors have to promise; and the
    handlers of plugins leave the parameters of the statistics blocks alone. *)

Class RestContract `{HL : OvsLib, HD : SwitchDev, HP : Posix, HT : SwitchTypes} {A C : Type} {HR : RestOps A C} := {
  rest_ok : C → Prop;
  rest_fine : trip (env A) → Prop;
  rc_complete t st : rest_fine t → state_ok st → cfg_followed (tr_config t) st →
    served rest_ok (rest_complete t st (tr_config t));
  rc_neighbor t : rest_fine t → served rest_ok (rest_neighbor t);
}.

Class HandlersKeep {CB RB PW : Type} {HH : PluginHandlers CB RB PW} :=
  handlers_keep : StatsFacts.handlers_keep_parameters call_stats.

Section Contract.
Context `{HL : OvsLib, HD : SwitchDev, HP : Posix, HT : SwitchTypes}.
Context `{HMP : Mirror.MirrorProvider, HS : Status.StatusSchema}.
Context {A CB RB PW C : Type} {HH : PluginHandlers CB RB PW} {HR : RestOps A C}.
Context {HRC : RestContract} {HHK : HandlersKeep}.
Local Abbreviation parts := (parts A CB RB PW C).
Implicit Types (t : trip (env A)) (st : swst).

Definition parts_ok st (w : parts) : Prop :=
  SystemStatsFacts.coherent (p_collector w) ∧ structures_apart st ∧ rest_ok (p_rest w).

Definition parts_fine t : Prop := rows_apart (tr_config t) ∧ rest_fine t.

Lemma on_part_served {S} (ok : S → Prop) st (part : parts → S) set_part c :
  served ok c → (∀ w, parts_ok st w → ok (part w)) →
  (∀ x w, ok x → parts_ok st w → parts_ok st (set_part x w)) → served (parts_ok st) (on_part part set_part c).
Proof.
  intros Hc Hget Hset w Hw. destruct (Hc _ (Hget w Hw)) as (x & E & Hx). unfold on_part. rewrite E.
  eexists. split; [reflexivity|]. by apply Hset.
Qed.

Lemma on_collector_served st c : served SystemStatsFacts.coherent c → served (parts_ok st) (on_collector c).
Proof. intros Hc. eapply on_part_served; [exact Hc|by intros w []|]. intros x w Hx (_ & Ha & Hr). by split_and!. Qed.

Lemma on_rest_served st c : served rest_ok c → served (parts_ok st) (on_rest c).
Proof. intros Hc. eapply on_part_served; [exact Hc|by intros w (_ & _ & ?)|]. intros x w Hx (Hw & Ha & _). by split_and!. Qed.

(** Code that returns from any state. *)
Definition total {S} (c : M S unit) : Prop := ∀ s, ∃ s', c s = Ok (tt, s').

Lemma total_served {S} (c : M S unit) : total c → served (λ _, True) c.
Proof. intros Hc s _. destruct (Hc s) as (s' & E). by exists s'. Qed.

Lemma on_stats_served st c : total c → served (parts_ok st) (on_stats c).
Proof. intros Hc%total_served. by eapply on_part_served. Qed.

Lemma on_status_served st c : total c → served (parts_ok st) (on_status c).
Proof. intros Hc%total_served. by eapply on_part_served. Qed.

Lemma served_seq {S} (ok : S → Prop) c d : served ok c → served ok d → served ok (c ;; d).
Proof.
  intros Hc Hd w Hw. destruct (Hc w Hw) as (w1 & E1 & H1). destruct (Hd w1 H1) as (w2 & E2 & H2).
  exists w2. by step E1.
Qed.

Lemma served_for {S X} (ok : S → Prop) (l : list X) f : (∀ x, served ok (f x)) → served ok (mfor l f).
Proof. intros Hf. induction l as [|x l IH]; [intros w Hw; by exists w|]. by apply served_seq. Qed.

(** *** System statistics *)

Lemma enable_served b : served (SystemStatsFacts.coherent (A := A)) (SystemStats.Collector.system_stats_enable b).
Proof.
  intros w Hw. eexists. split; [apply SystemStatsFacts.system_stats_enable_run|].
  eapply SystemStatsFacts.coherent_enable; [done|apply SystemStatsFacts.system_stats_enable_run].
Qed.

Lemma reconfigure_served oc :
  served (SystemStatsFacts.coherent (A := A)) (SystemStats.Collector.reconfigure_system_stats oc).
Proof.
  intros w Hw. destruct (enable_served (SystemStats.Collector.enable_system_stats oc) w Hw) as (w1 & E1 & _).
  assert (∃ w', SystemStats.Collector.reconfigure_system_stats oc w = Ok (tt, w')) as [w' E].
  { unfold SystemStats.Collector.reconfigure_system_stats. step E1.
    destruct (SystemStats.Collector.enable_system_stats oc); by eexists. }
  exists w'. split; [done|]. by eapply SystemStatsFacts.coherent_reconfigure.
Qed.

Lemma taken_served has_cfg committed :
  served (SystemStatsFacts.coherent (A := A)) (SystemStats.Collector.run_system_stats has_cfg committed ;; mret tt).
Proof.
  intros w Hw. pose proof (SystemStatsFacts.run_system_stats_run has_cfg committed w Hw) as E.
  match type of E with _ = Ok ?r => destruct r as [x w'] end.
  exists w'. step E. split; [done|]. by eapply SystemStatsFacts.coherent_taken.
Qed.

Lemma thread_turn_served (x : A) : served SystemStatsFacts.coherent (thread_turn x).
Proof.
  intros w Hw. unfold thread_turn. step. destruct (SystemStats.Collector.pc w) as [| | | |y|] eqn:Epc.
  - by exists w.
  - eexists. split; [reflexivity|]. by eapply SystemStatsFacts.coherent_test.
  - by exists w.
  - eexists. split; [reflexivity|]. by apply SystemStatsFacts.coherent_moves; rewrite ?Epc.
  - eexists. split; [by apply SystemStatsFacts.thread_publish_run|].
    eapply SystemStatsFacts.coherent_publish; [done|exact Epc|by apply SystemStatsFacts.thread_publish_run].
  - eexists. split; [reflexivity|]. by apply SystemStatsFacts.coherent_moves; rewrite ?Epc.
Qed.

(** *** Statistics and status *)

Lemma refresh_new_stats_total (e : env A) l : total (refresh_new_stats (CB := CB) (PW := PW) e l).
Proof. intros b. destruct (refresh_new_stats_run e l b) as (b' & E & _). by exists b'. Qed.

Lemma refresh_new_status_total (e : env A) names st : structures_apart st → total (refresh_new_status e names st).
Proof. intros Ha s. destruct (refresh_new_status_run e names st s Ha) as (d & E). by eexists. Qed.

Lemma stats_view_devices (e : env A) (c : C) (bs : list bridge) (vs : list vrf) :
  StatsFacts.devices_ok (stats_bridge e c <$> bs) (stats_bridge e c ∘ up <$> vs).
Proof.
  intros i Hi _.
  assert (∃ f, i = stats_iface e f) as (f & ->); [|by eexists].
  assert (∀ b, i ∈ StatsFacts.port_ifaces (Stats.sb_ports (stats_bridge e c b)) → ∃ f, i = stats_iface e f) as H.
  { intros b (p & Hp & (q & -> & Hq)%list_elem_of_fmap)%list_elem_of_bind. simpl in Hp.
    apply list_elem_of_fmap in Hp as (f & -> & _). by exists f. }
  unfold StatsFacts.all_ifaces in Hi.
  apply elem_of_app in Hi as [(b & Hi & (x & -> & _)%list_elem_of_fmap)%list_elem_of_bind|
    (b & Hi & (x & -> & _)%list_elem_of_fmap)%list_elem_of_bind]; by eapply H.
Qed.

Lemma run_stats_served t st : served (parts_ok st) (World.run_stats_update t st).
Proof.
  intros w Hw. unfold World.run_stats_update. apply on_stats_served; [|done]. intros b.
  destruct (tr_cfg t) as [cfg|]; simpl; [|by exists b].
  destruct (StatsFacts.run_stats_update_runs_blocks call_stats (e_controller_info (tr_env t))
    (stats_bridge (tr_env t) (p_rest w) <$> members (all_bridges st))
    (stats_bridge (tr_env t) (p_rest w) ∘ up <$> members (all_vrfs st))
    (e_controllers (tr_env t)) (tr_seqno t) (dc_other_config cfg) (e_now (tr_env t)) (e_now' (tr_env t))
    (e_stats_commit (tr_env t)) b handlers_keep (stats_view_devices _ _ _ _)) as (l & b' & E & _).
  by exists b'.
Qed.

Lemma status_update_total (e : env A) st :
  structures_apart st →
  total (modify (status_view e st) ;;
         Status.run_status_update (e_devices e) (e_vlans e) (e_conn e) (e_status_commit e)).
Proof.
  intros Ha s. destruct (StatusFacts.start_update_returns (e_devices e) (e_vlans e) (e_conn e) (status_view e st s))
    as (s1 & E1); [intros i; by apply view_short|].
  step. unfold Status.run_status_update. step E1.
  destruct (Status.commit_status_update (e_status_commit e) s1) as [[[] s']|] eqn:E; [by exists s'|].
  by destruct s1 as [? ? ? ? [] ?], (e_status_commit e).
Qed.

Lemma run_status_served t st : served (parts_ok st) (World.run_status_update t st).
Proof. intros w Hw. apply on_status_served; [|done]. by apply status_update_total, Hw. Qed.

Lemma run_block_served t st : served (parts_ok st) (World.run_complete_block t).
Proof.
  intros w Hw. unfold World.run_complete_block. destruct (Blocks.RunBlocks.execute_run_block _ _ _ _ _) as [[[rc b] p] pw].
  eexists. split; [reflexivity|exact Hw].
Qed.

Lemma refresh_created_served t l st st' w :
  parts_fine t → state_ok st' → cfg_followed (tr_config t) st' → parts_ok st w →
  ∃ w', World.refresh_created t l st' w = Ok (tt, w') ∧ parts_ok st' w'.
Proof.
  intros [Ht _] Hs Hf (Hw & _ & Hr). assert (structures_apart st') as Ha by by eapply followed_apart.
  assert (served (parts_ok st') (World.refresh_created t l st')) as Hserved.
  { apply served_seq; [apply on_stats_served, refresh_new_stats_total|by apply on_status_served, refresh_new_status_total]. }
  by apply Hserved.
Qed.

#[export] Instance all_contract : Contract (env A) parts := {|
  world_ok := parts_ok;
  trip_fine := parts_fine;
  cr_destroyed _ _ _ Hn '(conj Hw (conj _ Hr)) := conj Hw (conj (nothing_apart _ Hn) Hr);
  cr_enable st b := on_collector_served st _ (enable_served b);
  cr_refresh := refresh_created_served;
  cr_reconfigure st m := on_collector_served st _ (reconfigure_served m);
  cr_complete t st Ht Hs Hf := on_rest_served st _ (rc_complete t st (proj2 Ht) Hs Hf);
  cr_again st := on_status_served st _ (λ s, ex_intro _ _ eq_refl);
  cr_stats t st _ _ := run_stats_served t st;
  cr_status t st _ _ := run_status_served t st;
  cr_system t st _ := on_collector_served st _ (served_seq _ _ _ (served_for _ _ _ thread_turn_served) (taken_served _ _));
  cr_neighbor t st Ht := on_rest_served st _ (rc_neighbor t (proj2 Ht));
  cr_block t st _ := run_block_served t st;
|}.
End Contract.
