(* ===== verification/WorldHistory.v ===== *)
(** * What reaches the database

    The daemon with its components from end to end: the statistics and the status
    of every interface that the database configures are written to its row. *)

From S2P Require Import Prelude OvsLib BridgePorts BridgePortsFacts BridgePortsReconf Lifecycle.
From S2P Require Import Reconfigure ReconfigureFacts MainLoop MainLoopFacts World WorldFacts.
From S2P Require Blocks Mirror Stats StatsFacts Status StatusFacts SystemStats SystemStatsFacts.
Local Open Scope Z_scope.

Section Components.
Context `{HL : OvsLib, HD : SwitchDev, HP : Posix, HT : SwitchTypes, HO : OfprotoDefaults}.
Context `{HMP : Mirror.MirrorProvider, HS : Status.StatusSchema}.
Context {A CB RB PW C : Type} {HH : PluginHandlers CB RB PW} {HR : RestOps A C}.
Local Abbreviation parts := (parts A CB RB PW C).
Implicit Types (t : trip (env A)) (st : swst).

(** ** Which component touches which part *)

Definition same_status (w w' : parts) : Prop := p_status w' = p_status w.
Definition same_stats (w w' : parts) : Prop := p_stats w' = p_stats w.
Definition same_rows (w w' : parts) : Prop := Stats.database (p_stats w') = Stats.database (p_stats w).

#[local] Instance same_status_preorder : PreOrder same_status.
Proof. split; [by intros ?|]. unfold same_status. intros ???. congruence. Qed.
#[local] Instance same_stats_preorder : PreOrder same_stats.
Proof. split; [by intros ?|]. unfold same_stats. intros ???. congruence. Qed.
#[local] Instance same_rows_preorder : PreOrder same_rows.
Proof. split; [by intros ?|]. unfold same_rows. intros ???. congruence. Qed.

Lemma on_part_keeps {S} (R : parts → parts → Prop) (part : parts → S) set_part c :
  (∀ x w, R w (set_part x w)) → keeps R (on_part part set_part c).
Proof. intros Hset w a w'. unfold on_part. destruct (c _) as [[[] x]|]; [|done]. by intros [= _ <-]. Qed.

Lemma on_collector_status c : keeps same_status (on_collector c).
Proof. by apply on_part_keeps. Qed.
Lemma on_stats_status c : keeps same_status (on_stats c).
Proof. by apply on_part_keeps. Qed.
Lemma on_rest_status c : keeps same_status (on_rest c).
Proof. by apply on_part_keeps. Qed.
Lemma run_stats_status t st : keeps same_status (World.run_stats_update t st).
Proof. intros w a w'. apply on_stats_status. Qed.
Lemma run_block_status t : keeps same_status (World.run_complete_block t).
Proof.
  intros w a w'. unfold World.run_complete_block.
  destruct (Blocks.RunBlocks.execute_run_block _ _ _ _ _) as [[[rc b] p] pw]. by intros [= _ <-].
Qed.

Lemma on_collector_stats c : keeps same_stats (on_collector c).
Proof. by apply on_part_keeps. Qed.
Lemma on_status_stats c : keeps same_stats (on_status c).
Proof. by apply on_part_keeps. Qed.
Lemma on_rest_stats c : keeps same_stats (on_rest c).
Proof. by apply on_part_keeps. Qed.

Lemma stats_rows (c : M parts unit) : keeps same_stats c → keeps same_rows c.
Proof. intros Hc w a w' E. unfold same_rows. by rewrite (Hc _ _ _ E). Qed.
Lemma run_block_rows t : keeps same_rows (World.run_complete_block t).
Proof.
  intros w a w'. unfold World.run_complete_block.
  destruct (Blocks.RunBlocks.execute_run_block _ _ _ _ _) as [[[rc b] p] pw]. by intros [= _ <-].
Qed.

(** ** The parts in one trip *)

Lemma run_reaches_status t st (w w' : parts) :
  components_run t st w = Ok (tt, w') →
  (modify (status_view (tr_env t) st) ;;
   Status.run_status_update (e_devices (tr_env t)) (e_vlans (tr_env t)) (e_conn (tr_env t))
     (e_status_commit (tr_env t))) (p_status w) = Ok (tt, p_status w').
Proof.
  intros ([] & w1 & E1%run_stats_status & ([] & w2 & E2 & E)%bind_Ok)%bind_Ok. unfold same_status in E1. rewrite <-E1.
  assert (p_status w' = p_status w2) as ->.
  { revert E. match goal with |- ?c _ = _ → _ => assert (keeps same_status c) as K; [|intros E; by apply K in E] end.
    repeat (apply keeps_bind; [apply _| |intros []]); try apply on_collector_status; try apply on_rest_status.
    apply run_block_status. }
  simpl in E2. unfold World.run_status_update, on_status, on_part in E2.
  match type of E2 with match ?x with _ => _ end = _ => destruct x as [[[] x1]|] eqn:Ex; [|done] end.
  by injection E2 as <-.
Qed.

Lemma changed_reaches_status t l st started (w w' : parts) :
  components_changed t l st started w = Ok (tt, w') →
  ∃ names s1, refresh_new_status (tr_env t) names st (p_status w) = Ok (tt, s1) ∧
    p_status w' = if started then Status.set_try_again true s1 else s1.
Proof.
  intros ([] & w1 & E1 & ([] & w2 & E2%on_collector_status & ([] & w3 & E3%on_rest_status & E)%bind_Ok)%bind_Ok)%bind_Ok.
  unfold same_status in *. apply bind_Ok in E1 as ([] & w0 & E0%on_stats_status & E1). unfold same_status in E0.
  unfold on_status, on_part in E1. rewrite E0 in E1.
  match type of E1 with match ?x with _ => _ end = _ => destruct x as [[[] s1]|] eqn:Ex; [|done] end.
  injection E1 as <-. eexists _, s1. split; [exact Ex|]. simpl in E2. destruct started.
  - injection E as <-. simpl. by rewrite E3, E2.
  - injection E as <-. by rewrite E3, E2.
Qed.

Lemma run_reaches_stats t st (w w' : parts) :
  components_run t st w = Ok (tt, w') →
  ∃ w1, World.run_stats_update t st w = Ok (tt, w1) ∧
    Stats.database (p_stats w') = Stats.database (p_stats w1).
Proof.
  intros ([] & w1 & E1 & E)%bind_Ok. exists w1. split; [exact E1|].
  revert E. match goal with |- ?c _ = _ → _ => assert (keeps same_rows c) as K; [|intros E; by apply K in E] end.
  repeat (apply keeps_bind; [apply _| |intros []]).
  - apply stats_rows, on_status_stats.
  - apply stats_rows, on_collector_stats.
  - apply stats_rows, on_rest_stats.
  - apply run_block_rows.
Qed.

Lemma changed_reaches_stats t l st started (w w' : parts) :
  components_changed t l st started w = Ok (tt, w') → same_timers (p_stats w) (p_stats w').
Proof.
  intros ([] & w1 & E1 & ([] & w2 & E2%on_collector_stats & ([] & w3 & E3%on_rest_stats & E)%bind_Ok)%bind_Ok)%bind_Ok.
  unfold same_stats in *. apply bind_Ok in E1 as ([] & w0 & E0 & E1%on_status_stats).
  assert (p_stats w' = p_stats w3) as -> by (destruct started; [by apply on_status_stats in E|by injection E as <-]).
  rewrite E3, E2, E1. unfold on_stats, on_part in E0.
  destruct (refresh_new_stats_run (tr_env t) (created l st) (p_stats w)) as (b & Eb & Hb). rewrite Eb in E0.
  by injection E0 as <-.
Qed.
End Components.

Section Daemon.
Context `{HL : OvsLib, HD : SwitchDev, HP : Posix, HT : SwitchTypes, HO : OfprotoDefaults}.
Context `{HMP : Mirror.MirrorProvider, HS : Status.StatusSchema}.
Context {A CB RB PW C : Type} {HH : PluginHandlers CB RB PW} {HR : RestOps A C}.
Context {HRC : RestContract} {HHK : HandlersKeep}.
Local Abbreviation parts := (parts A CB RB PW C).
Local Abbreviation mst := (mst parts).
Implicit Types (t : trip (env A)) (st : swst) (s : mst).

(** ** Statistics *)

(** The statistics that one run writes for the interfaces of the structures. *)
Lemma run_writes_statistics t st cfg (w : parts) x :
  state_ok st → structures_apart st → tr_cfg t = Some cfg →
  StatsFacts.due (dc_other_config cfg) (e_now (tr_env t)) (p_stats w) = true → Stats.stats_txn (p_stats w) = None →
  e_stats_commit (tr_env t) = TXN_SUCCESS → x ∈ owned_ifaces st → ir_synthetic (f_cfg x.2) = false →
  f_type x.2 ≠ "system" →
  ∃ w', World.run_stats_update t st w = Ok (tt, w') ∧
    Stats.if_statistics (Stats.database (p_stats w')) !! f_name x.2 =
      Some (Stats.iface_stats (e_statistics (tr_env t) (f_name x.2))).
Proof.
  intros Hs [Hnd _] Ec Hdue Htxn Hok Hx Hsyn Hty. unfold World.run_stats_update, on_stats, on_part. rewrite Ec, Hok.
  set (bs := stats_bridge (tr_env t) (p_rest w) <$> members (all_bridges st)).
  set (vs := stats_bridge (tr_env t) (p_rest w) ∘ up <$> members (all_vrfs st)).
  destruct (StatsFacts.run_success call_stats (e_controller_info (tr_env t)) bs vs (e_controllers (tr_env t))
    (tr_seqno t) (dc_other_config cfg) (e_now (tr_env t)) (e_now' (tr_env t)) (p_stats w) handlers_keep
    (stats_view_devices _ _ _ _) Hdue Htxn) as (b & E & _ & _ & Edb).
  cbn [fmap option_fmap option_map]. fold bs vs. rewrite E. eexists. split; [reflexivity|]. simpl. rewrite Edb.
  assert (StatsFacts.all_ifaces bs vs = stats_iface (tr_env t) <$> (owned_ifaces st).*2) as Eall.
  { unfold StatsFacts.all_ifaces, bs, vs, owned_ifaces, all_members.
    assert (∀ l : list bridge, ((stats_bridge (tr_env t) (p_rest w) <$> l) ≫= λ br, StatsFacts.port_ifaces (Stats.sb_ports br)) =
      stats_iface (tr_env t) <$> (l ≫= λ b, pair (b_name b) <$> bridge_ifaces b).*2) as H.
    { induction l as [|b0 l IH]; [done|]. csimpl. rewrite IH, !fmap_app. f_equal. rewrite <-!list_fmap_compose.
      unfold StatsFacts.port_ifaces, bridge_ifaces. simpl. induction (ports (b_ports b0)) as [|p ps IHp]; [done|].
      csimpl. by rewrite IHp, fmap_app. }
    rewrite list_fmap_compose, !H, bind_app, !fmap_app. done. }
  pose proof (StatsFacts.written_statistics (e_controller_info (tr_env t)) bs vs (e_controllers (tr_env t))
    (stats_iface (tr_env t) x.2) (Stats.database (p_stats w)) (stats_view_devices _ _ _ _)) as Hwr. simpl in Hwr.
  apply Hwr.
  - unfold StatsFacts.handled_ifaces. rewrite Eall. eapply sublist_NoDup; [|apply fmap_sublist, sublist_filter].
    rewrite <-!list_fmap_compose. exact Hnd.
  - unfold StatsFacts.handled_ifaces. rewrite Eall. apply list_elem_of_filter. split.
    + unfold StatsFacts.handled, Stats.stats_of_subsystem, stats_iface. simpl. rewrite Hsyn.
      by rewrite bool_decide_false.
    + by apply list_elem_of_fmap_2, list_elem_of_fmap_2.
Qed.

(** The configuration of the trip is followed at its end. *)
Definition follows_trip t s : Prop := tr_seqno t = idl_seqno s → cfg_followed (tr_config t) (sw s).

Lemma locked_trip t s :
  tr_contended t = false → tr_has_lock t = true → trip_ok t → daemon_ok s → follows_trip t s →
  ∃ s', bridge_run t s = Ok (tt, s') ∧ daemon_ok s' ∧ idl_seqno s' = tr_seqno t ∧ cfg_followed (tr_config t) (sw s').
Proof.
  intros Hc Hl Ht Hs Hf. destruct (bridge_run_locked t s Hc Hl Ht Hs) as (s' & E & H & I & F).
  exists s'. split; [done|]. split; [done|]. split; [done|].
  destruct (Z.eqb_spec (tr_seqno t) (idl_seqno s)) as [Eq|]; [|done]. rewrite F. by apply Hf.
Qed.

(** C7: statistics reach the database.  In a trip with the lock in which a
    collection is due and no transaction of an earlier one is in progress, and
    whose transaction succeeds, [bridge_run] returns and the row of every
    interface that the configuration wants in a bridge or VRF, whose switch and
    device work, that is neither made up by the daemon nor left to the
    subsystems, has the statistics of its device; also when the interface is
    created in that very trip. *)
Theorem statistics_reach_database t cfg s :
  tr_contended t = false → tr_has_lock t = true → tr_cfg t = Some cfg → trip_ok t → daemon_ok s → follows_trip t s →
  StatsFacts.due (dc_other_config cfg) (e_now (tr_env t)) (p_stats (world s)) = true →
  Stats.stats_txn (p_stats (world s)) = None → e_stats_commit (tr_env t) = TXN_SUCCESS →
  ∃ s', bridge_run t s = Ok (tt, s') ∧
    ∀ o c row, wants cfg o c row → switch_works o → device_works c row → ir_synthetic row = false →
      iface_get_type c row ≠ "system" →
      Stats.if_statistics (Stats.database (p_stats (world s'))) !! ir_name row =
        Some (Stats.iface_stats (e_statistics (tr_env t) (ir_name row))).
Proof.
  intros Hc Hl Ec Ht Hs Hf Hdue Htxn Hok.
  destruct (locked_trip t s Hc Hl Ht Hs Hf) as (s' & E & [H1 (_ & Ha & _)] & _ & Hfol). exists s'. split; [done|].
  assert (tr_config t = cfg) as Ecfg by (unfold tr_config; by rewrite Ec).
  intros o c row Hw Hsw Hdev Hsyn Hty. destruct Ht as [Hrows [Hr _]]. rewrite Ecfg in *.
  destruct (wanted_owned cfg (sw s') _ o c row Hr Hrows H1 Hfol Hw Hsw Hdev) as (x & Hx & _ & <- & Et & Er).
  pose proof (locked_reaches t s s' Hc Hl E) as Hreach.
  assert (∃ w, same_timers (p_stats (world s)) (p_stats w) ∧ components_run t (sw s') w = Ok (tt, world s')) as (w & Hw' & Erun).
  { destruct (tr_seqno t =? idl_seqno s).
    - destruct Hreach as (-> & _ & ?). by exists (world s).
    - destruct Hreach as (_ & l & ([] & w & Ech & ?)%bind_Ok). exists w. split; [|done].
      by eapply changed_reaches_stats. }
  destruct (run_reaches_stats _ _ _ _ Erun) as (w1 & E1 & ->).
  destruct (run_writes_statistics t (sw s') cfg w x) as (w2 & E2 & H2); try done.
  - destruct Hw' as (Ei & Eti & _). unfold StatsFacts.due, StatsFacts.timer_of in *. by rewrite Ei, Eti.
  - destruct Hw' as (_ & _ & Hi). apply eq_None_not_Some. rewrite Hi, Htxn. apply is_Some_None.
  - by rewrite Er.
  - by rewrite Et.
  - rewrite E1 in E2. by injection E2 as <-.
Qed.

(** ** Status

    The devices between two trips: the change number of a device that changes
    grows, and so does the connectivity sequence number. *)

Definition env_next (e e' : env A) : Prop :=
  (∀ n, e_devices e' n = e_devices e n ∨
     Status.na_change_seq (e_devices e n) < Status.na_change_seq (e_devices e' n)) ∧
  e_conn e ≤ e_conn e' ∧ ((∃ n, e_devices e' n ≠ e_devices e n) → e_conn e < e_conn e').

Lemma env_next_seq e e' n : env_next e e' →
  Status.na_change_seq (e_devices e n) ≤ Status.na_change_seq (e_devices e' n).
Proof. intros (Hd & _). destruct (Hd n) as [->|]; lia. Qed.

(** The bridges of the status component do not matter. *)
Lemma coherent_frame dv vls c p1 p2 :
  StatusFacts.coherent dv vls c p1 → Status.st_ifaces p2 = Status.st_ifaces p1 →
  Status.connectivity_seqno p2 = Status.connectivity_seqno p1 →
  Status.status_txn_try_again p2 = Status.status_txn_try_again p1 →
  Status.status_txn p2 = Status.status_txn p1 → Status.database p2 = Status.database p1 →
  StatusFacts.coherent dv vls c p2.
Proof.
  destruct p1, p2; simpl. intros [H1 H2 H3 H4 H5] -> -> -> -> ->. by constructor.
Qed.

Lemma coherent_next e e' vls p :
  env_next e e' → StatusFacts.coherent (e_devices e) vls (e_conn e) p →
  StatusFacts.coherent (e_devices e') vls (e_conn e') p.
Proof.
  intros Hn [Hnd Hseen Hc Hp Hconn]. pose proof Hn as (Hd & Hle & Hlt).
  constructor; [done| |lia| |].
  - intros i Hi. specialize (Hseen i Hi). pose proof (env_next_seq _ _ (Status.si_name i) Hn).
    unfold StatusFacts.seq_of in *. lia.
  - intros Hset i Hi Hk E. specialize (Hseen i Hi). unfold StatusFacts.seq_of in *.
    destruct (Hd (Status.si_name i)) as [Ed|Hgrow]; [|lia].
    rewrite Ed in E. rewrite (Hp Hset i Hi Hk E). unfold Status.columns_of. by rewrite Ed.
  - intros Hset Eq i Hi Hk. specialize (Hconn Hset). unfold StatusFacts.seq_of in *.
    destruct (Hd (Status.si_name i)) as [->|Hgrow]; [apply Hconn; [lia|done|done]|].
    assert (e_conn e < e_conn e'); [|lia]. apply Hlt. exists (Status.si_name i). intros Ed. rewrite Ed in Hgrow. lia.
Qed.

(** What was seen of the devices was there. *)
Record status_seen (e : env A) (p : Status.ststate) : Prop := StatusSeen {
  ss_positive : ∀ n, 0 ≤ Status.na_change_seq (e_devices e n);
  ss_conn : Status.connectivity_seqno p ≤ e_conn e;
  ss_seq : ∀ i, i ∈ Status.st_ifaces p → Status.si_change_seq i ≤ StatusFacts.seq_of (e_devices e) i;
}.

Lemma status_seen_next e e' p : env_next e e' → status_seen e p → status_seen e' p.
Proof.
  intros Hn [Hpos Hc Hs]. constructor.
  - intros n. specialize (Hpos n). pose proof (env_next_seq _ _ n Hn). lia.
  - destruct Hn as (_ & ? & _). lia.
  - intros i Hi. specialize (Hs i Hi). pose proof (env_next_seq _ _ (Status.si_name i) Hn).
    unfold StatusFacts.seq_of in *. lia.
Qed.

Lemma change_seq_seen e p n : status_seen e p → change_seq p n ≤ Status.na_change_seq (e_devices e n).
Proof.
  intros [Hpos _ Hs]. unfold change_seq. destruct (List.find _ _) as [i|] eqn:E; [|done].
  apply List.find_some in E as [Hi%list_elem_of_In <-%bool_decide_eq_true]. by apply Hs.
Qed.

(** The run of a trip, on the view of the structures. *)
Definition runs_status (e : env A) st (p p' : Status.ststate) : Prop :=
  Status.run_status_update (e_devices e) (e_vlans e) (e_conn e) (e_status_commit e) (status_view e st p) = Ok (tt, p').

Lemma status_run_seen e st p p' :
  structures_apart st → status_seen e p → runs_status e st p p' →
  status_seen e p' ∧ Forall2 same_iface (Status.st_ifaces p') (Status.st_ifaces (status_view e st p)).
Proof.
  intros Ha Hs E. set (v := status_view e st p) in *. unfold runs_status, Status.run_status_update in E.
  apply bind_Ok in E as ([] & s1 & E1%StatusFacts.start_status_update_ok & E2%StatusFacts.commit_run).
  assert (∀ i, i ∈ Status.st_ifaces v → Status.si_change_seq i ≤ StatusFacts.seq_of (e_devices e) i) as Hv.
  { intros i (f & -> & _)%list_elem_of_fmap. by apply change_seq_seen. }
  assert (Forall2 same_iface (Status.st_ifaces s1) (Status.st_ifaces v) ∧ Status.connectivity_seqno s1 ≤ e_conn e ∧
    ∀ i, i ∈ Status.st_ifaces s1 → Status.si_change_seq i ≤ StatusFacts.seq_of (e_devices e) i) as (H1 & Hc1 & Hs1).
  { rewrite E1. fold v. destruct (StatusFacts.starts _ _); simpl.
    - split; [apply Forall2_fmap_l, Forall_Forall2_diag, Forall_true; intros i; apply refreshed_same|].
      split; [done|]. intros i (j & -> & Hj)%list_elem_of_fmap. unfold StatusFacts.seq_of.
      rewrite StatusFacts.refreshed_name. by apply StatusFacts.refreshed_seq_le, Hv.
    - split; [by apply Forall_Forall2_diag, Forall_true|]. split; [apply Hs|exact Hv]. }
  assert (Status.st_ifaces p' = Status.st_ifaces s1 ∧ Status.connectivity_seqno p' = Status.connectivity_seqno s1)
    as [Ei Ec] by (rewrite E2; destruct (Status.status_txn s1); [by case_bool_decide|done]).
  split; [|by rewrite Ei]. constructor; [apply Hs|by rewrite Ec|by rewrite Ei].
Qed.

(** The rows of [m] are those of the devices [e], for the interfaces of the
    component, or of the structures; those left to the subsystems do not matter. *)
Definition columns_in (e : env A) (p : Status.ststate) (m : gmap string Status.status_columns) : Prop :=
  ∀ i, i ∈ Status.st_ifaces p → Status.status_skipped i = false →
    m !! Status.si_name i = Some (Status.columns_of (e_devices e) (e_vlans e) i).

Definition iface_status (n type : string) (synthetic : bool) : Status.st_iface :=
  Status.StIface n (Some type) synthetic 0.
Definition rows_show (m : gmap string Status.status_columns) (e : env A) s : Prop :=
  ∀ x, x ∈ owned_ifaces (sw s) →
    let i := iface_status (f_name x.2) (f_type x.2) (ir_synthetic (f_cfg x.2)) in
    Status.status_skipped i = false → m !! f_name x.2 = Some (Status.columns_of (e_devices e) (e_vlans e) i).

Definition rows_of s : gmap string Status.status_columns :=
  Status.interfaces (Status.database (p_status (world s))).
Definition pending_rows s : gmap string Status.status_columns := StatusFacts.pending (p_status (world s)).

Lemma columns_rows e (e0 : env A) s p m :
  Forall2 same_iface (Status.st_ifaces (p_status (world s))) (Status.st_ifaces (status_view e0 (sw s) p)) →
  columns_in e (p_status (world s)) m → rows_show m e s.
Proof.
  intros HF Hup x Hx i Hk.
  assert (status_iface p x.2 ∈ Status.st_ifaces (status_view e0 (sw s) p)) as [k Hin]%list_elem_of_lookup
    by by apply list_elem_of_fmap_2, list_elem_of_fmap_2.
  destruct (Forall2_lookup_r _ _ _ _ _ HF Hin) as (j & Hj%list_elem_of_lookup_2 & En & Et & Es). simpl in En, Et, Es.
  specialize (Hup j Hj). destruct j as [n ty y q]. simpl in *. subst. by apply Hup.
Qed.

(** A transaction is left only by a commit that is incomplete. *)
Lemma status_run_left e st p p' :
  runs_status e st p p' → is_Some (Status.status_txn p') → e_status_commit e = TXN_INCOMPLETE.
Proof.
  unfold runs_status, Status.run_status_update. intros ([] & s1 & _ & ->%StatusFacts.commit_run)%bind_Ok. destruct (Status.status_txn s1) eqn:Et.
  - case_bool_decide; [done|]. by intros [? [=]].
  - rewrite Et. by intros [? [=]].
Qed.

(** The run while a transaction is in progress: it goes on, or its writes are
    those of the database. *)
Lemma status_run_progress e st p p' :
  runs_status e st p p' → is_Some (Status.status_txn p) →
  (e_status_commit e = TXN_SUCCESS → Status.interfaces (Status.database p') = StatusFacts.pending p) ∧
  (is_Some (Status.status_txn p') → StatusFacts.pending p' = StatusFacts.pending p).
Proof.
  unfold runs_status, Status.run_status_update.
  intros ([] & s1 & E1%StatusFacts.start_status_update_ok & E2%StatusFacts.commit_run)%bind_Ok [w Ew].
  unfold StatusFacts.starts in E1. simpl in E1. rewrite Ew in E1. simpl in E1. subst s1. rewrite E2. simpl. rewrite Ew.
  unfold StatusFacts.pending. rewrite Ew. split.
  - intros ->. done.
  - case_bool_decide; [by simpl; rewrite Ew|]. by intros [? [=]].
Qed.

(** The run on a status component that knows the interfaces; what the
    transaction that it starts writes. *)
Lemma status_run_step e st p p' :
  structures_apart st → status_seen e p →
  StatusFacts.coherent (e_devices e) (e_vlans e) (e_conn e) (status_view e st p) → runs_status e st p p' →
  StatusFacts.coherent (e_devices e) (e_vlans e) (e_conn e) (status_view e st p') ∧
  (Status.status_txn p = None →
   (e_status_commit e = TXN_SUCCESS → columns_in e p' (Status.interfaces (Status.database p'))) ∧
   (is_Some (Status.status_txn p') → columns_in e p' (StatusFacts.pending p'))).
Proof.
  intros Ha Hs Hco E. destruct (status_run_seen e st p p' Ha Hs E) as [Hs' HF].
  assert (StatusFacts.coherent (e_devices e) (e_vlans e) (e_conn e) p') as Hco' by by eapply StatusFacts.coherent_run.
  split; [apply (coherent_frame _ _ _ p'); try done; by apply (view_same e e st p p')|]. intros Et. split.
  - intros Hok. unfold runs_status in E. rewrite Hok in E.
    destruct (StatusFacts.successful_run _ _ _ (status_view e st p) Hco) as (s' & E' & _ & _ & Et' & Ea' & Ec');
      [intros i; by apply view_short|].
    rewrite E in E'. injection E' as <-.
    apply (StatusFacts.quiet_up_to_date (StatusFacts.System p' (e_devices e) (e_conn e) (e_vlans e))); [exact Hco'|].
    split_and!; [done|done|]. by apply Ec'.
  - intros Hsome. assert (Status.connectivity_seqno p' = e_conn e) as Ec.
    { unfold runs_status, Status.run_status_update in E.
      apply bind_Ok in E as ([] & s1 & E1%StatusFacts.start_status_update_ok & E2%StatusFacts.commit_run).
      destruct (StatusFacts.starts _ _).
      - rewrite E2, E1. simpl. by case_bool_decide.
      - subst s1. simpl in E2. rewrite Et in E2. subst p'. simpl in Hsome. rewrite Et in Hsome. by destruct Hsome. }
    intros i Hi Hk. apply Hco'; [by left|done|done|]. apply Hco'; [by left|done..].
Qed.

(** A reconfiguration; after one of a started daemon everything is written again. *)
Lemma status_refresh_step e st names p p1 :
  structures_apart st → status_seen e p → refresh_new_status e names st p = Ok (tt, p1) →
  Status.status_txn p1 = Status.status_txn p ∧
  status_seen e p1 ∧ status_seen e (Status.set_try_again true p1) ∧
  (Status.status_txn p = None →
   StatusFacts.coherent (e_devices e) (e_vlans e) (e_conn e) (status_view e st (Status.set_try_again true p1))).
Proof.
  intros Ha Hs E. destruct (refresh_new_status_run e names st p Ha) as (d & E'). rewrite E in E'. injection E' as ->.
  set (l := renewed e names (Status.status_txn_try_again p) <$> Status.st_ifaces (status_view e st p)).
  assert (∀ i, i ∈ l → Status.si_change_seq i ≤ StatusFacts.seq_of (e_devices e) i) as Hl.
  { intros i (j & -> & (f & -> & _)%list_elem_of_fmap)%list_elem_of_fmap. pose proof (ss_positive _ _ Hs (f_name f)).
    unfold StatusFacts.seq_of. rewrite (proj1 (renewed_same _ _ _ _)). unfold renewed. case_bool_decide.
    - apply StatusFacts.refreshed_seq_le. simpl. done.
    - by apply change_seq_seen. }
  split; [done|]. split; [constructor; [apply Hs|apply Hs|exact Hl]|].
  split; [constructor; [apply Hs|apply Hs|exact Hl]|]. intros Et.
  set (p1 := Status.set_try_again _ _). assert (Status.st_ifaces (status_view e st p1) = l) as Hv.
  { apply (view_same e e st p); [done|]. simpl. apply Forall2_fmap_l, Forall_Forall2_diag, Forall_true.
    intros i. apply renewed_same. }
  assert (¬ StatusFacts.settled p1) as Hns.
  { unfold p1, StatusFacts.settled. simpl. rewrite Et. intros [[? [=]]|[=]]. }
  constructor; [|by rewrite Hv|apply Hs|intros H; by destruct Hns|intros H; by destruct Hns].
  rewrite view_names. apply Ha.
Qed.

(** The daemon is started, and its status component knows the interfaces. *)
Record status_current (e : env A) s : Prop := StatusCurrent {
  sc_seen : status_seen e (p_status (world s));
  sc_coherent : StatusFacts.coherent (e_devices e) (e_vlans e) (e_conn e) (status_view e (sw s) (p_status (world s)));
}.

Definition txn_of s : option Status.rows := Status.status_txn (p_status (world s)).

(** One trip with the lock, also one that starts the daemon. *)
Lemma seen_trip e t s s' :
  tr_contended t = false → tr_has_lock t = true → bridge_run t s = Ok (tt, s') → daemon_ok s' →
  env_next e (tr_env t) → status_seen e (p_status (world s)) →
  status_seen (tr_env t) (p_status (world s')).
Proof.
  intros Hc Hl E H' Hn Hseen%(status_seen_next _ (tr_env t)); [|done].
  pose proof (locked_reaches t s s' Hc Hl E) as Hreach.
  assert (∃ w, components_run t (sw s') w = Ok (tt, world s') ∧ status_seen (tr_env t) (p_status w)) as (w & Erun & Hw).
  { destruct (tr_seqno t =? idl_seqno s).
    - destruct Hreach as (-> & _ & ?). by exists (world s).
    - destruct Hreach as (_ & l & ([] & w & Ech & ?)%bind_Ok). exists w. split; [done|].
      destruct (changed_reaches_status _ _ _ _ _ _ Ech) as (names & p1 & E1 & ->).
      destruct (status_refresh_step (tr_env t) (sw s') names (p_status (world s)) p1) as (_ & H1 & H2 & _);
        [apply H'|done|done|]. by destruct (initial_config_done s). }
  pose proof (run_reaches_status _ _ _ _ Erun) as Est. apply bind_Ok in Est as ([] & v & [= <-] & Est).
  eapply status_run_seen; [apply H'|exact Hw|exact Est].
Qed.

(** What a trip does to the rows: with no transaction in progress before, a
    transaction of this trip writes the status of its devices; else the one in
    progress goes on. *)
Definition rows_advance t s s' : Prop :=
  match txn_of s with
  | None => (e_status_commit (tr_env t) = TXN_SUCCESS → rows_show (rows_of s') (tr_env t) s') ∧
            (is_Some (txn_of s') → rows_show (pending_rows s') (tr_env t) s')
  | Some _ => sw s' = sw s ∧ (e_status_commit (tr_env t) = TXN_SUCCESS → rows_of s' = pending_rows s) ∧
              (is_Some (txn_of s') → pending_rows s' = pending_rows s)
  end.

(** The component when its run begins. *)
Lemma status_before_run e t s s' :
  tr_contended t = false → tr_has_lock t = true → bridge_run t s = Ok (tt, s') → daemon_ok s' →
  initial_config_done s = true → env_next e (tr_env t) → status_seen e (p_status (world s)) →
  (tr_seqno t = idl_seqno s → e_vlans (tr_env t) = e_vlans e ∧ status_current e s) →
  (tr_seqno t ≠ idl_seqno s → txn_of s = None) →
  initial_config_done s' = true ∧ ∃ p, runs_status (tr_env t) (sw s') p (p_status (world s')) ∧
    status_seen (tr_env t) p ∧ Status.status_txn p = txn_of s ∧
    (is_Some (txn_of s) → sw s' = sw s ∧ p = p_status (world s)) ∧
    StatusFacts.coherent (e_devices (tr_env t)) (e_vlans (tr_env t)) (e_conn (tr_env t)) (status_view (tr_env t) (sw s') p).
Proof.
  intros Hc Hl E H' Hi Hn Hseen Hcur Hbusy. set (e' := tr_env t) in *.
  pose proof (locked_reaches t s s' Hc Hl E) as Hreach. apply (status_seen_next _ e') in Hseen; [|done].
  destruct (Z.eqb_spec (tr_seqno t) (idl_seqno s)) as [Eq|Hne].
  - destruct Hreach as (Esw & -> & Erun). split; [done|]. exists (p_status (world s)).
    pose proof (run_reaches_status _ _ _ _ Erun) as Est. apply bind_Ok in Est as ([] & v & [= <-] & Est).
    rewrite Esw. split; [exact Est|]. split; [done|]. split; [done|]. split; [done|].
    destruct (Hcur Eq) as (Ev & [_ Hco]). rewrite Ev. apply (coherent_next e e'); [done|].
    by apply (coherent_frame _ _ _ _ _ Hco).
  - destruct Hreach as (-> & l & ([] & w & Ech & Erun)%bind_Ok). split; [done|].
    destruct (changed_reaches_status _ _ _ _ _ _ Ech) as (names & p1 & E1 & Ep). rewrite Hi in Ep.
    destruct (status_refresh_step e' (sw s') names (p_status (world s)) p1) as (Et & _ & Hs1 & Hco1); [apply H'|done|done|].
    pose proof (run_reaches_status _ _ _ _ Erun) as Est. apply bind_Ok in Est as ([] & v & [= <-] & Est).
    rewrite Ep in Est. exists (Status.set_try_again true p1). split; [exact Est|]. split; [done|].
    split; [exact Et|]. rewrite (Hbusy Hne). split; [by intros [? [=]]|]. by apply Hco1, Hbusy.
Qed.

(** One trip with the lock: everything is known afterwards if it was before or if
    the database changed. *)
Lemma status_trip e t s :
  tr_contended t = false → tr_has_lock t = true → trip_ok t → daemon_ok s → initial_config_done s = true →
  env_next e (tr_env t) → status_seen e (p_status (world s)) →
  (tr_seqno t = idl_seqno s → e_vlans (tr_env t) = e_vlans e ∧ status_current e s) →
  (tr_seqno t ≠ idl_seqno s → txn_of s = None) →
  ∃ s', bridge_run t s = Ok (tt, s') ∧ daemon_ok s' ∧ idl_seqno s' = tr_seqno t ∧ initial_config_done s' = true ∧
    status_current (tr_env t) s' ∧ (is_Some (txn_of s') → e_status_commit (tr_env t) = TXN_INCOMPLETE) ∧
    rows_advance t s s'.
Proof.
  intros Hc Hl Ht Hs Hi Hn Hseen Hcur Hbusy. destruct (bridge_run_locked t s Hc Hl Ht Hs) as (s' & E & H' & I' & _).
  exists s'. split; [done|]. split; [done|]. split; [done|].
  destruct (status_before_run e t s s' Hc Hl E H' Hi Hn Hseen Hcur Hbusy) as (Hi' & p & Est & Hp & Et & Hsame & Hco).
  split; [done|]. destruct H' as [_ (_ & Ha & _)].
  destruct (status_run_seen _ _ _ _ Ha Hp Est) as [Hs' HF].
  destruct (status_run_step _ _ _ _ Ha Hp Hco Est) as [Hc1 Hup]. split; [by split|].
  split; [by apply (status_run_left _ _ _ _ Est)|]. unfold rows_advance. rewrite Et in Hup.
  destruct (txn_of s) as [w|] eqn:Ew.
  - destruct Hsame as [Esw ->]; [done|]. split; [done|]. apply (status_run_progress _ _ _ _ Est). by rewrite Et.
  - destruct (Hup eq_refl) as [H1 H2]. split; intros H; (eapply columns_rows; [exact HF|]); auto.
Qed.

(** A trip with the lock. *)
Definition locked t : Prop := tr_contended t = false ∧ tr_has_lock t = true.

(** The trips with the lock as the devices see them: they change between the
    trips, the VLANs only with the database, and the database is not configured
    anew while a status transaction is in progress, that is after a trip whose
    commit was incomplete. *)
Fixpoint tracked (busy : bool) (e : env A) (seen : Z) (ts : list (trip (env A))) : Prop :=
  match ts with
  | [] => True
  | t :: ts' =>
    if tr_contended t || negb (tr_has_lock t) then tracked busy e seen ts'
    else env_next e (tr_env t) ∧ (tr_seqno t = seen → e_vlans (tr_env t) = e_vlans e) ∧
         (tr_seqno t ≠ seen → busy = false) ∧
         tracked (bool_decide (e_status_commit (tr_env t) = TXN_INCOMPLETE)) (tr_env t) (tr_seqno t) ts'
  end.

(** A transaction that trip [u] started can be in progress after the trips [ts]:
    all commits since were incomplete. *)
Definition in_flight (ts : list (trip (env A))) (u : trip (env A)) : Prop :=
  ∃ pre mid, ts = pre ++ u :: mid ∧ locked u ∧
    ∀ x, x ∈ u :: mid → locked x → e_status_commit (tr_env x) = TXN_INCOMPLETE.

Lemma in_flight_snoc ts t u :
  in_flight ts u → (locked t → e_status_commit (tr_env t) = TXN_INCOMPLETE) → in_flight (ts ++ [t]) u.
Proof.
  intros (pre & mid & -> & Hu & Hall) Ht. exists pre, (mid ++ [t]). split; [by rewrite <-app_assoc|]. split; [done|].
  intros x. rewrite app_comm_cons, elem_of_app, list_elem_of_singleton. intros [?| ->]; auto.
Qed.

Lemma in_flight_last ts t : locked t → e_status_commit (tr_env t) = TXN_INCOMPLETE → in_flight (ts ++ [t]) t.
Proof. intros Ht Hi. exists ts, []. split; [done|]. split; [done|]. by intros x ->%list_elem_of_singleton. Qed.

(** The transaction in progress after the trips [pre], and what it writes. *)
Definition flying (busy : bool) (pre : list (trip (env A))) s : Prop :=
  is_Some (txn_of s) → busy = true ∧ ∃ u, in_flight pre u ∧ rows_show (pending_rows s) (tr_env u) s.

(** The rows show the devices of the trip that started the last transaction. *)
Definition rows_written (pre : list (trip (env A))) t s : Prop :=
  locked t → e_status_commit (tr_env t) = TXN_SUCCESS →
  ∃ u, (u = t ∨ in_flight pre u) ∧ rows_show (rows_of s) (tr_env u) s.

Lemma flying_next busy pre t s s' :
  locked t → flying busy pre s → (is_Some (txn_of s') → e_status_commit (tr_env t) = TXN_INCOMPLETE) →
  rows_advance t s s' →
  flying (bool_decide (e_status_commit (tr_env t) = TXN_INCOMPLETE)) (pre ++ [t]) s' ∧ rows_written pre t s'.
Proof.
  intros Hl Hf Hleft Hadv. unfold rows_advance in Hadv. unfold flying in Hf. destruct (txn_of s) as [w|].
  - destruct Hf as (_ & u & Hu & Hshow); [done|]. destruct Hadv as (Esw & Hok & Hgo). unfold rows_show in Hshow. split.
    + intros Hsome. specialize (Hleft Hsome). rewrite bool_decide_true by done. split; [done|].
      exists u. split; [by apply in_flight_snoc|]. unfold rows_show. by rewrite Esw, Hgo.
    + intros _ Hs. exists u. split; [by right|]. unfold rows_show. by rewrite Esw, Hok.
  - destruct Hadv as [Hok Hgo]. split.
    + intros Hsome. specialize (Hleft Hsome). rewrite bool_decide_true by done. split; [done|].
      exists t. split; [by apply in_flight_last|]. by apply Hgo.
    + intros _ Hs. exists t. split; [by left|]. by apply Hok.
Qed.

(** Another process has the lock. *)
Lemma status_contended e t s s' :
  tr_contended t = true → daemon_ok s → bridge_run t s = Ok (tt, s') → status_current e s →
  status_current e s' ∧ idl_seqno s' = idl_seqno s ∧ initial_config_done s' = initial_config_done s ∧
  txn_of s' = txn_of s ∧ owned_ifaces (sw s') = [].
Proof.
  intros Hc Hs E [Hseen Hco]. pose proof (nothing_without_lock t s s' (proj1 Hs) (or_intror Hc) E) as Hn.
  rewrite Hc in Hn. destruct Hn as ([Eb Ev] & Hen & _ & Hi & _ & _ & Hd & _).
  assert (p_status (world s') = p_status (world s)) as Ep by exact (on_collector_status _ _ _ _ Hen).
  assert (owned_ifaces (sw s') = []) as Eo by (unfold owned_ifaces, all_members; by rewrite Eb, Ev).
  split; [|split; [done|split; [done|split; [unfold txn_of; by rewrite Ep|done]]]].
  rewrite <-Ep in Hseen, Hco. split; [done|]. constructor; simpl; rewrite ?Eo; simpl.
  - constructor.
  - by intros i ?%elem_of_nil.
  - apply Hseen.
  - by intros _ i ?%elem_of_nil.
  - by intros _ _ i ?%elem_of_nil.
Qed.

Lemma flying_unlocked busy pre t s s' :
  ¬ locked t → flying busy pre s → txn_of s' = txn_of s → s' = s ∨ owned_ifaces (sw s') = [] →
  flying busy (pre ++ [t]) s'.
Proof.
  intros Hl Hf Et Hs. unfold flying. rewrite Et. intros Hsome. destruct (Hf Hsome) as (Hb & u & Hu & Hshow).
  split; [done|]. exists u. split; [by apply in_flight_snoc|]. destruct Hs as [->|Eo]; [done|].
  intros x. rewrite Eo. by intros ?%elem_of_nil.
Qed.

Lemma status_step busy e pre t ts s :
  trip_ok t → daemon_ok s → initial_config_done s = true → tracked busy e (idl_seqno s) (t :: ts) →
  status_current e s → flying busy pre s →
  ∃ busy1 e1 s1, bridge_run t s = Ok (tt, s1) ∧ daemon_ok s1 ∧ initial_config_done s1 = true ∧
    tracked busy1 e1 (idl_seqno s1) ts ∧ status_current e1 s1 ∧ flying busy1 (pre ++ [t]) s1 ∧ rows_written pre t s1.
Proof.
  intros Ht Hs Hi Htr Hcur Hf. simpl in Htr. destruct (tr_contended t) eqn:Hc; simpl in Htr.
  { assert (¬ locked t) as Hnl by (intros [? _]; congruence).
    destruct (bridge_run_ok t s Ht Hs) as (s1 & E1 & H1).
    destruct (status_contended e t s s1 Hc Hs E1 Hcur) as (Hcur1 & I1 & D1 & Et & Eo). exists busy, e, s1.
    rewrite I1, D1. split_and!; try done; [apply (flying_unlocked busy pre t s); auto|by intros ?%Hnl]. }
  destruct (tr_has_lock t) eqn:Hl; simpl in Htr.
  2:{ assert (¬ locked t) as Hnl by (intros [_ ?]; congruence).
      exists busy, e, s. unfold bridge_run. rewrite Hc, Hl. split_and!; try done;
      [apply (flying_unlocked busy pre t s); auto|by intros ?%Hnl]. }
  destruct Htr as (Hn & Hv & Hb & Htr).
  destruct (status_trip e t s Hc Hl Ht Hs Hi Hn) as (s1 & E1 & H1 & I1 & D1 & Hcur1 & Hleft & Hadv);
    [apply Hcur|intros Eq; split; [by apply Hv|done]| |].
  { intros Hne. apply eq_None_not_Some. intros Hsome. destruct (Hf Hsome) as [Hbt _]. by rewrite (Hb Hne) in Hbt. }
  destruct (flying_next busy pre t s s1 (conj Hc Hl) Hf Hleft Hadv) as [Hf1 Hw].
  eexists _, (tr_env t), s1. rewrite I1. by split_and!.
Qed.

Lemma status_history ts busy e pre s :
  Forall trip_ok ts → daemon_ok s → initial_config_done s = true → tracked busy e (idl_seqno s) ts →
  status_current e s → flying busy pre s →
  ∃ s', mfor ts bridge_run s = Ok (tt, s') ∧ ∀ before t, ts = before ++ [t] → rows_written (pre ++ before) t s'.
Proof.
  intros Hts. revert busy e pre s. induction Hts as [|t ts Ht Hts IH]; intros busy e pre s Hs Hi Htr Hcur Hf.
  { exists s. split; [done|]. intros before t E. by destruct before. }
  destruct (status_step busy e pre t ts s) as (busy1 & e1 & s1 & E1 & H1 & Hi1 & Htr1 & Hcur1 & Hf1 & Hw); [done..|].
  destruct (IH busy1 e1 (pre ++ [t]) s1 H1 Hi1 Htr1 Hcur1 Hf1) as (s' & E' & Hlast). exists s'. cbn [mfor]. step E1.
  split; [done|]. intros [|t' before] u Eu; simplify_eq/=.
  - rewrite app_nil_r. by injection E' as <-.
  - specialize (Hlast before u eq_refl). by rewrite <-app_assoc in Hlast.
Qed.

(** C6: status reaches the database.  Take any state of a started daemon in which
    no status transaction is in progress, and any history that begins with a
    reconfiguration, in which devices change, the database changes, the lock is
    lost and comes back, and status transactions fail or stay incomplete over
    several trips.  After a trip [t] with the lock whose status transaction
    succeeds, the row of every interface that the configuration wants in a
    bridge or VRF, whose switch and device work and that is not left to the
    subsystems, has the status that its device had when the transaction was
    started: in [t] itself, or in an earlier trip [u] with only incomplete commits
    since.  What transactions failed before does not matter.  Histories in
    which the database is reconfigured while a status transaction is in progress
    are excluded: the code loses status then ([lost_reconfiguration_not_rewritten]). *)
Theorem status_reaches_database contents e t0 ts before t s :
  daemon_ok s → initial_config_done s = true → status_seen e (p_status (world s)) → txn_of s = None →
  history contents true (idl_seqno s) (t0 :: ts) → tracked false e (idl_seqno s) (t0 :: ts) → locked t0 →
  t0 :: ts = before ++ [t] → locked t → e_status_commit (tr_env t) = TXN_SUCCESS →
  ∃ s' u, mfor (t0 :: ts) bridge_run s = Ok (tt, s') ∧ (u = t ∨ in_flight before u) ∧
    ∀ o c row, wants (contents (tr_seqno t)) o c row → switch_works o → device_works c row →
      let i := iface_status (ir_name row) (iface_get_type c row) (ir_synthetic row) in
      Status.status_skipped i = false →
      Status.interfaces (Status.database (p_status (world s'))) !! ir_name row =
        Some (Status.columns_of (e_devices (tr_env u)) (e_vlans (tr_env u)) i).
Proof.
  intros Hs Hi Hseen Htxn Hh Htr Hl0 Elast Hl Hok. pose proof (history_trips _ _ _ _ Hh) as Hts.
  assert (Forall trip_ok (t0 :: ts)) as Hoks by (eapply Forall_impl; [exact Hts|by intros x []]).
  assert (trip_ok t ∧ tr_config t = contents (tr_seqno t)) as [Ht Ec].
  { eapply Forall_forall in Hts; [|rewrite Elast; apply elem_of_app; right; left].
    destruct Hts as [? Hcfg]. split; [done|]. by destruct Hl; apply Hcfg. }
  destruct (history_run contents (t0 :: ts) true s Hh Hs) as (s' & E & [H1 (_ & Ha & _)] & Hfol); [done|].
  destruct Hl as [Hc Hl], (Hfol before t Elast Hc Hl) as [_ Hfollow].
  assert (∃ u, (u = t ∨ in_flight before u) ∧ rows_show (rows_of s') (tr_env u) s') as (u & Hu & Hup).
  { pose proof Hh as Hh'. simpl in Hh', Htr. destruct Hl0 as [Hc0 Hl0]. rewrite Hc0, Hl0 in Hh', Htr.
    destruct Hh' as (_ & _ & Hne & _), Htr as (Hn & _ & _ & Htr). apply Forall_cons in Hoks as [Ht0 Hoks].
    destruct (status_trip e t0 s Hc0 Hl0 Ht0 Hs Hi Hn Hseen) as (s1 & E1 & H1' & I1 & D1 & Hcur1 & Hleft & Hadv);
      [intros Eq; by destruct (Hne eq_refl)|done|].
    destruct (flying_next false [] t0 s s1) as [Hf1 Hw1]; [done| |done..|].
    { intros Hsome. rewrite Htxn in Hsome. by destruct Hsome. }
    rewrite <-I1 in Htr. destruct (status_history ts _ (tr_env t0) [t0] s1 Hoks H1' D1 Htr Hcur1 Hf1) as (s2 & E2 & Hup2).
    cbn [mfor] in E. rewrite (bind_run _ _ _ _ _ E1), E2 in E. injection E as <-.
    destruct before as [|t1 before]; simplify_eq/=; [by injection E2 as <-; apply Hw1|]. by apply (Hup2 before t). }
  exists s', u. split; [done|]. split; [done|]. intros o c row Hw Hsw Hdev i Hk. destruct Ht as [Hrows [Hr _]]. rewrite Ec in *.
  destruct (wanted_owned _ (sw s') _ o c row Hr Hrows H1 Hfollow Hw Hsw Hdev) as (x & Hx & _ & En & Et & Er).
  specialize (Hup x Hx). simpl in Hup. rewrite En, Et, Er in Hup. by apply Hup.
Qed.
End Daemon.

(** ** Examples *)

Module WorldExample.
#[export] Existing Instances ref_lib ref_posix BridgePortsReconf.PortsExample.dev LifecycleExample.types.
#[export] Existing Instances StatusFacts.StatusExample.schema StatsFacts.StatsExample.mirrors_count.

#[export] Instance defaults : OfprotoDefaults := {| OFPROTO_FLOW_LIMIT_DEFAULT := 200000; OFPROTO_MAX_IDLE_DEFAULT := 10000 |}.

(** Handlers that log their block; nothing else. *)
#[export] Instance handlers : PluginHandlers nat nat (list (nat * Z)) := {|
  call_stats := StatsFacts.StatsExample.handler;
  call_run n p w := (p, w ++ [(n, 100)]);
|}.
#[export] Instance handlers_kept : HandlersKeep.
Proof. intros cb p id w. reflexivity. Defined.

#[export] Instance nothing_else : RestOps nat unit := {|
  rest_complete _ _ _ := mret tt;
  rest_neighbor _ := mret tt;
  rest_mirrors _ _ := Mirror.MiSt [] ∅ [];
|}.
#[export] Instance nothing_else_contract : RestContract := {|
  rest_ok _ := True;
  rest_fine _ := True;
  rc_complete _ _ _ _ _ w Hw := ex_intro _ w (conj eq_refl Hw);
  rc_neighbor _ _ w Hw := ex_intro _ w (conj eq_refl Hw);
|}.

(** A bridge with a physical and a VLAN interface, and a VRF with another. *)
Definition if_row (u : Z) (n type : string) : ovsrec_interface := IfaceRow u n type ∅ None ∅ None false.
Definition br_row : ovsrec_bridge :=
  BridgeRow "bridge_normal" "" [PortRow "1" [if_row 1 "1" "system"]; PortRow "vlan10" [if_row 2 "vlan10" "internal"]] [].
Definition vrf_row : ovsrec_vrf := VrfRow "vrf_default" [PortRow "vlan20" [if_row 3 "vlan20" "internal"]].
Definition config : daemon_cfg := DaemonCfg [br_row] [vrf_row] {[ "enable-statistics" := "true" ]} 1 false.

Lemma wants_cases o c row : wants config o c row →
  (o = "bridge_normal" ∧ c = Some br_row ∧ (row = if_row 1 "1" "system" ∨ row = if_row 2 "vlan10" "internal")) ∨
  (o = "vrf_default" ∧ c = None ∧ row = if_row 3 "vlan20" "internal").
Proof.
  intros [(r & q & Hr & <- & -> & pr & Hpr & Hrow)|(r & q & Hr & <- & -> & pr & Hpr & Hrow)]; cases_elem Hr.
  - left. split; [done|]. split; [done|]. change (bridge_collect_wanted_ports br_row) with (shash_collect pr_name (brr_ports br_row)) in Hpr.
    apply shash_collect_Some in Hpr as [Hpr <-]. cases_elem Hpr; cases_elem Hrow; auto.
  - right. split; [done|]. split; [done|]. apply shash_collect_Some in Hpr as [Hpr <-]. cases_elem Hpr; cases_elem Hrow; auto.
Qed.

Lemma config_apart : rows_apart config.
Proof.
  split; [by_compute|by_compute| | |].
  - intros b v Hb Hv. cases_elem Hb; cases_elem Hv. done.
  - intros o1 o2 c1 c2 r1 r2 H1%wants_cases H2%wants_cases. naive_solver.
  - intros o c row H%wants_cases _ Ht. destruct H as [(-> & -> & [->| ->])|(-> & -> & ->)]; simpl; [discriminate Ht|lia|lia].
Qed.

Lemma config_ok : rows_ok (Some LifecycleExample.mac) (dc_bridges config) (dc_vrfs config).
Proof.
  split; [by exists LifecycleExample.mac| |].
  - intros r Hr. cases_elem Hr. split; [apply bridge_collect_wanted_ports_names|].
    intros q1 q2 r1 r2 (p1 & H1 & H1') (p2 & H2 & H2').
    change (bridge_collect_wanted_ports br_row) with (shash_collect pr_name (brr_ports br_row)) in *.
    apply shash_collect_Some in H1 as [H1 <-], H2 as [H2 <-]. cases_elem H1; cases_elem H1'; cases_elem H2; cases_elem H2'; done.
  - intros r Hr. cases_elem Hr. split; [by intros q pr [_ ?]%shash_collect_Some|].
    intros q1 q2 r1 r2 (p1 & H1 & H1') (p2 & H2 & H2').
    apply shash_collect_Some in H1 as [H1 <-], H2 as [H2 <-]. cases_elem H1; cases_elem H1'; cases_elem H2; cases_elem H2'; done.
Qed.

(** The devices change once: [vlan20] gets the change number 2. *)
Definition devices (changed : bool) (n : string) : Status.netdev_status :=
  StatusFacts.StatusExample.port_status (if changed && bool_decide (n = "vlan20") then 2 else 1).
Definition env_of (changed : bool) (now : Z) (status : txn_status) : env nat :=
  Env now now TXN_SUCCESS status true true (devices changed) (λ _, StatsFacts.StatsExample.port_stats)
    (if changed then 2 else 1) [] [[(10, Some "up"); (20, Some "down")]] (λ _, None) [] (λ _ info, info) [0; 1; 2; 3]%nat.

Definition trip_of (contended lock : bool) (seqno : Z) (e : env nat) : trip (env nat) :=
  Trip contended lock (Some config) seqno TXN_SUCCESS (Some LifecycleExample.mac) ["system"; "vrf"] []
    (λ _, []) e.

Definition at_start : mst (parts nat nat nat (list (nat * Z)) unit) :=
  Mst (SwSt (Coll [] []) (Coll [] []) [])
    (Parts SystemStats.Collector.start (Stats.BSt 0 LLONG_MIN None Stats.no_rows Blocks.blocks_start [])
       (Status.StState [] [] 0 false None (Status.Rows ∅ ∅)) Blocks.blocks_start tt)
    0 false true false false [].

(** The first trip configures the daemon, and collects statistics. *)
Definition first_trip : trip (env nat) := trip_of false true 5 (env_of false 1 TXN_SUCCESS).

(** Then the database changes and the status transaction fails, the lock is lost
    and comes back, the next transaction is incomplete, and a device changes
    before it succeeds. *)
Definition before_last : list (trip (env nat)) :=
  [trip_of true false 6 (env_of false 3 TXN_SUCCESS);
   trip_of false true 7 (env_of false 4 TXN_ERROR);
   trip_of false true 7 (env_of false 5 TXN_INCOMPLETE)].
Definition final_trip : trip (env nat) := trip_of false true 7 (env_of true 6 TXN_SUCCESS).
Definition second_trip : trip (env nat) := trip_of false true 6 (env_of false 2 TXN_ERROR).

Definition started : mst (parts nat nat nat (list (nat * Z)) unit) :=
  match bridge_run first_trip at_start with Ok (_, s) => s | Fault _ => at_start end.

Lemma start_is_ok : daemon_ok at_start.
Proof.
  split; [by apply nothing_left_ok|].
  split; [apply SystemStatsFacts.coherent_collector_start|]. split; [by apply nothing_apart|done].
Qed.

Lemma a_trip_ok contended lock seqno e : trip_ok (trip_of contended lock seqno e).
Proof. split; [exact config_ok|]. by split; [exact config_apart|]. Qed.

Lemma vlan20_wanted : wants config "vrf_default" None (if_row 3 "vlan20" "internal").
Proof.
  right. exists vrf_row, "vlan20". split; [left|]. split; [done|]. split; [done|].
  exists (PortRow "vlan20" [if_row 3 "vlan20" "internal"]). split; [by vm_compute|left].
Qed.

Lemma vlan20_works : device_works None (if_row 3 "vlan20" "internal").
Proof. by split. Qed.

Lemma switch_created n : n ≠ "bad" → switch_works n.
Proof. intros Hn l t. simpl. by rewrite bool_decide_false. Qed.

Lemma statistics_reach_database_witness :
  ∃ s', bridge_run first_trip at_start = Ok (tt, s') ∧
    Stats.if_statistics (Stats.database (p_stats (world s'))) !! "vlan20" =
      Some (Stats.iface_stats StatsFacts.StatsExample.port_stats).
Proof.
  destruct (statistics_reach_database first_trip config at_start) as (s' & E & H); try reflexivity.
  - apply a_trip_ok.
  - exact start_is_ok.
  - intros [=].
  - exists s'. split; [exact E|].
    apply (H "vrf_default" None (if_row 3 "vlan20" "internal")); [exact vlan20_wanted|by apply switch_created|exact vlan20_works|done|done].
Defined.

Lemma started_ok : daemon_ok started.
Proof.
  destruct (bridge_run_ok first_trip at_start (a_trip_ok _ _ _ _) start_is_ok) as (s & E & H).
  unfold started. by rewrite E.
Qed.

Lemma started_seen : status_seen (env_of false 1 TXN_SUCCESS) (p_status (world started)).
Proof.
  destruct (bridge_run_ok first_trip at_start (a_trip_ok _ _ _ _) start_is_ok) as (s & E & H).
  unfold started. rewrite E. apply (seen_trip (env_of false 1 TXN_SUCCESS) first_trip at_start s eq_refl eq_refl E H).
  - clear. split; [by left|]. split; [apply Z.le_refl|]. by intros (n & []).
  - clear. constructor; [intros n; change (0 ≤ 1); lia|change (0 ≤ 1); lia|by intros i ?%elem_of_nil].
Qed.

Lemma envs_next changed now status changed' now' status' :
  (changed = true → changed' = true) → env_next (env_of changed now status) (env_of changed' now' status').
Proof.
  intros Hc. split; [|split].
  - intros n. unfold env_of, e_devices, devices. destruct changed, changed'; try naive_solver.
    simpl. destruct (bool_decide (n = "vlan20")); [right; simpl; lia|by left].
  - destruct changed, changed'; simpl; naive_solver lia.
  - intros (n & Hn). destruct changed, changed'; simpl in *; naive_solver lia.
Qed.

Lemma history_possible : history (λ _, config) true 5 (second_trip :: before_last ++ [final_trip]).
Proof.
  cbn [history app before_last second_trip final_trip trip_of tr_contended tr_has_lock negb tr_seqno].
  do 2 (split; [apply a_trip_ok|]; try (split; [reflexivity|split; [done|]])).
  do 3 (split; [apply a_trip_ok|split; [reflexivity|split; [done|]]]). exact I.
Qed.

Lemma history_tracked :
  tracked false (env_of false 1 TXN_SUCCESS) 5 (second_trip :: before_last ++ [final_trip]).
Proof.
  cbn [tracked app before_last second_trip final_trip trip_of tr_contended tr_has_lock negb orb tr_seqno tr_env].
  do 4 (split; [by apply envs_next|split; [intros _; reflexivity|split; [intros Hne; first [reflexivity|by destruct Hne]|]]]).
  exact I.
Qed.

Lemma status_reaches_database_witness :
  ∃ s' u, mfor (second_trip :: before_last ++ [final_trip]) bridge_run started = Ok (tt, s') ∧
    (u = final_trip ∨ in_flight (second_trip :: before_last) u) ∧
    Status.interfaces (Status.database (p_status (world s'))) !! "vlan20" =
      Some (Status.columns_of (e_devices (tr_env u)) (e_vlans (tr_env u)) (iface_status "vlan20" "internal" false)).
Proof.
  assert (idl_seqno started = 5) as Eseq by (vm_compute; reflexivity).
  destruct (status_reaches_database (λ _, config) (env_of false 1 TXN_SUCCESS) second_trip (before_last ++ [final_trip])
    (second_trip :: before_last) final_trip started) as (s' & u & E & Hu & H).
  - exact started_ok.
  - vm_compute. reflexivity.
  - exact started_seen.
  - vm_compute. reflexivity.
  - rewrite Eseq. exact history_possible.
  - rewrite Eseq. exact history_tracked.
  - by split.
  - reflexivity.
  - by split.
  - reflexivity.
  - exists s', u. split; [exact E|]. split; [exact Hu|]. clear E Hu.
    exact (H "vrf_default" None (if_row 3 "vlan20" "internal") vlan20_wanted
      (switch_created "vrf_default" ltac:(by_compute)) vlan20_works eq_refl).
Defined.

(** In this history the transaction that succeeds at the end was started one trip
    earlier: the row shows the device as it was then. *)
Example last_row_is_older :
  match mfor (second_trip :: before_last ++ [final_trip]) bridge_run started with
  | Ok (_, s) => (Status.connectivity_seqno (p_status (world s)), e_conn (tr_env final_trip),
                  bool_decide (is_Some (Status.interfaces (Status.database (p_status (world s))) !! "vlan20")))
  | Fault _ => (0, 0, false)
  end = (1, 2, true).
Proof. vm_compute. reflexivity. Qed.
End WorldExample.
