(* ===== verification/Daemon.v ===== *)
(** * The entry point of the daemon: ovs-vswitchd.c

    The command line, the start, the main loop around [bridge_run] and the
    shutdown; and [wait_for_config_complete] of bridge.c, the last step of the
    start.  Calls to other components are recorded in order. *)

From S2P Require Import Prelude OvsLib BridgePorts Lifecycle Reconfigure MainLoop.
Local Open Scope Z_scope.

(** ** The command line *)

(** What [getopt_long] returns, with [optarg]; [OptHandled]: an option of the
    logging, daemon or SSL library. *)
Inductive cmd_option :=
| OptHelp | OptVersion | OPT_MLOCKALL | OPT_UNIXCTL (arg : string) | OPT_PLUGINS (arg : string) | OptHandled
| OPT_PEER_CA_CERT (arg : string) | OPT_BOOTSTRAP_CA_CERT (arg : string) | OPT_ENABLE_DUMMY (arg : option string)
| OPT_DISABLE_SYSTEM | OptUnknown | OPT_DPDK | OptOther.

(** What the options set; the last occurrence of an option counts. *)
Record cmd_settings := CmdSettings {
  want_mlockall : bool;
  unixctl_path : option string;
  plugins_path : option string;
  ca_certs : list (string * bool);       (* file, bootstrap *)
  dummy : list (option string);
  system_blacklisted : bool;
}.

Definition cmd_start : cmd_settings := CmdSettings false None None [] [] false.

(** The process goes on with the remote and the settings, or ends: with success,
    with failure, or by [abort]. *)
Inductive cmd_result :=
| CmdRun (remote : string) (c : cmd_settings) | CmdExit (success : bool) | CmdAbort.

Definition parse_option (o : cmd_option) (c : cmd_settings) : cmd_result + cmd_settings :=
  let '(CmdSettings m u p ca d b) := c in
  match o with
  | OptHelp | OptVersion => inl (CmdExit true)
  | OPT_MLOCKALL => inr (CmdSettings true u p ca d b)
  | OPT_UNIXCTL arg => inr (CmdSettings m (Some arg) p ca d b)
  | OPT_PLUGINS arg => inr (CmdSettings m u (Some arg) ca d b)
  | OptHandled => inr c
  | OPT_PEER_CA_CERT arg => inr (CmdSettings m u p (ca ++ [(arg, false)]) d b)
  | OPT_BOOTSTRAP_CA_CERT arg => inr (CmdSettings m u p (ca ++ [(arg, true)]) d b)
  | OPT_ENABLE_DUMMY arg => inr (CmdSettings m u p ca (d ++ [arg]) b)
  | OPT_DISABLE_SYSTEM => inr (CmdSettings m u p ca d true)
  | OptUnknown | OPT_DPDK => inl (CmdExit false)
  | OptOther => inl CmdAbort
  end.

(** [args]: what is left after the options. *)
Fixpoint parse_options (rundir : string) (opts : list cmd_option) (args : list string) (c : cmd_settings) : cmd_result :=
  match opts with
  | [] =>
    match args with
    | [] => CmdRun ("unix:" +:+ rundir +:+ "/db.sock")%string c
    | [remote] => CmdRun remote c
    | _ => CmdExit false
    end
  | o :: opts' =>
    match parse_option o c with
    | inl r => r
    | inr c' => parse_options rundir opts' args c'
    end
  end.

(** ** Waiting for the configuration *)

Inductive wait_event := IdlRun | IdlWait | WaitPollBlock.

Section WaitForConfig.
(** After [n] calls of [ovsdb_idl_run]: is the lock held, and [cur_cfg] of the
    Open_vSwitch row if there is one. *)
Context (idl : nat → bool * option Z).

Fixpoint wait_for_lock (fuel n : nat) : option (nat * list wait_event) :=
  match fuel with
  | O => None
  | S fuel' =>
    if (idl n).1 then Some (n, [])
    else '(m, l) ← wait_for_lock fuel' (S n); Some (m, IdlRun :: IdlWait :: l)
  end.

Definition system_configured (n : nat) : bool :=
  match (idl n).2 with Some cur_cfg => 1 <=? cur_cfg | None => false end.

Fixpoint wait_configured (fuel n : nat) : option (nat * list wait_event) :=
  match fuel with
  | O => None
  | S fuel' =>
    if system_configured n then Some (n, [])
    else '(m, l) ← wait_configured fuel' (S n); Some (m, WaitPollBlock :: IdlRun :: IdlWait :: l)
  end.

(** The number of calls of [ovsdb_idl_run] and all calls; [None]: it has not
    returned with this fuel. *)
Definition wait_for_config_complete (fuel : nat) : option (nat * list wait_event) :=
  '(n, l) ← wait_for_lock fuel 0;
  '(m, l') ← wait_configured fuel n;
  Some (m, l ++ l').
End WaitForConfig.

(** ** The main loop *)

(** Calls of [main], in order. *)
Inductive daemon_call :=
| DInit (what : string)
| DRun (what : string)
| DWait (what : string)
| DImmediateWake
| DPollBlock
| DExit (what : string).

Record dst {W : Type} := Dst {
  d_mst : mst W;
  d_log : list daemon_call;
}.
Arguments dst W : clear implicits.
Arguments Dst {W} _ _.

(** One iteration: the trip through [bridge_run], whether [unixctl_server_run]
    handles an "exit" command in it, and whether the service is told to stop. *)
Record main_input {Env : Type} := MainInput {
  mi_trip : trip Env;
  mi_exit : bool;
  mi_stop : bool;
}.
Arguments main_input Env : clear implicits.
Arguments MainInput {Env} _ _ _.

Section Main.
Context `{HL : OvsLib, HD : SwitchDev, HP : Posix, HT : SwitchTypes, HO : OfprotoDefaults}.
Context {Env W : Type} {HC : Components Env W}.
Local Abbreviation dst := (dst W).
Local Abbreviation main_input := (main_input Env).

Definition on_mst {A} (c : M (mst W) A) : M dst A := λ s,
  match c (d_mst s) with Ok (a, t) => Ok (a, Dst t (d_log s)) | Fault e => Fault e end.
Definition d_call (c : daemon_call) : M dst unit := modify (λ s, Dst (d_mst s) (d_log s ++ [c])).

(** From [plugins_init] to the loop. *)
Definition main_start : M dst unit :=
  d_call (DInit "plugins") ;;
  d_call (DInit "bridge") ;;
  d_call (DInit "netdev classes of plugins") ;;
  d_call (DInit "subsystem") ;;
  d_call (DInit "bufmon") ;;
  d_call (DInit "configuration").

(** The body of the loop; the result is [exiting]. *)
Definition main_iteration (x : main_input) : M dst bool :=
  d_call (DRun "memory") ;;
  d_call (DRun "bridge") ;;
  on_mst (bridge_run (mi_trip x)) ;;
  mfor ["subsystem"; "bufmon"; "unixctl"; "netdev"; "plugins"] (λ c, d_call (DRun c)) ;;
  mfor ["memory"; "bridge"; "subsystem"; "bufmon"; "unixctl"; "netdev"; "plugins"] (λ c, d_call (DWait c)) ;;
  mwhen (mi_exit x) (d_call DImmediateWake) ;;
  d_call DPollBlock ;;
  mret (mi_exit x || mi_stop x).

(** The loop over the iterations there are; the result tells whether it ended. *)
Fixpoint main_loop (l : list main_input) : M dst bool :=
  match l with
  | [] => mret false
  | x :: l' =>
    exiting ← main_iteration x;
    if exiting : bool then mret true else main_loop l'
  end.

Definition main_exit : M dst unit :=
  on_mst bridge_exit ;;
  d_call (DExit "bridge") ;;
  d_call (DExit "subsystem") ;;
  d_call (DExit "unixctl") ;;
  d_call (DExit "plugins") ;;
  d_call (DExit "service").

Definition main (l : list main_input) : M dst bool :=
  main_start ;;
  ended ← main_loop l;
  mwhen ended main_exit ;;
  mret ended.
End Main.
