(* ===== verification/DaemonFacts.v ===== *)
(** * Theorems on the entry point of the daemon *)

From S2P Require Import Prelude OvsLib BridgePorts Lifecycle Reconfigure ReconfigureFacts.
From S2P Require Import MainLoop MainLoopFacts World WorldFacts WorldHistory Daemon.
Local Open Scope Z_scope.

(** ** Waiting for the configuration *)

Section WaitForConfig.
Context (idl : nat → bool * option Z).

Definition poll_blocks (l : list wait_event) : nat :=
  length (filter (λ e, match e with WaitPollBlock => true | _ => false end = true) l).
Definition idl_runs (l : list wait_event) : nat :=
  length (filter (λ e, match e with IdlRun => true | _ => false end = true) l).

Lemma wait_for_lock_spec fuel n m l :
  wait_for_lock idl fuel n = Some (m, l) →
  (n ≤ m)%nat ∧ (idl m).1 = true ∧ (∀ j, (n ≤ j < m)%nat → (idl j).1 = false) ∧
  poll_blocks l = 0%nat ∧ idl_runs l = (m - n)%nat.
Proof.
  revert n l. induction fuel as [|fuel IH]; intros n l; [done|]. simpl. destruct (idl n).1 eqn:En.
  - intros [= <- <-]. split_and!; [lia|done|intros; lia|done|unfold idl_runs; simpl; lia].
  - destruct (wait_for_lock idl fuel (S n)) as [[m' l']|] eqn:E; [|done]. intros [= <- <-].
    destruct (IH _ _ E) as (Hm & Hl & Hb & Hp & Hr). split_and!; [lia|done| | |].
    + intros j Hj. destruct (decide (j = n)) as [->|]; [done|]. apply Hb. lia.
    + unfold poll_blocks in *. by rewrite !filter_cons.
    + unfold idl_runs in *. rewrite !filter_cons. simpl. rewrite Hr. lia.
Qed.

Lemma wait_configured_spec fuel n m l :
  wait_configured idl fuel n = Some (m, l) →
  (n ≤ m)%nat ∧ system_configured idl m = true ∧ poll_blocks l = (m - n)%nat ∧ idl_runs l = (m - n)%nat.
Proof.
  revert n l. induction fuel as [|fuel IH]; intros n l; [done|]. simpl. destruct (system_configured idl n) eqn:En.
  - intros [= <- <-]. split_and!; [lia|done|unfold poll_blocks; simpl; lia|unfold idl_runs; simpl; lia].
  - destruct (wait_configured idl fuel (S n)) as [[m' l']|] eqn:E; [|done]. intros [= <- <-].
    destruct (IH _ _ E) as (Hm & Hl & Hp & Hr). split_and!; [lia|done| |].
    + unfold poll_blocks in *. rewrite !filter_cons. simpl. rewrite Hp. lia.
    + unfold idl_runs in *. rewrite !filter_cons. simpl. rewrite Hr. lia.
Qed.

(** A loop up to the first [m] from [n] on with a property. *)
Lemma first_from (P : nat → bool) n m :
  (n ≤ m)%nat → P m = true → ∃ k, (n ≤ k ≤ m)%nat ∧ P k = true ∧ ∀ j, (n ≤ j < k)%nat → P j = false.
Proof.
  intros Hn Hm. remember (m - n)%nat as d eqn:Hd. revert n Hn Hd. induction d as [|d IH]; intros n Hn Hd.
  { exists m. split; [lia|]. split; [done|]. intros; lia. }
  destruct (P n) eqn:En; [exists n; split; [lia|]; split; [done|intros; lia]|].
  destruct (IH (S n)) as (k & Hk & Pk & Hb); [lia|lia|]. exists k. split; [lia|]. split; [done|].
  intros j Hj. destruct (decide (j = n)) as [->|]; [done|]. apply Hb. lia.
Qed.

Lemma wait_for_lock_ends n k fuel :
  (n ≤ k)%nat → (idl k).1 = true → (∀ j, (n ≤ j < k)%nat → (idl j).1 = false) → (k - n < fuel)%nat →
  ∃ l, wait_for_lock idl fuel n = Some (k, l).
Proof.
  revert n. induction fuel as [|fuel IH]; intros n Hn Hk Hb Hf; [lia|]. simpl. destruct (decide (n = k)) as [->|Hne].
  - rewrite Hk. eauto.
  - rewrite Hb by lia. destruct (IH (S n)) as (l & ->); [lia|done| |lia|eauto]. intros j Hj. apply Hb. lia.
Qed.

Lemma wait_configured_ends n k fuel :
  (n ≤ k)%nat → system_configured idl k = true → (∀ j, (n ≤ j < k)%nat → system_configured idl j = false) →
  (k - n < fuel)%nat → ∃ l, wait_configured idl fuel n = Some (k, l).
Proof.
  revert n. induction fuel as [|fuel IH]; intros n Hn Hk Hb Hf; [lia|]. simpl. destruct (decide (n = k)) as [->|Hne].
  - rewrite Hk. eauto.
  - rewrite Hb by lia. destruct (IH (S n)) as (l & ->); [lia|done| |lia|eauto]. intros j Hj. apply Hb. lia.
Qed.

(** C21: [wait_for_config_complete] returns if and only if the lock is acquired at
    some time and the system is configured then or later.  When it returns after
    [m] calls of [ovsdb_idl_run] the system is configured; it has blocked once
    for each call after the lock was acquired, and never before: the wait for
    the lock is a busy loop. *)
Theorem wait_for_config_terminates :
  ((∃ fuel r, wait_for_config_complete idl fuel = Some r) ↔
   ∃ n m, (n ≤ m)%nat ∧ (idl n).1 = true ∧ system_configured idl m = true) ∧
  ∀ fuel m l, wait_for_config_complete idl fuel = Some (m, l) →
    system_configured idl m = true ∧ idl_runs l = m ∧
    ∃ n, (n ≤ m)%nat ∧ (idl n).1 = true ∧ (∀ j, (j < n)%nat → (idl j).1 = false) ∧ poll_blocks l = (m - n)%nat.
Proof.
  assert (∀ fuel m l, wait_for_config_complete idl fuel = Some (m, l) →
    system_configured idl m = true ∧ idl_runs l = m ∧
    ∃ n, (n ≤ m)%nat ∧ (idl n).1 = true ∧ (∀ j, (j < n)%nat → (idl j).1 = false) ∧ poll_blocks l = (m - n)%nat) as Hspec.
  { intros fuel m l. unfold wait_for_config_complete.
    destruct (wait_for_lock idl fuel 0) as [[n l1]|] eqn:E1; [|done]. simpl.
    destruct (wait_configured idl fuel n) as [[m' l2]|] eqn:E2; [|done]. simpl. intros [= <- <-].
    destruct (wait_for_lock_spec _ _ _ _ E1) as (_ & Hl & Hb & Hp & Hr).
    destruct (wait_configured_spec _ _ _ _ E2) as (Hm & Hc & Hp2 & Hr2). split; [done|]. split.
    - unfold idl_runs in *. rewrite filter_app, length_app, Hr, Hr2. lia.
    - exists n. split; [done|]. split; [done|]. split; [intros; apply Hb; lia|].
      unfold poll_blocks in *. by rewrite filter_app, length_app, Hp, Hp2. }
  split; [|done]. split.
  - intros (fuel & [m l] & E). destruct (Hspec _ _ _ E) as (Hc & _ & n & Hn & Hl & _). eauto.
  - intros (n & m & Hnm & Hl & Hc).
    destruct (first_from (λ j, (idl j).1) 0 n) as (n0 & Hn0 & Hl0 & Hb0); [lia|done|].
    destruct (first_from (system_configured idl) n0 m) as (m0 & Hm0 & Hc0 & Hb); [lia|done|].
    destruct (wait_for_lock_ends 0 n0 (S (n0 + m0))) as (l1 & E1); [lia|done|done|lia|].
    destruct (wait_configured_ends n0 m0 (S (n0 + m0))) as (l2 & E2); [lia|done|done|lia|].
    exists (S (n0 + m0)), (m0, l1 ++ l2). unfold wait_for_config_complete, mbind, option_bind. by rewrite E1, E2.
Qed.
End WaitForConfig.

(** ** The main loop *)

Section Main.
Context `{HL : OvsLib, HD : SwitchDev, HP : Posix, HT : SwitchTypes, HO : OfprotoDefaults}.
Context {Env W : Type} {HC : Components Env W} {HK : Contract Env W}.
Local Abbreviation dst := (dst W).
Implicit Types s : dst.

(** The calls of one iteration and of the start and the end. *)
Definition iteration_calls (x : main_input Env) : list daemon_call :=
  [DRun "memory"; DRun "bridge"; DRun "subsystem"; DRun "bufmon"; DRun "unixctl"; DRun "netdev"; DRun "plugins";
   DWait "memory"; DWait "bridge"; DWait "subsystem"; DWait "bufmon"; DWait "unixctl"; DWait "netdev"; DWait "plugins"] ++
  (if mi_exit x then [DImmediateWake] else []) ++ [DPollBlock].
Definition start_calls : list daemon_call :=
  [DInit "plugins"; DInit "bridge"; DInit "netdev classes of plugins"; DInit "subsystem"; DInit "bufmon";
   DInit "configuration"].
Definition exit_calls : list daemon_call :=
  [DExit "bridge"; DExit "subsystem"; DExit "unixctl"; DExit "plugins"; DExit "service"].

Lemma d_calls_run {A} (g : A → daemon_call) l s :
  mfor l (λ c, d_call (g c)) s = Ok (tt, Dst (d_mst s) (d_log s ++ (g <$> l))).
Proof.
  revert s. induction l as [|a l IH]; intros s; simpl; [by rewrite app_nil_r; destruct s|].
  step. rewrite IH. simpl. by rewrite <-app_assoc.
Qed.

Lemma main_iteration_run x s :
  trip_ok (mi_trip x) → daemon_ok (d_mst s) →
  ∃ t, main_iteration x s = Ok (mi_exit x || mi_stop x, Dst t (d_log s ++ iteration_calls x)) ∧
    bridge_run (mi_trip x) (d_mst s) = Ok (tt, t) ∧ daemon_ok t.
Proof.
  intros Ht Hs. unfold main_iteration. step. step.
  destruct (bridge_run_ok (mi_trip x) (d_mst s) Ht Hs) as (t & E & H).
  erewrite bind_run by (unfold on_mst; simpl; rewrite E; reflexivity).
  erewrite bind_run by apply d_calls_run. erewrite bind_run by apply d_calls_run.
  exists t. split; [|done]. unfold iteration_calls. destruct (mi_exit x); simpl; step; step; simpl;
    by rewrite <-!app_assoc.
Qed.

Lemma main_loop_run its x rest s :
  Forall (λ y, trip_ok (mi_trip y)) (its ++ [x]) → daemon_ok (d_mst s) →
  Forall (λ y, mi_exit y || mi_stop y = false) its → mi_exit x || mi_stop x = true →
  ∃ t, main_loop (its ++ x :: rest) s = Ok (true, Dst t (d_log s ++ ((its ++ [x]) ≫= iteration_calls))) ∧
    mfor (mi_trip <$> its ++ [x]) bridge_run (d_mst s) = Ok (tt, t) ∧ daemon_ok t.
Proof.
  revert s. induction its as [|y its IH]; intros s Ht Hs Hn Hx; simpl in *.
  - apply Forall_cons in Ht as [Ht _]. destruct (main_iteration_run x s Ht Hs) as (t & E & Eb & H).
    exists t. step E. rewrite Hx. split; [by rewrite app_nil_r|]. split; [by step Eb|done].
  - apply Forall_cons in Ht as [Hy Ht], Hn as [Hny Hn]. destruct (main_iteration_run y s Hy Hs) as (t1 & E1 & Eb1 & H1).
    destruct (IH (Dst t1 (d_log s ++ iteration_calls y)) Ht H1 Hn Hx) as (t & E & Eb & H). exists t.
    step E1. rewrite Hny. split; [|by step Eb1]. rewrite E. simpl. by rewrite <-app_assoc.
Qed.

(** C20: the daemon ends.  In every history with consistent rows [main] goes
    through the loop until the first iteration in which the command "exit" is
    handled or the service is stopped, completes that iteration (after an "exit"
    without sleeping in it), and shuts down: the bridges are destroyed and then
    the other components, plugins last. *)
Theorem main_shuts_down its x rest s :
  Forall (λ y, trip_ok (mi_trip y)) (its ++ [x]) → daemon_ok (d_mst s) →
  Forall (λ y, mi_exit y || mi_stop y = false) its → mi_exit x || mi_stop x = true →
  ∃ t s', main (its ++ x :: rest) s = Ok (true, s') ∧
    mfor (mi_trip <$> its ++ [x]) bridge_run (d_mst s) = Ok (tt, t) ∧
    d_log s' = d_log s ++ start_calls ++ ((its ++ [x]) ≫= iteration_calls) ++ exit_calls ∧
    members (all_bridges (sw (d_mst s'))) = [] ∧ all_vrfs (sw (d_mst s')) = all_vrfs (sw t).
Proof.
  intros Ht Hs Hn Hx. unfold main.
  assert (main_start s = Ok (tt, Dst (d_mst s) (d_log s ++ start_calls))) as Es.
  { unfold main_start. do 5 step. unfold d_call, modify. simpl. by rewrite <-!app_assoc. }
  step Es. destruct (main_loop_run its x rest (Dst (d_mst s) (d_log s ++ start_calls)) Ht Hs Hn Hx) as (t & E & Eb & H).
  step E. simpl mwhen. destruct H as [[Nb Nv Gb Gv _] _].
  destruct (destroy_bridges_run _ t eq_refl Nb Gb) as (st & Ed & Hb & Hv).
  assert (bridge_exit t = Ok (tt, set_sw st t)) as Ex by (unfold bridge_exit; step; exact Ed).
  exists t. eexists. split; [|split; [exact Eb|]].
  - unfold main_exit. erewrite bind_run; [reflexivity|].
    erewrite bind_run by (unfold on_mst; simpl; rewrite Ex; reflexivity).
    do 4 step. reflexivity.
  - simpl. rewrite <-!app_assoc. split; [done|]. done.
Qed.

(** [bridge_wait] waits for the switches of bridges only, although [bridge_run__]
    runs those of VRFs, too; without bridges it does not wait for the timer of
    the statistics. *)
Theorem vrf_switches_not_waited types stats_timer status (t : mst W) :
  members (all_bridges (sw t)) = [] →
  ∀ w, w ∈ bridge_wait types stats_timer status t →
    (∀ name, w ≠ WaitOfproto name) ∨ w ∈ status.
Proof.
  intros Eb w. unfold bridge_wait. rewrite Eb. intros Hw.
  apply elem_of_app in Hw as [Hw|Hw]; [left; set_solver|].
  apply elem_of_app in Hw as [Hw|Hw]; [left; destruct (daemonize_txn t); set_solver|].
  apply elem_of_app in Hw as [Hw|Hw]; [left; by apply list_elem_of_fmap in Hw as (? & -> & _)|].
  apply elem_of_app in Hw as [Hw|Hw]; [set_solver|].
  apply elem_of_app in Hw as [Hw|Hw]; [by right|left; set_solver].
Qed.
End Main.

(** ** Examples *)

Module DaemonExample.
(** The daemon of [WorldExample], with all its components. *)
Import WorldExample.

(** The lock, then another process, then the lock again. *)
Definition trips : list (trip (env nat)) := first_trip :: second_trip :: before_last.
Definition last_trip : trip (env nat) := trip_of false true 9 (env_of true 7 TXN_SUCCESS).

Lemma all_trips_ok : Forall trip_ok (trips ++ [last_trip]).
Proof. repeat apply Forall_cons_2; try apply a_trip_ok. constructor. Qed.

Lemma trips_history : MainLoopFacts.history (λ _, config) true 0 (trips ++ [last_trip]).
Proof. repeat (split; [apply a_trip_ok|]). simpl. repeat (split; try done; try apply a_trip_ok). Qed.

Lemma daemon_structures_well_formed_witness :
  ∃ s', mfor (trips ++ [last_trip]) bridge_run at_start = Ok (tt, s') ∧ daemon_ok s'.
Proof. exact (daemon_structures_well_formed _ at_start all_trips_ok start_is_ok). Defined.

Lemma daemon_follows_database_witness :
  ∃ s', mfor (trips ++ [last_trip]) bridge_run at_start = Ok (tt, s') ∧ daemon_ok s' ∧
    idl_seqno s' = 9 ∧ structures_follow [br_row] [vrf_row] (sw s').
Proof.
  exact (daemon_follows_database (λ _, config) trips last_trip at_start trips_history start_is_ok eq_refl eq_refl).
Defined.

(** The state after the bridges were lost. *)
Definition bridges_lost : mst (parts nat nat nat (list (nat * Z)) unit) :=
  match bridge_run (trip_of true false 0 (env_of false 2 TXN_SUCCESS)) started with Ok (_, s) => s | Fault _ => started end.

Lemma nothing_without_lock_witness : nothing_left (sw bridges_lost) ∧ idl_seqno bridges_lost = 5.
Proof.
  destruct (nothing_without_lock (trip_of true false 0 (env_of false 2 TXN_SUCCESS)) started bridges_lost (proj1 started_ok))
    as (Hn & _ & _ & Hi & _).
  - right. reflexivity.
  - vm_compute. reflexivity.
  - split; [exact Hn|]. rewrite Hi. vm_compute. reflexivity.
Defined.

Definition started_state : mst (parts nat nat nat (list (nat * Z)) unit) :=
  match mfor trips bridge_run at_start with Ok (_, s) => s | Fault _ => at_start end.

Lemma daemon_starts_once_witness :
  scan (ml_log started_state) = Some Started ∧
  length (filter (λ e, match e with DaemonizeComplete => true | _ => false end = true) (ml_log started_state)) = 1%nat.
Proof.
  destruct (daemon_starts_once trips at_start started_state) as [Hs Hc].
  - split_and!; reflexivity.
  - vm_compute. reflexivity.
  - split; [rewrite Hs; vm_compute; reflexivity|]. rewrite Hc. vm_compute. reflexivity.
Defined.

Definition input_of (exit : bool) (t : trip (env nat)) : main_input (env nat) := MainInput t exit false.
Definition inputs : list (main_input (env nat)) := input_of false <$> trips.

Lemma main_shuts_down_witness :
  ∃ (t : mst (parts nat nat nat (list (nat * Z)) unit)) s',
    main (inputs ++ [input_of true last_trip]) (Dst at_start []) = Ok (true, s') ∧
    d_log s' = start_calls ++ ((inputs ++ [input_of true last_trip]) ≫= iteration_calls) ++ exit_calls ∧
    members (all_bridges (sw (d_mst s'))) = [] ∧ all_vrfs (sw (d_mst s')) = all_vrfs (sw t).
Proof.
  destruct (main_shuts_down inputs (input_of true last_trip) [] (Dst at_start [])) as (t & s' & E & _ & Hl & Hb & Hv).
  - repeat apply Forall_cons_2; try apply a_trip_ok. constructor.
  - exact start_is_ok.
  - repeat apply Forall_cons_2; try reflexivity. constructor.
  - reflexivity.
  - exists t, s'. split; [exact E|]. split; [exact Hl|]. split; [exact Hb|exact Hv].
Defined.

(** The VRF is still there when the daemon has ended. *)
Example vrfs_left_at_exit :
  match main [input_of true last_trip] (Dst at_start []) with
  | Ok (_, s) => (length (members (all_bridges (sw (d_mst s)))), v_name <$> members (all_vrfs (sw (d_mst s))))
  | Fault _ => (7%nat, [])
  end = (0%nat, ["vrf_default"]).
Proof. vm_compute. reflexivity. Qed.
End DaemonExample.
