(* ===== verification/Unixctl.v ===== *)
(** * The commands of ovs-appctl: bridge/dump-flows, bridge/reconnect, vlan/show

    What the commands that bridge.c registers reply, with [vlan_unixctl_show] and
    its local variable as the code has it, and [bridge_get_memory_usage]. *)

From stdpp Require Import pretty.
From S2P Require Import Prelude OvsLib BridgePorts Lifecycle Vlan.
Local Open Scope Z_scope.

(** [unixctl_command_reply], [unixctl_command_reply_error] *)
Inductive reply := Reply (body : option string) | ReplyError (error : string).

Definition newline : string := String (Ascii.ascii_of_nat 10) EmptyString.

(** ** Bridges *)

Section Bridges.
Context `{HL : OvsLib}.
Context (all_bridges : coll bridge).

(** [flows]: [ofproto_get_all_flows] of the switch of a bridge. *)
Definition bridge_unixctl_dump_flows (flows : string → string) (name : string) : reply :=
  match bridge_lookup name all_bridges with
  | None => ReplyError "Unknown bridge"
  | Some br => Reply (Some (flows (b_name br)))
  end.

(** The switches whose controllers are reconnected, and the reply; [arg]: the
    optional argument. *)
Definition bridge_unixctl_reconnect (arg : option string) : list string * reply :=
  match arg with
  | Some name =>
    match bridge_lookup name all_bridges with
    | None => ([], ReplyError "Unknown bridge")
    | Some br => ([b_name br], Reply None)
    end
  | None => (b_name <$> members all_bridges, Reply None)
  end.

(** What is asked for its memory usage: datapath types ([inl]) and switches. *)
Definition bridge_get_memory_usage (types : list string) : list (string + string) :=
  (inl <$> types) ++ ((λ br, inr (b_name br)) <$> members all_bridges).
End Bridges.

(** ** vlan/show *)

(** [strtol] in base 10, on a 64-bit [long]. *)
Definition is_space (c : Ascii.ascii) : bool :=
  let n := Z.of_nat (Ascii.nat_of_ascii c) in (n =? 32) || ((9 <=? n) && (n <=? 13)).
Fixpoint skip_spaces (s : string) : string :=
  match s with
  | String c s' => if is_space c then skip_spaces s' else s
  | EmptyString => EmptyString
  end.
Definition strtol (s : string) : Z := Z.max (- 2 ^ 63) (Z.min (2 ^ 63 - 1) (atoi (skip_spaces s))).

Section VlanShow.
Context `{HL : OvsLib, HV : VlanSchema}.
(** [%p] of the row of a VLAN. *)
Context (pointer : vlan → string).

Definition dump_vlan_data (v : vlan) : string :=
  "VLAN " +:+ pretty (vid v) +:+ ":" +:+ newline +:+
  "  name               :" +:+ vl_name v +:+ newline +:+
  "  cfg                :" +:+ pointer v +:+ newline +:+
  "  hw_vlan_cfg:enable :" +:+ (if vl_enable v then "1" else "0") +:+ newline.

Definition bridge_title (name : string) : string :=
  "========== Bridge " +:+ name +:+ " ==========" +:+ newline.
Definition not_in_bridge (arg : string) : string := "VLAN " +:+ arg +:+ " is not in this bridge." +:+ newline.

(** The VLAN an argument names in a bridge. *)
Definition vlan_of_argument (arg : string) (s : vlst) : option vlan :=
  let vid := to_signed 32 (strtol arg) in
  if 0 <? vid then vlan_lookup_by_vid vid s else vlan_lookup_by_name arg s.

(** The loop over all bridges, with the local variables [vlan] and [ds].  After a
    complete loop over the VLANs of a bridge [vlan] is null, because the node of
    the map is the first member of [struct vlan]. *)
Fixpoint show_bridges (arg : option string) (all_bridges : list (string * vlst)) (v : option vlan) (ds : string) : string :=
  match all_bridges with
  | [] => ds
  | (name, s) :: rest =>
    let ds := ds +:+ bridge_title name in
    match arg with
    | Some a =>
      match vlan_of_argument a s with
      | None => show_bridges arg rest None (ds +:+ not_in_bridge a)
      | Some v => show_bridges arg rest (Some v) (ds +:+ dump_vlan_data v)
      end
    | None =>
      match v with
      | Some v => show_bridges arg rest (Some v) (ds +:+ dump_vlan_data v)
      | None => show_bridges arg rest None (ds +:+ String.concat "" (dump_vlan_data <$> vlans s))
      end
    end
  end.

Definition vlan_unixctl_show (all_bridges : list (string * vlst)) (arg : option string) : reply :=
  Reply (Some (show_bridges arg all_bridges None "")).

(** *** Theorems *)

(** What the command shows of one bridge. *)
Definition shown (arg : option string) (name : string) (s : vlst) : string :=
  bridge_title name +:+
  match arg with
  | Some a => match vlan_of_argument a s with Some v => dump_vlan_data v | None => not_in_bridge a end
  | None => String.concat "" (dump_vlan_data <$> vlans s)
  end.

Lemma concat_cons (x : string) l : String.concat "" (x :: l) = x +:+ String.concat "" l.
Proof. destruct l; simpl; [by rewrite string_app_nil|done]. Qed.

(** vlan/show shows every bridge by itself: the variable that is kept from one
    bridge to the next has no influence. *)
Theorem vlan_show_is_per_bridge all_bridges arg :
  vlan_unixctl_show all_bridges arg =
  Reply (Some (String.concat "" ((λ '(name, s), shown arg name s) <$> all_bridges))).
Proof.
  unfold vlan_unixctl_show. do 2 f_equal. change (String.concat "" _) with ("" +:+ String.concat ""
    ((λ '(name, s), shown arg name s) <$> all_bridges)).
  assert (∀ v ds, (arg = None → v = None) →
    show_bridges arg all_bridges v ds = ds +:+ String.concat "" ((λ '(name, s), shown arg name s) <$> all_bridges)) as H;
    [|by apply H].
  induction all_bridges as [|[name s] rest IH]; intros v ds Hv; [simpl; by rewrite string_app_nil|].
  rewrite fmap_cons, concat_cons. unfold shown at 1. simpl. destruct arg as [a|].
  - destruct (vlan_of_argument a s); rewrite IH by done; by rewrite !string_app_assoc.
  - rewrite Hv, IH by done. by rewrite !string_app_assoc.
Qed.

(** A VLAN is found by its number. *)
Theorem shown_by_vid a s v :
  to_signed 32 (strtol a) = vid v → 0 < vid v → v ∈ vlans s → NoDup (vid <$> vlans s) → vlan_of_argument a s = Some v.
Proof.
  intros E Hv Hin Hnd. unfold vlan_of_argument, vlan_lookup_by_vid. rewrite E.
  destruct (Z.ltb_spec 0 (vid v)); [|lia].
  destruct (List.find _ _) as [w|] eqn:Ef.
  - apply find_some in Ef as [Hw Ew%Z.eqb_eq]. apply list_elem_of_In in Hw.
    f_equal. by apply (NoDup_fmap_elem vid (vlans s)).
  - apply list_elem_of_In in Hin. eapply find_none in Ef; [|exact Hin]. by apply Z.eqb_neq in Ef.
Qed.

(** A VLAN is found by its name only if the name does not begin with a positive
    number, because that is taken for the number of a VLAN. *)
Theorem shown_by_name a s v :
  vlan_of_argument a s = Some v →
  if 0 <? to_signed 32 (strtol a) then vid v = to_signed 32 (strtol a) else vl_name v = a.
Proof.
  unfold vlan_of_argument. destruct (0 <? _).
  - intros [_ E]%find_some. by apply Z.eqb_eq in E.
  - unfold vlan_lookup_by_name, hmap_first_with_hash. intros [_ E]%find_some.
    apply andb_true_iff in E as [_ E]. by apply bool_decide_eq_true in E.
Qed.
End VlanShow.

Module UnixctlExample.
#[local] Existing Instance ref_lib.

(** A VLAN whose name begins with its digits is not found by its name. *)
Example name_of_digits_not_found :
  vlan_of_argument "10gusers" (VlSt [Vlan "10gusers" 5 None true] []) = None ∧
  vlan_of_argument "users10g" (VlSt [Vlan "users10g" 5 None true] []) = Some (Vlan "users10g" 5 None true).
Proof. split; vm_compute; reflexivity. Qed.

Example show_two_bridges :
  vlan_unixctl_show (λ _, "(nil)") [("a", VlSt [] []); ("b", VlSt [Vlan "v" 7 None true] [])] (Some "v") =
  Reply (Some (bridge_title "a" +:+ not_in_bridge "v" +:+ bridge_title "b" +:+
    "VLAN 7:" +:+ newline +:+ "  name               :v" +:+ newline +:+ "  cfg                :(nil)" +:+ newline +:+
    "  hw_vlan_cfg:enable :1" +:+ newline)).
Proof. vm_compute. reflexivity. Qed.
End UnixctlExample.
