(* ===== verification/Init.v ===== *)
(** * The start of the daemon's modules: [bridge_init], [bufmon_init], [init]

    Which columns of the database the daemon asks not to be replicated
    ([ovsdb_idl_omit]) or not to be told of ([ovsdb_idl_omit_alert]), and how the
    MAC learning plugin takes part through the block BLK_BRIDGE_INIT.  What the
    database library does with these calls is not modelled: the theorems are on
    the calls. *)

From S2P Require Import Prelude Blocks PluginExtensions.
Import ReconfigureBlocks.

(** A table and a column, as in [ovsrec_TABLE_col_COLUMN]. *)
Definition column : Type := string * string.

Inductive init_call :=
| IdlCreate (remote : string) | IdlSetLock (name : string)
| OmitAlert (c : column) | Omit (c : column)
| CreateIndex (table name : string) | IndexAddColumn (c : column) | InitializeCursor (table name : string)
| UnixctlRegister (command usage : string) (min_args max_args : Z) | ModuleInit (name : string).

#[export] Instance init_call_eq_dec : EqDecision init_call.
Proof. solve_decision. Defined.

(** The handlers of reconfigure blocks; [OtherHandler]: of another plugin, with
    the calls it makes. *)
Inductive handler := MacLearningTableMonitor | MacFlushMonitor | OtherHandler (calls : list init_call).

(** [i_calls]: the calls so far, or the assertion that failed. *)
Record ist := Ist {
  i_blocks : blocks handler;
  i_extensions : registry unit;
  i_calls : outcome (list init_call);
}.

(** ** bridge.c *)

(** The columns of the Open_vSwitch table. *)
Definition system_columns : list init_call := [
  OmitAlert ("open_vswitch", "cur_cfg"); OmitAlert ("open_vswitch", "statistics");
  Omit ("open_vswitch", "external_ids"); Omit ("open_vswitch", "db_version")
].

(** Bridges, ports and interfaces. *)
Definition bridge_columns : list init_call := [
  OmitAlert ("bridge", "datapath_id"); OmitAlert ("bridge", "datapath_version"); OmitAlert ("bridge", "status");
  Omit ("bridge", "external_ids"); OmitAlert ("port", "status"); OmitAlert ("port", "statistics");
  OmitAlert ("port", "bond_active_slave"); Omit ("port", "external_ids"); OmitAlert ("interface", "admin_state");
  OmitAlert ("interface", "duplex"); OmitAlert ("interface", "link_speed"); OmitAlert ("interface", "link_state");
  OmitAlert ("interface", "pause"); OmitAlert ("neighbor", "status"); OmitAlert ("interface", "link_resets");
  OmitAlert ("interface", "mac_in_use"); OmitAlert ("interface", "mtu"); OmitAlert ("interface", "ofport");
  OmitAlert ("interface", "statistics"); OmitAlert ("interface", "status");
  OmitAlert ("interface", "lacp_current"); OmitAlert ("interface", "error"); Omit ("interface", "external_ids");
  OmitAlert ("interface", "hw_intf_info"); OmitAlert ("interface", "pm_info");
  OmitAlert ("interface", "user_config")
].

(** Mirrors and controllers, managers, VLANs and nexthops. *)
Definition other_columns : list init_call := [
  OmitAlert ("mirror", "statistics"); OmitAlert ("mirror", "mirror_status");
  OmitAlert ("controller", "is_connected"); OmitAlert ("controller", "role"); OmitAlert ("controller", "status");
  Omit ("controller", "external_ids"); Omit ("manager", "external_ids"); Omit ("manager", "inactivity_probe");
  Omit ("manager", "is_connected"); Omit ("manager", "max_backoff"); Omit ("manager", "status");
  Omit ("ssl", "external_ids"); Omit ("vlan", "admin"); Omit ("vlan", "description");
  Omit ("vlan", "oper_state_reason"); Omit ("nexthop", "status"); Omit ("nexthop", "external_ids")
].

(** Fans and temperature sensors. *)
Definition sensor_columns : list init_call := [
  Omit ("fan", "status"); Omit ("fan", "direction"); Omit ("fan", "name"); Omit ("fan", "rpm");
  Omit ("fan", "other_config"); Omit ("fan", "hw_config"); Omit ("fan", "external_ids"); Omit ("fan", "speed");
  Omit ("temp_sensor", "status"); Omit ("temp_sensor", "name"); Omit ("temp_sensor", "min");
  Omit ("temp_sensor", "fan_state"); Omit ("temp_sensor", "max"); Omit ("temp_sensor", "other_config");
  Omit ("temp_sensor", "location"); Omit ("temp_sensor", "hw_config"); Omit ("temp_sensor", "external_ids");
  Omit ("temp_sensor", "temperature")
].

(** The tables of BGP. *)
Definition bgp_columns : list init_call := [
  Omit ("bgp_aspath_filter", "deny"); Omit ("bgp_aspath_filter", "name"); Omit ("bgp_aspath_filter", "permit");
  Omit ("bgp_community_filter", "deny"); Omit ("bgp_community_filter", "name");
  Omit ("bgp_community_filter", "permit"); Omit ("bgp_community_filter", "type"); Omit ("bgp_route", "aggregate");
  Omit ("bgp_route", "aggregator"); Omit ("bgp_route", "aggregator_as"); Omit ("bgp_route", "aspath");
  Omit ("bgp_route", "community"); Omit ("bgp_route", "creation_time"); Omit ("bgp_route", "ecommunity");
  Omit ("bgp_route", "flags"); Omit ("bgp_route", "local_pref"); Omit ("bgp_route", "origin");
  Omit ("bgp_route", "protocol_iBGP"); Omit ("bgp_route", "protocol_internal"); Omit ("bgp_route", "prefix");
  Omit ("bgp_route", "bgp_nexthops"); Omit ("bgp_route", "address_family");
  Omit ("bgp_route", "sub_address_family"); Omit ("bgp_route", "distance"); Omit ("bgp_route", "metric");
  Omit ("bgp_route", "vrf"); Omit ("bgp_route", "path_attributes"); Omit ("bgp_route", "peer");
  Omit ("bgp_route", "weight"); Omit ("bgp_nexthop", "ip_address"); Omit ("bgp_nexthop", "type");
  Omit ("bgp_neighbor", "advertisement_interval"); Omit ("bgp_neighbor", "is_peer_group");
  Omit ("bgp_neighbor", "description"); Omit ("bgp_neighbor", "shutdown"); Omit ("bgp_neighbor", "bgp_peer_group");
  Omit ("bgp_neighbor", "local_interface"); Omit ("bgp_neighbor", "remote_as");
  Omit ("bgp_neighbor", "allow_as_in"); Omit ("bgp_neighbor", "local_as"); Omit ("bgp_neighbor", "weight");
  Omit ("bgp_neighbor", "tcp_port_number"); Omit ("bgp_neighbor", "advertisement_interval");
  Omit ("bgp_neighbor", "maximum_prefix_limit"); Omit ("bgp_neighbor", "inbound_soft_reconfiguration");
  Omit ("bgp_neighbor", "remove_private_as"); Omit ("bgp_neighbor", "passive"); Omit ("bgp_neighbor", "password");
  Omit ("bgp_neighbor", "timers"); Omit ("bgp_neighbor", "route_maps"); Omit ("bgp_neighbor", "prefix_lists");
  Omit ("bgp_neighbor", "aspath_filters"); Omit ("bgp_neighbor", "statistics"); Omit ("bgp_neighbor", "status");
  Omit ("bgp_neighbor", "external_ids"); Omit ("bgp_neighbor", "other_config");
  Omit ("bgp_neighbor", "ebgp_multihop"); Omit ("bgp_neighbor", "ttl_security_hops");
  Omit ("bgp_neighbor", "update_source")
].

(** The BGP router and the routes. *)
Definition router_columns : list init_call := [
  Omit ("bgp_router", "always_compare_med"); Omit ("bgp_router", "bgp_neighbors");
  Omit ("bgp_router", "deterministic_med"); Omit ("bgp_router", "external_ids");
  Omit ("bgp_router", "fast_external_failover"); Omit ("bgp_router", "gr_stale_timer");
  Omit ("bgp_router", "log_neighbor_changes"); Omit ("bgp_router", "maximum_paths");
  Omit ("bgp_router", "networks"); Omit ("bgp_router", "other_config"); Omit ("bgp_router", "redistribute");
  Omit ("bgp_router", "redistribute_route_map"); Omit ("bgp_router", "router_id"); Omit ("bgp_router", "status");
  Omit ("bgp_router", "timers"); Omit ("route", "metric"); Omit ("route", "protocol_private");
  Omit ("route", "protocol_specific")
].

(** The commands of ovs-appctl and the modules of the library. *)
Definition init_modules : list init_call := [
  UnixctlRegister "bridge/dump-flows" "bridge" 1 1; UnixctlRegister "bridge/reconnect" "[bridge]" 0 1;
  UnixctlRegister "vlan/show" "[vid]" 0 1; ModuleInit "lacp"; ModuleInit "bond"; ModuleInit "ovs_numa"
].

(** ** The MAC learning plugin *)

Definition mac_columns : list init_call :=
  (λ c, OmitAlert ("mac", c)) <$> ["status"; "bridge"; "from"; "mac_vlan"; "mac_addr"; "port"].

Definition mac_index : list init_call := [
  CreateIndex "mac" "by_macFrom"; IndexAddColumn ("mac", "mac_addr"); IndexAddColumn ("mac", "from");
  InitializeCursor "mac" "by_macFrom"
].

(** [UINT_MAX] *)
Definition NO_PRIORITY : Z := 4294967295.

Section Init.
(** Do [ovsdb_idl_create_index] and [ovsdb_idl_initialize_cursor] succeed? *)
Context (index_created cursor_initialized : bool).

Definition calling (l : list init_call) (o : outcome (list init_call)) : outcome (list init_call) :=
  match o with Ok calls => Ok (calls ++ l) | Fault e => Fault e end.

(** [has_idl]: is the [idl] of the parameters not null? *)
Definition mac_learning_table_monitor (has_idl : bool) (o : outcome (list init_call)) : outcome (list init_call) :=
  if negb has_idl then o else
  match calling mac_columns o with
  | Ok calls => if index_created && cursor_initialized then Ok (calls ++ mac_index) else Fault AssertionFailure
  | Fault e => Fault e
  end.

(** A call of a handler in BLK_BRIDGE_INIT; [mac_flush_monitor] is not registered there. *)
Definition call_handler (h : handler) (params : option bool) (o : outcome (list init_call))
    : option bool * outcome (list init_call) :=
  (params,
   match h with
   | MacLearningTableMonitor => mac_learning_table_monitor (default false params) o
   | MacFlushMonitor => o
   | OtherHandler l => calling l o
   end).

(** [init] of the MAC learning plugin; it ignores the results. *)
Definition mac_learning_init (map_one : Z) (phase_id : Z) (s : ist) : ist :=
  let extensions := (register_plugin_extension map_one (Some (Extension "MAC_LEARNING_PLUGIN" 1 0 tt)) (i_extensions s)).2 in
  let b1 := (register_reconfigure_callback (Some MacLearningTableMonitor) (block_id_int BLK_BRIDGE_INIT) NO_PRIORITY
    (i_blocks s)).2 in
  let b2 := (register_reconfigure_callback (Some MacFlushMonitor) (block_id_int BLK_BR_DELETE_PORTS) NO_PRIORITY b1).2 in
  Ist b2 extensions (i_calls s).

Definition bridge_init (remote : string) (s : ist) : ist :=
  let before := calling ([IdlCreate remote; IdlSetLock "ovs_vswitchd"] ++ system_columns ++ bridge_columns ++
    other_columns ++ sensor_columns) (i_calls s) in
  let '(_, b, _, during) := execute_reconfigure_block call_handler (Some true) (block_id_int BLK_BRIDGE_INIT)
    (i_blocks s) before in
  Ist b (i_extensions s) (calling (bgp_columns ++ router_columns ++ init_modules) during).

Definition bufmon_init (s : ist) : ist :=
  Ist (i_blocks s) (i_extensions s)
    (calling [OmitAlert ("bufmon", "status"); OmitAlert ("bufmon", "counter_value"); OmitAlert ("open_vswitch", "bufmon_info")]
       (i_calls s)).
End Init.

(** ** Columns the daemon writes *)

(** The columns of status and statistics that [bridge_run], subsystem.c and
    bufmon.c write.  Two kinds of columns they also write are not among them: the
    status of nexthops (vrf.c), which is not replicated at all, and
    the requests [macs_invalid] of ports and VLANs, whose clearing wakes the daemon. *)
Definition status_writes : list column :=
  [("open_vswitch", "cur_cfg"); ("open_vswitch", "statistics"); ("open_vswitch", "bufmon_info");
   ("bridge", "datapath_id"); ("bridge", "datapath_version"); ("port", "status");
   ("mirror", "mirror_status"); ("mirror", "statistics"); ("neighbor", "status");
   ("controller", "is_connected"); ("controller", "role"); ("controller", "status");
   ("bufmon", "counter_value"); ("bufmon", "status")] ++
  (pair "interface" <$> ["status"; "admin_state"; "link_state"; "link_resets"; "duplex"; "link_speed"; "mtu";
    "mac_in_use"; "statistics"; "ofport"; "error"; "pause"]).

(** [mac_learning_update_db] and [ops_mac_set_vlan] *)
Definition mac_writes : list column := pair "mac" <$> ["bridge"; "port"; "from"; "mac_addr"; "mac_vlan"].

Definition silenced (calls : list init_call) (c : column) : Prop := OmitAlert c ∈ calls ∧ Omit c ∉ calls.
#[export] Instance silenced_dec calls c : Decision (silenced calls c).
Proof. unfold silenced. apply _. Defined.

(** ** Theorems *)

Section Theorems.
Context (index_created cursor_initialized : bool).

(** The calls of a handler that gets the connection. *)
Definition handler_calls (h : handler) : list init_call :=
  match h with
  | MacLearningTableMonitor => mac_columns ++ mac_index
  | MacFlushMonitor => []
  | OtherHandler l => l
  end.

Lemma call_handler_run h calls :
  index_created = true → cursor_initialized = true →
  call_handler index_created cursor_initialized h (Some true) (Ok calls) = (Some true, Ok (calls ++ handler_calls h)).
Proof.
  intros -> ->. destruct h; [|by rewrite app_nil_r|done]. unfold call_handler, handler_calls.
  by rewrite app_assoc.
Qed.

Lemma handlers_run l calls :
  index_created = true → cursor_initialized = true →
  fold_left (λ '(p, w) h, call_handler index_created cursor_initialized h p w) l (Some true, Ok calls) =
  (Some true, Ok (calls ++ (l ≫= handler_calls))).
Proof.
  intros Hi Hc. revert calls. induction l as [|h l IH]; intros calls; [by rewrite app_nil_r|].
  cbn [fold_left]. rewrite call_handler_run, IH, <-app_assoc by done. done.
Qed.

(** What bridge.c and bufmon.c call themselves, before and after the handlers. *)
Definition calls_before (remote : string) : list init_call :=
  [IdlCreate remote; IdlSetLock "ovs_vswitchd"] ++ system_columns ++ bridge_columns ++ other_columns ++ sensor_columns.
Definition calls_after : list init_call :=
  (bgp_columns ++ router_columns ++ init_modules) ++
  [OmitAlert ("bufmon", "status"); OmitAlert ("bufmon", "counter_value"); OmitAlert ("open_vswitch", "bufmon_info")].
Definition own_calls (remote : string) : list init_call := calls_before remote ++ calls_after.

(** The whole start after the plugins have registered their handlers with
    [ops]. *)
Lemma bridge_init_run ops remote s calls :
  index_created = true → cursor_initialized = true →
  i_blocks s = run_regs MAX_BLOCKS_NUM ops blocks_start → i_calls s = Ok calls →
  ∃ l, (∀ h, h ∈ l ↔ ∃ prio, (Some h, block_id_int BLK_BRIDGE_INIT, prio) ∈ ops) ∧
    i_calls (bufmon_init (bridge_init index_created cursor_initialized remote s)) =
    Ok (calls ++ calls_before remote ++ (l ≫= handler_calls) ++ calls_after).
Proof.
  intros Hi Hc Eb Ec. unfold bufmon_init. cbn [i_calls]. unfold bridge_init. rewrite Ec, Eb. unfold execute_reconfigure_block.
  destruct (execute_block_ok (call_handler index_created cursor_initialized) is_null MAX_BLOCKS_NUM ops
    (block_id_int BLK_BRIDGE_INIT) (Some true) (calling ([IdlCreate remote; IdlSetLock "ovs_vswitchd"] ++
      system_columns ++ bridge_columns ++ other_columns ++ sensor_columns) (Ok calls))) as (l & Hl & ->); [done|done|].
  exists (omap callback_handler l). split.
  - intros h. rewrite list_elem_of_omap. split.
    + intros ([cb prio] & Hin & Eh). simpl in Eh. subst cb. exists prio.
      apply (ordered_elem_of _ _ _ Hl), list_elem_of_omap in Hin as ([[cb i] p] & Hin & E).
      destruct cb as [h'|]; [|done]. case_match eqn:Ei; [|done]. apply Z.eqb_eq in Ei. by simplify_eq.
    + intros (prio & Hin). exists (BlkNode (Some h) prio). split; [|done].
      apply (ordered_elem_of _ _ _ Hl), list_elem_of_omap. by exists (Some h, block_id_int BLK_BRIDGE_INIT, prio).
  - cbn [calling]. rewrite handlers_run by done. cbn [calling i_calls]. unfold calls_before, calls_after.
    by rewrite <-!app_assoc.
Qed.

(** The columns with a call on them, and those that are omitted. *)
Definition alert_omitted (l : list init_call) : list column :=
  omap (λ x, match x with OmitAlert c => Some c | _ => None end) l.
Definition omitted (l : list init_call) : list column := omap (λ x, match x with Omit c => Some c | _ => None end) l.

Lemma elem_of_alert_omitted l c : OmitAlert c ∈ l ↔ c ∈ alert_omitted l.
Proof.
  unfold alert_omitted. rewrite list_elem_of_omap. split; [by exists (OmitAlert c)|].
  intros ([] & Hin & E); by simplify_eq.
Qed.
Lemma elem_of_omitted l c : Omit c ∈ l ↔ c ∈ omitted l.
Proof.
  unfold omitted. rewrite list_elem_of_omap. split; [by exists (Omit c)|].
  intros ([] & Hin & E); by simplify_eq.
Qed.

Lemma own_calls_omit remote c : c ∈ status_writes ++ mac_writes → Omit c ∉ own_calls remote.
Proof.
  rewrite elem_of_omitted. change (omitted (own_calls remote)) with (omitted (own_calls "")).
  assert (Forall (λ c, c ∉ omitted (own_calls "")) (status_writes ++ mac_writes)) as H.
  { apply (bool_decide_unpack _). vm_compute. exact I. }
  rewrite Forall_forall in H. apply H.
Qed.

Lemma calls_silence remote c :
  c ∈ status_writes ++ mac_writes → OmitAlert c ∈ own_calls remote ∨ OmitAlert c ∈ mac_columns ++ mac_index ∧ c ∈ mac_writes.
Proof.
  rewrite !elem_of_alert_omitted. change (alert_omitted (own_calls remote)) with (alert_omitted (own_calls "")).
  assert (Forall (λ c, c ∈ alert_omitted (own_calls "") ∨ c ∈ alert_omitted (mac_columns ++ mac_index) ∧ c ∈ mac_writes)
    (status_writes ++ mac_writes)) as H.
  { apply (bool_decide_unpack _). vm_compute. exact I. }
  rewrite Forall_forall in H. apply H.
Qed.

(** Status columns are silenced.  Whatever the plugins registered, if the MAC
    learning plugin is one of them and the others leave these columns alone, the
    start asks the database library to replicate every column of [status_writes]
    and [mac_writes] and not to be told of its changes. *)
Theorem status_columns_silenced ops remote s prio :
  index_created = true → cursor_initialized = true →
  i_blocks s = run_regs MAX_BLOCKS_NUM ops blocks_start → i_calls s = Ok [] →
  (Some MacLearningTableMonitor, block_id_int BLK_BRIDGE_INIT, prio) ∈ ops →
  (∀ l i p c, (Some (OtherHandler l), i, p) ∈ ops → c ∈ status_writes ++ mac_writes → Omit c ∉ l) →
  ∃ calls, i_calls (bufmon_init (bridge_init index_created cursor_initialized remote s)) = Ok calls ∧
    (∀ c, c ∈ status_writes ++ mac_writes → silenced calls c) ∧
    Omit ("nexthop", "status") ∈ calls.
Proof.
  intros Hi Hc Eb Ec Hmac Hother. destruct (bridge_init_run ops remote s [] Hi Hc Eb Ec) as (l & Hl & E).
  rewrite E. eexists. split; [reflexivity|].
  assert (∀ x, x ∈ [] ++ calls_before remote ++ (l ≫= handler_calls) ++ calls_after ↔
    x ∈ own_calls remote ∨ ∃ h, h ∈ l ∧ x ∈ handler_calls h) as Hin.
  { intros x. unfold own_calls. generalize (calls_before remote), calls_after. intros a b.
    rewrite !elem_of_app, list_elem_of_bind. set_solver. }
  split.
  - intros c Hw. split; [|rewrite Hin; intros [Ho|(h & Hh & Ho)]].
    + apply Hin. destruct (calls_silence remote c Hw) as [Ho|[Ho _]]; [by left|right].
      exists MacLearningTableMonitor. split; [apply Hl; by exists prio|done].
    + by apply own_calls_omit in Ho.
    + destruct h as [| |k]; [|by apply elem_of_nil in Ho|].
      * apply elem_of_omitted in Ho. by apply elem_of_nil in Ho.
      * apply Hl in Hh as (p & Hp). by eapply Hother.
  - apply Hin. left. apply elem_of_omitted. change (omitted (own_calls remote)) with (omitted (own_calls "")).
    apply (bool_decide_unpack _). vm_compute. exact I.
Qed.
End Theorems.

Module InitExample.

Definition at_start : ist := Ist blocks_start registry_start (Ok []).

(** [plugins_init] has to come before [bridge_init]: after it the plugin's handler
    is never called and its columns wake the daemon. *)
Example plugin_after_bridge_init :
  silenced (match i_calls (bufmon_init (bridge_init true true "db" (mac_learning_init 0 0 at_start))) with
            | Ok l => l | Fault _ => [] end) ("mac", "port") ∧
  ¬ silenced (match i_calls (bufmon_init (mac_learning_init 0 0 (bridge_init true true "db" at_start))) with
              | Ok l => l | Fault _ => [] end) ("mac", "port").
Proof. split; apply (bool_decide_unpack _); vm_compute; exact I. Qed.

(** The requests that the MAC learning plugin clears do wake the daemon. *)
Example cleared_requests_wake :
  ¬ silenced (match i_calls (bufmon_init (bridge_init true true "db" (mac_learning_init 0 0 at_start))) with
              | Ok l => l | Fault _ => [] end) ("port", "macs_invalid").
Proof. apply (bool_decide_unpack _); vm_compute; exact I. Qed.

Lemma status_columns_silenced_witness :
  ∃ calls, i_calls (bufmon_init (bridge_init true true "db" (mac_learning_init 0 0 at_start))) = Ok calls ∧
    (∀ c, c ∈ status_writes ++ mac_writes → silenced calls c) ∧ Omit ("nexthop", "status") ∈ calls.
Proof.
  apply (status_columns_silenced true true
    [(Some MacLearningTableMonitor, block_id_int BLK_BRIDGE_INIT, NO_PRIORITY);
     (Some MacFlushMonitor, block_id_int BLK_BR_DELETE_PORTS, NO_PRIORITY)] "db" (mac_learning_init 0 0 at_start) NO_PRIORITY).
  - reflexivity.
  - reflexivity.
  - reflexivity.
  - reflexivity.
  - left.
  - intros l i p c Hin. apply elem_of_cons in Hin as [[=]|Hin]. apply elem_of_cons in Hin as [[=]|Hin].
    by apply elem_of_nil in Hin.
Defined.
End InitExample.
